(* ===== verification/_CoqProject ===== *)
-Q . S2P
Prelude.v
CString.v
Scanf.v
Common.v
World.v
Logging.v
ClientId.v
Registry.v
Identifiers.v
Status.v
Handlers.v
Requests.v
ConfigFile.v
ConfigPrint.v
ConfigErrors.v
Getopt.v
Daemon.v
Timing.v
Life.v
Interrupts.v
Spec.v
Startup.v
StartupFacts.v
Main.v
Runs.v
Silence.v
Connections.v
Secrecy.v
Alarms.v
Punctual.v
ClientLib.v
Service.v
EndToEnd.v
ClientTest.v
Sharing.v
Together.v
Ctrl.v
Robust.v
CtrlReply.v
CtrlDisplay.v
CtrlFacts.v
Examples.v
RunExamples.v
Scenarios.v
