(* ===== verification/Prelude.v ===== *)
(** * wd-broker: a verification development

    wd-broker supervises client processes on a Linux device and feeds the hardware
    watchdog as long as all of them report in time.  The program consists of the
    broker (src/src/wd-broker.c), a client library (src/src/wd-client.c) and a
    control program (src/src/wd-ctrl.c), which talk to the broker over a Unix
    socket, one request and one reply per connection, of helpers they share
    (src/src/common.c, src/include/common.h), and of a test program for the library
    (src/src/wd-client-test.c).  The broker keeps a table of 64
    client slots; its main loop serves one connection, checks the deadline of
    every announced or active client, and feeds the watchdog when the timer
    fires.  A late client ends the loop: the broker stops feeding and waits for
    the reset.

    ** The files

    - Prelude.v: bytes, machine integers, the state monad with the outcomes
      "returns", "exits" and "undefined behaviour", and shared list lemmas.
    - CString.v, Scanf.v: the C library functions the sources use: strings in
      arrays, ctype, atoi, printf and sscanf.  Formats are the strings of the
      sources, interpreted by a parser for their directives.
    - Common.v: the constants of the headers and of configure.ac at their
      defaults, and read_with_timeout.
    - World.v: the state of the broker (the globals and the table, which main
      passes to everything), the events it produces, the clock, the entropy,
      log_message, write_str and make_clientID.
    - Logging.v: where log_message writes, and the line on the console.
    - ClientId.v: parse_clientID.
    - Registry.v: get_clientInstance_by_name and _by_clientID, the
      well-formedness of tables and configurations.
    - Identifiers.v: which draw of make_clientID every live slot's identifier is.
    - Status.v: the STATUS and VERSION replies, with the array they are assembled
      in and its bounds.
    - Handlers.v, Requests.v: every branch of handle_command, and what holds of
      all requests.
    - Spec.v: an abstract registry (a finite map from identifiers to sessions)
      with a rule per request and answer; the broker refines it.
    - ConfigFile.v, ConfigPrint.v, ConfigErrors.v: parse_config line by line; a
      printer for configuration files and the round trip; the reported errors.
    - Daemon.v: the main loop, the reset-pending loop, the shutdown sequence and
      the signal handler, as a step relation on phases and states; one round.
    - Timing.v: the arithmetic of the deadlines.
    - Life.v: the shutdown sequence, the invariant of the daemon's life, failures.
    - Interrupts.v: the signal handler inside a round.
    - Getopt.v, Startup.v, StartupFacts.v: the options, and main up to its loop,
      with the results of the system calls as a parameter.
    - Main.v: startup followed by the life of the daemon.
    - Runs.v: what whole runs do to the table: names, strictness, the abstract
      registry, and rounds in which every client is alive.
    - Silence.v: runs labelled with the connections they serve, and clients that fall
      silent in them.
    - Connections.v: the conversations of whole runs, connection by connection.
    - Secrecy.v: what a client without privileges can learn.
    - Alarms.v: why supervision fails, in whole runs.
    - Punctual.v: clients that show signs of life in time, in whole runs.
    - ClientLib.v, Service.v, EndToEnd.v: the client library over an abstract
      transport; the interface it needs (a class); the broker as an instance.
    - ClientTest.v: the test program over the library, against an interface that
      allows several visits, which the broker implements too.
    - Sharing.v: the library and a broker that serves others between its calls.
    - Together.v: library, broker, other processes and watchdog as one system.
    - Ctrl.v: the control program over the same transport; CtrlReply.v,
      CtrlDisplay.v: how it reads, chooses from and displays the STATUS reply;
      CtrlFacts.v: the program against the broker.
    - Robust.v: the library and the control program against an arbitrary transport.
    - Examples.v, RunExamples.v, Scenarios.v: concrete runs, and instances of the
      theorems.

    ** How state and calls correspond

    The C table [clients] and the globals are the record [broker] of World.v.  A
    C function that changes them is a definition in the monad [B] with the same
    name; [main] is cut into [startup] (Startup.v), [iteration], [enter_pending]
    and [shutdown] (Daemon.v).  Effects on the outside are events appended to the
    field [trace]: replies, log messages, watchdog and other system calls.  What
    the outside delivers is an argument: connections, results of [select] and
    [accept] for a round ([wake]), results of the fallible calls ([os],
    [shutdown_io]), readings of the clock and of the entropy (class [Env], by
    number of the reading).  Arrays are lists of their declared length; reading
    or writing outside one is the outcome [Undef].

    ** What the theorems show

    - The protocol: requests preserve the table's invariant and implement the
      abstract registry (Requests.v, Spec.v); a whole run is a run of the registry
      while the identifiers drawn differ (Runs.v); connections are answered one after
      the other, each once (Connections.v), and identifiers are told to their owners
      only (Secrecy.v); they and REGISTER arguments are parsed as they are printed
      (ClientId.v, Requests.v).
    - The table over time: unique names stay unique, strict tables hold announced
      clients only (Runs.v); the search by name follows its rules (Registry.v).
    - The purpose: once a client has been silent for longer than its timeout, in
      whatever run, the watchdog is not fed any more, and the next round leads to
      the pending reset (Silence.v); no client is blamed that was not silent
      (Alarms.v); and while every client shows a sign of life within its timeout the
      watchdog is fed whenever the timer fires (Punctual.v), the calls of the library
      being such signs (Together.v).
    - Supervision: a round feeds the watchdog exactly if every client is on time
      (Daemon.v); after a late client the watchdog is never fed again; it is disarmed
      only after a termination signal (Life.v, Main.v), and however it is told to stop
      it ends with the calls its shutdown sequence prescribes (Life.v); the deadline arithmetic is
      exact to a millisecond (Timing.v); while all heartbeats in the table are fresh
      every round feeds the watchdog (Runs.v); a signal inside a round is a signal
      after it (Interrupts.v).
    - Configuration: parse_config either leaves a valid configuration or exits,
      and reads printed files back; an option it rejects is reported with its own
      message and line number (ConfigFile.v, ConfigPrint.v, ConfigErrors.v).
    - Startup: the checks that have passed and the system calls in their order,
      totality, the timer, the boot status text (StartupFacts.v).
    - STATUS: the reply when it fits the array and the overflow when it does not
      (Status.v); the overflow is reachable (Examples.v), is the only undefined
      behaviour of the broker and needs at least 40 clients (Life.v).
    - The client library: it works with the broker end to end and refuses bad
      parameters (EndToEnd.v, Service.v); its test program passes (ClientTest.v);
      other clients cannot disturb it (Sharing.v); no server can make it leak a
      connection or return an undocumented result (Robust.v).
    - Logging: a console line can be read back (Logging.v).
    - The control program: it displays the broker's STATUS reply faithfully but for
      names with an equals sign, unregisters exactly the client that is meant or
      refuses, and triggers the reboot (CtrlFacts.v); it ends properly against any
      server (Robust.v).

    ** Bounds and fuel

    There are three functions with fuel: [digits_fuel] (number of digits, at most
    the bit length), [fgets_all] (lines of a file, at most its length) and
    [strtok_lines] (the bound MAX_LINES of the source).  The first two are proved
    to consume everything.  Runs of the daemon are unbounded sequences of steps.

    ** What is not modelled

    The syslog service, the conversion of the time of day to local time and the
    flushing of streams; the messages of getopt_long and assert; closing descriptors
    that are not events, and closelog; the Python tests and the build system,
    except for the constants it defines.  The steps of Daemon.v let signals arrive
    between rounds; that they may arrive inside one is the subject of Interrupts.v.
    The handlers are installed when the loop begins; a signal before that ends the
    process the default way, which is not modelled.  A call of the library
    is one step of the composed system: between the two connections of a
    registration the daemon makes no further round.  Numbers that printf pads are
    padded as the sources need it, for non-negative values. *)

From stdpp Require Export base list numbers strings gmap.
From Stdlib Require Export ZArith Lia.
From Stdlib Require Export Ascii.
From Stdlib Require String.

Open Scope list_scope.
Open Scope Z_scope.

(** ** Bytes *)

(** A C [char] array or string is a list of 8-bit characters. *)
Abbreviation bytes := (list ascii).


Definition NUL : ascii := "000"%char.
Definition NL : ascii := "010"%char.
Definition SP : ascii := " "%char.

(** Escapes of a C string literal: only backslash-n occurs in the sources. *)
Fixpoint unescape (l : bytes) : bytes :=
  match l with
  | [] => []
  | a :: r =>
      match r with
      | b :: r' => if Ascii.eqb a "\"%char && Ascii.eqb b "n"%char
                   then NL :: unescape r' else a :: unescape r
      | [] => [a]
      end
  end.

(** A C string literal, without its terminating NUL. *)
Definition lit (s : string) : bytes := unescape (String.list_ascii_of_string s).

Arguments lit s%_string : simpl never.

Definition code (c : ascii) : Z := Z.of_N (N_of_ascii c).

Lemma code_range c : (0 ≤ code c < 256).
Proof. unfold code. pose proof (N_ascii_bounded c). lia. Qed.

Lemma code_inj a b : code a = code b → a = b.
Proof.
  unfold code. intros H. rewrite <-(ascii_N_embedding a), <-(ascii_N_embedding b).
  f_equal. lia.
Qed.

Fixpoint bytes_eqb (a b : bytes) : bool :=
  match a, b with
  | [], [] => true
  | x :: a', y :: b' => Ascii.eqb x y && bytes_eqb a' b'
  | _, _ => false
  end.

Lemma bytes_eqb_eq a b : bytes_eqb a b = true ↔ a = b.
Proof.
  revert b; induction a as [|x a IH]; intros [|y b]; simpl; try (split; congruence).
  rewrite andb_true_iff, Ascii.eqb_eq, IH. split; [intros [-> ->]|intros [= -> ->]]; auto.
Qed.

Lemma bytes_eqb_neq a b : bytes_eqb a b = false ↔ a ≠ b.
Proof. rewrite <-not_true_iff_false, bytes_eqb_eq. done. Qed.

Lemma bytes_eqb_refl a : bytes_eqb a a = true.
Proof. by apply bytes_eqb_eq. Qed.

Lemma ascii_eqb_false a b : a ≠ b → Ascii.eqb a b = false.
Proof. intros. by apply Ascii.eqb_neq. Qed.

(** ** Machine integers *)

Definition u32 (z : Z) : Z := (z mod 2 ^ 32).
Definition u64 (z : Z) : Z := (z mod 2 ^ 64).
Definition s32 (z : Z) : Z := ((z + 2 ^ 31) mod 2 ^ 32 - 2 ^ 31).

Lemma u32_small z : (0 ≤ z < 2 ^ 32) → u32 z = z.
Proof. apply Z.mod_small. Qed.
Lemma u32_range z : (0 ≤ u32 z < 2 ^ 32).
Proof. apply Z.mod_pos_bound. lia. Qed.
Lemma u64_small z : (0 ≤ z < 2 ^ 64) → u64 z = z.
Proof. apply Z.mod_small. Qed.
Lemma s32_small z : (- 2 ^ 31 ≤ z < 2 ^ 31) → s32 z = z.
Proof. intros. unfold s32. rewrite Z.mod_small; lia. Qed.
Lemma s32_range z : (- 2 ^ 31 ≤ s32 z < 2 ^ 31).
Proof. unfold s32. pose proof (Z.mod_pos_bound (z + 2 ^ 31) (2 ^ 32)). lia. Qed.

(** ** Outcomes and the state monad of the programs *)

(** A C function returns, ends the process with [exit], or runs into behaviour
    the C standard leaves undefined. *)
Inductive outcome (A : Type) : Type :=
  | Ret (a : A)
  | Exit (status : Z)
  | Undef.
Arguments Ret {A} a.
Arguments Exit {A} status.
Arguments Undef {A}.

Definition M (S A : Type) : Type := S → outcome A * S.

#[export] Instance M_ret {S} : MRet (M S) := λ A a s, (Ret a, s).
#[export] Instance M_bind {S} : MBind (M S) := λ A B f m s,
  match m s with
  | (Ret a, s') => f a s'
  | (Exit c, s') => (Exit c, s')
  | (Undef, s') => (Undef, s')
  end.

Definition gets {S A} (f : S → A) : M S A := λ s, (Ret (f s), s).
Definition modify {S} (f : S → S) : M S unit := λ s, (Ret tt, f s).
Definition undef {S A} : M S A := λ s, (Undef, s).
Definition exit_with {S A} (c : Z) : M S A := λ s, (Exit c, s).

Definition is_ret {A} (o : outcome A) : bool :=
  match o with Ret _ => true | _ => false end.

(** The equations of the monad, for rewriting. *)
Lemma bind_eq {S A B} (m : M S A) (f : A → M S B) s :
  (m ≫= f) s = match m s with
               | (Ret a, s') => f a s'
               | (Exit c, s') => (Exit c, s')
               | (Undef, s') => (Undef, s')
               end.
Proof. done. Qed.

Lemma bind_ret_inv {S A B} (m : M S A) (f : A → M S B) s b s' :
  (m ≫= f) s = (Ret b, s') → ∃ a s1, m s = (Ret a, s1) ∧ f a s1 = (Ret b, s').
Proof. rewrite bind_eq. destruct (m s) as [[a|c|] s1]; naive_solver. Qed.

(** [mrun] runs the monadic skeleton of a goal; [mrun in H] that of [H]. *)
Ltac mrun :=
  cbv beta iota zeta delta [mbind mret M_bind M_ret gets modify undef exit_with].
Tactic Notation "mrun" "in" hyp(H) :=
  cbv beta iota zeta delta [mbind mret M_bind M_ret gets modify undef exit_with] in H.

(** ** Lists *)

Create HintDb wd discriminated.
#[export] Hint Constants Transparent : wd.
#[export] Hint Variables Transparent : wd.

Lemma Forall_replicate_eq {A} (P : A → Prop) (n : nat) x : P x → Forall P (replicate n x).
Proof. intros. induction n; simpl; auto. Qed.

Lemma Forall_insert_list {A} (P : A → Prop) (l : list A) i x :
  Forall P l → P x → Forall P (<[i:=x]> l).
Proof. intros Hl Hx. by apply Forall_insert. Qed.

#[export] Hint Resolve Forall_replicate_eq Forall_insert_list : wd.

Lemma take_app_ge_length {A} (n : nat) (a b : list A) :
  (length a ≤ n)%nat → take n (a ++ b) = a ++ take (n - length a) b.
Proof. intros. by rewrite take_app_ge. Qed.

(** The index of the first element that satisfies a boolean predicate. *)
Fixpoint find_index {A} (p : A → bool) (l : list A) : option nat :=
  match l with
  | [] => None
  | x :: r => if p x then Some O else S <$> find_index p r
  end.

Lemma find_index_Some {A} (p : A → bool) (l : list A) i :
  find_index p l = Some i ↔
  ∃ x, l !! i = Some x ∧ p x = true ∧ ∀ j y, (j < i)%nat → l !! j = Some y → p y = false.
Proof.
  revert i. induction l as [|x r IH]; intros i; simpl.
  { split; [done|by intros (?&?&_)]. }
  destruct (p x) eqn:E.
  - split.
    + intros [= <-]. exists x. split_and!; auto. lia.
    + intros (y & Hy & Hp & Hlt). destruct i as [|i]; [done|].
      specialize (Hlt 0%nat x ltac:(lia) eq_refl). congruence.
  - split.
    + destruct (find_index p r) as [k|] eqn:Ek; [|done]. intros [= <-].
      destruct (proj1 (IH k) eq_refl) as (y & Hy & Hp & Hlt).
      exists y. split_and!; auto. intros [|j] z Hj Hz; [by injection Hz as <-|].
      apply (Hlt j); [lia|done].
    + intros (y & Hy & Hp & Hlt). destruct i as [|i]; [injection Hy as <-; congruence|].
      rewrite (proj2 (IH i)); [done|]. exists y. split_and!; auto.
      intros j z Hj Hz. apply (Hlt (S j)); [lia|done].
Qed.

Lemma find_index_None {A} (p : A → bool) (l : list A) :
  find_index p l = None ↔ Forall (λ x, p x = false) l.
Proof.
  induction l as [|x r IH]; simpl; [by split|].
  rewrite Forall_cons, <-IH. destruct (p x); [split; [done|by intros [? _]]|].
  destruct (find_index p r); split; naive_solver.
Qed.

(** Updating a slot whose content is known. *)
Lemma list_alter_known {A} (f : A → A) (l : list A) i x :
  l !! i = Some x → alter f i l = <[i:=f x]> l.
Proof.
  intros H. apply list_eq. intros j. destruct (decide (i = j)) as [<-|Hne].
  - rewrite list_lookup_alter_eq, H, list_lookup_insert_eq; [done|].
    by eapply lookup_lt_Some.
  - by rewrite list_lookup_alter_ne, list_lookup_insert_ne.
Qed.
