(* ===== verification/CString.v ===== *)
(** * C strings, character classes and number conversion

    The parts of the C library the sources use on [char] arrays, in the C
    locale: NUL-terminated strings, [strcmp], [strncmp], [strncpy], [strncat],
    [strchr], [strstr], the [ctype.h] classes, [strtol]/[strtoul]/[atoi] with
    glibc's 64-bit [long], and the [printf] directives that occur in the
    sources.  The function [trim] of src/src/wd-broker.c is here too. *)

From S2P Require Import Prelude.

(** ** Character classes *)

Definition in_range (lo hi : Z) (c : ascii) : bool := (lo <=? code c) && (code c <=? hi).

Definition isspace (c : ascii) : bool := in_range 9 13 c || Ascii.eqb c SP.
Definition isdigit (c : ascii) : bool := in_range 48 57 c.
Definition isprint (c : ascii) : bool := in_range 32 126 c.
Definition isxdigit (c : ascii) : bool :=
  isdigit c || in_range 65 70 c || in_range 97 102 c.
Definition isupper (c : ascii) : bool := in_range 65 90 c.
Definition tolower (c : ascii) : ascii :=
  if isupper c then ascii_of_N (Z.to_N (code c + 32)) else c.

(** ** NUL-terminated strings in arrays *)

Fixpoint cstr (l : bytes) : bytes :=
  match l with
  | [] => []
  | c :: r => if Ascii.eqb c NUL then [] else c :: cstr r
  end.

Definition strlen (l : bytes) : nat := length (cstr l).

Definition no_nul (l : bytes) : Prop := Forall (λ c, c ≠ NUL) l.

(** [strcmp(a, b) == 0] *)
Definition strcmp_eq (a b : bytes) : bool := bytes_eqb (cstr a) (cstr b).

(** [strncmp(a, b, n) == 0] *)
Fixpoint strncmp_eq (n : nat) (a b : bytes) : bool :=
  match n with
  | O => true
  | S n' =>
      let x := hd NUL a in
      let y := hd NUL b in
      if Ascii.eqb x y then (if Ascii.eqb x NUL then true else strncmp_eq n' (tl a) (tl b))
      else false
  end.

(** The [n] bytes [strncpy(dst, src, n)] writes. *)
Definition strncpy (n : nat) (src : bytes) : bytes :=
  take n (cstr src ++ replicate n NUL).

Arguments strncpy : simpl never.

(** [strncat(dst, src, n)] with [dst] and [src] as strings. *)
Definition strncat (dst src : bytes) (n : nat) : bytes := dst ++ take n (cstr src).

Fixpoint strchr (c : ascii) (s : bytes) : option bytes :=
  match s with
  | [] => None
  | x :: r => if Ascii.eqb x c then Some s else strchr c r
  end.

Fixpoint prefix_eqb (p s : bytes) : bool :=
  match p, s with
  | [], _ => true
  | a :: p', b :: s' => Ascii.eqb a b && prefix_eqb p' s'
  | _ :: _, [] => false
  end.

Fixpoint strstr (hay needle : bytes) : option bytes :=
  if prefix_eqb needle hay then Some hay
  else match hay with [] => None | _ :: r => strstr r needle end.

(** ** White space *)

Fixpoint skip_ws (l : bytes) : bytes :=
  match l with
  | [] => []
  | c :: r => if isspace c then skip_ws r else l
  end.

(** The longest prefix of at most [w] characters that satisfy [p], and the rest. *)
Fixpoint span (p : ascii → bool) (w : nat) (l : bytes) : bytes * bytes :=
  match w, l with
  | S w', c :: r =>
      if p c then let '(t, r') := span p w' r in (c :: t, r') else ([], l)
  | _, _ => ([], l)
  end.

(** Removes trailing white space: [while (end > str && isspace( *end)) *end-- = 0]. *)
Definition rstrip (l : bytes) : bytes := rev (skip_ws (rev l)).

(** [trim] of wd-broker.c on a string: the guard [end > str] keeps the first
    character, which is not a space at that point. *)
Definition trim (str : bytes) : bytes :=
  match skip_ws str with
  | [] => []
  | c :: r => c :: rstrip r
  end.

(** ** Reading integers *)

Definition digit_val (c : ascii) : Z := code c - 48.

Definition digits_val (l : bytes) : Z := fold_left (λ v c, v * 10 + digit_val c) l 0.

(** An optional sign: is it a minus, and what follows. *)
Definition read_sign (l : bytes) : bool * bytes :=
  match l with
  | c :: r => if Ascii.eqb c "-" then (true, r)
              else if Ascii.eqb c "+" then (false, r) else (false, l)
  | [] => (false, [])
  end.

Definition LONG_MAX : Z := 2 ^ 63 - 1.
Definition LONG_MIN : Z := - 2 ^ 63.
Definition ULONG_MAX : Z := 2 ^ 64 - 1.

Definition strtol_digits (neg : bool) (ds : bytes) : Z :=
  let v := if neg then - digits_val ds else digits_val ds in
  Z.max LONG_MIN (Z.min LONG_MAX v).

Definition strtoul_digits (neg : bool) (ds : bytes) : Z :=
  let v := digits_val ds in
  if ULONG_MAX <? v then ULONG_MAX else if neg then u64 (- v) else v.

(** [atoi(s)] is [(int) strtol(s, NULL, 10)]. *)
Definition atoi (s : bytes) : Z :=
  let '(neg, r) := read_sign (skip_ws (cstr s)) in
  s32 (strtol_digits neg (fst (span isdigit (length r) r))).

(** ** Printing *)

Definition digit_char (d : Z) : ascii :=
  ascii_of_N (Z.to_N (if d <? 10 then 48 + d else 87 + d)).

Fixpoint digits_fuel (fuel : nat) (base n : Z) (acc : bytes) : bytes :=
  match fuel with
  | O => acc
  | S f => let acc' := digit_char (n mod base) :: acc in
           if n <? base then acc' else digits_fuel f base (n / base) acc'
  end.

(** Every step divides by at least 2, so the bit length is enough fuel. *)
Definition print_base (base n : Z) : bytes := digits_fuel (S (Z.to_nat (Z.log2 n))) base n [].
Definition udec (n : Z) : bytes := print_base 10 n.
Definition sdec (z : Z) : bytes := if z <? 0 then "-"%char :: udec (- z) else udec z.

Inductive parg : Type :=
  | PS (s : bytes)
  | PI (z : Z).

Record pspec : Type := PSpec { ps_left : bool; ps_zero : bool; ps_width : nat; ps_long : bool }.

Definition pspec0 : pspec := PSpec false false 0 false.

Definition pad (sp : pspec) (s : bytes) : bytes :=
  match ps_width sp with
  | O => s
  | w => let fill := replicate (w - length s) (if ps_zero sp then "0"%char else SP) in
         if ps_left sp then s ++ fill else fill ++ s
  end.

(** One conversion.  The directives of the sources: d, u, x and s, and the
    length modifiers l and z (64 bits). *)
Definition convert (sp : pspec) (c : ascii) (a : parg) : bytes :=
  match a with
  | PS s => cstr s
  | PI z =>
      if Ascii.eqb c "d" then sdec (if ps_long sp then z else s32 z)
      else if Ascii.eqb c "x" then print_base 16 (u32 z)
      else udec (if ps_long sp then u64 z else u32 z)
  end.

Fixpoint printf_from (fmt : bytes) (st : option pspec) (args : list parg) : bytes :=
  match fmt with
  | [] => []
  | c :: r =>
      match st with
      | None => if Ascii.eqb c "%" then printf_from r (Some pspec0) args
                else c :: printf_from r None args
      | Some sp =>
          if Ascii.eqb c "-"
          then printf_from r (Some (PSpec true (ps_zero sp) (ps_width sp) (ps_long sp))) args
          else if Ascii.eqb c "0" && Nat.eqb (ps_width sp) 0
          then printf_from r (Some (PSpec (ps_left sp) true (ps_width sp) (ps_long sp))) args
          else if isdigit c
          then printf_from r (Some (PSpec (ps_left sp) (ps_zero sp)
                                     (10 * ps_width sp + Z.to_nat (digit_val c))
                                     (ps_long sp))) args
          else if Ascii.eqb c "l" || Ascii.eqb c "z"
          then printf_from r (Some (PSpec (ps_left sp) (ps_zero sp) (ps_width sp) true)) args
          else match args with
               | a :: args' => pad sp (convert sp c a) ++ printf_from r None args'
               | [] => []
               end
      end
  end.

(** The text [printf(fmt, ...)] produces. *)
Definition printf (fmt : string) (args : list parg) : bytes := printf_from (lit fmt) None args.
Arguments printf fmt%_string args%_list : simpl never.

(** ** Lemmas: strings in arrays *)

Lemma cstr_no_nul s : no_nul s → cstr s = s.
Proof.
  unfold no_nul. induction 1 as [|c r Hc _ IH]; simpl; [done|].
  rewrite ascii_eqb_false by done. by rewrite IH.
Qed.

Lemma no_nul_cstr s : no_nul (cstr s).
Proof.
  unfold no_nul. induction s as [|c r IH]; simpl; [constructor|].
  destruct (Ascii.eqb_spec c NUL); constructor; auto.
Qed.

Lemma cstr_cstr s : cstr (cstr s) = cstr s.
Proof. apply cstr_no_nul, no_nul_cstr. Qed.

Lemma cstr_app s t : no_nul s → cstr (s ++ t) = s ++ cstr t.
Proof.
  unfold no_nul. induction 1 as [|c r Hc _ IH]; simpl; [done|].
  rewrite ascii_eqb_false by done. by rewrite IH.
Qed.

Lemma cstr_term s r : no_nul s → cstr (s ++ NUL :: r) = s.
Proof. intros. rewrite cstr_app by done. apply app_nil_r. Qed.

(** What follows a terminator is not part of the string. *)
Lemma cstr_app_nul d r : cstr (d ++ NUL :: r) = cstr d.
Proof.
  induction d as [|c d IH]; [done|]. simpl.
  destruct (Ascii.eqb c NUL); [done|]. by rewrite IH.
Qed.

Lemma cstr_length s : (length (cstr s) ≤ length s)%nat.
Proof. induction s as [|c r IH]; simpl; [lia|]. destruct (Ascii.eqb c NUL); simpl; lia. Qed.

Lemma no_nul_app s t : no_nul s → no_nul t → no_nul (s ++ t).
Proof. intros. by apply Forall_app. Qed.

Lemma no_nul_take n s : no_nul s → no_nul (take n s).
Proof. apply Forall_take. Qed.

(** A literal is checked by evaluation. *)
Lemma no_nul_check s : forallb (λ c, negb (Ascii.eqb c NUL)) s = true → no_nul s.
Proof.
  intros H. apply Forall_forall. intros c Hc%list_elem_of_In. rewrite forallb_forall in H.
  by apply Ascii.eqb_neq, negb_true_iff, H.
Qed.

#[export] Hint Resolve no_nul_cstr no_nul_app no_nul_take : wd.

Lemma strcmp_eq_spec a b : strcmp_eq a b = true ↔ cstr a = cstr b.
Proof. apply bytes_eqb_eq. Qed.

Lemma strcmp_eq_false a b : strcmp_eq a b = false ↔ cstr a ≠ cstr b.
Proof. apply bytes_eqb_neq. Qed.

Lemma strncpy_length n s : length (strncpy n s) = n.
Proof.
  unfold strncpy. rewrite length_take, length_app, length_replicate. lia.
Qed.

Lemma cstr_replicate_nul n : cstr (replicate n NUL) = [].
Proof. destruct n; reflexivity. Qed.

(** A source that is shorter than the array is stored whole and terminated. *)
Lemma cstr_strncpy n s : (strlen s < n)%nat → cstr (strncpy n s) = cstr s.
Proof.
  unfold strlen. intros H. unfold strncpy.
  rewrite take_app_ge by lia. rewrite take_replicate.
  rewrite cstr_app by auto with wd. by rewrite cstr_replicate_nul, app_nil_r.
Qed.

Lemma strncpy_terminated n s : (strlen s < n)%nat → NUL ∈ strncpy n s.
Proof.
  unfold strlen. intros H. unfold strncpy. rewrite take_app_ge by lia.
  rewrite take_replicate, elem_of_app. right. apply elem_of_replicate. split; [done|lia].
Qed.

Lemma prefix_eqb_spec p s : prefix_eqb p s = true ↔ ∃ r, s = p ++ r.
Proof.
  revert s; induction p as [|a p IH]; intros s; simpl.
  { split; [eauto|done]. }
  destruct s as [|b s]; [split; [done|intros (?&?); done]|].
  rewrite andb_true_iff, Ascii.eqb_eq, IH. split.
  - intros [-> [r ->]]. eauto.
  - intros [r [= -> ->]]. eauto.
Qed.

(** The dispatch test [strncmp(buf, CMD, strlen(CMD)) == 0] is a prefix test. *)
Lemma strncmp_eq_prefix p s : no_nul p → strncmp_eq (length p) s p = prefix_eqb p s.
Proof.
  unfold no_nul. intros H; revert s; induction H as [|c p Hc _ IH]; intros s; simpl; [done|].
  destruct s as [|x s]; cbn [hd tl].
  - rewrite ascii_eqb_false; [done|congruence].
  - rewrite (Ascii.eqb_sym c x). destruct (Ascii.eqb_spec x c) as [->|]; [|done].
    by rewrite ascii_eqb_false by done.
Qed.

(** ** Lemmas: character classes *)

Lemma isdigit_range c : isdigit c = true ↔ 48 ≤ code c ≤ 57.
Proof. unfold isdigit, in_range. lia. Qed.

Lemma isdigit_not_space c : isdigit c = true → isspace c = false.
Proof.
  rewrite isdigit_range. intros H. unfold isspace, in_range.
  destruct (Ascii.eqb_spec c SP) as [->|]; [change (code SP) with 32 in H; lia|]. lia.
Qed.

Lemma isdigit_not_sign c : isdigit c = true → Ascii.eqb c "-" = false ∧ Ascii.eqb c "+" = false.
Proof.
  rewrite isdigit_range. intros H.
  split; apply ascii_eqb_false; intros ->.
  - change (code "-") with 45 in H. lia.
  - change (code "+") with 43 in H. lia.
Qed.

Lemma isspace_NUL : isspace NUL = false.
Proof. reflexivity. Qed.

(** ** Lemmas: white space *)

Definition all_space (l : bytes) : Prop := Forall (λ c, isspace c = true) l.

Lemma skip_ws_split l : ∃ a, l = a ++ skip_ws l ∧ all_space a.
Proof.
  induction l as [|c r (a & IH & Ha)]; simpl.
  { exists []. split; [done|constructor]. }
  destruct (isspace c) eqn:E.
  - exists (c :: a). split; [simpl; congruence|by constructor].
  - exists []. split; [done|constructor].
Qed.

Lemma skip_ws_head l c r : skip_ws l = c :: r → isspace c = false.
Proof.
  induction l as [|x l IH]; simpl; [done|].
  destruct (isspace x) eqn:E; [done|]. intros [= <- <-]. done.
Qed.

Lemma skip_ws_nonspace c r : isspace c = false → skip_ws (c :: r) = c :: r.
Proof. intros H. simpl. by rewrite H. Qed.

Lemma skip_ws_app_space a l : all_space a → skip_ws (a ++ l) = skip_ws l.
Proof. induction 1 as [|c r Hc _ IH]; simpl; [done|]. by rewrite Hc. Qed.

Lemma rstrip_split l : ∃ b, l = rstrip l ++ b ∧ all_space b.
Proof.
  unfold rstrip. destruct (skip_ws_split (rev l)) as (a & H & Ha).
  exists (rev a). split; [|by apply Forall_rev].
  rewrite <-rev_app_distr. rewrite <-H. by rewrite rev_involutive.
Qed.

Lemma rstrip_last l c : last (rstrip l) = Some c → isspace c = false.
Proof.
  unfold rstrip. destruct (skip_ws (rev l)) as [|x r] eqn:E; simpl; [done|].
  rewrite last_snoc. intros [= <-]. by apply skip_ws_head in E.
Qed.

Lemma rstrip_stable l c : last l = Some c → isspace c = false → rstrip l = l.
Proof.
  intros H Hc. apply last_Some in H as [l' ->]. unfold rstrip.
  rewrite rev_app_distr. simpl. rewrite Hc. simpl. by rewrite rev_involutive.
Qed.

(** ** Lemmas: [span] *)

Lemma span_app p w a b :
  Forall (λ c, p c = true) a → (length a ≤ w)%nat →
  (∀ c r, b = c :: r → p c = false) →
  span p w (a ++ b) = (a, b).
Proof.
  intros Ha. revert w. induction Ha as [|c a Hc _ IH]; intros w Hw Hb; simpl in *.
  - destruct w; simpl; [done|]. destruct b as [|x b]; [done|].
    by rewrite (Hb x b).
  - destruct w; [lia|]. simpl. rewrite Hc. by rewrite IH by (auto; lia).
Qed.

Lemma span_full p w a b :
  Forall (λ c, p c = true) a → length a = w → span p w (a ++ b) = (a, b).
Proof.
  intros Ha. revert w. induction Ha as [|c a Hc _ IH]; intros w Hw; simpl in *.
  - subst. done.
  - destruct w; [lia|]. simpl. rewrite Hc. by rewrite IH by lia.
Qed.

Lemma span_spec p w l t r :
  span p w l = (t, r) → l = t ++ r ∧ Forall (λ c, p c = true) t ∧ (length t ≤ w)%nat.
Proof.
  revert l t r. induction w as [|w IH]; intros [|c l] t r; simpl; intros H;
    try (injection H as <- <-; repeat split; simpl; auto; lia).
  destruct (p c) eqn:E.
  - destruct (span p w l) as [t' r'] eqn:E2. injection H as <- <-.
    apply IH in E2 as (-> & ? & ?). repeat split; simpl; auto; lia.
  - injection H as <- <-. repeat split; simpl; auto; lia.
Qed.

(** ** Lemmas: [trim] *)

(** [trim] removes white space at both ends and nothing else. *)
Lemma trim_split s : ∃ a b, s = a ++ trim s ++ b ∧ all_space a ∧ all_space b.
Proof.
  destruct (skip_ws_split s) as (a & H & Ha). unfold trim.
  destruct (skip_ws s) as [|c r] eqn:E.
  - exists a, []. split; [by rewrite H|]. split; [done|constructor].
  - destruct (rstrip_split r) as (b & Hb & Hs).
    exists a, b. split; [|done]. rewrite H. simpl. by rewrite <-Hb.
Qed.

Lemma trim_head s c : head (trim s) = Some c → isspace c = false.
Proof.
  unfold trim. destruct (skip_ws s) as [|x r] eqn:E; simpl; [done|].
  intros [= <-]. by apply skip_ws_head in E.
Qed.

Lemma trim_last s c : last (trim s) = Some c → isspace c = false.
Proof.
  unfold trim. destruct (skip_ws s) as [|x r] eqn:E; simpl; [done|].
  rewrite last_cons. destruct (last (rstrip r)) eqn:E2.
  - intros [= <-]. by apply rstrip_last in E2.
  - intros [= <-]. by apply skip_ws_head in E.
Qed.

Lemma trim_stable s :
  (∀ c, head s = Some c → isspace c = false) →
  (∀ c, last s = Some c → isspace c = false) → trim s = s.
Proof.
  intros Hh Hl. unfold trim. destruct s as [|c r]; [done|].
  rewrite skip_ws_nonspace by (by apply Hh). f_equal.
  destruct (last r) as [x|] eqn:E.
  - eapply rstrip_stable; [done|]. apply Hl. by rewrite last_cons, E.
  - apply last_None in E as ->. done.
Qed.

Lemma trim_idemp s : trim (trim s) = trim s.
Proof. apply trim_stable; [apply trim_head|apply trim_last]. Qed.

Lemma trim_length s : (length (trim s) ≤ length s)%nat.
Proof.
  destruct (trim_split s) as (a & b & H & _). rewrite H at 2. rewrite !length_app. lia.
Qed.

(** ** Lemmas: decimal numbers *)

Lemma code_ascii_of_Z z : 0 ≤ z < 256 → code (ascii_of_N (Z.to_N z)) = z.
Proof. intros H. unfold code. rewrite N_ascii_embedding; lia. Qed.

Lemma digit_char_code d : 0 ≤ d < 10 → code (digit_char d) = 48 + d.
Proof.
  intros H. unfold digit_char. destruct (Z.ltb_spec d 10); [|lia].
  apply code_ascii_of_Z. lia.
Qed.

Lemma digits_fuel_app fuel base n acc :
  digits_fuel fuel base n acc = digits_fuel fuel base n [] ++ acc.
Proof.
  revert n acc. induction fuel as [|f IH]; intros n acc; simpl; [done|].
  destruct (n <? base); [done|]. rewrite IH, (IH _ [_]). by rewrite <-app_assoc.
Qed.

Lemma digits_val_snoc l c : digits_val (l ++ [c]) = digits_val l * 10 + digit_val c.
Proof. unfold digits_val. by rewrite fold_left_app. Qed.

Lemma log2_div_lt n base : 2 ≤ base ≤ n → Z.log2 (n / base) < Z.log2 n.
Proof.
  intros H. assert (0 < n / base) by (apply Z.div_str_pos; lia).
  apply Z.log2_lt_pow2; [done|].
  assert (n < 2 ^ Z.succ (Z.log2 n)) by (apply Z.log2_spec; lia).
  assert (0 < Z.log2 n) by (apply Z.log2_pos; lia).
  rewrite Z.pow_succ_r in * by lia.
  apply Z.div_lt_upper_bound; [lia|]. nia.
Qed.

(** Induction along the division steps of the printer. *)
Lemma udec_ind (P : Z → bytes → Prop) :
  (∀ n, 0 ≤ n < 10 → P n [digit_char n]) →
  (∀ n l, 10 ≤ n → P (n / 10) l → P n (l ++ [digit_char (n mod 10)])) →
  ∀ n, 0 ≤ n → P n (udec n).
Proof.
  intros Hb Hs. unfold udec, print_base.
  assert (∀ fuel n, 0 ≤ n → (Z.to_nat (Z.log2 n) < fuel)%nat →
            P n (digits_fuel fuel 10 n [])) as H.
  { induction fuel as [|f IH]; intros n Hn Hf; [lia|]. cbn [digits_fuel].
    destruct (Z.ltb_spec n 10) as [Hlt|Hge].
    - rewrite Z.mod_small by lia. apply Hb. lia.
    - rewrite digits_fuel_app. apply Hs; [lia|]. apply IH.
      + apply Z.div_pos; lia.
      + pose proof (log2_div_lt n 10). pose proof (Z.log2_nonneg (n / 10)). lia. }
  intros n Hn. apply H; lia.
Qed.

Lemma digits_val_udec n : 0 ≤ n → digits_val (udec n) = n.
Proof.
  apply (udec_ind (λ n l, digits_val l = n)).
  - intros m H. unfold digits_val, digit_val. simpl. rewrite digit_char_code; lia.
  - intros m l H IH. rewrite digits_val_snoc, IH. unfold digit_val.
    pose proof (Z.mod_pos_bound m 10). rewrite digit_char_code by lia.
    pose proof (Z.div_mod m 10). lia.
Qed.

Lemma udec_digits n : 0 ≤ n → Forall (λ c, isdigit c = true) (udec n).
Proof.
  apply (udec_ind (λ n l, Forall (λ c, isdigit c = true) l)).
  - intros m H. constructor; [|constructor]. rewrite isdigit_range, digit_char_code; lia.
  - intros m l H IH. apply Forall_app. split; [done|]. constructor; [|constructor].
    pose proof (Z.mod_pos_bound m 10). rewrite isdigit_range, digit_char_code; lia.
Qed.

Lemma udec_nonempty n : 0 ≤ n → udec n ≠ [].
Proof. apply (udec_ind (λ n l, l ≠ [])); [done|]. intros m l _ _ H. by destruct l. Qed.

(** A number below [10^k] prints in at most [k] digits. *)
Lemma udec_length n (k : nat) : 0 ≤ n < 10 ^ Z.of_nat k → (0 < k)%nat → (length (udec n) ≤ k)%nat.
Proof.
  intros [Hn Hlt] Hk. revert k Hlt Hk.
  revert n Hn. apply (udec_ind (λ n l, ∀ k, n < 10 ^ Z.of_nat k → (0 < k)%nat → (length l ≤ k)%nat)).
  - intros n H k _ Hk. simpl. lia.
  - intros n l H IH k Hlt Hk. rewrite length_app. simpl.
    destruct k as [|[|k]]; [lia| |].
    + simpl in Hlt. lia.
    + enough (length l ≤ S k)%nat by lia. apply IH; [|lia].
      apply Z.div_lt_upper_bound; [lia|].
      replace (10 * 10 ^ Z.of_nat (S k)) with (10 ^ Z.of_nat (S (S k))); [done|].
      rewrite (Nat2Z.inj_succ (S k)), Z.pow_succ_r by lia. done.
Qed.

Lemma isdigit_not_nul c : isdigit c = true → c ≠ NUL.
Proof. rewrite isdigit_range. intros H ->. change (code NUL) with 0 in H. lia. Qed.

Lemma digits_no_nul l : Forall (λ c, isdigit c = true) l → no_nul l.
Proof. intros H. eapply Forall_impl; [exact H|]. apply isdigit_not_nul. Qed.

Lemma udec_no_nul n : 0 ≤ n → no_nul (udec n).
Proof. intros. by apply digits_no_nul, udec_digits. Qed.

#[export] Hint Resolve udec_digits udec_nonempty udec_no_nul : wd.

Lemma udec_inj a b : 0 ≤ a → 0 ≤ b → udec a = udec b → a = b.
Proof. intros Ha Hb H. by rewrite <-(digits_val_udec a), H, digits_val_udec. Qed.

Lemma digits_val_nonneg l : Forall (λ c, isdigit c = true) l → 0 ≤ digits_val l.
Proof.
  induction l as [|c l IH] using rev_ind; intros H; [done|].
  apply Forall_app in H as [Hl Hc]. rewrite digits_val_snoc.
  apply Forall_cons in Hc as [Hc _]. apply isdigit_range in Hc. unfold digit_val.
  specialize (IH Hl). lia.
Qed.

(** A printed number starts with a digit: no sign, no white space. *)
Lemma udec_cons n : 0 ≤ n → ∃ c r, udec n = c :: r ∧ isdigit c = true.
Proof.
  intros H. pose proof (udec_digits n H) as Hd. pose proof (udec_nonempty n H).
  destruct (udec n) as [|c r]; [done|]. exists c, r. split; [done|]. by inversion Hd.
Qed.

(** [atoi] reads back what [%d] and [%u] print, when it fits an [int]. *)
Lemma atoi_udec n rest :
  0 ≤ n < 2 ^ 31 → (∀ c r, rest = c :: r → isdigit c = false) → no_nul rest →
  atoi (udec n ++ rest) = n.
Proof.
  intros Hn Hr Hz. unfold atoi.
  rewrite cstr_no_nul by (apply no_nul_app; auto with wd; apply udec_no_nul; lia).
  destruct (udec_cons n) as (c & r & E & Hc); [lia|].
  destruct (isdigit_not_sign c Hc) as [Hm Hp].
  assert (skip_ws (udec n ++ rest) = udec n ++ rest) as ->.
  { rewrite E. simpl. by rewrite (isdigit_not_space c Hc). }
  assert (read_sign (udec n ++ rest) = (false, udec n ++ rest)) as ->.
  { rewrite E. simpl. by rewrite Hm, Hp. }
  rewrite span_app; [|apply udec_digits; lia|rewrite length_app; lia|done].
  unfold strtol_digits. simpl fst. rewrite digits_val_udec by lia.
  unfold LONG_MAX, LONG_MIN. rewrite s32_small; lia.
Qed.

(** ** Digits of a fixed width *)

Lemma digits_val_zeros k l : digits_val (replicate k "0"%char ++ l) = digits_val l.
Proof.
  unfold digits_val. rewrite fold_left_app. f_equal. induction k as [|k IH]; [done|]. exact IH.
Qed.

Lemma digits_val_bound l : Forall (λ c, isdigit c = true) l → digits_val l < 10 ^ Z.of_nat (length l).
Proof.
  induction l as [|c l IH] using rev_ind; intros H; [done|].
  apply Forall_app in H as [Hl Hc]. apply Forall_cons in Hc as [Hc _].
  rewrite digits_val_snoc, length_app, Nat2Z.inj_add, Z.pow_add_r by lia. cbn [length].
  specialize (IH Hl). assert (0 ≤ digit_val c ≤ 9) by (apply isdigit_range in Hc; unfold digit_val; lia). lia.
Qed.

(** A number without leading zeros has exactly the digits it needs. *)
Lemma udec_length_exact n (k : nat) :
  10 ^ Z.of_nat k ≤ n < 10 ^ Z.of_nat (S k) → length (udec n) = S k.
Proof.
  intros [Hlo Hhi]. assert (0 ≤ n) by lia.
  pose proof (udec_length n (S k) ltac:(lia) ltac:(lia)) as Hle.
  pose proof (digits_val_bound (udec n) (udec_digits n ltac:(done))) as Hb.
  rewrite digits_val_udec in Hb by done. destruct (Nat.le_gt_cases (S k) (length (udec n))); [lia|].
  assert (10 ^ Z.of_nat (length (udec n)) ≤ 10 ^ Z.of_nat k) by (apply Z.pow_le_mono_r; lia). lia.
Qed.

(** Zero-padding to a width that suffices. *)
Lemma pad_zero_udec n (w : nat) :
  0 ≤ n < 10 ^ Z.of_nat w → (0 < w)%nat →
  length (pad (PSpec false true w false) (udec n)) = w ∧
  digits_val (pad (PSpec false true w false) (udec n)) = n ∧
  no_nul (pad (PSpec false true w false) (udec n)).
Proof.
  intros Hn Hw. pose proof (udec_length n w Hn Hw) as Hl. unfold pad. cbn [ps_width ps_zero ps_left].
  destruct w as [|w]; [lia|]. split; [rewrite length_app, length_replicate; lia|]. split.
  - rewrite digits_val_zeros. apply digits_val_udec. lia.
  - apply no_nul_app; [|apply udec_no_nul; lia]. apply Forall_replicate_eq. discriminate.
Qed.
