(* ===== verification/Scanf.v ===== *)
(** * [sscanf]

    The sources parse everything they read (socket commands, configuration
    lines, status rows) with [sscanf].  This file translates format strings to
    directives and runs the directives on a string, with the C library's
    behaviour: white space in a format skips any amount of white space, [%s],
    [%u] and [%d] skip leading white space, [%[...]] does not, a conversion
    that fails stops the scan, and the return value is the number of
    conversions stored, or EOF (-1) when the input ends before the first one.
    [%u] and [%d] convert with glibc's 64-bit [strtoul]/[strtol] and then
    truncate to 32 bits. *)

From S2P Require Import Prelude CString.

Inductive directive : Type :=
  | DSpace
  | DLit (c : ascii)
  | DStr (width : nat)
  | DSet (width : nat) (negated : bool) (set : bytes)
  | DUInt
  | DInt.

Inductive fmt_state : Type :=
  | FNone
  | FPct (width : nat)
  | FOpen (width : nat)
  | FFirst (width : nat) (negated : bool)
  | FSet (width : nat) (negated : bool) (set : bytes).

Fixpoint parse_fmt (f : bytes) (st : fmt_state) : list directive :=
  match f with
  | [] => []
  | c :: r =>
      match st with
      | FNone =>
          if Ascii.eqb c "%" then parse_fmt r (FPct 0)
          else if isspace c then DSpace :: parse_fmt r FNone
          else DLit c :: parse_fmt r FNone
      | FPct w =>
          if isdigit c then parse_fmt r (FPct (10 * w + Z.to_nat (digit_val c)))
          else if Ascii.eqb c "[" then parse_fmt r (FOpen w)
          else if Ascii.eqb c "s" then DStr w :: parse_fmt r FNone
          else if Ascii.eqb c "u" then DUInt :: parse_fmt r FNone
          else DInt :: parse_fmt r FNone
      | FOpen w =>
          if Ascii.eqb c "^" then parse_fmt r (FFirst w true)
          else parse_fmt r (FSet w false [c])
      | FFirst w neg => parse_fmt r (FSet w neg [c])
      | FSet w neg set =>
          if Ascii.eqb c "]" then DSet w neg set :: parse_fmt r FNone
          else parse_fmt r (FSet w neg (set ++ [c]))
      end
  end.

Inductive sval : Type :=
  | SStr (s : bytes)
  | SUInt (z : Z)
  | SInt (z : Z).

Definition in_set (negated : bool) (set : bytes) (c : ascii) : bool :=
  xorb negated (existsb (Ascii.eqb c) set).

Definition nonspace (c : ascii) : bool := negb (isspace c).

(** Sign and digits of a number: [None] when there is no digit. *)
Definition scan_digits (inp : bytes) : option (bool * bytes * bytes) :=
  let '(neg, r) := read_sign inp in
  match span isdigit (length r) r with
  | ([], _) => None
  | (ds, rest) => Some (neg, ds, rest)
  end.

(** Runs the directives; the flag says that the scan met the end of the input. *)
Fixpoint scan (ds : list directive) (inp : bytes) (vals : list sval) : list sval * bool :=
  match ds with
  | [] => (vals, false)
  | DSpace :: r => scan r (skip_ws inp) vals
  | DLit c :: r =>
      match inp with
      | [] => (vals, true)
      | x :: i => if Ascii.eqb x c then scan r i vals else (vals, false)
      end
  | DStr w :: r =>
      match skip_ws inp with
      | [] => (vals, true)
      | i => let '(t, rest) := span nonspace w i in scan r rest (vals ++ [SStr t])
      end
  | DSet w neg set :: r =>
      match inp with
      | [] => (vals, true)
      | i => match span (in_set neg set) w i with
             | ([], _) => (vals, false)
             | (t, rest) => scan r rest (vals ++ [SStr t])
             end
      end
  | DUInt :: r =>
      match skip_ws inp with
      | [] => (vals, true)
      | i => match scan_digits i with
             | None => (vals, false)
             | Some (neg, d, rest) => scan r rest (vals ++ [SUInt (u32 (strtoul_digits neg d))])
             end
      end
  | DInt :: r =>
      match skip_ws inp with
      | [] => (vals, true)
      | i => match scan_digits i with
             | None => (vals, false)
             | Some (neg, d, rest) => scan r rest (vals ++ [SInt (s32 (strtol_digits neg d))])
             end
      end
  end.

(** [sscanf(buf, fmt, ...)]: the return value and the values stored. *)
Definition sscanf (buf fmt : bytes) : Z * list sval :=
  match scan (parse_fmt fmt FNone) (cstr buf) [] with
  | ([], true) => (-1, [])
  | (vs, _) => (Z.of_nat (length vs), vs)
  end.

Definition sval_str (v : sval) : bytes := match v with SStr s => s | _ => [] end.
Definition sval_int (v : sval) : Z := match v with SUInt z | SInt z => z | SStr _ => 0 end.

(** The [i]-th argument after the format, when it was stored. *)
Definition arg_str (vs : list sval) (i : nat) : bytes := from_option sval_str [] (vs !! i).
Definition arg_int (vs : list sval) (i : nat) : Z := from_option sval_int 0 (vs !! i).

(** ** Lemmas *)

Definition word (w : bytes) : Prop := w ≠ [] ∧ Forall (λ c, nonspace c = true) w.

Lemma nonspace_true c : nonspace c = true ↔ isspace c = false.
Proof. unfold nonspace. by destruct (isspace c). Qed.

Lemma word_skip w r : word w → skip_ws (w ++ r) = w ++ r.
Proof.
  intros [Hn Hw]. destruct w as [|c w]; [done|]. simpl.
  apply Forall_cons in Hw as [Hc _]. by rewrite (proj1 (nonspace_true c) Hc).
Qed.

(** A word that fits the field width and is followed by white space or the end. *)
Lemma scan_str_word w k r rest vals :
  word w → (length w ≤ k)%nat → (∀ c r', rest = c :: r' → isspace c = true) →
  scan (DStr k :: r) (w ++ rest) vals = scan r rest (vals ++ [SStr w]).
Proof.
  intros Hw Hk Hr. pose proof (word_skip w rest Hw) as Hs. destruct Hw as [Hn Hw].
  cbn [scan]. rewrite Hs. destruct w as [|c w]; [done|].
  cbn [app]. rewrite app_comm_cons, span_app; [done|done|done|].
  intros c' r' E. unfold nonspace. by rewrite (Hr c' r' E).
Qed.

(** A word that fills the field width is cut there, whatever follows. *)
Lemma scan_str_full w k r rest vals :
  word w → length w = k →
  scan (DStr k :: r) (w ++ rest) vals = scan r rest (vals ++ [SStr w]).
Proof.
  intros Hw Hk. pose proof (word_skip w rest Hw) as Hs. destruct Hw as [Hn Hw].
  cbn [scan]. rewrite Hs. destruct w as [|c w]; [done|].
  cbn [app]. by rewrite app_comm_cons, span_full by done.
Qed.

Lemma scan_str_skip_all a k r rest vals :
  all_space a → scan (DStr k :: r) (a ++ rest) vals = scan (DStr k :: r) rest vals.
Proof. intros H. cbn [scan]. by rewrite skip_ws_app_space. Qed.

Lemma scan_str_skip c k r rest vals :
  isspace c = true → scan (DStr k :: r) (c :: rest) vals = scan (DStr k :: r) rest vals.
Proof. intros H. cbn [scan skip_ws]. by rewrite H. Qed.

Lemma scan_space r inp vals : scan (DSpace :: r) inp vals = scan r (skip_ws inp) vals.
Proof. done. Qed.

Lemma scan_space_skip c r rest vals :
  isspace c = true → scan (DSpace :: r) (c :: rest) vals = scan (DSpace :: r) rest vals.
Proof. intros H. cbn [scan skip_ws]. by rewrite H. Qed.

Lemma digits_word l : l ≠ [] → Forall (λ c, isdigit c = true) l → word l.
Proof.
  intros Hn Hl. split; [done|]. eapply Forall_impl; [exact Hl|].
  intros c Hc. apply nonspace_true. by apply isdigit_not_space.
Qed.

Lemma udec_word n : 0 ≤ n → word (udec n).
Proof. intros. apply digits_word; auto with wd. Qed.

Lemma scan_digits_udec n rest :
  0 ≤ n → (∀ c r, rest = c :: r → isdigit c = false) →
  scan_digits (udec n ++ rest) = Some (false, udec n, rest).
Proof.
  intros Hn Hr. unfold scan_digits.
  destruct (udec_cons n Hn) as (c & r & E & Hc).
  assert (read_sign (udec n ++ rest) = (false, udec n ++ rest)) as ->.
  { rewrite E. simpl. destruct (isdigit_not_sign c Hc) as [-> ->]. done. }
  rewrite span_app; [|by apply udec_digits|rewrite length_app; lia|done].
  by rewrite E.
Qed.

(** [%u] on a printed number of up to 64 bits stores its low 32 bits. *)
Lemma scan_uint_udec_mod n r rest vals :
  0 ≤ n < 2 ^ 64 → (∀ c r', rest = c :: r' → isdigit c = false) →
  scan (DUInt :: r) (udec n ++ rest) vals = scan r rest (vals ++ [SUInt (u32 n)]).
Proof.
  intros Hn Hr. cbn [scan]. rewrite word_skip by (apply udec_word; lia).
  destruct (udec_cons n) as (c & r' & E & _); [lia|].
  rewrite E at 1. cbn [app]. rewrite app_comm_cons, <-E.
  rewrite scan_digits_udec by (done || lia).
  assert (strtoul_digits false (udec n) = n) as ->; [|done].
  unfold strtoul_digits. rewrite digits_val_udec by lia.
  destruct (Z.ltb_spec ULONG_MAX n); [unfold ULONG_MAX in *; lia|done].
Qed.

(** It reads back a printed 32-bit number. *)
Lemma scan_uint_udec n r rest vals :
  0 ≤ n < 2 ^ 32 → (∀ c r', rest = c :: r' → isdigit c = false) →
  scan (DUInt :: r) (udec n ++ rest) vals = scan r rest (vals ++ [SUInt n]).
Proof. intros Hn Hr. rewrite scan_uint_udec_mod by (done || lia). by rewrite u32_small by lia. Qed.

(** [%d] reads back a printed non-negative [int]. *)
Lemma scan_int_udec n r rest vals :
  0 ≤ n < 2 ^ 31 → (∀ c r', rest = c :: r' → isdigit c = false) →
  scan (DInt :: r) (udec n ++ rest) vals = scan r rest (vals ++ [SInt n]).
Proof.
  intros Hn Hr. cbn [scan]. rewrite word_skip by (apply udec_word; lia).
  destruct (udec_cons n) as (c & r' & E & _); [lia|].
  rewrite E at 1. cbn [app]. rewrite app_comm_cons, <-E.
  rewrite scan_digits_udec by (done || lia).
  assert (strtol_digits false (udec n) = n) as ->.
  { unfold strtol_digits. rewrite digits_val_udec by lia.
    unfold LONG_MAX, LONG_MIN. lia. }
  by rewrite s32_small by lia.
Qed.

Lemma scan_uint_skip c r rest vals :
  isspace c = true → scan (DUInt :: r) (c :: rest) vals = scan (DUInt :: r) rest vals.
Proof. intros H. cbn [scan skip_ws]. by rewrite H. Qed.

Lemma scan_int_skip c r rest vals :
  isspace c = true → scan (DInt :: r) (c :: rest) vals = scan (DInt :: r) rest vals.
Proof. intros H. cbn [scan skip_ws]. by rewrite H. Qed.

(** A scan only appends to the values it was given. *)
Lemma scan_extends ds inp vals vs e :
  scan ds inp vals = (vs, e) → ∃ new, vs = vals ++ new.
Proof.
  revert inp vals. induction ds as [|d ds IH]; intros inp vals; cbn [scan].
  { intros [= <- <-]. exists []. by rewrite app_nil_r. }
  assert (∀ inp' v, scan ds inp' (vals ++ [v]) = (vs, e) → ∃ new, vs = vals ++ new) as Hstep.
  { intros inp' v H. apply IH in H as [new ->]. exists (v :: new). by rewrite <-app_assoc. }
  assert (∀ b : bool, (vals, b) = (vs, e) → ∃ new, vs = vals ++ new) as Hstop.
  { intros b [= <- <-]. exists []. by rewrite app_nil_r. }
  repeat case_match; eauto.
Qed.

(** Every string a [%ws] stored is a word of at most [w] characters. *)
Lemma scan_str_inv k r inp vals vs e :
  scan (DStr k :: r) inp vals = (vs, e) → (0 < k)%nat →
  vs = vals ∨
  ∃ w rest new, word w ∧ (length w ≤ k)%nat ∧ skip_ws inp = w ++ rest ∧
    vs = vals ++ SStr w :: new ∧ scan r rest (vals ++ [SStr w]) = (vs, e).
Proof.
  intros H Hk. cbn [scan] in H. destruct (skip_ws inp) as [|c i] eqn:E.
  { injection H as <- <-. by left. }
  right. pose proof (skip_ws_head _ _ _ E) as Hc.
  destruct (span nonspace k (c :: i)) as [t rest] eqn:Es.
  destruct (scan_extends _ _ _ _ _ H) as [new Hn].
  exists t, rest, new. pose proof (span_spec _ _ _ _ _ Es) as (Happ & Ht & Hl).
  assert (t ≠ []) as Hne.
  { intros ->. destruct k; [lia|]. simpl in Es.
    rewrite (proj2 (nonspace_true c) Hc) in Es.
    by destruct (span nonspace k i). }
  repeat split; auto. by rewrite Hn, <-app_assoc.
Qed.
