(* ===== verification/Common.v ===== *)
(** * Shared constants and I/O helpers

    include/common.h, include/wd-client.h and configure.ac: the protocol words,
    the limits and the build-time defaults.  src/src/common.c:
    [read_with_timeout], [fatal_error] and [fatal_errno]. *)

From S2P Require Import Prelude CString.

(** ** include/common.h *)

Definition SOCKET_PROT_VERSION : bytes := lit "1.0".
Definition CMD_REGISTER : bytes := lit "REGISTER ".
Definition CMD_PING : bytes := lit "PING ".
Definition CMD_UNREGISTER : bytes := lit "UNREGISTER ".
Definition CMD_REBOOT : bytes := lit "REBOOT".
Definition CMD_STATUS : bytes := lit "STATUS".
Definition CMD_VERSION : bytes := lit "VERSION".

(** ** include/wd-client.h *)

Definition WD_CLIENT_NAME_LEN : nat := 64.
Definition WD_CLIENTID_LEN : nat := 17.
Definition WD_CLIENT_TIMEOUT_MIN_MS : Z := 5 * 1000.
Definition WD_CLIENT_TIMEOUT_MAX_MS : Z := 300 * 1000.
Definition WD_CLIENT_STATUS_LEN : nat := 256.
(** [sizeof(((struct sockaddr_un * )0)->sun_path)] on Linux. *)
Definition WD_CLIENT_SOCKPATH_LEN : nat := 108.

Definition WD_CLIENT_OK : Z := 0.
Definition WD_CLIENT_ERR : Z := -1.
Definition WD_CLIENT_EPARAM : Z := -2.
Definition WD_CLIENT_ETIMEOUT : Z := -3.
Definition WD_CLIENT_EVERSION : Z := -4.

(** ** configure.ac *)

Definition PACKAGE_VERSION : bytes := lit "2.1.0".
Definition SOCKET_PATH_DEFAULT : bytes := lit "/run/wd-broker.sock".
Definition SERVICE_USER_DEFAULT : bytes := lit "wd-broker".
Definition WD_MAX_CLIENTS : nat := 64.

Definition EXIT_SUCCESS : Z := 0.
Definition EXIT_FAILURE : Z := 1.

(** ** src/src/common.c *)

(** What [fatal_error] prints to stderr before it exits with [EXIT_FAILURE]. *)
Definition fatal_error_text (text : bytes) : bytes := lit "Error: " ++ text ++ [NL].

Definition fatal_errno_text (context err : bytes) : bytes :=
  printf "Error: %s (%s)\n" [PS context; PS err].

(** [read_with_timeout(fd, buffer, buffer_size)].  [sel] is the result of
    [select] on the descriptor, [rd] what a [read] of any length would deliver:
    [None] for an error, [Some m] for a message [m] ([Some []] is end of file).
    The result is the returned length and the buffer afterwards. *)
Definition read_with_timeout (sel : Z) (rd : option bytes) (buffer : bytes) (buffer_size : nat)
    : Z * bytes :=
  if sel <? 0 then (-1, buffer)
  else if sel =? 0 then (0, buffer)
  else match rd with
       | None => (-1, buffer)
       | Some m =>
           match take (buffer_size - 1) m with
           | [] => (0, buffer)
           | data => (Z.of_nat (length data), data ++ NUL :: drop (S (length data)) buffer)
           end
       end.

(** ** Lemmas *)

Section ReadWithTimeout.
Context (sel : Z) (rd : option bytes) (buffer : bytes) (size : nat).
Context (Hsize : (0 < size)%nat) (Hbuf : length buffer = size).

(** Never more than [buffer_size - 1] bytes, and the array keeps its size. *)
Lemma read_with_timeout_bounds n b :
  read_with_timeout sel rd buffer size = (n, b) →
  -1 ≤ n < Z.of_nat size ∧ length b = size.
Proof.
  unfold read_with_timeout. intros H. repeat case_match; injection H as <- <-; try (split; lia).
  match goal with H : take _ _ = _ |- _ => rename H into Ht end.
  assert (length (take (size - 1) l) ≤ size - 1)%nat as Hl by (rewrite length_take; lia).
  rewrite Ht in Hl. split; [cbn [length] in *; lia|].
  cbn [length app] in *. rewrite length_app. cbn [length].
  rewrite length_drop. cbn [length]. lia.
Qed.

(** A positive result leaves a terminated string: the data up to its first NUL. *)
Lemma read_with_timeout_string n b :
  read_with_timeout sel rd buffer size = (n, b) → 0 < n →
  ∃ m, rd = Some m ∧ cstr b = cstr (take (size - 1) m) ∧ NUL ∈ b ∧ 0 < sel.
Proof.
  unfold read_with_timeout. intros H Hn. repeat case_match; injection H as <- <-; try lia.
  match goal with H : take _ _ = _ |- _ => rename H into Ht end.
  exists l. rewrite Ht. split_and!; try done; try lia.
  - rewrite app_comm_cons. apply cstr_app_nul.
  - cbn [app]. rewrite app_comm_cons, elem_of_app. right. left.
Qed.
End ReadWithTimeout.

(** The common case: a message that fits and holds no NUL. *)
Lemma read_with_timeout_msg sel m buffer size :
  0 < sel → m ≠ [] → (length m < size)%nat →
  read_with_timeout sel (Some m) buffer size
  = (Z.of_nat (length m), m ++ NUL :: drop (S (length m)) buffer).
Proof.
  intros Hs Hm Hl. unfold read_with_timeout.
  destruct (Z.ltb_spec sel 0); [lia|]. destruct (Z.eqb_spec sel 0); [lia|].
  rewrite take_ge by lia. by destruct m.
Qed.
