(* ===== verification/World.v ===== *)
(** * The broker's state and its effects

    src/src/wd-broker.c: the structs [client_t] and [wd_config_t], the globals
    and the locals of [main] that survive a loop iteration as one [Record], the
    monad its functions run in, and the small effectful helpers
    ([log_message], [write_str], [fatal_error], [get_now], [ms_since],
    [make_clientID]). *)

From S2P Require Import Prelude CString Common.

(** ** Data *)

Record timespec : Type := Timespec { tv_sec : Z; tv_nsec : Z }.

(** [struct ucred], as SO_PEERCRED fills it in. *)
Record ucred : Type := Ucred { cr_pid : Z; cr_uid : Z; cr_gid : Z }.

Record client_t : Type := Client {
  cl_clientID : bytes;
  cl_name : bytes;
  cl_pid : Z;
  cl_timeout_ms : Z;
  cl_last_ping : timespec;
  cl_active : bool;
  cl_anounced : bool;
  cl_checkPID : bool;
}.

Record wd_config_t : Type := Config {
  cfg_socket_path : bytes;
  cfg_wd_timeout_s : Z;
  cfg_reboot_timeout_s : Z;
  cfg_strict_clients : bool;
  cfg_unique_clients : bool;
}.

(** [memset(clients, 0, ...)] *)
Definition client_zero : client_t :=
  Client (replicate WD_CLIENTID_LEN NUL) (replicate WD_CLIENT_NAME_LEN NUL) 0 0
         (Timespec 0 0) false false false.

Definition config_zero : wd_config_t :=
  Config (replicate WD_CLIENT_SOCKPATH_LEN NUL) 0 0 false false.

(** Syslog priorities, most urgent first. *)
Inductive prio : Type :=
  | LOG_EMERG | LOG_ALERT | LOG_CRIT | LOG_ERR | LOG_WARNING | LOG_NOTICE | LOG_INFO | LOG_DEBUG.

Definition prio_level (p : prio) : Z :=
  match p with
  | LOG_EMERG => 0 | LOG_ALERT => 1 | LOG_CRIT => 2 | LOG_ERR => 3
  | LOG_WARNING => 4 | LOG_NOTICE => 5 | LOG_INFO => 6 | LOG_DEBUG => 7
  end.

(** What the process does to the outside, in order.  A call that may fail and is
    only logged then ([EvSetTimeout], [EvMagicClose], [EvDisableCard]) leaves its
    event when it is made; [EvFeed] and [EvReply] stand for bytes written. *)
Inductive event : Type :=
  | EvReply (text : bytes)               (* bytes written to the client socket *)
  | EvLog (p : prio) (text : bytes)
  | EvStdout (text : bytes)
  | EvStderr (text : bytes)
  | EvTimerSet (secs : Z)                (* timerfd_settime, first expiry and interval *)
  | EvUnlink (path : bytes)
  | EvBind (path : bytes)
  | EvListen
  | EvChmod (path : bytes) (mode : Z)
  | EvChown (path : bytes) (uid gid : Z)
  | EvOpenWatchdog                       (* open("/dev/watchdog") *)
  | EvSetTimeout (secs : Z)              (* ioctl WDIOC_SETTIMEOUT *)
  | EvFeed                               (* write of one NUL byte to the watchdog *)
  | EvMagicClose                         (* write of 'V' to the watchdog *)
  | EvDisableCard                        (* ioctl WDIOC_SETOPTIONS, WDIOS_DISABLECARD *)
  | EvCloseWatchdog
  | EvSetgroups
  | EvSetgid (gid : Z)
  | EvSetuid (uid : Z)
  | EvFork
  | EvSetsid
  | EvChdir
  | EvUmask (mask : Z)
  | EvCloseStdio                         (* fclose of stdin, stdout and stderr *)
  | EvOpenlog (facility : Z)
  | EvAccept                             (* a connection was accepted *)
  | EvCloseConn                          (* and closed again *)
  | EvSync.

Record broker : Type := Broker {
  clients : list client_t;
  config : wd_config_t;
  running : bool;
  reboot : bool;
  daemonize : bool;
  all_ok : bool;
  watchdog_fd : bool;        (* watchdog_fd != -1 *)
  now_ix : nat;              (* clock readings so far *)
  id_ix : nat;               (* client IDs made so far *)
  trace : list event;
}.

(** The state at the start of [main]. *)
Definition broker_init : broker :=
  Broker (replicate WD_MAX_CLIENTS client_zero) config_zero true false false true false 0 0 [].

(** ** Updates *)

Definition set_clients (cs : list client_t) (s : broker) : broker :=
  Broker cs (config s) (running s) (reboot s) (daemonize s) (all_ok s) (watchdog_fd s)
         (now_ix s) (id_ix s) (trace s).
Definition set_config (c : wd_config_t) (s : broker) : broker :=
  Broker (clients s) c (running s) (reboot s) (daemonize s) (all_ok s) (watchdog_fd s)
         (now_ix s) (id_ix s) (trace s).
Definition set_running (b : bool) (s : broker) : broker :=
  Broker (clients s) (config s) b (reboot s) (daemonize s) (all_ok s) (watchdog_fd s)
         (now_ix s) (id_ix s) (trace s).
Definition set_reboot (b : bool) (s : broker) : broker :=
  Broker (clients s) (config s) (running s) b (daemonize s) (all_ok s) (watchdog_fd s)
         (now_ix s) (id_ix s) (trace s).
Definition set_daemonize (b : bool) (s : broker) : broker :=
  Broker (clients s) (config s) (running s) (reboot s) b (all_ok s) (watchdog_fd s)
         (now_ix s) (id_ix s) (trace s).
Definition set_all_ok (b : bool) (s : broker) : broker :=
  Broker (clients s) (config s) (running s) (reboot s) (daemonize s) b (watchdog_fd s)
         (now_ix s) (id_ix s) (trace s).
Definition set_watchdog_fd (b : bool) (s : broker) : broker :=
  Broker (clients s) (config s) (running s) (reboot s) (daemonize s) (all_ok s) b
         (now_ix s) (id_ix s) (trace s).
Definition set_now_ix (n : nat) (s : broker) : broker :=
  Broker (clients s) (config s) (running s) (reboot s) (daemonize s) (all_ok s) (watchdog_fd s)
         n (id_ix s) (trace s).
Definition set_id_ix (n : nat) (s : broker) : broker :=
  Broker (clients s) (config s) (running s) (reboot s) (daemonize s) (all_ok s) (watchdog_fd s)
         (now_ix s) n (trace s).
Definition add_event (e : event) (s : broker) : broker :=
  Broker (clients s) (config s) (running s) (reboot s) (daemonize s) (all_ok s) (watchdog_fd s)
         (now_ix s) (id_ix s) (trace s ++ [e]).

(** [clients[i] = f(clients[i])] *)
Definition alter_client (i : nat) (f : client_t → client_t) (s : broker) : broker :=
  set_clients (alter f i (clients s)) s.

(** ** The environment *)

(** What [make_clientID] sees: the bytes [read] from /dev/urandom, or nothing when
    the device cannot be opened; the time of day and the process ids. *)
Record entropy : Type := Entropy {
  en_urandom : option (list Z);
  en_sec : Z;
  en_usec : Z;
  en_pid : Z;
  en_ppid : Z;
}.

(** Readings of the monotonic clock and of the entropy, by number of the call;
    the C library's [random] as the sequence a seed produces. *)
Class Env : Type := {
  env_now : nat → timespec;
  env_entropy : nat → entropy;
  libc_random : Z → nat → Z;
}.

(** One accepted connection: the result of [getsockopt(SO_PEERCRED)] ([inr] is
    the error text), of [select] and [read] on it, and the error text when
    writing to it fails. *)
Record conn : Type := Conn {
  conn_peer : ucred + bytes;
  conn_select : Z;
  conn_read : option bytes;
  conn_wfail : option bytes;
}.

(** ** Effects *)

Abbreviation B := (M broker).

Definition emit (e : event) : B unit := modify (add_event e).

Definition log_message (p : prio) (text : bytes) : B unit := emit (EvLog p text).

(** The console line [log_message] prints when the broker is not a daemon: the
    stream and the text, with [timestr] the formatted local time. *)
Definition prio_str (p : prio) : bytes :=
  match p with
  | LOG_EMERG => lit "EMERG "
  | LOG_ALERT => lit "ALERT "
  | LOG_CRIT => lit "CRIT  "
  | LOG_ERR => lit "ERROR "
  | LOG_WARNING => lit "WARN  "
  | LOG_NOTICE => lit "NOTICE"
  | LOG_INFO => lit "INFO  "
  | LOG_DEBUG => lit "DEBUG "
  end.

Inductive stream : Type := Stdout | Stderr.

Definition log_stream (p : prio) : stream :=
  if prio_level p <=? prio_level LOG_WARNING then Stdout else Stderr.

Definition log_line (p : prio) (timestr : bytes) (usec : Z) (text : bytes) : stream * bytes :=
  (log_stream p, printf "%s.%06ld [%s] " [PS timestr; PI usec; PS (prio_str p)] ++ text ++ [NL]).

(** [write_str]: [vdprintf] on the socket; a failure is only logged. *)
Definition write_str (c : conn) (text : bytes) : B unit :=
  match conn_wfail c with
  | None => emit (EvReply text)
  | Some err => log_message LOG_ERR (printf "vdprintf: %s" [PS err])
  end.

Definition fatal_error {A} (text : bytes) : B A :=
  emit (EvStderr (fatal_error_text text)) ;; exit_with EXIT_FAILURE.

Definition fatal_errno {A} (context err : bytes) : B A :=
  emit (EvStderr (fatal_errno_text context err)) ;; exit_with EXIT_FAILURE.

Section Effects.
Context {E : Env}.

(** [get_now]: one reading of CLOCK_MONOTONIC. *)
Definition get_now : B timespec :=
  n ← gets now_ix; modify (set_now_ix (S n)) ;; mret (env_now n).

(** The arithmetic of [ms_since]: [long] arithmetic, division towards zero,
    conversion to [unsigned int]. *)
Definition ms_between (now then_ : timespec) : Z :=
  u32 ((tv_sec now - tv_sec then_) * 1000 + Z.quot (tv_nsec now - tv_nsec then_) 1000000).

Definition ms_since (then_ : timespec) : B Z :=
  now ← get_now; mret (ms_between now then_).

(** The raw bytes of a client ID: all 8 from /dev/urandom, or [random()]
    seeded with the time and the process ids. *)
Definition raw_len : nat := WD_CLIENTID_LEN / 2.

Definition clientID_seed (e : entropy) : Z :=
  u32 (Z.lxor (Z.lxor (Z.lxor (en_sec e) (en_usec e)) (en_pid e)) (en_ppid e)).

Definition clientID_raw (e : entropy) : list Z :=
  let fallback := (λ i, Z.land (libc_random (clientID_seed e) i) 255) <$> seq 0 raw_len in
  match en_urandom e with
  | Some l => let got := take raw_len l in
              if Nat.eqb (length got) raw_len then (λ b, b mod 256) <$> got else fallback
  | None => fallback
  end.

Definition hex : bytes := lit "0123456789abcdef".
Definition hex_digit (d : Z) : ascii := nth (Z.to_nat d) hex NUL.

Fixpoint hex_encode (raw : list Z) : bytes :=
  match raw with
  | [] => []
  | b :: r => hex_digit (Z.land (Z.shiftr b 4) 15) :: hex_digit (Z.land b 15) :: hex_encode r
  end.

(** The array [make_clientID] fills in. *)
Definition clientID_of (e : entropy) : bytes := hex_encode (clientID_raw e) ++ [NUL].

Definition make_clientID : B bytes :=
  n ← gets id_ix; modify (set_id_ix (S n)) ;; mret (clientID_of (env_entropy n)).
End Effects.

(** ** A small program logic for code that may give up *)

(** [m] from [s] either returns with [Q], or reports on stderr and exits with
    [EXIT_FAILURE]; it never runs into undefined behaviour. *)
Definition reported (s : broker) : Prop :=
  ∃ t, last (trace s) = Some (EvStderr (lit "Error: " ++ t ++ [NL])).

Definition triple {A} (s : broker) (m : B A) (Q : A → broker → Prop) : Prop :=
  match m s with
  | (Ret a, s') => Q a s'
  | (Exit c, s') => c = EXIT_FAILURE ∧ reported s'
  | (Undef, _) => False
  end.

Lemma triple_ret {A} (a : A) s (Q : A → broker → Prop) : Q a s → triple s (mret a) Q.
Proof. done. Qed.

Lemma triple_bind {A C} (m : B A) (f : A → B C) s Q :
  triple s m (λ a s', triple s' (f a) Q) → triple s (m ≫= f) Q.
Proof. unfold triple. rewrite bind_eq. by destruct (m s) as [[a|c|] s']. Qed.

Lemma triple_gets {A} (f : broker → A) s (Q : A → broker → Prop) : Q (f s) s → triple s (gets f) Q.
Proof. done. Qed.

Lemma triple_modify f s (Q : unit → broker → Prop) : Q tt (f s) → triple s (modify f) Q.
Proof. done. Qed.

Lemma triple_fatal {A} t s (Q : A → broker → Prop) : triple s (fatal_error t) Q.
Proof.
  unfold triple, fatal_error, emit. mrun. split; [done|]. exists t. cbn [trace add_event]. apply last_snoc.
Qed.

Lemma triple_conseq {A} (m : B A) s (Q Q' : A → broker → Prop) :
  triple s m Q → (∀ a s', Q a s' → Q' a s') → triple s m Q'.
Proof. unfold triple. destruct (m s) as [[a|c|] s']; auto. Qed.

Lemma triple_elim {A} (m : B A) s Q a s' : triple s m Q → m s = (Ret a, s') → Q a s'.
Proof. unfold triple. intros H E. by rewrite E in H. Qed.

#[export] Hint Resolve triple_ret triple_gets triple_modify triple_fatal : wd.
