(* ===== verification/Logging.v ===== *)
(** * Where log messages go

    src/src/wd-broker.c, [log_message]: the elsewhere abstract event [EvLog] as a
    line on the console, with the local time and the priority in front, or as a
    message to syslog; and the proof that the head of a console line can be read
    back. *)

From S2P Require Import Prelude CString World.

(** ** Local time *)

(** [struct tm], the fields the format uses. *)
Record tm : Type := Tm {
  tm_sec : Z;
  tm_min : Z;
  tm_hour : Z;
  tm_mday : Z;
  tm_mon : Z;      (* January is 0 *)
  tm_year : Z;     (* years since 1900 *)
}.

Definition zero_padded (width : nat) : pspec := PSpec false true width false.
Definition two_digits (z : Z) : bytes := pad (zero_padded 2) (udec z).

(** One conversion of [strftime]. *)
Definition strftime_conv (c : ascii) (t : tm) : bytes :=
  if Ascii.eqb c "Y" then sdec (tm_year t + 1900)
  else if Ascii.eqb c "m" then two_digits (tm_mon t + 1)
  else if Ascii.eqb c "d" then two_digits (tm_mday t)
  else if Ascii.eqb c "H" then two_digits (tm_hour t)
  else if Ascii.eqb c "M" then two_digits (tm_min t)
  else two_digits (tm_sec t).

Fixpoint strftime_text (fmt : bytes) (conv : bool) (t : tm) : bytes :=
  match fmt with
  | [] => []
  | c :: r => if conv then strftime_conv c t ++ strftime_text r false t
              else if Ascii.eqb c "%" then strftime_text r true t
              else c :: strftime_text r false t
  end.

(** [strftime(s, max, fmt, t)]: the array afterwards; when the text and its NUL do
    not fit, its contents are unspecified, here [junk]. *)
Definition strftime (junk : bytes) (max : nat) (fmt : bytes) (t : tm) : bytes :=
  let text := strftime_text fmt false t in
  if (length text <? max)%nat then text ++ [NUL] else junk.

Definition TIMESTR_LEN : nat := 32.
Definition TIMESTR_FORMAT : bytes := lit "%Y-%m-%d %H:%M:%S".

(** ** [log_message] *)

Inductive log_output : Type :=
  | Console (f : stream) (line : bytes)
  | Syslog (p : prio) (text : bytes).

(** [usec] and [t] are what [gettimeofday] and [localtime_r] return, [junk] the
    array before; [text] is the formatted message. *)
Definition log_written (daemonize : bool) (usec : Z) (t : tm) (junk : bytes) (p : prio)
    (text : bytes) : log_output :=
  if negb daemonize then
    let timestr := strftime junk TIMESTR_LEN TIMESTR_FORMAT t in
    let '(f, line) := log_line p timestr usec text in Console f line
  else Syslog p text.

(** ** Reading a line back *)

(** The fields of a time the C library can return, in the years of four digits. *)
Record wf_tm (t : tm) : Prop := {
  wt_sec : 0 ≤ tm_sec t ≤ 60;
  wt_min : 0 ≤ tm_min t < 60;
  wt_hour : 0 ≤ tm_hour t < 24;
  wt_mday : 1 ≤ tm_mday t ≤ 31;
  wt_mon : 0 ≤ tm_mon t < 12;
  wt_year : 1000 ≤ tm_year t + 1900 ≤ 9999;
}.

(** [n] characters from position [k]. *)
Definition field (k n : nat) (l : bytes) : bytes := take n (drop k l).

Definition all_prios : list prio :=
  [LOG_EMERG; LOG_ALERT; LOG_CRIT; LOG_ERR; LOG_WARNING; LOG_NOTICE; LOG_INFO; LOG_DEBUG].

Definition num_field (k n : nat) (l : bytes) : Z := digits_val (field k n l).

(** The time, the microseconds, the priority and the message of a console line. *)
Definition read_line (line : bytes) : option (tm * Z * prio * bytes) :=
  match find_index (λ p, bytes_eqb (prio_str p) (field 28 6 line)) all_prios with
  | Some i =>
      p ← all_prios !! i;
      Some (Tm (num_field 17 2 line) (num_field 14 2 line) (num_field 11 2 line)
               (num_field 8 2 line) (num_field 5 2 line - 1) (num_field 0 4 line - 1900),
            num_field 20 6 line, p, removelast (drop 36 line))
  | None => None
  end.

Section Line.
Context (usec : Z) (t : tm) (junk text : bytes) (p : prio).
Context (Ht : wf_tm t) (Hu : 0 ≤ usec < 10 ^ 6).

Lemma two_digits_ok z : 0 ≤ z < 100 →
  length (two_digits z) = 2%nat ∧ digits_val (two_digits z) = z ∧ no_nul (two_digits z).
Proof. intros Hz. apply (pad_zero_udec z 2); [done|lia]. Qed.

Definition year_text : bytes := udec (tm_year t + 1900).

Lemma year_text_ok :
  length year_text = 4%nat ∧ digits_val year_text = tm_year t + 1900 ∧ no_nul year_text.
Proof.
  pose proof (wt_year t Ht). unfold year_text. split; [apply (udec_length_exact _ 3); lia|].
  split; [apply digits_val_udec; lia|apply udec_no_nul; lia].
Qed.

Definition time_text : bytes :=
  year_text ++ lit "-" ++ two_digits (tm_mon t + 1) ++ lit "-" ++ two_digits (tm_mday t) ++ lit " " ++
  two_digits (tm_hour t) ++ lit ":" ++ two_digits (tm_min t) ++ lit ":" ++ two_digits (tm_sec t).

Lemma strftime_text_eq : strftime_text TIMESTR_FORMAT false t = time_text.
Proof.
  pose proof (wt_year t Ht). unfold time_text, year_text.
  assert (sdec (tm_year t + 1900) = udec (tm_year t + 1900)) as <-.
  { unfold sdec. destruct (Z.ltb_spec (tm_year t + 1900) 0); [lia|done]. }
  rewrite <-(app_nil_r (two_digits (tm_sec t))). reflexivity.
Qed.

(** The fixed positions of the parts of a line. *)
Lemma line_fields y mo d h mi se us pr rest :
  length y = 4%nat → length mo = 2%nat → length d = 2%nat → length h = 2%nat → length mi = 2%nat →
  length se = 2%nat → length us = 6%nat → length pr = 6%nat →
  let line := (y ++ lit "-" ++ mo ++ lit "-" ++ d ++ lit " " ++ h ++ lit ":" ++ mi ++ lit ":" ++ se) ++
              lit "." ++ us ++ lit " [" ++ pr ++ lit "] " ++ rest in
  field 0 4 line = y ∧ field 5 2 line = mo ∧ field 8 2 line = d ∧ field 11 2 line = h ∧
  field 14 2 line = mi ∧ field 17 2 line = se ∧ field 20 6 line = us ∧ field 28 6 line = pr ∧
  drop 36 line = rest.
Proof.
  intros Hy Hmo Hd Hh Hmi Hse Hus Hpr.
  destruct y as [|y1 [|y2 [|y3 [|y4 [|? ?]]]]]; try discriminate.
  destruct mo as [|mo1 [|mo2 [|? ?]]]; try discriminate.
  destruct d as [|d1 [|d2 [|? ?]]]; try discriminate.
  destruct h as [|h1 [|h2 [|? ?]]]; try discriminate.
  destruct mi as [|mi1 [|mi2 [|? ?]]]; try discriminate.
  destruct se as [|se1 [|se2 [|? ?]]]; try discriminate.
  destruct us as [|u1 [|u2 [|u3 [|u4 [|u5 [|u6 [|? ?]]]]]]]; try discriminate.
  destruct pr as [|p1 [|p2 [|p3 [|p4 [|p5 [|p6 [|? ?]]]]]]]; try discriminate.
  by split_and!.
Qed.

Lemma timestr_eq : cstr (strftime junk TIMESTR_LEN TIMESTR_FORMAT t) = time_text.
Proof.
  pose proof (year_text_ok) as (Hyl & _ & Hyn).
  destruct Ht as [Hs Hmi Hh Hd Hmo _].
  destruct (two_digits_ok (tm_mon t + 1) ltac:(lia)) as (L1 & _ & N1).
  destruct (two_digits_ok (tm_mday t) ltac:(lia)) as (L2 & _ & N2).
  destruct (two_digits_ok (tm_hour t) ltac:(lia)) as (L3 & _ & N3).
  destruct (two_digits_ok (tm_min t) ltac:(lia)) as (L4 & _ & N4).
  destruct (two_digits_ok (tm_sec t) ltac:(lia)) as (L5 & _ & N5).
  assert (length time_text = 19%nat) as Hl.
  { unfold time_text. rewrite !length_app, Hyl, L1, L2, L3, L4, L5. reflexivity. }
  unfold strftime. rewrite strftime_text_eq, Hl. change (19 <? TIMESTR_LEN)%nat with true. cbv iota.
  apply cstr_term. unfold time_text.
  repeat (apply no_nul_app; [first [done|by apply no_nul_check]|]). done.
Qed.

Definition usec_text : bytes := pad (zero_padded 6) (udec usec).

Lemma log_line_eq :
  log_line p (strftime junk TIMESTR_LEN TIMESTR_FORMAT t) usec text =
  (log_stream p, time_text ++ lit "." ++ usec_text ++ lit " [" ++ prio_str p ++ lit "] " ++ text ++ [NL]).
Proof.
  unfold log_line. f_equal.
  transitivity ((cstr (strftime junk TIMESTR_LEN TIMESTR_FORMAT t) ++ lit "." ++
    pad (PSpec false true 6 true) (sdec usec) ++ lit " [" ++ cstr (prio_str p) ++ lit "] ") ++ text ++ [NL]).
  { reflexivity. }
  rewrite timestr_eq, (cstr_no_nul (prio_str p)) by (destruct p; by apply no_nul_check).
  assert (pad (PSpec false true 6 true) (sdec usec) = usec_text) as ->.
  { unfold sdec. destruct (Z.ltb_spec usec 0); [lia|done]. }
  by rewrite <-!app_assoc.
Qed.
End Line.

Lemma prio_found p :
  ∃ i, find_index (λ q, bytes_eqb (prio_str q) (prio_str p)) all_prios = Some i ∧ all_prios !! i = Some p.
Proof. destruct p; (eexists; split; [vm_compute; reflexivity|reflexivity]). Qed.

(** C40: a console line can be read back: for every time in the years of four digits,
    every priority and every message, the line [log_message] writes when the broker
    is no daemon yields exactly the time to the microsecond, the priority and the
    message again; the array of 32 bytes for the time is never too small. *)
Theorem log_line_roundtrip usec t junk p text :
  wf_tm t → 0 ≤ usec < 10 ^ 6 →
  ∃ f line, log_written false usec t junk p text = Console f line ∧
    read_line line = Some (t, usec, p, text).
Proof.
  intros Ht Hu. unfold log_written. cbn [negb]. rewrite (log_line_eq usec t junk text p Ht Hu).
  eexists _, _. split; [reflexivity|].
  destruct (year_text_ok t Ht) as (L0 & V0 & _). pose proof Ht as [Hs Hmi Hh Hd Hmo _].
  destruct (two_digits_ok (tm_mon t + 1) ltac:(lia)) as (L1 & V1 & _).
  destruct (two_digits_ok (tm_mday t) ltac:(lia)) as (L2 & V2 & _).
  destruct (two_digits_ok (tm_hour t) ltac:(lia)) as (L3 & V3 & _).
  destruct (two_digits_ok (tm_min t) ltac:(lia)) as (L4 & V4 & _).
  destruct (two_digits_ok (tm_sec t) ltac:(lia)) as (L5 & V5 & _).
  destruct (pad_zero_udec usec 6 Hu ltac:(lia)) as (L6 & V6 & _).
  unfold read_line, num_field, time_text.
  destruct (line_fields _ _ _ _ _ _ _ (prio_str p) (text ++ [NL]) L0 L1 L2 L3 L4 L5 L6 ltac:(by destruct p))
    as (F0 & F1 & F2 & F3 & F4 & F5 & F6 & F7 & F8).
  unfold usec_text, zero_padded. rewrite F0, F1, F2, F3, F4, F5, F6, F7, F8, V0, V1, V2, V3, V4, V5, V6.
  destruct (prio_found p) as (i & -> & ->). cbn. rewrite removelast_last.
  destruct t. cbn. do 4 f_equal. f_equal; lia.
Qed.
