(* ===== verification/ClientId.v ===== *)
(** * Client identifiers

    src/src/wd-broker.c: [parse_clientID], and the theory of the identifiers
    [make_clientID] produces: their shape, that distinct raw bytes give
    distinct identifiers, and that [parse_clientID] reads them back. *)

From S2P Require Import Prelude CString Scanf Common World.

Definition WD_CLIENTID_FMT_LEN : nat := 16.
Definition WD_CLIENTID_SCANF_FORMAT : bytes := lit "%16s %15s".

(** The checking loop of [parse_clientID]: lower case, or [None] at the first
    character that is no hexadecimal digit. *)
Fixpoint lower_hex (l : bytes) : option bytes :=
  match l with
  | [] => Some []
  | c :: r => if negb (isxdigit c) then None
              else match lower_hex r with None => None | Some o => Some (tolower c :: o) end
  end.

(** What [parse_clientID] makes of the text after the command word: the reply
    it sends, or the identifier array it fills in. *)
Definition scan_clientID (arg : bytes) : bytes + bytes :=
  let '(n, vs) := sscanf arg WD_CLIENTID_SCANF_FORMAT in
  if negb (n =? 1) then inl (lit "ERROR invalid syntax\n")
  else
    let clientID_raw := arg_str vs 0 in
    if negb (Nat.eqb (strlen clientID_raw) WD_CLIENTID_FMT_LEN)
    then inl (lit "ERROR invalid clientID length\n")
    else match lower_hex clientID_raw with
         | None => inl (lit "ERROR invalid clientID format\n")
         | Some o => inr (o ++ [NUL])
         end.

Definition parse_clientID (buf cmd_prefix : bytes) (sock : conn) : B (option bytes) :=
  match scan_clientID (drop (strlen cmd_prefix) buf) with
  | inl err => write_str sock err ;; mret None
  | inr out_id => mret (Some out_id)
  end.

(** ** The shape of identifiers *)

Definition is_lower_hex (c : ascii) : bool := isdigit c || in_range 97 102 c.

Lemma lower_hex_xdigit c : is_lower_hex c = true → isxdigit c = true.
Proof. unfold is_lower_hex, isxdigit, isdigit, in_range. lia. Qed.

Lemma lower_hex_tolower c : is_lower_hex c = true → tolower c = c.
Proof.
  unfold is_lower_hex, tolower, isupper, isdigit, in_range. intros H.
  destruct ((65 <=? code c) && (code c <=? 90)) eqn:E; [lia|done].
Qed.

Lemma xdigit_nonspace c : isxdigit c = true → nonspace c = true.
Proof.
  intros H. apply nonspace_true. unfold isxdigit, isdigit, isspace, in_range in *.
  destruct (Ascii.eqb_spec c SP) as [->|]; [vm_compute in H; done|]. lia.
Qed.

Lemma xdigit_not_nul c : isxdigit c = true → c ≠ NUL.
Proof. by intros H ->. Qed.

Lemma xdigits_no_nul l : Forall (λ c, isxdigit c = true) l → no_nul l.
Proof. intros H. eapply Forall_impl; [exact H|]. apply xdigit_not_nul. Qed.

Lemma xdigits_word l : Forall (λ c, isxdigit c = true) l → l ≠ [] → word l.
Proof. intros H Hn. split; [done|]. eapply Forall_impl; [exact H|]. apply xdigit_nonspace. Qed.

Lemma tolower_lower_hex c : isxdigit c = true → is_lower_hex (tolower c) = true.
Proof.
  unfold is_lower_hex, tolower, isxdigit, isupper, isdigit, in_range. intros H.
  destruct ((65 <=? code c) && (code c <=? 90)) eqn:E; [|lia].
  assert (65 ≤ code c ≤ 70) by lia. rewrite !code_ascii_of_Z by lia. lia.
Qed.

Lemma lower_hex_Some l o :
  lower_hex l = Some o ↔ Forall (λ c, isxdigit c = true) l ∧ o = tolower <$> l.
Proof.
  revert o. induction l as [|c r IH]; intros o; simpl.
  { split; [intros [= <-]; split; [constructor|done]|intros [_ ->]; done]. }
  destruct (isxdigit c) eqn:E; simpl.
  - destruct (lower_hex r) as [o'|].
    + rewrite Forall_cons. destruct (IH o') as [IH1 _]. specialize (IH1 eq_refl) as [Hr ->].
      split; [intros [= <-]; auto|]. intros [_ ->]. done.
    + rewrite Forall_cons. split; [done|]. intros [[_ Hr] ->].
      destruct (IH (tolower <$> r)) as [_ IH2]. by specialize (IH2 (conj Hr eq_refl)).
  - rewrite Forall_cons, E. split; [done|]. by intros [[? _] _].
Qed.

(** A well-formed identifier array: 16 lower-case digits and the terminator. *)
Definition is_clientID (id : bytes) : Prop :=
  ∃ d, id = d ++ [NUL] ∧ length d = WD_CLIENTID_FMT_LEN ∧
       Forall (λ c, is_lower_hex c = true) d.

Lemma is_clientID_length id : is_clientID id → length id = WD_CLIENTID_LEN.
Proof. intros (d & -> & H & _). rewrite length_app, H. done. Qed.

Lemma lower_hex_digits_no_nul d : Forall (λ c, is_lower_hex c = true) d → no_nul d.
Proof.
  intros H. apply xdigits_no_nul. eapply Forall_impl; [exact H|].
  apply lower_hex_xdigit.
Qed.

Lemma is_clientID_cstr id :
  is_clientID id → length (cstr id) = WD_CLIENTID_FMT_LEN ∧ id = cstr id ++ [NUL] ∧
    Forall (λ c, is_lower_hex c = true) (cstr id).
Proof.
  intros (d & -> & Hl & Hd). rewrite cstr_term by (by apply lower_hex_digits_no_nul). done.
Qed.

(** ** [make_clientID] *)

Section MakeClientID.
Context {E : Env}.

Lemma clientID_raw_length e : length (clientID_raw e) = raw_len.
Proof.
  unfold clientID_raw. destruct (en_urandom e) as [l|]; [|done].
  destruct (Nat.eqb_spec (length (take raw_len l)) raw_len) as [H|]; [|done].
  by rewrite length_fmap.
Qed.

Lemma clientID_raw_bytes e : Forall (λ b, 0 ≤ b < 256) (clientID_raw e).
Proof.
  assert (∀ l : list nat,
    Forall (λ b, 0 ≤ b < 256)
      ((λ i, Z.land (libc_random (clientID_seed e) i) 255) <$> l)) as Hf.
  { intros l. apply Forall_fmap, Forall_true. intros i. simpl.
    change 255 with (Z.ones 8). rewrite Z.land_ones by lia.
    apply Z.mod_pos_bound. lia. }
  unfold clientID_raw. destruct (en_urandom e) as [l|]; [|apply Hf].
  destruct (Nat.eqb _ _); [|apply Hf].
  apply Forall_fmap, Forall_true. intros b. apply Z.mod_pos_bound. lia.
Qed.

Lemma hex_digit_ok d : 0 ≤ d < 16 → is_lower_hex (hex_digit d) = true.
Proof.
  intros H. unfold hex_digit. rewrite <-(Z2Nat.id d) in H by lia.
  generalize dependent (Z.to_nat d). intros n H.
  do 16 (destruct n as [|n]; [reflexivity|]). lia.
Qed.

Lemma nibble_range b : 0 ≤ b < 256 → 0 ≤ Z.land (Z.shiftr b 4) 15 < 16 ∧ 0 ≤ Z.land b 15 < 16.
Proof.
  intros H. change 15 with (Z.ones 4). rewrite !Z.land_ones by lia.
  split; apply Z.mod_pos_bound; lia.
Qed.

Lemma hex_encode_length raw : length (hex_encode raw) = (2 * length raw)%nat.
Proof. induction raw as [|b r IH]; simpl; lia. Qed.

Lemma hex_encode_lower raw :
  Forall (λ b, 0 ≤ b < 256) raw → Forall (λ c, is_lower_hex c = true) (hex_encode raw).
Proof.
  induction 1 as [|b r Hb _ IH]; simpl; [constructor|].
  destruct (nibble_range b Hb). repeat constructor; auto using hex_digit_ok.
Qed.

Lemma clientID_of_ok e : is_clientID (clientID_of e).
Proof.
  exists (hex_encode (clientID_raw e)). split; [done|]. split.
  - rewrite hex_encode_length, clientID_raw_length. done.
  - apply hex_encode_lower, clientID_raw_bytes.
Qed.

(** The value of a digit, the inverse of [hex_digit]. *)
Let hexval (c : ascii) : Z := if isdigit c then code c - 48 else code c - 87.

Lemma hex_digit_inj a b : 0 ≤ a < 16 → 0 ≤ b < 16 → hex_digit a = hex_digit b → a = b.
Proof.
  assert (∀ d, 0 ≤ d < 16 → hexval (hex_digit d) = d) as H.
  { intros d Hd. unfold hex_digit. rewrite <-(Z2Nat.id d) at 2 by lia.
    assert (Z.to_nat d < 16)%nat as Hn by lia. revert Hn. generalize (Z.to_nat d).
    intros n Hn. do 16 (destruct n as [|n]; [reflexivity|]). lia. }
  intros Ha Hb Heq. by rewrite <-(H a Ha), Heq, (H b Hb).
Qed.

Lemma nibbles_inj a b :
  0 ≤ a < 256 → 0 ≤ b < 256 →
  Z.land (Z.shiftr a 4) 15 = Z.land (Z.shiftr b 4) 15 → Z.land a 15 = Z.land b 15 → a = b.
Proof.
  intros Ha Hb. change 15 with (Z.ones 4). rewrite !Z.land_ones, !Z.shiftr_div_pow2 by lia.
  change (2 ^ 4) with 16. rewrite !(Z.mod_small (_ / 16)) by
    (split; [apply Z.div_pos; lia|apply Z.div_lt_upper_bound; lia]).
  intros H1 H2. rewrite (Z.div_mod a 16), (Z.div_mod b 16) by lia. congruence.
Qed.

Lemma hex_encode_inj r1 r2 :
  Forall (λ b, 0 ≤ b < 256) r1 → Forall (λ b, 0 ≤ b < 256) r2 →
  hex_encode r1 = hex_encode r2 → r1 = r2.
Proof.
  intros H1; revert r2. induction H1 as [|a r1 Ha _ IH]; intros r2 H2; destruct H2 as [|b r2 Hb H2];
    simpl; try done.
  intros [= Hhi Hlo Hr]. destruct (nibble_range a Ha), (nibble_range b Hb).
  apply hex_digit_inj in Hhi, Hlo; auto.
  f_equal; [by apply nibbles_inj|by apply IH].
Qed.
End MakeClientID.

(** ** [parse_clientID] *)

Lemma all_space_app_inv a l : all_space (a ++ l) → all_space l.
Proof. intros H. by apply Forall_app in H as [_ ?]. Qed.

Lemma skip_ws_all_space l : all_space l → skip_ws l = [].
Proof. intros H. rewrite <-(app_nil_r l), skip_ws_app_space by done. done. Qed.

Lemma skip_ws_nil l : skip_ws l = [] → all_space l.
Proof. destruct (skip_ws_split l) as (a & H & Ha). intros E. rewrite E, app_nil_r in H. by subst. Qed.

Definition clientID_fmt : list directive := [DStr 16; DSpace; DStr 15].

Lemma clientID_fmt_parsed : parse_fmt WD_CLIENTID_SCANF_FORMAT FNone = clientID_fmt.
Proof. reflexivity. Qed.

(** One conversion exactly: a word of at most 16 characters between white space. *)
Lemma scan_clientID_one inp vs :
  sscanf inp WD_CLIENTID_SCANF_FORMAT = (1, vs) ↔
  ∃ a w b, cstr inp = a ++ w ++ b ∧ all_space a ∧ word w ∧ (length w ≤ 16)%nat ∧ all_space b ∧
    vs = [SStr w].
Proof.
  unfold sscanf. rewrite clientID_fmt_parsed. unfold clientID_fmt. split.
  - intros H. destruct (scan _ (cstr inp) []) as [vs' e] eqn:Hs.
    assert (vs' = vs ∧ length vs = 1%nat) as [-> Hl].
    { destruct vs' as [|v vs']; [destruct e; discriminate|].
      cbn [length] in H. injection H as H1 H2. subst vs. split; [done|].
      cbn [length]. lia. }
    destruct (scan_str_inv _ _ _ _ _ _ Hs) as [->|(w & rest & new & Hw & Hk & Hsk & Hvs & Hrest)];
      [lia|done|].
    assert (new = []) as -> by (subst vs; cbn [app length] in Hl; by destruct new).
    cbn [scan app] in Hrest.
    destruct (skip_ws (skip_ws rest)) as [|c i] eqn:Er.
    + destruct (skip_ws_split (cstr inp)) as (a & Ha & Has). rewrite Hsk in Ha.
      exists a, w, rest. split_and!; auto.
      apply skip_ws_nil in Er. destruct (skip_ws_split rest) as (b & Hb & Hbs).
      rewrite Hb. by apply Forall_app.
    + destruct (span nonspace 15 (c :: i)) as [t r]. injection Hrest as Hrest _. subst vs. done.
  - intros (a & w & b & -> & Ha & Hw & Hk & Hb & ->).
    rewrite scan_str_skip_all by done.
    rewrite scan_str_word; [|done|done|].
    2: { intros c r' ->. by apply Forall_cons in Hb as [? _]. }
    cbn [scan]. rewrite (skip_ws_all_space b) by done. done.
Qed.

Lemma scan_clientID_iff arg out :
  scan_clientID arg = inr out ↔
  ∃ a d b, cstr arg = a ++ d ++ b ∧ all_space a ∧ all_space b ∧
    length d = WD_CLIENTID_FMT_LEN ∧ Forall (λ c, isxdigit c = true) d ∧
    out = (tolower <$> d) ++ [NUL].
Proof.
  assert (∀ a w b, cstr arg = a ++ w ++ b → no_nul w) as Hnn.
  { intros a w b H. pose proof (no_nul_cstr arg) as Hn. rewrite H in Hn.
    apply Forall_app in Hn as [_ Hn]. by apply Forall_app in Hn as [? _]. }
  unfold scan_clientID. split.
  - destruct (sscanf arg WD_CLIENTID_SCANF_FORMAT) as [n vs] eqn:Hs.
    destruct (Z.eqb_spec n 1) as [->|]; [|done]. cbn [negb].
    apply scan_clientID_one in Hs as (a & w & b & Happ & Ha & Hw & _ & Hb & ->).
    cbn [arg_str lookup list_lookup from_option sval_str].
    unfold strlen. rewrite (cstr_no_nul w) by eauto.
    destruct (Nat.eqb_spec (length w) WD_CLIENTID_FMT_LEN) as [Hl|]; [|done]. cbn [negb].
    destruct (lower_hex w) as [o|] eqn:Ho; [|done]. intros [= <-].
    apply lower_hex_Some in Ho as [Hx ->]. exists a, w, b. done.
  - intros (a & d & b & Happ & Ha & Hb & Hl & Hx & ->).
    assert (d ≠ []) as Hne by (by intros ->).
    assert (sscanf arg WD_CLIENTID_SCANF_FORMAT = (1, [SStr d])) as ->.
    { apply scan_clientID_one. exists a, d, b. split_and!; auto using xdigits_word.
      rewrite Hl. done. }
    cbn [arg_str lookup list_lookup from_option sval_str].
    change (1 =? 1) with true. cbn [negb].
    unfold arg_str. cbn. unfold strlen. rewrite (cstr_no_nul d) by eauto. rewrite Hl.
    change (Nat.eqb WD_CLIENTID_FMT_LEN WD_CLIENTID_FMT_LEN) with true. cbn [negb].
    assert (lower_hex d = Some (tolower <$> d)) as -> by (by apply lower_hex_Some). done.
Qed.

(** [parse_clientID] accepts exactly one argument of 16 hexadecimal digits, in
    either case, surrounded by any white space, and fills in its lower-case form. *)
Theorem parse_clientID_accepts arg out :
  scan_clientID arg = inr out ↔
  ∃ a d b, cstr arg = a ++ d ++ b ∧ all_space a ∧ all_space b ∧
    length d = WD_CLIENTID_FMT_LEN ∧ Forall (λ c, isxdigit c = true) d ∧
    out = (tolower <$> d) ++ [NUL].
Proof. apply scan_clientID_iff. Qed.

Lemma tolower_lower_hex_id d :
  Forall (λ c, is_lower_hex c = true) d → tolower <$> d = d.
Proof.
  induction 1 as [|c d Hc _ IH]; [done|]. cbn. by rewrite lower_hex_tolower, IH by done.
Qed.

Lemma scan_clientID_print id a b :
  is_clientID id → all_space a → all_space b → no_nul a → no_nul b →
  scan_clientID (a ++ cstr id ++ b) = inr id.
Proof.
  intros Hid Ha Hb Hna Hnb. destruct (is_clientID_cstr id Hid) as (Hl & Heq & Hx).
  apply scan_clientID_iff. exists a, (cstr id), b. split_and!; auto.
  - rewrite cstr_no_nul; [done|]. auto with wd.
  - eapply Forall_impl; [exact Hx|]. apply lower_hex_xdigit.
  - by rewrite tolower_lower_hex_id.
Qed.

(** [make_clientID] always produces 16 lower-case hexadecimal digits and a
    terminator, and two calls give the same identifier exactly when they drew
    the same 8 raw bytes. *)
Theorem make_clientID_shape `{Env} e1 e2 :
  is_clientID (clientID_of e1) ∧
  (clientID_of e1 = clientID_of e2 ↔ clientID_raw e1 = clientID_raw e2).
Proof.
  split; [apply clientID_of_ok|]. unfold clientID_of. split; [|by intros ->].
  intros Heq. apply app_inj_tail in Heq as [Heq _].
  by apply hex_encode_inj in Heq; try apply clientID_raw_bytes.
Qed.
