(* ===== verification/Registry.v ===== *)
(** * The client table

    src/src/wd-broker.c: [get_clientInstance_by_name] and
    [get_clientInstance_by_clientID], the well-formedness of the table, and the
    specification of both searches. *)

From S2P Require Import Prelude CString Common World ClientId.

(** ** Search by name *)

Definition live (c : client_t) : bool := cl_active c || cl_anounced c.
Definition is_free (c : client_t) : bool := negb (cl_anounced c) && negb (cl_active c).
Definition named (name : bytes) (c : client_t) : bool := strcmp_eq (cl_name c) name.
Definition announced_for (name : bytes) (c : client_t) : bool :=
  cl_anounced c && negb (cl_active c) && named name c.
Definition active_named (name : bytes) (c : client_t) : bool := cl_active c && named name c.

(** First loop: an active client with the same name. *)
Fixpoint find_active_name (cs : list client_t) (name : bytes) : option client_t :=
  match cs with
  | [] => None
  | c :: r => if cl_active c && strcmp_eq (cl_name c) name then Some c
              else find_active_name r name
  end.

(** Second loop: the announced slot (where the loop breaks) and the first free
    slot seen before that. *)
Fixpoint scan_slots (cs : list client_t) (name : bytes) (i : nat) (free_slot : option nat)
    : option nat * option nat :=
  match cs with
  | [] => (None, free_slot)
  | c :: r =>
      if cl_anounced c && negb (cl_active c) && strcmp_eq (cl_name c) name
      then (Some i, free_slot)
      else scan_slots r name (S i)
             (if negb (cl_anounced c) && negb (cl_active c) && bool_decide (free_slot = None)
              then Some i else free_slot)
  end.

Definition get_clientInstance_by_name (name : bytes) (pid : Z) : B (option nat) :=
  cs ← gets clients;
  cfg ← gets config;
  match (if cfg_unique_clients cfg then find_active_name cs name else None) with
  | Some c =>
      log_message LOG_NOTICE
        (printf "Rejected PID%d with name '%s', name already in use by PID%d"
           [PI pid; PS name; PI (cl_pid c)]) ;;
      mret None
  | None =>
      let '(announced_slot, free_slot) := scan_slots cs name 0 None in
      if cfg_strict_clients cfg then
        (match announced_slot with
         | None => log_message LOG_NOTICE
                     (printf "Rejected PID%d with name '%s', not announced" [PI pid; PS name])
         | Some _ => mret tt
         end) ;;
        mret announced_slot
      else
        match announced_slot with
        | Some i => mret (Some i)
        | None =>
            (match free_slot with
             | None => log_message LOG_NOTICE
                         (printf "Rejected PID%d with name '%s', no free slot available"
                            [PI pid; PS name])
             | Some _ => mret tt
             end) ;;
            mret free_slot
        end
  end.

(** ** Search by identifier *)

Inductive identity : Type :=
  | WD_CLIENT_IDENTIFIED (i : nat)
  | WD_CLIENT_PID_MISMATCH (i : nat)
  | WD_CLIENT_NOT_FOUND.

Fixpoint find_clientID (cs : list client_t) (clientID : bytes) (pid : Z) (i : nat) : identity :=
  match cs with
  | [] => WD_CLIENT_NOT_FOUND
  | c :: r =>
      if (cl_active c || cl_anounced c) &&
         strncmp_eq WD_CLIENTID_FMT_LEN (cl_clientID c) clientID
      then if negb (cl_checkPID c) || (cl_pid c =? pid)
           then WD_CLIENT_IDENTIFIED i else WD_CLIENT_PID_MISMATCH i
      else find_clientID r clientID pid (S i)
  end.

Definition get_clientInstance_by_clientID (clientID : bytes) (pid : Z) : B identity :=
  cs ← gets clients; mret (find_clientID cs clientID pid 0).

(** ** Well-formed tables *)

(** Every slot holds arrays of the declared size with a terminated name; a live
    slot has a proper identifier, a timeout in range and a name; a slot is never
    announced and active at once, and an announced one has no PID yet. *)
Record wf_client (c : client_t) : Prop := {
  wf_id_len : length (cl_clientID c) = WD_CLIENTID_LEN;
  wf_name_len : length (cl_name c) = WD_CLIENT_NAME_LEN;
  wf_name_term : NUL ∈ cl_name c;
  wf_excl : cl_active c && cl_anounced c = false;
  wf_id : live c = true → is_clientID (cl_clientID c);
  wf_timeout : live c = true →
    WD_CLIENT_TIMEOUT_MIN_MS ≤ cl_timeout_ms c ≤ WD_CLIENT_TIMEOUT_MAX_MS;
  wf_named : live c = true → cstr (cl_name c) ≠ [];
}.

Definition wf_table (cs : list client_t) : Prop :=
  length cs = WD_MAX_CLIENTS ∧ Forall wf_client cs.

Lemma wf_client_zero : wf_client client_zero.
Proof.
  constructor; try done. apply elem_of_replicate. split; [done|]. unfold WD_CLIENT_NAME_LEN. lia.
Qed.

Lemma wf_table_zero : wf_table (replicate WD_MAX_CLIENTS client_zero).
Proof. split; [apply length_replicate|]. apply Forall_replicate_eq, wf_client_zero. Qed.

(** Changing one slot in a way that keeps it well formed keeps the table so. *)
Lemma wf_table_alter cs i f :
  wf_table cs → (∀ c, cs !! i = Some c → wf_client c → wf_client (f c)) → wf_table (alter f i cs).
Proof.
  intros [Hl Hw] Hf. split; [by rewrite length_alter|].
  apply Forall_alter; [done|]. intros c Hc Hwc. by apply Hf.
Qed.

Lemma wf_table_lookup cs i c : wf_table cs → cs !! i = Some c → wf_client c.
Proof. intros [_ Hw] Hc. by eapply Forall_lookup. Qed.

#[export] Hint Resolve wf_client_zero wf_table_zero wf_table_alter wf_table_lookup : wd.

(** A configuration [parse_config] can leave: every value in its range, the
    socket path terminated. *)
Definition WD_HW_TIMEOUT_DEFAULT_S : Z := 10.
Definition WD_HW_TIMEOUT_MIN_S : Z := WD_HW_TIMEOUT_DEFAULT_S.
Definition WD_HW_TIMEOUT_MAX_S : Z := 60.
Definition WD_REBOOT_TIMEOUT_DEFAULT_S : Z := 60.
Definition WD_REBOOT_TIMEOUT_MIN_S : Z := 10.
Definition WD_REBOOT_TIMEOUT_MAX_S : Z := 300.

Record wf_config (cfg : wd_config_t) : Prop := {
  wf_path_len : length (cfg_socket_path cfg) = WD_CLIENT_SOCKPATH_LEN;
  wf_path_term : last (cfg_socket_path cfg) = Some NUL;
  wf_wd_timeout : WD_HW_TIMEOUT_MIN_S ≤ cfg_wd_timeout_s cfg ≤ WD_HW_TIMEOUT_MAX_S;
  wf_reboot_timeout : WD_REBOOT_TIMEOUT_MIN_S ≤ cfg_reboot_timeout_s cfg ≤ WD_REBOOT_TIMEOUT_MAX_S;
}.

(** ** Specification of the search by name *)

(** The rules of the comment above [get_clientInstance_by_name]: with unique
    names an active client of that name forbids the registration; otherwise the
    first announced slot of that name, and unless clients are restricted to the
    announced ones the first free slot when there is none. *)
Definition slot_spec (cfg : wd_config_t) (cs : list client_t) (name : bytes) : option nat :=
  if cfg_unique_clients cfg && existsb (active_named name) cs then None
  else match find_index (announced_for name) cs with
       | Some i => Some i
       | None => if cfg_strict_clients cfg then None else find_index is_free cs
       end.

Lemma find_active_name_existsb cs name :
  is_Some (find_active_name cs name) ↔ existsb (active_named name) cs = true.
Proof.
  induction cs as [|c r IH]; cbn [find_active_name existsb].
  { split; [by intros [? ?]|done]. }
  unfold active_named at 1, named. destruct (cl_active c && strcmp_eq (cl_name c) name); simpl; [|done].
  split; [done|eauto].
Qed.

Lemma scan_slots_spec cs name i free_slot :
  scan_slots cs name i free_slot =
    (Nat.add i <$> find_index (announced_for name) cs,
     match free_slot with
     | Some f => Some f
     | None => snd (scan_slots cs name i None)
     end).
Proof.
  revert i free_slot. induction cs as [|c r IH]; intros i free_slot.
  { by destruct free_slot. }
  cbn [scan_slots find_index].
  fold (named name c). fold (announced_for name c).
  destruct (announced_for name c) eqn:Ea.
  { cbn. rewrite Nat.add_0_r. by destruct free_slot. }
  rewrite IH. cbn [snd].
  f_equal.
  - destruct (find_index _ r) as [k|]; [|done]. cbn. f_equal. lia.
  - destruct free_slot as [f|].
    + rewrite (bool_decide_eq_false_2 (Some f = None)), andb_false_r by done. done.
    + rewrite (bool_decide_eq_true_2 (@None nat = None)), andb_true_r by done.
      destruct (negb (cl_anounced c) && negb (cl_active c)); [|done].
      by rewrite (IH (S i) (Some i)).
Qed.

(** When no slot is announced for the name, the loop leaves the first free slot. *)
Lemma scan_slots_free cs name i :
  find_index (announced_for name) cs = None →
  snd (scan_slots cs name i None) = Nat.add i <$> find_index is_free cs.
Proof.
  revert i. induction cs as [|c r IH]; intros i H; [done|].
  cbn [scan_slots find_index] in *.
  fold (named name c). fold (announced_for name c).
  destruct (announced_for name c); [done|].
  assert (find_index (announced_for name) r = None) as Hr by (by destruct (find_index _ r)).
  rewrite (bool_decide_eq_true_2 (@None nat = None)), andb_true_r by done.
  fold (is_free c). rewrite scan_slots_spec. cbn [snd]. destruct (is_free c).
  - cbn. by rewrite Nat.add_0_r.
  - rewrite IH by done. destruct (find_index is_free r) as [k|]; [|done]. cbn. f_equal. lia.
Qed.

(** Traces only grow by log lines. *)
Definition log_only (es : list event) : Prop :=
  Forall (λ e, match e with EvLog _ _ => True | _ => False end) es.

Definition with_events (es : list event) (s : broker) : broker :=
  Broker (clients s) (config s) (running s) (reboot s) (daemonize s) (all_ok s) (watchdog_fd s)
         (now_ix s) (id_ix s) (trace s ++ es).

Lemma add_event_with s e : add_event e s = with_events [e] s.
Proof. done. Qed.

Lemma with_events_nil s : with_events [] s = s.
Proof. destruct s. unfold with_events. cbn. by rewrite app_nil_r. Qed.

(** [get_clientInstance_by_name] returns the slot the rules name, and changes
    nothing but the log. *)
Lemma get_clientInstance_by_name_spec name pid s :
  ∃ es, get_clientInstance_by_name name pid s
        = (Ret (slot_spec (config s) (clients s) name), with_events es s) ∧
    log_only es ∧
    (es = [] ↔ is_Some (slot_spec (config s) (clients s) name)).
Proof.
  unfold get_clientInstance_by_name, slot_spec, log_message, emit. mrun.
  destruct (cfg_unique_clients (config s) && existsb (active_named name) (clients s)) eqn:Eu.
  - apply andb_true_iff in Eu as [Hu Hex]. rewrite Hu.
    apply find_active_name_existsb in Hex as [c ->].
    eexists [_]. rewrite add_event_with. repeat split; [by repeat constructor|done|by intros [? ?]].
  - assert ((if cfg_unique_clients (config s) then find_active_name (clients s) name else None)
            = None) as ->.
    { destruct (cfg_unique_clients (config s)); [|done]. cbn in Eu.
      apply eq_None_not_Some. rewrite find_active_name_existsb. by rewrite Eu. }
    rewrite scan_slots_spec. cbn [fst snd].
    destruct (find_index (announced_for name) (clients s)) as [k|] eqn:Ef; cbn.
    + exists []. rewrite with_events_nil. destruct (cfg_strict_clients (config s)); (split; [done|split; [constructor|split; [eauto|done]]]).
    + rewrite scan_slots_free by done.
      destruct (cfg_strict_clients (config s)).
      * eexists [_]. rewrite add_event_with. repeat split; [by repeat constructor|done|by intros [? ?]].
      * destruct (find_index is_free (clients s)) as [k|]; cbn.
        -- exists []. rewrite with_events_nil. split; [done|split; [constructor|split; [eauto|done]]].
        -- eexists [_]. rewrite add_event_with.
           repeat split; [by repeat constructor|done|by intros [? ?]].
Qed.

(** C29: the search by name is what the rules say: the two loops of
    [get_clientInstance_by_name], the second of which remembers the first free slot
    on its way, compute the reference definition [slot_spec] on every table, under
    every configuration; they change nothing but the log, and log exactly when they
    refuse. *)
Theorem search_by_name_follows_rules name pid s :
  ∃ es, get_clientInstance_by_name name pid s
        = (Ret (slot_spec (config s) (clients s) name), with_events es s) ∧
    log_only es ∧ (es = [] ↔ is_Some (slot_spec (config s) (clients s) name)).
Proof. apply get_clientInstance_by_name_spec. Qed.
