(* ===== verification/Identifiers.v ===== *)
(** * Where the identifiers come from

    Every identifier of a live slot was made by [make_clientID], each draw went to
    one slot only: the invariant behind the distinctness of identifiers, and the
    two ways in which changes of the table keep it. *)

From S2P Require Import Prelude CString Scanf Common World ClientId Registry.

Section Identifiers.
Context {E : Env}.

(** What the [k]-th call of [make_clientID] returns. *)
Definition drawn_id (k : nat) : bytes := clientID_of (env_entropy k).

(** Slot [i], when live, holds the identifier of draw [f i], which was made. *)
Definition drawn_by (f : nat → nat) (s : broker) : Prop :=
  ∀ i c, clients s !! i = Some c → live c = true →
    (f i < id_ix s)%nat ∧ cl_clientID c = drawn_id (f i) ∧
    ∀ j d, clients s !! j = Some d → live d = true → f i = f j → i = j.

Definition drawn (s : broker) : Prop := ∃ f, drawn_by f s.

(** No slot becomes live and no live slot changes its identifier. *)
Definition ids_kept (s s' : broker) : Prop :=
  (id_ix s ≤ id_ix s')%nat ∧
  ∀ i c', clients s' !! i = Some c' → live c' = true →
    ∃ c, clients s !! i = Some c ∧ live c = true ∧ cl_clientID c = cl_clientID c'.

Lemma drawn_kept s s' : ids_kept s s' → drawn s → drawn s'.
Proof.
  intros [Hix Hk] [f Hf]. exists f. intros i c' Hi Hl.
  destruct (Hk i c' Hi Hl) as (c & Hc & Hcl & <-). destruct (Hf i c Hc Hcl) as (Hlt & Hid & Hinj).
  split; [lia|]. split; [done|]. intros j d' Hj Hjl Hff.
  destruct (Hk j d' Hj Hjl) as (d & Hd & Hdl & _). by eapply Hinj.
Qed.

Lemma ids_kept_same s s' : clients s' = clients s → (id_ix s ≤ id_ix s')%nat → ids_kept s s'.
Proof. intros Hc Hi. split; [done|]. rewrite Hc. eauto. Qed.

(** One slot changes, but not to another identifier. *)
Lemma ids_kept_insert s s' i c c' :
  clients s !! i = Some c → clients s' = <[i := c']> (clients s) → (id_ix s ≤ id_ix s')%nat →
  (live c' = true → live c = true ∧ cl_clientID c = cl_clientID c') → ids_kept s s'.
Proof.
  intros Hc Hcl Hix Hsame. split; [done|]. rewrite Hcl. intros j d Hj Hl.
  apply list_lookup_insert_Some in Hj as [(<- & <- & _)|[_ Hj]]; [|eauto].
  destruct (Hsame Hl). eauto.
Qed.

Lemma ids_kept_alter s s' i f :
  clients s' = alter f i (clients s) → (id_ix s ≤ id_ix s')%nat →
  (∀ c, live (f c) = true → live c = true ∧ cl_clientID c = cl_clientID (f c)) → ids_kept s s'.
Proof.
  intros Hcl Hix Hf. destruct (clients s !! i) as [c|] eqn:Hc.
  - eapply ids_kept_insert; [exact Hc|by rewrite Hcl; apply list_alter_known|done|apply Hf].
  - split; [done|]. rewrite Hcl. intros j d Hj Hl. rewrite list_lookup_alter_ne in Hj; [eauto|].
    intros <-. by rewrite list_lookup_alter_eq, Hc in Hj.
Qed.

(** One slot is given the next identifier. *)
Lemma drawn_new s s' i c' :
  clients s' = <[i := c']> (clients s) → id_ix s' = S (id_ix s) →
  cl_clientID c' = drawn_id (id_ix s) → drawn s → drawn s'.
Proof.
  intros Hcl Hix Hid [f Hf]. exists (λ j, if decide (j = i) then id_ix s else f j).
  assert (∀ j d, clients s' !! j = Some d → live d = true → j ≠ i →
    clients s !! j = Some d ∧ (f j < id_ix s)%nat) as Hold.
  { intros j d Hj Hl Hne. rewrite Hcl, list_lookup_insert_ne in Hj by done.
    split; [done|]. by destruct (Hf j d Hj Hl). }
  intros j d Hj Hl. rewrite Hix. case_decide as Hji.
  - subst j. rewrite Hcl in Hj. apply list_lookup_insert_Some in Hj as [(_ & <- & _)|[? _]]; [|done].
    split; [lia|]. split; [done|]. intros k e Hk Hkl Heq. case_decide as Hki; [done|].
    destruct (Hold k e Hk Hkl Hki). lia.
  - destruct (Hold j d Hj Hl Hji) as [Hj' Hlt]. split; [lia|].
    destruct (Hf j d Hj' Hl) as (_ & Hd & Hinj). split; [done|].
    intros k e Hk Hkl Heq. case_decide as Hki; [lia|].
    destruct (Hold k e Hk Hkl Hki) as [Hk' _]. by eapply Hinj.
Qed.

Lemma drawn_new_alter s s' i f :
  clients s' = alter f i (clients s) → id_ix s' = S (id_ix s) →
  (∀ c, cl_clientID (f c) = drawn_id (id_ix s)) → drawn s → drawn s'.
Proof.
  intros Hcl Hix Hid. destruct (clients s !! i) as [c|] eqn:Hc.
  - apply (drawn_new s s' i (f c)); auto. by rewrite Hcl; apply list_alter_known.
  - apply drawn_kept. split; [lia|]. rewrite Hcl. intros j d Hj Hl.
    rewrite list_lookup_alter_ne in Hj; [eauto|]. intros <-. by rewrite list_lookup_alter_eq, Hc in Hj.
Qed.

(** The draws up to the [n]-th, this one included, are pairwise different. *)
Definition draws_distinct (n : nat) : Prop := NoDup (drawn_id <$> seq 0 (S n)).

#[export] Instance draws_distinct_decision n : Decision (draws_distinct n).
Proof. unfold draws_distinct. apply _. Defined.

Lemma draws_distinct_mono m n : (m ≤ n)%nat → draws_distinct n → draws_distinct m.
Proof.
  unfold draws_distinct. intros Hle. replace (S n) with (S m + (n - m))%nat by lia.
  rewrite seq_app, fmap_app. by intros [? _]%NoDup_app.
Qed.

Lemma draws_distinct_inj n i j :
  draws_distinct n → (i ≤ n)%nat → (j ≤ n)%nat → drawn_id i = drawn_id j → i = j.
Proof.
  intros Hd Hi Hj Heq. eapply (NoDup_lookup (drawn_id <$> seq 0 (S n))); [exact Hd| |].
  - rewrite list_lookup_fmap, lookup_seq_lt by lia. done.
  - rewrite list_lookup_fmap, lookup_seq_lt by lia. cbn. by rewrite Heq.
Qed.

(** With distinct draws, live slots have distinct identifiers, and the next draw
    is none of them. *)
Lemma drawn_unique s i j c d :
  drawn s → draws_distinct (id_ix s) → clients s !! i = Some c → clients s !! j = Some d →
  live c = true → live d = true → cl_clientID c = cl_clientID d → i = j.
Proof.
  intros [f Hf] Hd Hi Hj Hcl Hdl Heq. destruct (Hf i c Hi Hcl) as (Hlt1 & Hid1 & Hinj).
  destruct (Hf j d Hj Hdl) as (Hlt2 & Hid2 & _). apply (Hinj j d Hj Hdl).
  apply (draws_distinct_inj (id_ix s)); [done|lia|lia|congruence].
Qed.

Lemma drawn_fresh s i c :
  drawn s → draws_distinct (id_ix s) → clients s !! i = Some c → live c = true →
  cl_clientID c ≠ drawn_id (id_ix s).
Proof.
  intros [f Hf] Hd Hi Hl Heq. destruct (Hf i c Hi Hl) as (Hlt & Hid & _).
  assert (f i = id_ix s) by (apply (draws_distinct_inj (id_ix s)); [done|lia|lia|congruence]). lia.
Qed.
End Identifiers.
