(* ===== verification/Status.v ===== *)
(** * The STATUS and VERSION replies

    src/src/wd-broker.c, the STATUS and VERSION branches of [handle_command]:
    the reply is assembled with [snprintf] in an array of fixed size.  The
    array, the running offset and the [size_t] arithmetic are explicit, so an
    access outside the array is an undefined outcome and not a longer string. *)

From S2P Require Import Prelude CString Scanf Common World ClientId Registry.

(** ** Assembling a message in an array *)

(** [msg + offset] is only a valid pointer up to one past the end. *)
Definition splice (msg : bytes) (off : nat) (data : bytes) : bytes :=
  take off msg ++ data ++ drop (off + length data) msg.

(** [offset += snprintf(msg + offset, sizeof(msg) - offset, ...)] with [text]
    the formatted output. *)
Definition snprintf_msg (m : bytes * Z) (text : bytes) : B (bytes * Z) :=
  let '(msg, offset) := m in
  let cap := Z.of_nat (length msg) in
  if cap <? offset then undef
  else
    let size := u64 (cap - offset) in
    let data := if size =? 0 then [] else take (Z.to_nat size - 1) text ++ [NUL] in
    mret (splice msg (Z.to_nat offset) data, offset + Z.of_nat (length text)).

(** [write(client_sock, msg, offset)] *)
Definition write_msg (sock : conn) (m : bytes * Z) : B unit :=
  let '(msg, offset) := m in
  if Z.of_nat (length msg) <? offset then undef
  else match conn_wfail sock with
       | None => emit (EvReply (take (Z.to_nat offset) msg))
       | Some err => log_message LOG_ERR
                       (printf "Failed to send status message: %s" [PS err])
       end.

Definition msg_zero (size : nat) : bytes * Z := (replicate size NUL, 0).

(** ** STATUS *)

Definition STATUS_MSG_LEN : nat := 4096.

Definition bool_str (b : bool) : bytes := if b then lit "true" else lit "false".

Fixpoint count_active (cs : list client_t) (n : Z) : Z :=
  match cs with
  | [] => n
  | c :: r => count_active r (if cl_active c then n + 1 else n)
  end.

Definition status_row (c : client_t) : bytes :=
  printf "%s %d %s %u %d\n"
    [PS (cl_clientID c); PI (cl_pid c); PS (cl_name c); PI (cl_timeout_ms c);
     PI (if cl_checkPID c then 1 else 0)].

Fixpoint status_rows (cs : list client_t) (m : bytes * Z) : B (bytes * Z) :=
  match cs with
  | [] => mret m
  | c :: r => if cl_active c || cl_anounced c
              then m ← snprintf_msg m (status_row c); status_rows r m
              else status_rows r m
  end.

Definition handle_status (sock : conn) (creds : ucred) (buf : bytes) : B unit :=
  if fst (sscanf (drop (strlen CMD_STATUS) buf) (lit " %31s")) =? 1
  then write_str sock (lit "ERROR invalid syntax\n")
  else if negb (cr_pid creds =? 0) && negb (cr_uid creds =? 0) then
    write_str sock (lit "ERROR no permission\n") ;;
    log_message LOG_WARNING (printf "Client with PID %d tried to list clients" [PI (cr_pid creds)])
  else
    config ← gets config;
    clients ← gets clients;
    m ← snprintf_msg (msg_zero STATUS_MSG_LEN) (printf "daemon_version=%s\n" [PS PACKAGE_VERSION]);
    m ← snprintf_msg m (printf "protocol_version=%s\n" [PS SOCKET_PROT_VERSION]);
    m ← snprintf_msg m (printf "wd_timeout_s=%d\n" [PI (cfg_wd_timeout_s config)]);
    m ← snprintf_msg m (printf "reboot_timeout_s=%d\n" [PI (cfg_reboot_timeout_s config)]);
    m ← snprintf_msg m (printf "strict_clients=%s\n" [PS (bool_str (cfg_strict_clients config))]);
    m ← snprintf_msg m (printf "unique_clients=%s\n" [PS (bool_str (cfg_unique_clients config))]);
    m ← snprintf_msg m (printf "active_clients=%zu\n" [PI (count_active clients 0)]);
    m ← status_rows clients m;
    write_msg sock m.

(** ** VERSION *)

Definition VERSION_MSG_LEN : nat := 128.

Definition handle_version (sock : conn) (buf : bytes) : B unit :=
  if fst (sscanf (drop (strlen CMD_VERSION) buf) (lit " %31s")) =? 1
  then write_str sock (lit "ERROR invalid syntax\n")
  else
    m ← snprintf_msg (msg_zero VERSION_MSG_LEN)
          (printf "wd-broker_version=%s\n" [PS PACKAGE_VERSION]);
    m ← snprintf_msg m (printf "protocol_version=%s\n" [PS SOCKET_PROT_VERSION]);
    write_msg sock m.

(** ** The array against the text *)

(** All pieces appended one after the other. *)
Fixpoint append_all (ts : list bytes) (m : bytes * Z) : B (bytes * Z) :=
  match ts with
  | [] => mret m
  | t :: r => m ← snprintf_msg m t; append_all r m
  end.

Definition status_header (cfg : wd_config_t) (cs : list client_t) : list bytes :=
  [printf "daemon_version=%s\n" [PS PACKAGE_VERSION];
   printf "protocol_version=%s\n" [PS SOCKET_PROT_VERSION];
   printf "wd_timeout_s=%d\n" [PI (cfg_wd_timeout_s cfg)];
   printf "reboot_timeout_s=%d\n" [PI (cfg_reboot_timeout_s cfg)];
   printf "strict_clients=%s\n" [PS (bool_str (cfg_strict_clients cfg))];
   printf "unique_clients=%s\n" [PS (bool_str (cfg_unique_clients cfg))];
   printf "active_clients=%zu\n" [PI (count_active cs 0)]].

Definition status_body (cs : list client_t) : list bytes :=
  status_row <$> List.filter live cs.

(** The full reply as a text, and its length. *)
Definition status_text (cfg : wd_config_t) (cs : list client_t) : bytes :=
  concat (status_header cfg cs ++ status_body cs).

Lemma append_all_app ts1 ts2 m s :
  append_all (ts1 ++ ts2) m s = (append_all ts1 m ≫= append_all ts2) s.
Proof.
  revert m s. induction ts1 as [|t r IH]; intros m s; [done|].
  cbn [append_all app]. rewrite !bind_eq.
  destruct (snprintf_msg m t s) as [[m'| |] s']; [apply IH|done|done].
Qed.

Lemma status_rows_append cs m s : status_rows cs m s = append_all (status_body cs) m s.
Proof.
  revert m s. induction cs as [|c r IH]; intros m s; [done|].
  unfold status_body. cbn [status_rows List.filter]. unfold live at 1.
  destruct (cl_active c || cl_anounced c); [|apply IH].
  cbn [fmap list_fmap append_all]. rewrite !bind_eq.
  destruct (snprintf_msg m (status_row c) s) as [[m'| |] s']; [apply IH|done|done].
Qed.

(** As long as the texts fit, the array holds them and NUL bytes. *)
Lemma append_all_fits ts pre k s :
  (length (concat ts) < k)%nat → Z.of_nat (length pre + k) < 2 ^ 64 →
  append_all ts (pre ++ replicate k NUL, Z.of_nat (length pre)) s
  = (Ret ((pre ++ concat ts) ++ replicate (k - length (concat ts)) NUL,
          Z.of_nat (length (pre ++ concat ts))), s).
Proof.
  revert pre k. induction ts as [|t r IH]; intros pre k Hk Hb.
  { cbn. by rewrite app_nil_r, Nat.sub_0_r. }
  cbn [concat append_all] in *. rewrite length_app in Hk. rewrite bind_eq.
  unfold snprintf_msg at 1. rewrite length_app, length_replicate.
  destruct (Z.ltb_spec (Z.of_nat (length pre + k)) (Z.of_nat (length pre))); [lia|].
  rewrite u64_small by lia.
  destruct (Z.eqb_spec (Z.of_nat (length pre + k) - Z.of_nat (length pre)) 0); [lia|].
  mrun. rewrite Nat2Z.id.
  rewrite (take_ge t) by lia.
  assert (splice (pre ++ replicate k NUL) (length pre) (t ++ [NUL])
          = (pre ++ t) ++ replicate (k - length t) NUL) as ->.
  { unfold splice. rewrite take_app_length. rewrite drop_app_add.
    rewrite length_app, drop_replicate. cbn [length].
    replace (k - length t)%nat with (S (k - (length t + 1))) by lia.
    cbn [replicate]. by rewrite <-!app_assoc. }
  replace (Z.of_nat (length pre) + Z.of_nat (length t)) with (Z.of_nat (length (pre ++ t)))
    by (rewrite length_app; lia).
  rewrite IH by (rewrite ?length_app; lia).
  by rewrite <-!app_assoc, (length_app t), Nat.sub_add_distr.
Qed.

Lemma snprintf_msg_shape m t s :
  snprintf_msg m t s = (Undef, s) ∨
  ∃ msg', snprintf_msg m t s = (Ret (msg', snd m + Z.of_nat (length t)), s) ∧
          (length (fst m) ≤ length msg')%nat ∧ (0 ≤ snd m → length msg' = length (fst m)).
Proof.
  destruct m as [msg off]. unfold snprintf_msg. cbn [fst snd].
  destruct (Z.ltb_spec (Z.of_nat (length msg)) off) as [|Hle]; [by left|]. right.
  eexists. split; [done|]. unfold splice.
  set (d := if u64 (Z.of_nat (length msg) - off) =? 0 then [] else _).
  assert (0 ≤ off → (length d ≤ length msg - Z.to_nat off)%nat) as Hd.
  { intros H0. subst d. destruct (Z.eqb_spec (u64 (Z.of_nat (length msg) - off)) 0); [simpl; lia|].
    rewrite length_app, length_take. simpl.
    assert (u64 (Z.of_nat (length msg) - off) ≤ Z.of_nat (length msg) - off)
      by (apply Z.mod_le; lia).
    pose proof (Z.mod_pos_bound (Z.of_nat (length msg) - off) (2 ^ 64)). unfold u64 in *. lia. }
  rewrite !length_app, length_take, length_drop. split; [lia|]. intros H0. specialize (Hd H0). lia.
Qed.

Lemma snprintf_msg_pure m t s :
  snprintf_msg m t s = (Undef, s) ∨ ∃ m', snprintf_msg m t s = (Ret m', s).
Proof.
  destruct (snprintf_msg_shape m t s) as [->|(msg' & -> & _)]; [by left|right; eauto].
Qed.

(** Appending more than fits and writing the result is undefined, whatever the
    pieces are. *)
Lemma append_all_overflow ts sock m s :
  0 ≤ snd m →
  Z.of_nat (length (fst m)) < snd m + Z.of_nat (length (concat ts)) →
  (append_all ts m ≫= write_msg sock) s = (Undef, s).
Proof.
  revert m. induction ts as [|t r IH]; intros [msg off] H0 Hlt.
  { cbn [fst snd concat length] in *. rewrite bind_eq. cbn. 
    destruct (Z.ltb_spec (Z.of_nat (length msg)) off); [done|lia]. }
  cbn [append_all concat fst snd] in *. rewrite length_app in Hlt. rewrite bind_eq, bind_eq.
  destruct (snprintf_msg_shape (msg, off) t s) as [->|(msg' & -> & _ & Hm)]; [done|].
  cbn [fst snd] in Hm. rewrite <-bind_eq. apply IH; cbn [fst snd]; [lia|].
  rewrite Hm by done. lia.
Qed.

(** What [write_msg] leaves in the trace for a text that fits. *)
Definition send_event (sock : conn) (text : bytes) : event :=
  match conn_wfail sock with
  | None => EvReply text
  | Some err => EvLog LOG_ERR (printf "Failed to send status message: %s" [PS err])
  end.

Lemma append_write_fits ts cap sock s :
  (length (concat ts) < cap)%nat → Z.of_nat cap < 2 ^ 64 →
  (append_all ts (msg_zero cap) ≫= write_msg sock) s
  = (Ret tt, with_events [send_event sock (concat ts)] s).
Proof.
  intros Hl Hc. rewrite bind_eq. unfold msg_zero.
  pose proof (append_all_fits ts [] cap s) as H. cbn [app length] in H.
  change (Z.of_nat 0) with 0 in H. rewrite H by (done || lia). clear H.
  unfold write_msg, send_event. rewrite length_app, length_replicate, Nat2Z.id, take_app_length.
  destruct (Z.ltb_spec (Z.of_nat (length (concat ts) + (cap - length (concat ts))))
              (Z.of_nat (length (concat ts)))); [lia|].
  by destruct (conn_wfail sock).
Qed.

(** ** What STATUS replies *)

(** Who may ask, and how the request looks. *)
Definition status_allowed (creds : ucred) : Prop := cr_pid creds = 0 ∨ cr_uid creds = 0.
Definition no_argument (cmd buf : bytes) : Prop :=
  fst (sscanf (drop (strlen cmd) buf) (lit " %31s")) ≠ 1.

Lemma handle_status_allowed sock creds buf s :
  status_allowed creds → no_argument CMD_STATUS buf →
  handle_status sock creds buf s =
  (append_all (status_header (config s) (clients s) ++ status_body (clients s))
     (msg_zero STATUS_MSG_LEN) ≫= write_msg sock) s.
Proof.
  intros Ha Hn. unfold handle_status, no_argument in *.
  destruct (Z.eqb_spec (fst (sscanf (drop (strlen CMD_STATUS) buf) (lit " %31s"))) 1); [done|].
  assert (negb (cr_pid creds =? 0) && negb (cr_uid creds =? 0) = false) as ->.
  { destruct Ha as [->| ->]; [done|]. by rewrite andb_false_r. }
  rewrite (bind_eq (append_all _ _)), append_all_app. unfold status_header.
  cbn [append_all]. mrun.
  repeat match goal with
  | |- context [snprintf_msg ?m ?t s] =>
      destruct (snprintf_msg_pure m t s) as [->|[? ->]]; [done|]
  end.
  by rewrite <-status_rows_append.
Qed.

Lemma status_text_length cfg cs :
  length (status_text cfg cs)
  = length (concat (status_header cfg cs ++ status_body cs)).
Proof. done. Qed.

(** C30: an authorised STATUS request whose reply is shorter than the 4096-byte
    buffer is answered with exactly the header lines followed by one row per
    live slot, in table order; nothing else changes. *)
Theorem handle_status_reply sock creds buf s :
  status_allowed creds → no_argument CMD_STATUS buf →
  (length (status_text (config s) (clients s)) < STATUS_MSG_LEN)%nat →
  handle_status sock creds buf s =
  (Ret tt, with_events [send_event sock (status_text (config s) (clients s))] s).
Proof.
  intros Ha Hn Hl. rewrite handle_status_allowed by done.
  by apply append_write_fits; [|vm_compute].
Qed.

(** An authorised STATUS request whose reply is longer than the 4096-byte
    buffer makes the broker access memory outside the buffer: the size argument
    of [snprintf] wraps around instead of stopping the output. *)
Theorem handle_status_overflow sock creds buf s :
  status_allowed creds → no_argument CMD_STATUS buf →
  (STATUS_MSG_LEN < length (status_text (config s) (clients s)))%nat →
  handle_status sock creds buf s = (Undef, s).
Proof.
  intros Ha Hn Hl. rewrite handle_status_allowed by done.
  apply append_all_overflow; unfold msg_zero; cbn [fst snd]; [done|].
  rewrite length_replicate. unfold status_text in Hl. lia.
Qed.

(** ** When the reply fits *)

Lemma status_row_eq c :
  status_row c = cstr (cl_clientID c) ++ SP :: sdec (s32 (cl_pid c)) ++
    SP :: cstr (cl_name c) ++ SP :: udec (u32 (cl_timeout_ms c)) ++
    SP :: sdec (s32 (if cl_checkPID c then 1 else 0)) ++ [NL].
Proof. reflexivity. Qed.

Lemma sdec_nonneg z : 0 ≤ z → sdec z = udec z.
Proof. intros. unfold sdec. destruct (Z.ltb_spec z 0); [lia|done]. Qed.

Lemma terminated_strlen l : NUL ∈ l → (strlen l < length l)%nat.
Proof.
  unfold strlen. induction l as [|c r IH]; [by intros ?%elem_of_nil|].
  intros [<-|Hr]%elem_of_cons; simpl; [lia|].
  destruct (Ascii.eqb c NUL); simpl; [lia|]. specialize (IH Hr). lia.
Qed.

Lemma status_row_length c :
  wf_client c → live c = true → 0 ≤ cl_pid c < 2 ^ 31 → (length (status_row c) ≤ 101)%nat.
Proof.
  intros Hw Hl Hp. rewrite status_row_eq.
  destruct (is_clientID_cstr _ (wf_id c Hw Hl)) as (Hid & _ & _).
  pose proof (terminated_strlen _ (wf_name_term c Hw)) as Hn. unfold strlen in Hn.
  rewrite (wf_name_len c Hw) in Hn. pose proof (wf_timeout c Hw Hl) as Ht.
  unfold WD_CLIENT_TIMEOUT_MIN_MS, WD_CLIENT_TIMEOUT_MAX_MS, WD_CLIENT_NAME_LEN,
    WD_CLIENTID_FMT_LEN in *.
  rewrite s32_small, sdec_nonneg by lia. rewrite u32_small by lia.
  assert (length (udec (cl_pid c)) ≤ 10)%nat by (apply udec_length; lia).
  assert (length (udec (cl_timeout_ms c)) ≤ 6)%nat by (apply udec_length; lia).
  assert (length (sdec (s32 (if cl_checkPID c then 1 else 0))) = 1)%nat by (by destruct (cl_checkPID c)).
  repeat (rewrite length_app || cbn [length]). lia.
Qed.

Lemma count_active_range cs n : n ≤ count_active cs n ≤ n + Z.of_nat (length cs).
Proof.
  revert n. induction cs as [|c r IH]; intros n; cbn [count_active length]; [lia|].
  specialize (IH (if cl_active c then n + 1 else n)). destruct (cl_active c); lia.
Qed.

Lemma status_header_lines cfg cs :
  status_header cfg cs =
  [lit "daemon_version=2.1.0\n"; lit "protocol_version=1.0\n";
   lit "wd_timeout_s=" ++ sdec (s32 (cfg_wd_timeout_s cfg)) ++ [NL];
   lit "reboot_timeout_s=" ++ sdec (s32 (cfg_reboot_timeout_s cfg)) ++ [NL];
   lit "strict_clients=" ++ bool_str (cfg_strict_clients cfg) ++ [NL];
   lit "unique_clients=" ++ bool_str (cfg_unique_clients cfg) ++ [NL];
   lit "active_clients=" ++ udec (u64 (count_active cs 0)) ++ [NL]].
Proof. by destruct cfg as [p w r [] []]. Qed.

Lemma status_header_length cfg cs :
  wf_config cfg → length cs = WD_MAX_CLIENTS → (length (concat (status_header cfg cs)) ≤ 139)%nat.
Proof.
  intros Hc Hl. rewrite status_header_lines.
  pose proof (wf_wd_timeout cfg Hc). pose proof (wf_reboot_timeout cfg Hc).
  unfold WD_HW_TIMEOUT_MIN_S, WD_HW_TIMEOUT_DEFAULT_S, WD_HW_TIMEOUT_MAX_S,
    WD_REBOOT_TIMEOUT_MIN_S, WD_REBOOT_TIMEOUT_MAX_S in *.
  pose proof (count_active_range cs 0) as Hn. rewrite Hl in Hn. unfold WD_MAX_CLIENTS in Hn.
  rewrite !s32_small, !sdec_nonneg, u64_small by lia.
  assert (length (udec (cfg_wd_timeout_s cfg)) ≤ 2)%nat by (apply udec_length; lia).
  assert (length (udec (cfg_reboot_timeout_s cfg)) ≤ 3)%nat by (apply udec_length; lia).
  assert (length (udec (count_active cs 0)) ≤ 2)%nat by (apply udec_length; lia).
  assert (∀ b, (length (bool_str b) ≤ 5)%nat) as Hb by (by intros []; vm_compute; lia).
  pose proof (Hb (cfg_strict_clients cfg)). pose proof (Hb (cfg_unique_clients cfg)).
  cbn [concat]. rewrite !length_app. cbn [length].
  change (length (lit "daemon_version=2.1.0\n")) with 21%nat.
  change (length (lit "protocol_version=1.0\n")) with 21%nat.
  change (length (lit "wd_timeout_s=")) with 13%nat.
  change (length (lit "reboot_timeout_s=")) with 17%nat.
  change (length (lit "strict_clients=")) with 15%nat.
  change (length (lit "unique_clients=")) with 15%nat.
  change (length (lit "active_clients=")) with 15%nat. lia.
Qed.

Lemma status_body_length cs :
  Forall wf_client cs → Forall (λ c, 0 ≤ cl_pid c < 2 ^ 31) cs →
  (length (concat (status_body cs)) ≤ 101 * length (List.filter live cs))%nat.
Proof.
  unfold status_body. induction 1 as [|c r Hc _ IH]; intros Hp; cbn [List.filter]; [done|].
  apply Forall_cons in Hp as [Hpc Hp]. specialize (IH Hp).
  destruct (live c) eqn:El; [|done]. cbn [fmap list_fmap concat length] in *.
  rewrite length_app. pose proof (status_row_length c Hc El Hpc). lia.
Qed.

Lemma status_text_fits cfg cs :
  wf_config cfg → wf_table cs → Forall (λ c, 0 ≤ cl_pid c < 2 ^ 31) cs →
  (length (List.filter live cs) ≤ 39)%nat →
  (length (status_text cfg cs) < STATUS_MSG_LEN)%nat.
Proof.
  intros Hc [Hl Hw] Hp Hn. unfold status_text, STATUS_MSG_LEN.
  rewrite concat_app, length_app.
  pose proof (status_header_length cfg cs Hc Hl). pose proof (status_body_length cs Hw Hp).
  change 4096%nat with (Z.to_nat 4096). lia.
Qed.

