(* ===== verification/Handlers.v ===== *)
(** * Command handlers

    src/src/wd-broker.c, [handle_command]: one definition per branch, composed
    by the dispatch the function makes on the command word. *)

From S2P Require Import Prelude CString Scanf Common World ClientId Registry Status.

Definition WD_REGISTER_SCANF_FORMAT : bytes := lit "%63s %u %15s %15s".

(** The checks REGISTER makes before it touches the table: the reply to a bad
    request, or name, timeout and [checkPID]. *)
Definition bad_name_char (c : ascii) : bool := negb (isprint c) || isspace c.

Definition parse_register (arg : bytes) : bytes + bytes * Z * bool :=
  let '(n, vs) := sscanf arg WD_REGISTER_SCANF_FORMAT in
  let name := arg_str vs 0 in
  let tmp_timeout := arg_int vs 1 in
  let opt_flag := arg_str vs 2 in
  if (n <? 2) || (n >? 3) then inl (lit "ERROR invalid REGISTER syntax\n")
  else if (n =? 3) && negb (strcmp_eq opt_flag (lit "ignorepid"))
  then inl (lit "ERROR invalid REGISTER syntax\n")
  else
    let checkPID := negb (n =? 3) in
    if (tmp_timeout <? WD_CLIENT_TIMEOUT_MIN_MS) || (tmp_timeout >? WD_CLIENT_TIMEOUT_MAX_MS)
    then inl (lit "ERROR invalid timeout\n")
    else if existsb bad_name_char (cstr name)
    then inl (lit "ERROR invalid client name\n")
    else inr (name, tmp_timeout, checkPID).

Section Handlers.
Context {E : Env}.

(** The fields a registration fills in, in the order of the code; [id] is a
    fresh identifier when the slot was not announced. *)
Definition register_fields (name : bytes) (pid : Z) (checkPID : bool) (timeout : Z)
    (now : timespec) (id : option bytes) (c : client_t) : client_t :=
  Client (from_option (λ x, x) (cl_clientID c) id)
         (strncpy WD_CLIENT_NAME_LEN name) pid timeout now true (cl_anounced c) checkPID.

Definition clear_anounced (c : client_t) : client_t :=
  Client (cl_clientID c) (cl_name c) (cl_pid c) (cl_timeout_ms c) (cl_last_ping c)
         (cl_active c) false (cl_checkPID c).

Definition set_last_ping (now : timespec) (c : client_t) : client_t :=
  Client (cl_clientID c) (cl_name c) (cl_pid c) (cl_timeout_ms c) now
         (cl_active c) (cl_anounced c) (cl_checkPID c).

(** [pClient->active = false; pClient->anounced = false;] *)
Definition deactivate (c : client_t) : client_t :=
  Client (cl_clientID c) (cl_name c) (cl_pid c) (cl_timeout_ms c) (cl_last_ping c)
         false false (cl_checkPID c).

(** [clients[i]] through the pointer a search returned. *)
Definition client_at (i : nat) (s : broker) : client_t := default client_zero (clients s !! i).

(** Announced clients got their identifier while the configuration was parsed. *)
Definition registration_id (anounced : bool) : B (option bytes) :=
  if anounced then mret None else id ← make_clientID; mret (Some id).

Definition handle_register (sock : conn) (creds : ucred) (buf : bytes) : B unit :=
  match parse_register (drop (strlen CMD_REGISTER) buf) with
  | inl err => write_str sock err
  | inr (name, tmp_timeout, checkPID) =>
      slot ← get_clientInstance_by_name name (cr_pid creds);
      match slot with
      | None => write_str sock (lit "ERROR rejected\n")
      | Some i =>
          now ← get_now;
          anounced ← gets (λ s, cl_anounced (client_at i s));
          id ← registration_id anounced;
          modify (alter_client i (register_fields name (cr_pid creds) checkPID tmp_timeout now id)) ;;
          c ← gets (client_at i);
          log_message LOG_INFO
            (printf "%s '%s' (PID %d) registered (timeout %d ms, pidCheck %s, clientID %s)"
               [PS (if cl_anounced c then lit "Announced client" else lit "Client");
                PS (cl_name c); PI (cl_pid c); PI (cl_timeout_ms c);
                PS (if checkPID then lit "enabled" else lit "disabled"); PS (cl_clientID c)]) ;;
          write_str sock (printf "OK %s\n" [PS (cl_clientID c)]) ;;
          modify (alter_client i clear_anounced)
      end
  end.

Definition handle_ping (sock : conn) (creds : ucred) (buf : bytes) : B unit :=
  clientID ← parse_clientID buf CMD_PING sock;
  match clientID with
  | None => mret tt
  | Some clientID =>
      ret ← get_clientInstance_by_clientID clientID (cr_pid creds);
      match ret with
      | WD_CLIENT_IDENTIFIED i =>
          now ← get_now;
          modify (alter_client i (set_last_ping now)) ;;
          write_str sock (lit "OK\n")
      | WD_CLIENT_PID_MISMATCH i =>
          write_str sock (lit "ERROR wrong PID\n") ;;
          c ← gets (client_at i);
          log_message LOG_WARNING
            (printf "Client '%s', known as PID %d has sent PING from PID %d"
               [PS (cl_name c); PI (cl_pid c); PI (cr_pid creds)])
      | WD_CLIENT_NOT_FOUND => write_str sock (lit "ERROR unknown clientID\n")
      end
  end.

Definition handle_unregister (sock : conn) (creds : ucred) (buf : bytes) : B unit :=
  clientID ← parse_clientID buf CMD_UNREGISTER sock;
  match clientID with
  | None => mret tt
  | Some clientID =>
      ret ← get_clientInstance_by_clientID clientID (cr_pid creds);
      match ret with
      | WD_CLIENT_IDENTIFIED i =>
          config ← gets config;
          c ← gets (client_at i);
          if cfg_strict_clients config && negb (cr_uid creds =? 0) then
            log_message LOG_WARNING
              (printf "UNREGISTER rejected for client '%s' (PID %d) with clientID %s"
                 [PS (cl_name c); PI (cl_pid c); PS (cl_clientID c)]) ;;
            write_str sock (lit "ERROR rejected\n")
          else
            log_message LOG_INFO
              (printf "Client '%s' (PID %d) unregistered (clientID=%s)"
                 [PS (cl_name c); PI (cl_pid c); PS (cl_clientID c)]) ;;
            modify (alter_client i deactivate) ;;
            write_str sock (lit "OK\n")
      | WD_CLIENT_PID_MISMATCH i =>
          if cr_uid creds =? 0 then
            modify (alter_client i deactivate) ;;
            write_str sock (lit "OK\n") ;;
            c ← gets (client_at i);
            log_message LOG_INFO
              (printf "Client '%s' (PID %d) unregistered by root (clientID=%s)"
                 [PS (cl_name c); PI (cl_pid c); PS (cl_clientID c)])
          else
            write_str sock (lit "ERROR no permission\n") ;;
            c ← gets (client_at i);
            log_message LOG_WARNING
              (printf "Client '%s', known as PID %d has sent UNREGISTER from PID %d"
                 [PS (cl_name c); PI (cl_pid c); PI (cr_pid creds)])
      | WD_CLIENT_NOT_FOUND => write_str sock (lit "ERROR unknown clientID\n")
      end
  end.

Definition handle_reboot (sock : conn) (creds : ucred) (buf : bytes) : B unit :=
  if fst (sscanf (drop (strlen CMD_REBOOT) buf) (lit " %15s")) =? 1
  then write_str sock (lit "ERROR invalid syntax\n")
  else if negb (cr_uid creds =? 0) then
    write_str sock (lit "ERROR no permission\n") ;;
    log_message LOG_WARNING
      (printf "Client with PID %d tried to activate reboot failsafe" [PI (cr_pid creds)])
  else
    config ← gets config;
    write_str sock (printf "OK, %d\n" [PI (cfg_reboot_timeout_s config)]) ;;
    modify (set_running false) ;;
    modify (set_reboot true) ;;
    log_message LOG_NOTICE (printf "Reboot failsafe requested by PID %d" [PI (cr_pid creds)]).

(** [strncmp(buf, CMD, strlen(CMD)) == 0] *)
Definition is_command (cmd buf : bytes) : bool := strncmp_eq (strlen cmd) buf cmd.

Definition dispatch (sock : conn) (creds : ucred) (buf : bytes) : B unit :=
  if is_command CMD_REGISTER buf then handle_register sock creds buf
  else if is_command CMD_PING buf then handle_ping sock creds buf
  else if is_command CMD_UNREGISTER buf then handle_unregister sock creds buf
  else if is_command CMD_REBOOT buf then handle_reboot sock creds buf
  else if is_command CMD_STATUS buf then handle_status sock creds buf
  else if is_command CMD_VERSION buf then handle_version sock buf
  else write_str sock (lit "ERROR unknown command\n").

Definition CMD_BUF_LEN : nat := 128.

Definition handle_command (sock : conn) : B unit :=
  match conn_peer sock with
  | inr err =>
      write_str sock (lit "ERROR reading peercred\n") ;;
      log_message LOG_ERR (printf "getsockopt: %s" [PS err])
  | inl creds =>
      let '(len, buf) := read_with_timeout (conn_select sock) (conn_read sock)
                           (replicate CMD_BUF_LEN NUL) CMD_BUF_LEN in
      if len <=? 0 then write_str sock (lit "ERROR no input\n")
      else dispatch sock creds buf
  end.
End Handlers.

(** ** The effect of each handler *)

(** What [write_str] leaves in the trace. *)
Definition reply_event (sock : conn) (text : bytes) : event :=
  match conn_wfail sock with
  | None => EvReply text
  | Some err => EvLog LOG_ERR (printf "vdprintf: %s" [PS err])
  end.

Lemma write_str_eq sock text s :
  write_str sock text s = (Ret tt, add_event (reply_event sock text) s).
Proof. unfold write_str, reply_event, log_message, emit. by destruct (conn_wfail sock). Qed.

(** The texts sent to clients in a piece of trace. *)
Definition replies (es : list event) : list bytes :=
  omap (λ e, match e with EvReply t => Some t | _ => None end) es.

Lemma replies_app es1 es2 : replies (es1 ++ es2) = replies es1 ++ replies es2.
Proof. apply omap_app. Qed.

Lemma replies_cons e es :
  replies (e :: es) = match e with EvReply t => t :: replies es | _ => replies es end.
Proof. by destruct e. Qed.

Lemma replies_log_only es : log_only es → replies es = [].
Proof. induction 1 as [|e es He _ IH]; [done|]. destruct e; try done. Qed.

(** The part of the state no request but REBOOT touches, clock and identifier
    counters apart; the trace only grows. *)
Record same_daemon (s s' : broker) (es : list event) : Prop := {
  sd_config : config s' = config s;
  sd_running : running s' = running s;
  sd_reboot : reboot s' = reboot s;
  sd_daemonize : daemonize s' = daemonize s;
  sd_all_ok : all_ok s' = all_ok s;
  sd_watchdog : watchdog_fd s' = watchdog_fd s;
  sd_trace : trace s' = trace s ++ es;
}.

Lemma same_daemon_refl s : same_daemon s s [].
Proof. constructor; try done. by rewrite app_nil_r. Qed.

Lemma same_daemon_trans s1 s2 s3 es1 es2 :
  same_daemon s1 s2 es1 → same_daemon s2 s3 es2 → same_daemon s1 s3 (es1 ++ es2).
Proof.
  intros [? ? ? ? ? ? H1] [? ? ? ? ? ? H2]. constructor; try congruence.
  rewrite H2, H1. by rewrite app_assoc.
Qed.

Lemma same_daemon_event s e : same_daemon s (add_event e s) [e].
Proof. by constructor. Qed.

(** Solves [same_daemon s s' es] for a state built from [s] by updates. *)
Ltac same_daemon :=
  constructor; cbn; rewrite <-?app_assoc; reflexivity.

Section HandlerFacts.
Context {E : Env}.

(** The slot a successful registration leaves. *)
Definition registered (name : bytes) (pid : Z) (checkPID : bool) (timeout : Z)
    (now : timespec) (id : bytes) : client_t :=
  Client id (strncpy WD_CLIENT_NAME_LEN name) pid timeout now true false checkPID.

(** The identifier it answers with: that of the announced slot, or a new one. *)
Definition registration_clientID (s : broker) (c : client_t) : bytes :=
  if cl_anounced c then cl_clientID c else clientID_of (env_entropy (id_ix s)).

Lemma alter_client_known i f s c :
  clients s !! i = Some c → alter_client i f s = set_clients (<[i:=f c]> (clients s)) s.
Proof. intros H. unfold alter_client. by rewrite (list_alter_known _ _ _ _ H). Qed.

Lemma client_at_known i s c : clients s !! i = Some c → client_at i s = c.
Proof. intros H. unfold client_at. by rewrite H. Qed.

Lemma handle_register_ok sock creds buf s name timeout checkPID i c :
  parse_register (drop (strlen CMD_REGISTER) buf) = inr (name, timeout, checkPID) →
  slot_spec (config s) (clients s) name = Some i → clients s !! i = Some c →
  let id := registration_clientID s c in
  ∃ s' l, handle_register sock creds buf s = (Ret tt, s') ∧
    same_daemon s s' [EvLog LOG_INFO l; reply_event sock (printf "OK %s\n" [PS id])] ∧
    clients s' = <[i := registered name (cr_pid creds) checkPID timeout (env_now (now_ix s)) id]>
                   (clients s) ∧
    now_ix s' = S (now_ix s) ∧
    id_ix s' = (if cl_anounced c then id_ix s else S (id_ix s)).
Proof.
  intros Hp Hs Hc id. unfold handle_register. rewrite Hp.
  destruct (get_clientInstance_by_name_spec name (cr_pid creds) s) as (es & Hg & _ & Hes).
  rewrite Hs in Hg, Hes. destruct Hes as [_ Hes]. rewrite Hes, with_events_nil in Hg by eauto.
  rewrite bind_eq, Hg. pose proof (lookup_lt_Some _ _ _ Hc) as Hlt.
  subst id. unfold get_now, registration_id, registration_clientID, make_clientID,
    log_message, emit. mrun.
  rewrite (client_at_known i _ c) by done.
  destruct (cl_anounced c) eqn:Ea.
  all: rewrite (alter_client_known i _ _ c) by done;
    rewrite (client_at_known i _ (register_fields name (cr_pid creds) checkPID timeout
               (env_now (now_ix s)) _ c)) by (cbn; by apply list_lookup_insert_eq);
    rewrite write_str_eq;
    rewrite (alter_client_known i _ _ (register_fields name (cr_pid creds) checkPID timeout
               (env_now (now_ix s)) _ c)) by (cbn; by apply list_lookup_insert_eq).
  all: do 2 eexists; split; [reflexivity|]; split; [same_daemon|].
  all: cbn; rewrite list_insert_insert_eq; done.
Qed.

Lemma handle_register_bad sock creds buf s err :
  parse_register (drop (strlen CMD_REGISTER) buf) = inl err →
  handle_register sock creds buf s = (Ret tt, add_event (reply_event sock err) s).
Proof. intros H. unfold handle_register. rewrite H. apply write_str_eq. Qed.

Lemma handle_register_rejected sock creds buf s name timeout checkPID :
  parse_register (drop (strlen CMD_REGISTER) buf) = inr (name, timeout, checkPID) →
  slot_spec (config s) (clients s) name = None →
  ∃ es, log_only es ∧ handle_register sock creds buf s =
    (Ret tt, with_events (es ++ [reply_event sock (lit "ERROR rejected\n")]) s).
Proof.
  intros Hp Hs. unfold handle_register. rewrite Hp.
  destruct (get_clientInstance_by_name_spec name (cr_pid creds) s) as (es & Hg & Hl & _).
  rewrite Hs in Hg. exists es. split; [done|]. rewrite bind_eq, Hg, write_str_eq.
  unfold add_event, with_events. cbn. by rewrite app_assoc.
Qed.

Lemma parse_clientID_bad buf cmd sock s err :
  scan_clientID (drop (strlen cmd) buf) = inl err →
  parse_clientID buf cmd sock s = (Ret None, add_event (reply_event sock err) s).
Proof. intros H. unfold parse_clientID. rewrite H, bind_eq, write_str_eq. done. Qed.

Lemma parse_clientID_good buf cmd sock s id :
  scan_clientID (drop (strlen cmd) buf) = inr id →
  parse_clientID buf cmd sock s = (Ret (Some id), s).
Proof. intros H. unfold parse_clientID. by rewrite H. Qed.

(** The state and the trace a PING leaves, for each outcome of the search. *)
Lemma handle_ping_eq sock creds buf s id :
  scan_clientID (drop (strlen CMD_PING) buf) = inr id →
  match find_clientID (clients s) id (cr_pid creds) 0 with
  | WD_CLIENT_IDENTIFIED i =>
      handle_ping sock creds buf s =
      (Ret tt, add_event (reply_event sock (lit "OK\n"))
                 (alter_client i (set_last_ping (env_now (now_ix s)))
                    (set_now_ix (S (now_ix s)) s)))
  | WD_CLIENT_PID_MISMATCH i =>
      ∃ l, handle_ping sock creds buf s =
        (Ret tt, with_events [reply_event sock (lit "ERROR wrong PID\n"); EvLog LOG_WARNING l] s)
  | WD_CLIENT_NOT_FOUND =>
      handle_ping sock creds buf s =
        (Ret tt, add_event (reply_event sock (lit "ERROR unknown clientID\n")) s)
  end.
Proof.
  intros H. unfold handle_ping. rewrite bind_eq, (parse_clientID_good _ _ _ _ id H).
  unfold get_clientInstance_by_clientID, get_now, log_message, emit. mrun.
  destruct (find_clientID _ _ _ _) as [i|i|]; rewrite write_str_eq; [done| |done].
  eexists. unfold add_event, with_events. cbn. by rewrite <-app_assoc.
Qed.

Lemma handle_ping_bad sock creds buf s err :
  scan_clientID (drop (strlen CMD_PING) buf) = inl err →
  handle_ping sock creds buf s = (Ret tt, add_event (reply_event sock err) s).
Proof. intros H. unfold handle_ping. by rewrite bind_eq, (parse_clientID_bad _ _ _ _ _ H). Qed.

(** Who may remove a client: the client itself unless clients are strict, and root. *)
Definition unregister_allowed (cfg : wd_config_t) (creds : ucred) (ret : identity) : option nat :=
  match ret with
  | WD_CLIENT_IDENTIFIED i =>
      if cfg_strict_clients cfg && negb (cr_uid creds =? 0) then None else Some i
  | WD_CLIENT_PID_MISMATCH i => if cr_uid creds =? 0 then Some i else None
  | WD_CLIENT_NOT_FOUND => None
  end.

Definition unregister_refusal (ret : identity) : bytes :=
  match ret with
  | WD_CLIENT_IDENTIFIED _ => lit "ERROR rejected\n"
  | WD_CLIENT_PID_MISMATCH _ => lit "ERROR no permission\n"
  | WD_CLIENT_NOT_FOUND => lit "ERROR unknown clientID\n"
  end.

Lemma handle_unregister_eq sock creds buf s id :
  scan_clientID (drop (strlen CMD_UNREGISTER) buf) = inr id →
  let ret := find_clientID (clients s) id (cr_pid creds) 0 in
  ∃ es1 es2, log_only es1 ∧ log_only es2 ∧
    handle_unregister sock creds buf s =
    (Ret tt, with_events (es1 ++ reply_event sock
                (match unregister_allowed (config s) creds ret with
                 | Some _ => lit "OK\n" | None => unregister_refusal ret end) :: es2)
       (match unregister_allowed (config s) creds ret with
        | Some i => alter_client i deactivate s
        | None => s
        end)).
Proof.
  intros H ret. unfold handle_unregister. rewrite bind_eq, (parse_clientID_good _ _ _ _ id H).
  unfold get_clientInstance_by_clientID, log_message, emit. mrun. fold ret.
  assert (∀ p l, log_only [EvLog p l]) as Hl by (intros; by repeat constructor).
  assert (log_only []) as Hn by constructor.
  destruct ret as [i|i|]; cbn [unregister_allowed unregister_refusal].
  - destruct (cfg_strict_clients (config s) && negb (cr_uid creds =? 0)).
    + rewrite write_str_eq. eexists [_], []. split; [apply Hl|split; [done|]].
      unfold add_event, with_events. cbn. by rewrite <-app_assoc.
    + rewrite write_str_eq. eexists [_], []. split; [apply Hl|split; [done|]].
      unfold add_event, with_events, alter_client, set_clients. cbn. by rewrite <-app_assoc.
  - destruct (cr_uid creds =? 0).
    + rewrite write_str_eq. eexists [], [_]. split; [done|split; [apply Hl|]].
      unfold add_event, with_events, alter_client, set_clients. cbn. by rewrite <-app_assoc.
    + rewrite write_str_eq. eexists [], [_]. split; [done|split; [apply Hl|]].
      unfold add_event, with_events. cbn. by rewrite <-app_assoc.
  - rewrite write_str_eq. exists [], []. done.
Qed.

Lemma handle_unregister_bad sock creds buf s err :
  scan_clientID (drop (strlen CMD_UNREGISTER) buf) = inl err →
  handle_unregister sock creds buf s = (Ret tt, add_event (reply_event sock err) s).
Proof. intros H. unfold handle_unregister. by rewrite bind_eq, (parse_clientID_bad _ _ _ _ _ H). Qed.

(** VERSION always fits its buffer. *)
Lemma handle_version_eq sock buf s :
  handle_version sock buf s =
  (Ret tt, add_event
     (if fst (sscanf (drop (strlen CMD_VERSION) buf) (lit " %31s")) =? 1
      then reply_event sock (lit "ERROR invalid syntax\n")
      else send_event sock (lit "wd-broker_version=2.1.0\nprotocol_version=1.0\n")) s).
Proof.
  unfold handle_version.
  destruct (fst (sscanf (drop (strlen CMD_VERSION) buf) (lit " %31s")) =? 1);
    [apply write_str_eq|].
  pose proof (append_write_fits
    [lit "wd-broker_version=2.1.0\n"; lit "protocol_version=1.0\n"] VERSION_MSG_LEN sock s) as H.
  assert ((length (concat [lit "wd-broker_version=2.1.0\n"; lit "protocol_version=1.0\n"])
           < VERSION_MSG_LEN)%nat) as Hl by (vm_compute; lia).
  specialize (H Hl ltac:(done)). cbn [append_all] in H. revert H. mrun.
  change (printf "wd-broker_version=%s\n" [PS PACKAGE_VERSION])
    with (lit "wd-broker_version=2.1.0\n").
  change (printf "protocol_version=%s\n" [PS SOCKET_PROT_VERSION])
    with (lit "protocol_version=1.0\n").
  destruct (snprintf_msg _ _ s) as [[m| |] s'] eqn:E1; [|done|done].
  destruct (snprintf_msg m _ s') as [[m'| |] s''] eqn:E2; done.
Qed.

Lemma handle_reboot_eq sock creds buf s :
  cr_uid creds = 0 → fst (sscanf (drop (strlen CMD_REBOOT) buf) (lit " %15s")) ≠ 1 →
  handle_reboot sock creds buf s =
  (Ret tt, set_reboot true (set_running false
     (with_events [reply_event sock (printf "OK, %d\n" [PI (cfg_reboot_timeout_s (config s))]);
                   EvLog LOG_NOTICE (printf "Reboot failsafe requested by PID %d"
                                       [PI (cr_pid creds)])] s))).
Proof.
  intros Hu Hn. unfold handle_reboot. apply Z.eqb_neq in Hn. rewrite Hn, Hu. cbn [negb Z.eqb].
  unfold log_message, emit. mrun. rewrite write_str_eq.
  unfold add_event, with_events, set_running, set_reboot. cbn. by rewrite <-app_assoc.
Qed.

Lemma handle_reboot_refused sock creds buf s :
  cr_uid creds ≠ 0 ∨ fst (sscanf (drop (strlen CMD_REBOOT) buf) (lit " %15s")) = 1 →
  ∃ es, handle_reboot sock creds buf s = (Ret tt, with_events es s).
Proof.
  intros H. unfold handle_reboot.
  destruct (Z.eqb_spec (fst (sscanf (drop (strlen CMD_REBOOT) buf) (lit " %15s"))) 1) as [E1|E1].
  { rewrite write_str_eq. by eexists [_]. }
  destruct H as [H|H]; [|done]. apply Z.eqb_neq in H. rewrite H. cbn [negb].
  rewrite bind_eq, write_str_eq. unfold log_message, emit. mrun. eexists [_; _].
  unfold add_event, with_events. cbn. by rewrite <-app_assoc.
Qed.
End HandlerFacts.
