(* ===== verification/Requests.v ===== *)
(** * Properties of request handling

    What REGISTER accepts, and the theorems about single requests: the table
    stays well formed, only the addressed slot changes, who may do what. *)

From S2P Require Import Prelude CString Scanf Common World ClientId Registry Identifiers Status Handlers.

(** ** What REGISTER accepts *)

Definition register_fmt : list directive := [DStr 63; DSpace; DUInt; DSpace; DStr 15; DSpace; DStr 15].

Lemma register_fmt_parsed : parse_fmt WD_REGISTER_SCANF_FORMAT FNone = register_fmt.
Proof. reflexivity. Qed.

Definition name_char (c : ascii) : bool := isprint c && negb (isspace c).

(** A name the broker stores: printable, no white space, 1 to 63 characters. *)
Definition good_name (name : bytes) : Prop :=
  name ≠ [] ∧ (length name < WD_CLIENT_NAME_LEN)%nat ∧ Forall (λ c, name_char c = true) name.

Lemma name_char_not_nul c : name_char c = true → c ≠ NUL.
Proof. by intros H ->. Qed.

Lemma good_name_no_nul name : good_name name → no_nul name.
Proof.
  intros (_ & _ & H). eapply Forall_impl; [exact H|]. apply name_char_not_nul.
Qed.

Lemma good_name_word name : good_name name → word name.
Proof.
  intros (Hn & _ & H). split; [done|]. eapply Forall_impl; [exact H|].
  intros c. unfold name_char, nonspace. by intros [_ ?]%andb_true_iff.
Qed.

Lemma bad_name_char_negb c : bad_name_char c = negb (name_char c).
Proof. unfold bad_name_char, name_char. by destruct (isprint c), (isspace c). Qed.

Lemma existsb_bad_name name :
  existsb bad_name_char name = false ↔ Forall (λ c, name_char c = true) name.
Proof.
  induction name as [|c r IH]; simpl; [by split|].
  rewrite orb_false_iff, IH, Forall_cons, bad_name_char_negb, negb_false_iff. done.
Qed.

#[export] Hint Resolve good_name_no_nul good_name_word : wd.

(** The first value of the scan is a word of the input. *)
Lemma sscanf_name buf n vs :
  sscanf buf WD_REGISTER_SCANF_FORMAT = (n, vs) → 1 ≤ n →
  ∃ w, arg_str vs 0 = w ∧ word w ∧ (length w ≤ 63)%nat ∧ no_nul w.
Proof.
  unfold sscanf. rewrite register_fmt_parsed. unfold register_fmt.
  destruct (scan _ (cstr buf) []) as [vs' e] eqn:Hs. intros H Hn.
  destruct (scan_str_inv _ _ _ _ _ _ Hs) as [->|(w & rest & new & Hw & Hk & Hsk & Hvs & _)];
    [lia|destruct e; injection H as <- <-; cbn in Hn; lia|].
  exists w. subst vs'. cbn [app] in H.
  assert (vs = SStr w :: new) as -> by (by injection H as _ <-).
  split_and!; auto.
  pose proof (no_nul_cstr buf) as Hnn. destruct (skip_ws_split (cstr buf)) as (a & Ha & _).
  rewrite Ha, Hsk in Hnn. apply Forall_app in Hnn as [_ Hnn]. by apply Forall_app in Hnn as [? _].
Qed.

(** Everything a request must satisfy before the table is touched. *)
Lemma parse_register_inr arg name timeout checkPID :
  parse_register arg = inr (name, timeout, checkPID) →
  good_name name ∧ WD_CLIENT_TIMEOUT_MIN_MS ≤ timeout ≤ WD_CLIENT_TIMEOUT_MAX_MS.
Proof.
  unfold parse_register. destruct (sscanf arg WD_REGISTER_SCANF_FORMAT) as [n vs] eqn:Hs.
  destruct ((n <? 2) || (n >? 3)) eqn:En; [done|].
  destruct ((n =? 3) && _); [done|].
  destruct ((arg_int vs 1 <? _) || _) eqn:Et; [done|].
  destruct (existsb bad_name_char (cstr (arg_str vs 0))) eqn:Eb; [done|].
  intros [= <- <- _]. destruct (sscanf_name arg n vs Hs) as (w & Ew & [Hne Hw] & Hl & Hnn); [lia|].
  rewrite Ew in *. rewrite cstr_no_nul in Eb by done. apply existsb_bad_name in Eb.
  split; [|lia]. split_and!; [done| |done]. unfold WD_CLIENT_NAME_LEN. lia.
Qed.

(** The request a client sends. *)
Definition register_arg (name : bytes) (timeout : Z) (ignorepid : bool) : bytes :=
  name ++ SP :: udec timeout ++ (if ignorepid then lit " ignorepid\n" else lit "\n").

Lemma not_digit_SP c r : c = SP ∨ c = NL → ∀ c' r', c :: r = c' :: r' → isdigit c' = false.
Proof. by intros [->| ->] c' r' [= <- <-]. Qed.

Lemma sscanf_register name timeout ignorepid :
  good_name name → 0 ≤ timeout < 2 ^ 64 →
  sscanf (register_arg name timeout ignorepid) WD_REGISTER_SCANF_FORMAT
  = (if ignorepid then 3 else 2,
     [SStr name; SUInt (u32 timeout)] ++ (if ignorepid then [SStr (lit "ignorepid")] else [])).
Proof.
  intros Hn Ht. pose proof (good_name_word name Hn) as Hw. pose proof (good_name_no_nul name Hn).
  destruct Hn as (_ & Hl & _). unfold WD_CLIENT_NAME_LEN in Hl.
  unfold sscanf. rewrite register_fmt_parsed. unfold register_fmt, register_arg.
  rewrite cstr_no_nul.
  2: { apply no_nul_app; [done|]. constructor; [done|]. apply no_nul_app; [apply udec_no_nul; lia|].
       destruct ignorepid; repeat constructor; discriminate. }
  rewrite scan_str_word; [|done|lia|by intros c r' [= <- <-]].
  rewrite scan_space_skip, scan_space, (word_skip (udec timeout)) by (done || apply udec_word; lia).
  rewrite (scan_uint_udec_mod timeout); [|lia|destruct ignorepid; apply not_digit_SP; auto].
  by destruct ignorepid.
Qed.

(** What counts is the timeout modulo 2^32. *)
Lemma parse_register_print_mod name timeout ignorepid :
  good_name name → 0 ≤ timeout < 2 ^ 64 →
  WD_CLIENT_TIMEOUT_MIN_MS ≤ u32 timeout ≤ WD_CLIENT_TIMEOUT_MAX_MS →
  parse_register (register_arg name timeout ignorepid) = inr (name, u32 timeout, negb ignorepid).
Proof.
  intros Hn H64 Ht. unfold parse_register. rewrite sscanf_register by done.
  assert (existsb bad_name_char (cstr name) = false) as Hb.
  { rewrite cstr_no_nul by auto with wd. apply existsb_bad_name. apply Hn. }
  assert ((u32 timeout <? WD_CLIENT_TIMEOUT_MIN_MS) || (u32 timeout >? WD_CLIENT_TIMEOUT_MAX_MS) = false)
    as Hr by lia.
  destruct ignorepid.
  - change (arg_str _ 0) with name. change (arg_int _ 1) with (u32 timeout). by rewrite Hr, Hb.
  - change (arg_str _ 0) with name. change (arg_int _ 1) with (u32 timeout). by rewrite Hr, Hb.
Qed.

Lemma parse_register_print name timeout ignorepid :
  good_name name → WD_CLIENT_TIMEOUT_MIN_MS ≤ timeout ≤ WD_CLIENT_TIMEOUT_MAX_MS →
  parse_register (register_arg name timeout ignorepid) = inr (name, timeout, negb ignorepid).
Proof.
  intros Hn Ht. pose proof Ht as Ht'. unfold WD_CLIENT_TIMEOUT_MIN_MS, WD_CLIENT_TIMEOUT_MAX_MS in Ht'.
  pose proof (parse_register_print_mod name timeout ignorepid Hn) as H.
  rewrite u32_small in H by lia. apply H; [lia|done].
Qed.

(** A REGISTER timeout is converted to 32 bits before it is checked, so a number
    far out of range is accepted as its value modulo 2^32: with 2^32 + t, t in
    range, the client is registered with timeout t. *)
Theorem register_timeout_wraps name timeout ignorepid :
  good_name name → WD_CLIENT_TIMEOUT_MIN_MS ≤ timeout ≤ WD_CLIENT_TIMEOUT_MAX_MS →
  parse_register (register_arg name (2 ^ 32 + timeout) ignorepid)
  = inr (name, timeout, negb ignorepid).
Proof.
  intros Hn Ht. pose proof Ht as Ht'. unfold WD_CLIENT_TIMEOUT_MIN_MS, WD_CLIENT_TIMEOUT_MAX_MS in Ht'.
  assert (u32 (2 ^ 32 + timeout) = timeout) as Hu.
  { unfold u32. rewrite Z.add_mod, Z.mod_same, Z.add_0_l, Z.mod_mod, Z.mod_small by lia. done. }
  rewrite <-Hu at 2. apply parse_register_print_mod; [done|lia|by rewrite Hu].
Qed.

Lemma register_timeout_wraps_witness :
  parse_register (register_arg (lit "sensorA") (2 ^ 32 + 5000) false) = inr (lit "sensorA", 5000, true).
Proof.
  apply (register_timeout_wraps (lit "sensorA") 5000 false); [|vm_compute; split; discriminate].
  split; [discriminate|]. split; [vm_compute; lia|]. repeat constructor.
Defined.

(** The REGISTER request with a printable name of at most 63 characters and an
    integer timeout in range, as the client library prints it, is parsed back to
    exactly that name, timeout and PID-check choice. *)
Theorem register_request_roundtrip name timeout ignorepid :
  good_name name → WD_CLIENT_TIMEOUT_MIN_MS ≤ timeout ≤ WD_CLIENT_TIMEOUT_MAX_MS →
  parse_register (register_arg name timeout ignorepid) = inr (name, timeout, negb ignorepid).
Proof. apply parse_register_print. Qed.

Lemma register_request_roundtrip_witness :
  parse_register (register_arg (lit "sensorA") 15000 true) = inr (lit "sensorA", 15000, false).
Proof.
  apply register_request_roundtrip; [|vm_compute; split; discriminate].
  split; [discriminate|]. split; [vm_compute; lia|]. repeat constructor.
Defined.

(** The field width of the name is the only separator [sscanf] needs: a REGISTER
    request whose argument is one unbroken run of 63 name characters and the
    digits of a timeout, without the blank the protocol demands, is accepted as
    a registration with the first 63 characters as the name. *)
Theorem register_accepts_missing_separator name timeout :
  good_name name → length name = 63%nat →
  WD_CLIENT_TIMEOUT_MIN_MS ≤ timeout ≤ WD_CLIENT_TIMEOUT_MAX_MS →
  parse_register (name ++ udec timeout ++ lit "\n") = inr (name, timeout, true).
Proof.
  intros Hn Hl Ht. pose proof (good_name_word name Hn). pose proof (good_name_no_nul name Hn).
  unfold WD_CLIENT_TIMEOUT_MIN_MS, WD_CLIENT_TIMEOUT_MAX_MS in Ht.
  assert (sscanf (name ++ udec timeout ++ lit "\n") WD_REGISTER_SCANF_FORMAT
          = (2, [SStr name; SUInt timeout])) as Hs.
  { unfold sscanf. rewrite register_fmt_parsed. unfold register_fmt.
    rewrite cstr_no_nul.
    2: { apply no_nul_app; [done|]. apply no_nul_app; [apply udec_no_nul; lia|].
         repeat constructor; discriminate. }
    rewrite scan_str_full by done. rewrite scan_space, word_skip by (apply udec_word; lia).
    rewrite (scan_uint_udec timeout); [done|lia|apply not_digit_SP; auto]. }
  unfold parse_register. rewrite Hs.
  assert (existsb bad_name_char (cstr name) = false) as Hb.
  { rewrite cstr_no_nul by done. apply existsb_bad_name. apply Hn. }
  assert ((timeout <? WD_CLIENT_TIMEOUT_MIN_MS) || (timeout >? WD_CLIENT_TIMEOUT_MAX_MS) = false)
    as Hr by (unfold WD_CLIENT_TIMEOUT_MIN_MS, WD_CLIENT_TIMEOUT_MAX_MS; lia).
  change (arg_str _ 0) with name. change (arg_int _ 1) with timeout. by rewrite Hr, Hb.
Qed.

Lemma register_accepts_missing_separator_witness :
  parse_register (replicate 63 "a"%char ++ udec 5000 ++ lit "\n")
  = inr (replicate 63 "a"%char, 5000, true).
Proof.
  apply register_accepts_missing_separator.
  - split; [discriminate|]. split; [vm_compute; lia|]. repeat constructor.
  - reflexivity.
  - vm_compute. split; discriminate.
Defined.

(** ** The search by identifier *)

Definition has_clientID (id : bytes) (c : client_t) : bool :=
  live c && strncmp_eq WD_CLIENTID_FMT_LEN (cl_clientID c) id.

(** The PID check a client asked for at registration. *)
Definition pid_ok (c : client_t) (pid : Z) : bool := negb (cl_checkPID c) || (cl_pid c =? pid).

Lemma find_clientID_index cs id pid k :
  find_clientID cs id pid k =
  match find_index (has_clientID id) cs with
  | None => WD_CLIENT_NOT_FOUND
  | Some j => match cs !! j with
              | Some c => if pid_ok c pid then WD_CLIENT_IDENTIFIED (k + j)
                          else WD_CLIENT_PID_MISMATCH (k + j)
              | None => WD_CLIENT_NOT_FOUND
              end
  end.
Proof.
  revert k. induction cs as [|c r IH]; intros k; [done|].
  cbn [find_clientID find_index]. fold (live c). fold (has_clientID id c). fold (pid_ok c pid).
  destruct (has_clientID id c); [cbn; by rewrite Nat.add_0_r|].
  rewrite IH. destruct (find_index (has_clientID id) r) as [j|]; [|done].
  cbn. destruct (r !! j) as [d|]; [|done]. destruct (pid_ok d pid); f_equal; lia.
Qed.

(** What the three results say about the table. *)
Lemma find_clientID_cases cs id pid :
  match find_clientID cs id pid 0 with
  | WD_CLIENT_IDENTIFIED i =>
      ∃ c, cs !! i = Some c ∧ has_clientID id c = true ∧ pid_ok c pid = true
  | WD_CLIENT_PID_MISMATCH i =>
      ∃ c, cs !! i = Some c ∧ has_clientID id c = true ∧ pid_ok c pid = false
  | WD_CLIENT_NOT_FOUND => Forall (λ c, has_clientID id c = false) cs
  end.
Proof.
  rewrite find_clientID_index. destruct (find_index (has_clientID id) cs) as [j|] eqn:Ej.
  - apply find_index_Some in Ej as (c & Hc & Hh & _). rewrite Hc. cbn [Nat.add].
    destruct (pid_ok c pid) eqn:Ep; eauto.
  - by apply find_index_None.
Qed.

Lemma slot_spec_cases cfg cs name i :
  slot_spec cfg cs name = Some i →
  ∃ c, cs !! i = Some c ∧ (announced_for name c = true ∨
                           (is_free c = true ∧ cfg_strict_clients cfg = false)).
Proof.
  unfold slot_spec. destruct (cfg_unique_clients cfg && _); [done|].
  destruct (find_index (announced_for name) cs) as [j|] eqn:Ej.
  - intros [= <-]. apply find_index_Some in Ej as (c & ? & ? & _). eauto.
  - destruct (cfg_strict_clients cfg); [done|]. intros Hf.
    apply find_index_Some in Hf as (c & ? & ? & _). eauto.
Qed.

(** ** The effect of one request on the table *)

Section Effect.
Context {E : Env}.

(** Every way a request of a process can change the table. *)
Inductive request_effect (creds : ucred) (s : broker) : list client_t → Prop :=
  | RE_none : request_effect creds s (clients s)
  | RE_register i c name timeout checkPID :
      slot_spec (config s) (clients s) name = Some i → clients s !! i = Some c →
      good_name name →
      WD_CLIENT_TIMEOUT_MIN_MS ≤ timeout ≤ WD_CLIENT_TIMEOUT_MAX_MS →
      request_effect creds s
        (<[i := registered name (cr_pid creds) checkPID timeout (env_now (now_ix s))
                  (registration_clientID s c)]> (clients s))
  | RE_ping i c :
      clients s !! i = Some c → live c = true → pid_ok c (cr_pid creds) = true →
      request_effect creds s (<[i := set_last_ping (env_now (now_ix s)) c]> (clients s))
  | RE_unregister i c :
      clients s !! i = Some c → live c = true →
      cr_uid creds = 0 ∨
      (pid_ok c (cr_pid creds) = true ∧ cfg_strict_clients (config s) = false) →
      request_effect creds s (<[i := deactivate c]> (clients s)).

(** Events a request leaves: log lines, and one answer unless writing fails. *)
Definition answer_of (sock : conn) (t : bytes) : list bytes :=
  match conn_wfail sock with None => [t] | Some _ => [] end.

Definition answered (sock : conn) (es : list event) : Prop :=
  Forall (λ e, match e with EvReply _ | EvLog _ _ => True | _ => False end) es ∧
  ∃ t, replies es = answer_of sock t.

Lemma answered_reply sock t es1 es2 :
  log_only es1 → log_only es2 → answered sock (es1 ++ reply_event sock t :: es2).
Proof.
  intros H1 H2. unfold answered, reply_event. split.
  - apply Forall_app. split; [|constructor].
    + eapply Forall_impl; [exact H1|]. by intros [].
    + by destruct (conn_wfail sock).
    + eapply Forall_impl; [exact H2|]. by intros [].
  - exists t. unfold answer_of. rewrite replies_app, (replies_log_only es1) by done.
    destruct (conn_wfail sock); cbn; [|f_equal]; by apply replies_log_only.
Qed.

Lemma answered_one sock t : answered sock [reply_event sock t].
Proof. apply (answered_reply sock t [] []); constructor. Qed.

Lemma answered_send sock t : answered sock [send_event sock t].
Proof.
  unfold answered, send_event, answer_of. split.
  - destruct (conn_wfail sock); by repeat constructor.
  - exists t. by destruct (conn_wfail sock).
Qed.

(** The whole outcome of one request. *)
Record request_outcome (sock : conn) (creds : ucred) (s s' : broker) (es : list event) : Prop := {
  ro_effect : request_effect creds s (clients s');
  ro_config : config s' = config s;
  ro_daemonize : daemonize s' = daemonize s;
  ro_all_ok : all_ok s' = all_ok s;
  ro_watchdog : watchdog_fd s' = watchdog_fd s;
  ro_trace : trace s' = trace s ++ es;
  ro_answer : answered sock es;
  ro_running : (running s' = running s ∧ reboot s' = reboot s) ∨
               (running s' = false ∧ reboot s' = true ∧ cr_uid creds = 0);
  ro_id_ix : (id_ix s ≤ id_ix s')%nat;
  ro_drawn : drawn s → drawn s';
}.

Lemma outcome_events sock creds s es :
  answered sock es → request_outcome sock creds s (with_events es s) es.
Proof. intros H. constructor; try done; [exact (RE_none creds s)|by left]. Qed.

Lemma outcome_same_daemon sock creds s s' es :
  same_daemon s s' es → answered sock es → request_effect creds s (clients s') →
  (id_ix s ≤ id_ix s')%nat → (drawn s → drawn s') → request_outcome sock creds s s' es.
Proof. intros [] Ha He. constructor; auto. Qed.

Lemma outcome_ids_kept sock creds s s' es :
  same_daemon s s' es → answered sock es → request_effect creds s (clients s') →
  ids_kept s s' → request_outcome sock creds s s' es.
Proof.
  intros Hs Ha He Hk. apply outcome_same_daemon; auto; [apply Hk|by apply drawn_kept].
Qed.

Lemma log_only_one p l : log_only [EvLog p l].
Proof. by repeat constructor. Qed.
Lemma log_only_nil : log_only [].
Proof. constructor. Qed.

Hint Resolve log_only_one log_only_nil answered_one answered_send answered_reply
  outcome_events RE_none : core.

Lemma handle_register_outcome sock creds buf s :
  wf_table (clients s) →
  ∃ s' es, handle_register sock creds buf s = (Ret tt, s') ∧ request_outcome sock creds s s' es.
Proof.
  intros Hw. destruct (parse_register (drop (strlen CMD_REGISTER) buf)) as [err|[[name t] chk]] eqn:Ep.
  { rewrite (handle_register_bad _ _ _ _ _ Ep), add_event_with. eauto. }
  destruct (slot_spec (config s) (clients s) name) as [i|] eqn:Es.
  - destruct (slot_spec_cases _ _ _ _ Es) as (c & Hc & _).
    destruct (handle_register_ok sock creds buf s name t chk i c Ep Es Hc)
      as (s' & l & -> & Hsd & Hcl & _ & Hix).
    apply parse_register_inr in Ep as [Hn Ht].
    do 2 eexists. split; [done|]. eapply outcome_same_daemon; [exact Hsd| | | |].
    + apply (answered_reply sock _ [_] []); auto.
    + rewrite Hcl. by eapply RE_register.
    + rewrite Hix. destruct (cl_anounced c); lia.
    + unfold registration_clientID in Hcl. destruct (cl_anounced c) eqn:Ea.
      * apply drawn_kept. eapply ids_kept_insert; [exact Hc|exact Hcl|lia|].
        intros _. split; [|done]. unfold live. by rewrite Ea, orb_true_r.
      * by eapply drawn_new.
  - destruct (handle_register_rejected sock creds buf s name t chk Ep Es) as (es & Hl & ->).
    do 2 eexists. split; [done|]. apply outcome_events. apply answered_reply; auto.
Qed.

Lemma has_clientID_live id c : has_clientID id c = true → live c = true.
Proof. unfold has_clientID. by intros [? _]%andb_true_iff. Qed.

Lemma handle_ping_outcome sock creds buf s :
  ∃ s' es, handle_ping sock creds buf s = (Ret tt, s') ∧ request_outcome sock creds s s' es.
Proof.
  destruct (scan_clientID (drop (strlen CMD_PING) buf)) as [err|id] eqn:Ei.
  { rewrite (handle_ping_bad _ _ _ _ _ Ei), add_event_with. eauto. }
  pose proof (handle_ping_eq sock creds buf s id Ei) as H.
  pose proof (find_clientID_cases (clients s) id (cr_pid creds)) as Hf.
  destruct (find_clientID (clients s) id (cr_pid creds) 0) as [i|i|].
  - destruct Hf as (c & Hc & Hh & Hp). rewrite H. do 2 eexists. split; [done|].
    apply outcome_ids_kept; [same_daemon|auto| |]; cbn.
    + rewrite (list_alter_known _ _ _ c) by done.
      eapply RE_ping; eauto using has_clientID_live.
    + by eapply ids_kept_alter.
  - destruct H as [l ->]. do 2 eexists. split; [done|]. apply outcome_events.
    apply (answered_reply sock _ [] [_]); auto.
  - rewrite H, add_event_with. eauto.
Qed.

Lemma handle_unregister_outcome sock creds buf s :
  ∃ s' es, handle_unregister sock creds buf s = (Ret tt, s') ∧ request_outcome sock creds s s' es.
Proof.
  destruct (scan_clientID (drop (strlen CMD_UNREGISTER) buf)) as [err|id] eqn:Ei.
  { rewrite (handle_unregister_bad _ _ _ _ _ Ei), add_event_with. eauto. }
  destruct (handle_unregister_eq sock creds buf s id Ei) as (es1 & es2 & H1 & H2 & ->).
  pose proof (find_clientID_cases (clients s) id (cr_pid creds)) as Hf.
  destruct (unregister_allowed _ _ _) as [i|] eqn:Ea; do 2 eexists; (split; [done|]);
    [|apply outcome_events; auto].
  apply outcome_ids_kept; [same_daemon|auto| |by eapply ids_kept_alter].
  cbn. unfold unregister_allowed in Ea.
  destruct (find_clientID (clients s) id (cr_pid creds) 0) as [j|j|]; [| |done].
  - destruct Hf as (c & Hc & Hh & Hp).
    destruct (cfg_strict_clients (config s) && _) eqn:Es; [done|]. injection Ea as <-.
    rewrite (list_alter_known _ _ _ c) by done.
    eapply RE_unregister; eauto using has_clientID_live.
    destruct (cfg_strict_clients (config s)); [left|by right]. cbn in Es.
    apply negb_false_iff, Z.eqb_eq in Es. done.
  - destruct Hf as (c & Hc & Hh & Hp).
    destruct (Z.eqb_spec (cr_uid creds) 0); [|done]. injection Ea as <-.
    rewrite (list_alter_known _ _ _ c) by done.
    eapply RE_unregister; eauto using has_clientID_live.
Qed.

Lemma handle_reboot_outcome sock creds buf s :
  ∃ s' es, handle_reboot sock creds buf s = (Ret tt, s') ∧ request_outcome sock creds s s' es.
Proof.
  unfold handle_reboot.
  destruct (_ =? 1); [rewrite write_str_eq, add_event_with; eauto|].
  destruct (Z.eqb_spec (cr_uid creds) 0) as [Hu|Hu]; cbn [negb];
    unfold log_message, emit; mrun; rewrite write_str_eq;
    eexists _, [_; _]; (split; [done|]).
  - constructor; cbn; try done; [by rewrite <-app_assoc| |by right].
    apply (answered_reply sock _ [] [_]); auto.
  - apply outcome_ids_kept; [same_daemon| |exact (RE_none creds s)|by apply ids_kept_same].
    apply (answered_reply sock _ [] [_]); auto.
Qed.

(** STATUS answers, or runs out of its buffer and changes nothing. *)
Lemma handle_status_events sock creds buf s :
  handle_status sock creds buf s = (Undef, s) ∨
  ∃ es, handle_status sock creds buf s = (Ret tt, with_events es s) ∧ answered sock es.
Proof.
  destruct (Z.eqb_spec (fst (sscanf (drop (strlen CMD_STATUS) buf) (lit " %31s"))) 1) as [E1|E1].
  { right. unfold handle_status. rewrite E1, Z.eqb_refl, write_str_eq, add_event_with. eauto. }
  destruct (negb (cr_pid creds =? 0) && negb (cr_uid creds =? 0)) eqn:Ea.
  { right. unfold handle_status. rewrite (proj2 (Z.eqb_neq _ _) E1), Ea.
    unfold log_message, emit. mrun. rewrite write_str_eq. eexists [_; _]. split.
    - unfold add_event, with_events. cbn. by rewrite <-app_assoc.
    - apply (answered_reply sock _ [] [_]); auto. }
  rewrite handle_status_allowed; [|unfold status_allowed; lia|done].
  rewrite bind_eq. generalize (status_header (config s) (clients s) ++ status_body (clients s)).
  intros ts. generalize (msg_zero STATUS_MSG_LEN). induction ts as [|t r IH]; intros m.
  - cbn. destruct m as [msg off]. unfold write_msg. destruct (_ <? off); [by left|]. right.
    fold (send_event sock (take (Z.to_nat off) msg)).
    destruct (conn_wfail sock) as [err|] eqn:Ew; unfold log_message, emit, modify.
    + rewrite add_event_with. eexists. split; [done|].
      split; [by repeat constructor|]. exists []. unfold answer_of. by rewrite Ew.
    + rewrite add_event_with. eexists. split; [done|].
      split; [by repeat constructor|]. unfold answer_of. rewrite Ew. cbn. eauto.
  - cbn [append_all]. rewrite bind_eq.
    destruct (snprintf_msg_pure m t s) as [->|[m' ->]]; [by left|apply IH].
Qed.

Lemma handle_status_outcome sock creds buf s :
  handle_status sock creds buf s = (Undef, s) ∨
  ∃ s' es, handle_status sock creds buf s = (Ret tt, s') ∧ request_outcome sock creds s s' es.
Proof.
  destruct (handle_status_events sock creds buf s) as [?|(es & -> & Ha)]; [by left|right; eauto].
Qed.

(** The outcome of a whole connection. *)
Lemma handle_command_outcome sock creds s :
  wf_table (clients s) → conn_peer sock = inl creds →
  handle_command sock s = (Undef, s) ∨
  ∃ s' es, handle_command sock s = (Ret tt, s') ∧ request_outcome sock creds s s' es.
Proof.
  intros Hw Hp. unfold handle_command. rewrite Hp.
  destruct (read_with_timeout _ _ _ _) as [len buf].
  destruct (len <=? 0); [right; rewrite write_str_eq, add_event_with; eauto|].
  unfold dispatch.
  destruct (is_command CMD_REGISTER buf); [right; by apply handle_register_outcome|].
  destruct (is_command CMD_PING buf); [right; by apply handle_ping_outcome|].
  destruct (is_command CMD_UNREGISTER buf); [right; by apply handle_unregister_outcome|].
  destruct (is_command CMD_REBOOT buf); [right; by apply handle_reboot_outcome|].
  destruct (is_command CMD_STATUS buf); [apply handle_status_outcome|].
  right. destruct (is_command CMD_VERSION buf).
  - rewrite handle_version_eq, add_event_with. destruct (_ =? 1); eauto.
  - rewrite write_str_eq, add_event_with. eauto.
Qed.

(** Only an authorised STATUS with an overlong reply is undefined. *)
Lemma handle_status_undef sock creds buf s s' :
  handle_status sock creds buf s = (Undef, s') →
  (STATUS_MSG_LEN ≤ length (status_text (config s) (clients s)))%nat.
Proof.
  intros Hu. destruct (decide (STATUS_MSG_LEN ≤ length (status_text (config s) (clients s)))%nat) as [|Hn];
    [done|exfalso].
  destruct (Z.eqb_spec (fst (sscanf (drop (strlen CMD_STATUS) buf) (lit " %31s"))) 1) as [E1|E1].
  { unfold handle_status in Hu. by rewrite E1, Z.eqb_refl, write_str_eq in Hu. }
  destruct (negb (cr_pid creds =? 0) && negb (cr_uid creds =? 0)) eqn:Ea.
  { unfold handle_status in Hu. rewrite (proj2 (Z.eqb_neq _ _) E1), Ea in Hu.
    unfold log_message, emit in Hu. mrun in Hu. by rewrite write_str_eq in Hu. }
  rewrite handle_status_allowed in Hu; [| |done].
  - rewrite append_write_fits in Hu; [done| |by vm_compute]. unfold status_text in Hn. lia.
  - unfold status_allowed. lia.
Qed.

Lemma handle_command_undef sock s s' :
  wf_table (clients s) → handle_command sock s = (Undef, s') →
  (STATUS_MSG_LEN ≤ length (status_text (config s) (clients s)))%nat.
Proof.
  intros Hw Hu. unfold handle_command in Hu.
  destruct (conn_peer sock) as [creds|err].
  2: { unfold log_message, emit in Hu. mrun in Hu. by rewrite write_str_eq in Hu. }
  destruct (read_with_timeout _ _ _ _) as [len buf].
  destruct (len <=? 0); [by rewrite write_str_eq in Hu|]. unfold dispatch in Hu.
  destruct (is_command CMD_REGISTER buf).
  { destruct (handle_register_outcome sock creds buf s Hw) as (? & ? & Ho & _). congruence. }
  destruct (is_command CMD_PING buf).
  { destruct (handle_ping_outcome sock creds buf s) as (? & ? & Ho & _). congruence. }
  destruct (is_command CMD_UNREGISTER buf).
  { destruct (handle_unregister_outcome sock creds buf s) as (? & ? & Ho & _). congruence. }
  destruct (is_command CMD_REBOOT buf).
  { destruct (handle_reboot_outcome sock creds buf s) as (? & ? & Ho & _). congruence. }
  destruct (is_command CMD_STATUS buf); [by eapply handle_status_undef|].
  destruct (is_command CMD_VERSION buf); [by rewrite handle_version_eq in Hu|by rewrite write_str_eq in Hu].
Qed.

(** A connection whose peer cannot be identified only gets an error. *)
Lemma handle_command_no_peer sock err s :
  conn_peer sock = inr err →
  ∃ es, handle_command sock s = (Ret tt, with_events es s) ∧ answered sock es.
Proof.
  intros Hp. unfold handle_command. rewrite Hp.
  unfold log_message, emit. mrun. rewrite write_str_eq. eexists [_; _].
  split.
  - unfold add_event, with_events. cbn. by rewrite <-app_assoc.
  - apply (answered_reply sock _ [] [_]); auto.
Qed.

(** ** Well-formedness *)

Lemma live_announced name c : announced_for name c = true → live c = true.
Proof.
  unfold announced_for, live. intros H. apply andb_true_iff in H as [H _].
  apply andb_true_iff in H as [H _]. rewrite H. apply orb_true_r.
Qed.

Lemma wf_registered name pid chk t now id :
  good_name name → WD_CLIENT_TIMEOUT_MIN_MS ≤ t ≤ WD_CLIENT_TIMEOUT_MAX_MS →
  is_clientID id → wf_client (registered name pid chk t now id).
Proof.
  intros Hn Ht Hid. pose proof (good_name_no_nul name Hn) as Hnn.
  destruct Hn as (Hne & Hl & _).
  assert (strlen name < WD_CLIENT_NAME_LEN)%nat by (unfold strlen; by rewrite cstr_no_nul).
  constructor; cbn; intros; auto using is_clientID_length, strncpy_length, strncpy_terminated.
  by rewrite cstr_strncpy, cstr_no_nul.
Qed.

Lemma wf_deactivate c : wf_client c → wf_client (deactivate c).
Proof. intros []. by constructor. Qed.

Lemma wf_set_last_ping now c : wf_client c → wf_client (set_last_ping now c).
Proof. intros []. by constructor. Qed.

Lemma wf_table_insert cs i c : wf_table cs → wf_client c → wf_table (<[i:=c]> cs).
Proof. intros [Hl Hw] Hc. split; [by rewrite length_insert|by apply Forall_insert]. Qed.

Lemma registration_clientID_ok s i c name :
  wf_table (clients s) → slot_spec (config s) (clients s) name = Some i →
  clients s !! i = Some c → is_clientID (registration_clientID s c).
Proof.
  intros Hw Hs Hc. unfold registration_clientID. destruct (cl_anounced c) eqn:Ea.
  - apply (wf_id c); [by eapply wf_table_lookup|]. unfold live. rewrite Ea. apply orb_true_r.
  - apply clientID_of_ok.
Qed.

Lemma request_effect_wf creds s cs' :
  wf_table (clients s) → request_effect creds s cs' → wf_table cs'.
Proof.
  intros Hw [|i c name t chk Hs Hc Hn Ht|i c Hc|i c Hc]; [done|..]; apply wf_table_insert; auto.
  - apply wf_registered; auto. by eapply registration_clientID_ok.
  - apply wf_set_last_ping. by eapply wf_table_lookup.
  - apply wf_deactivate. by eapply wf_table_lookup.
Qed.
(** Requests never settle or unsettle supervision. *)
Lemma handle_command_all_ok sock s o s' :
  wf_table (clients s) → handle_command sock s = (o, s') → all_ok s' = all_ok s.
Proof.
  intros Hw Hh. destruct (conn_peer sock) as [creds|err] eqn:Hp.
  - destruct (handle_command_outcome sock creds s Hw Hp) as [Hu|(s1 & es & He & Ho)].
    + rewrite Hu in Hh. by injection Hh as _ <-.
    + rewrite He in Hh. injection Hh as _ <-. apply (ro_all_ok _ _ _ _ _ Ho).
  - destruct (handle_command_no_peer sock err s Hp) as (es & He & _).
    rewrite He in Hh. by injection Hh as _ <-.
Qed.

(** A process that is neither root nor the one that registered [c]. *)
Definition stranger (c : client_t) (creds : ucred) : Prop :=
  cl_pid c ≠ cr_pid creds ∧ cr_uid creds ≠ 0.

Lemma stranger_effect creds s cs' i c :
  clients s !! i = Some c → cl_active c = true → cl_checkPID c = true → stranger c creds →
  request_effect creds s cs' → cs' !! i = Some c.
Proof.
  intros Hc Ha Hk [Hpid Hu] Ho.
  assert (pid_ok c (cr_pid creds) = false) as Hno.
  { unfold pid_ok. rewrite Hk. cbn. by apply Z.eqb_neq. }
  destruct Ho as [|j d name t chk Hs Hd|j d Hd _ Hok|j d Hd _ Hok]; [done|..];
    destruct (decide (i = j)) as [<-|Hne]; rewrite ?list_lookup_insert_ne by done; try done;
    assert (d = c) as -> by congruence.
  - destruct (slot_spec_cases _ _ _ _ Hs) as (d' & Hd' & Hcase).
    assert (d' = c) as -> by congruence. exfalso.
    unfold announced_for, is_free in Hcase. rewrite Ha in Hcase.
    destruct Hcase as [Hcase|[Hcase _]]; cbn in Hcase;
      rewrite ?andb_false_r in Hcase; cbn in Hcase; done.
  - congruence.
  - destruct Hok as [|[Hok _]]; congruence.
Qed.

(** A request of a stranger leaves the slot alone, and cannot stop the daemon. *)
Lemma stranger_request sock creds s o s' i c :
  wf_table (clients s) → conn_peer sock = inl creds →
  clients s !! i = Some c → cl_active c = true → cl_checkPID c = true → stranger c creds →
  handle_command sock s = (o, s') →
  clients s' !! i = Some c ∧ reboot s' = reboot s ∧ running s' = running s.
Proof.
  intros Hw Hp Hc Ha Hk Hst Hh.
  destruct (handle_command_outcome sock creds s Hw Hp) as [Hx|(s1 & es & He & Ho)].
  { rewrite Hx in Hh. by injection Hh as <- <-. }
  rewrite He in Hh. injection Hh as <- <-. destruct Ho as [Ho _ _ _ _ _ _ Hr _ _].
  split; [by eapply stranger_effect|]. destruct Hst as [_ Hu]. destruct Hr as [[? ?]|(_ & _ & ?)]; done.
Qed.

End Effect.

(** C18: whatever a client sends, in whatever state of the connection, the handler
    leaves the client table well formed (array bounds, terminated names,
    proper identifiers, timeouts in range, never announced and active at
    once), leaves the configuration and the supervision flag alone, and never
    ends the process itself. *)
Theorem handle_command_preserves_table `{Env} sock s o s' :
  wf_table (clients s) → handle_command sock s = (o, s') →
  wf_table (clients s') ∧ config s' = config s ∧ all_ok s' = all_ok s ∧
  watchdog_fd s' = watchdog_fd s ∧ (o = Ret tt ∨ (o = Undef ∧ s' = s)).
Proof.
  intros Hw Hh. destruct (conn_peer sock) as [creds|err] eqn:Hp.
  - destruct (handle_command_outcome sock creds s Hw Hp) as [Hu|(s1 & es & He & Ho)].
    + rewrite Hu in Hh. injection Hh as <- <-. auto 10.
    + rewrite He in Hh. injection Hh as <- <-. destruct Ho.
      split; [by eapply request_effect_wf|auto].
  - destruct (handle_command_no_peer sock err s Hp) as (es & He & _).
    rewrite He in Hh. injection Hh as <- <-. auto 10.
Qed.

(** Every connection is answered with exactly one message, provided writing to
    it works and the request does not overrun the STATUS buffer. *)
Theorem every_request_answered_once `{Env} sock s s' :
  wf_table (clients s) → conn_wfail sock = None → handle_command sock s = (Ret tt, s') →
  ∃ es t, trace s' = trace s ++ es ∧ replies es = [t].
Proof.
  intros Hw Hf Hh. destruct (conn_peer sock) as [creds|err] eqn:Hp.
  - destruct (handle_command_outcome sock creds s Hw Hp) as [Hu|(s1 & es & He & Ho)];
      [congruence|].
    rewrite He in Hh. injection Hh as <-. destruct Ho as [_ _ _ _ _ Ht [_ Ha] _ _ _].
    destruct Ha as [t Ha]. exists es, t. split; [done|]. rewrite Ha. unfold answer_of. by rewrite Hf.
  - destruct (handle_command_no_peer sock err s Hp) as (es & He & [_ [t Ha]]).
    rewrite He in Hh. injection Hh as <-. exists es, t. split; [done|].
    rewrite Ha. unfold answer_of. by rewrite Hf.
Qed.

(** C19: a client that registered with PID checking cannot be touched by anybody
    else: a request of another process that is not root leaves its slot exactly
    as it was, heartbeat included. *)
Theorem foreign_request_leaves_client `{Env} sock creds s o s' i c :
  wf_table (clients s) → conn_peer sock = inl creds →
  clients s !! i = Some c → cl_active c = true → cl_checkPID c = true →
  cl_pid c ≠ cr_pid creds → cr_uid creds ≠ 0 →
  handle_command sock s = (o, s') → clients s' !! i = Some c.
Proof.
  intros Hw Hp Hc Ha Hk Hpid Hu Hh.
  exact (proj1 (stranger_request sock creds s o s' i c Hw Hp Hc Ha Hk (conj Hpid Hu) Hh)).
Qed.
