(* ===== verification/ConfigFile.v ===== *)
(** * The configuration file

    src/src/wd-broker.c, [parse_config]: reading the file with [fgets], one
    definition for the body of the line loop and its key branches, and the
    checks that follow the loop. *)

From S2P Require Import Prelude CString Scanf Common World ClientId Registry.

(** ** [fgets] *)

Definition LINE_LEN : nat := 256.

(** At most [k] characters, up to and including the first newline. *)
Fixpoint take_line (k : nat) (f : bytes) : bytes * bytes :=
  match k, f with
  | S k', c :: r => if Ascii.eqb c NL then ([c], r)
                    else let '(l, r') := take_line k' r in (c :: l, r')
  | _, _ => ([], f)
  end.

Definition fgets (f : bytes) : option (bytes * bytes) :=
  match f with
  | [] => None
  | _ => Some (take_line (LINE_LEN - 1) f)
  end.

(** What successive calls of [fgets] deliver.  Each call takes at least one
    character, so the length of the file is enough fuel ([file_lines_concat]). *)
Fixpoint fgets_all (fuel : nat) (f : bytes) : list bytes :=
  match fuel with
  | O => []
  | S n => match fgets f with
           | None => []
           | Some (line, rest) => line :: fgets_all n rest
           end
  end.

Definition file_lines (f : bytes) : list bytes := fgets_all (length f) f.

(** ** One line *)

Definition CONFIG_OPTION_FORMAT : bytes := lit "%63[^=]=%127[^\n]".
Definition CONFIG_CLIENT_FORMAT : bytes := lit "[client %63[^]]".

Definition set_socket_path (p : bytes) (c : wd_config_t) : wd_config_t :=
  Config p (cfg_wd_timeout_s c) (cfg_reboot_timeout_s c) (cfg_strict_clients c) (cfg_unique_clients c).
Definition set_wd_timeout_s (z : Z) (c : wd_config_t) : wd_config_t :=
  Config (cfg_socket_path c) z (cfg_reboot_timeout_s c) (cfg_strict_clients c) (cfg_unique_clients c).
Definition set_reboot_timeout_s (z : Z) (c : wd_config_t) : wd_config_t :=
  Config (cfg_socket_path c) (cfg_wd_timeout_s c) z (cfg_strict_clients c) (cfg_unique_clients c).
Definition set_strict_clients (b : bool) (c : wd_config_t) : wd_config_t :=
  Config (cfg_socket_path c) (cfg_wd_timeout_s c) (cfg_reboot_timeout_s c) b (cfg_unique_clients c).
Definition set_unique_clients (b : bool) (c : wd_config_t) : wd_config_t :=
  Config (cfg_socket_path c) (cfg_wd_timeout_s c) (cfg_reboot_timeout_s c) (cfg_strict_clients c) b.

Definition modify_config (f : wd_config_t → wd_config_t) : B unit :=
  modify (λ s, set_config (f (config s)) s).

Definition set_timeout_ms (z : Z) (c : client_t) : client_t :=
  Client (cl_clientID c) (cl_name c) (cl_pid c) z (cl_last_ping c) (cl_active c)
         (cl_anounced c) (cl_checkPID c).

(** [true] or [false], anything else is an error. *)
Definition parse_bool (s : bytes) : option bool :=
  if strcmp_eq s (lit "true") then Some true
  else if strcmp_eq s (lit "false") then Some false else None.

(** [clients[idx]] for the section the parser is in; [None] is [client_idx == -1]. *)
Definition parse_option (t_key t_val : bytes) (client_idx : option nat) (line_num : Z) : B unit :=
  if strcmp_eq t_key (lit "socket_path") then
    modify_config (λ c, set_socket_path
      (strncpy (WD_CLIENT_SOCKPATH_LEN - 1) t_val
         ++ drop (WD_CLIENT_SOCKPATH_LEN - 1) (cfg_socket_path c)) c)
  else if strcmp_eq t_key (lit "wd_timeout_s") then
    modify_config (set_wd_timeout_s (atoi t_val)) ;;
    config ← gets config;
    if (cfg_wd_timeout_s config <? WD_HW_TIMEOUT_MIN_S)
       || (cfg_wd_timeout_s config >? WD_HW_TIMEOUT_MAX_S)
    then fatal_error (printf
      "Invalid watchdog timeout set in line %d. Must be between %d and %d seconds."
      [PI line_num; PI WD_HW_TIMEOUT_MIN_S; PI WD_HW_TIMEOUT_MAX_S])
    else mret tt
  else if strcmp_eq t_key (lit "reboot_timeout_s") then
    modify_config (set_reboot_timeout_s (atoi t_val)) ;;
    config ← gets config;
    if (cfg_reboot_timeout_s config <? WD_REBOOT_TIMEOUT_MIN_S)
       || (cfg_reboot_timeout_s config >? WD_REBOOT_TIMEOUT_MAX_S)
    then fatal_error (printf
      "Invalid reboot timeout set in line %d. Must be between %d and %d seconds."
      [PI line_num; PI WD_REBOOT_TIMEOUT_MIN_S; PI WD_REBOOT_TIMEOUT_MAX_S])
    else mret tt
  else if strcmp_eq t_key (lit "strict_clients") then
    match parse_bool t_val with
    | Some b => modify_config (set_strict_clients b)
    | None => fatal_error (printf "Invalid value for strict_clients in line %d" [PI line_num])
    end
  else if strcmp_eq t_key (lit "unique_clients") then
    match parse_bool t_val with
    | Some b => modify_config (set_unique_clients b)
    | None => fatal_error (printf "Invalid value for unique_clients in line %d" [PI line_num])
    end
  else if strcmp_eq t_key (lit "timeout_ms") then
    match client_idx with
    | None => fatal_error (printf
        "Unexpected client timeout set in line %d (must be set in a client section)" [PI line_num])
    | Some i =>
        let t := u32 (atoi t_val) in
        modify (alter_client i (set_timeout_ms t)) ;;
        if (t <? WD_CLIENT_TIMEOUT_MIN_MS) || (t >? WD_CLIENT_TIMEOUT_MAX_MS)
        then fatal_error (printf "Invalid client timeout in line %d, must be between %d and %d ms"
               [PI line_num; PI WD_CLIENT_TIMEOUT_MIN_MS; PI WD_CLIENT_TIMEOUT_MAX_MS])
        else mret tt
    end
  else fatal_error (printf "Unknown config key '%s' in line %d" [PS t_key; PI line_num]).

Definition client_default_timeout_ms : Z := 5 * 60 * 1000.

(** [client_idx] after the increment. *)
Definition next_idx (client_idx : option nat) : nat :=
  match client_idx with None => O | Some i => S i end.

Section ParseConfig.
Context {E : Env}.

Definition announce (name id : bytes) (now : timespec) (c : client_t) : client_t :=
  Client id (strncpy WD_CLIENT_NAME_LEN name) (cl_pid c) client_default_timeout_ms now
         false true (cl_checkPID c).

Definition parse_client_section (filename trimmed name : bytes) (client_idx : option nat)
    (line_num : Z) (max_clients : nat) : B nat :=
  let idx := next_idx client_idx in
  if (max_clients <=? idx)%nat then
    fatal_error (printf "Too many clients defined in %s" [PS filename])
  else if (strlen (lit "[client ]") <? strlen trimmed - strlen name)%nat then
    fatal_error (printf "Invalid client name used in line %d" [PI line_num])
  else
    id ← make_clientID;
    now ← get_now;
    modify (alter_client idx (announce name id now)) ;;
    mret idx.

(** The body of the line loop: the new section index. *)
Definition parse_line (filename line : bytes) (client_idx : option nat) (line_num : Z)
    (max_clients : nat) : B (option nat) :=
  let trimmed := trim (cstr line) in
  if Ascii.eqb (hd NUL trimmed) "#" || Ascii.eqb (hd NUL trimmed) NUL then mret client_idx
  else
    let '(n, vs) := sscanf trimmed CONFIG_OPTION_FORMAT in
    if n =? 2 then
      parse_option (trim (arg_str vs 0)) (trim (arg_str vs 1)) client_idx line_num ;;
      mret client_idx
    else
      let '(n, vs) := sscanf trimmed CONFIG_CLIENT_FORMAT in
      if n =? 1 then
        idx ← parse_client_section filename trimmed (arg_str vs 0) client_idx line_num max_clients;
        mret (Some idx)
      else
        fatal_error (printf "Invalid config in line: %d: %s\n" [PI line_num; PS trimmed]).

Fixpoint parse_lines (filename : bytes) (lines : list bytes) (client_idx : option nat)
    (line_num : Z) (max_clients : nat) : B (option nat) :=
  match lines with
  | [] => mret client_idx
  | line :: r =>
      idx ← parse_line filename line client_idx (line_num + 1) max_clients;
      parse_lines filename r idx (line_num + 1) max_clients
  end.

Definition config_defaults : wd_config_t :=
  Config (strncpy WD_CLIENT_SOCKPATH_LEN SOCKET_PATH_DEFAULT)
         WD_HW_TIMEOUT_DEFAULT_S WD_REBOOT_TIMEOUT_DEFAULT_S false false.

(** The nested loops that look for two announced clients of one name. *)
Fixpoint find_duplicate (cs : list client_t) : option bytes :=
  match cs with
  | [] => None
  | c :: r =>
      if cl_anounced c && existsb (λ d, cl_anounced d && strcmp_eq (cl_name c) (cl_name d)) r
      then Some (cl_name c) else find_duplicate r
  end.

(** [parse_config(filename, clients, max_clients)]; [file] is the content of the
    file, [None] when it cannot be opened. *)
Definition parse_config (filename : bytes) (file : option bytes) (max_clients : nat) : B unit :=
  match file with
  | None => fatal_error (printf "Failed to open %s" [PS filename])
  | Some content =>
      modify (set_clients (replicate max_clients client_zero)) ;;
      modify (set_config config_defaults) ;;
      client_idx ← parse_lines filename (file_lines content) None 0 max_clients;
      config ← gets config;
      clients ← gets clients;
      if cfg_strict_clients config && bool_decide (client_idx = None)
      then fatal_error (printf "No client section found in %s" [PS filename])
      else if cfg_unique_clients config then
        match find_duplicate clients with
        | Some name => fatal_error (printf "Duplicate client name '%s' in config file" [PS name])
        | None => mret tt
        end
      else mret tt
  end.
End ParseConfig.

(** ** [fgets] reads the whole file *)

Lemma take_line_app k f : fst (take_line k f) ++ snd (take_line k f) = f.
Proof.
  revert f. induction k as [|k IH]; intros [|c f]; try done. cbn [take_line].
  destruct (Ascii.eqb c NL); [done|]. specialize (IH f).
  destruct (take_line k f) as [l r]. cbn in *. by rewrite IH.
Qed.

Lemma take_line_nonempty k c f : fst (take_line (S k) (c :: f)) ≠ [].
Proof. cbn [take_line]. destruct (Ascii.eqb c NL); [done|]. by destruct (take_line k f). Qed.

Lemma take_line_length k f : (length (fst (take_line k f)) ≤ k)%nat.
Proof.
  revert f. induction k as [|k IH]; intros [|c f]; try (cbn; lia). cbn [take_line].
  destruct (Ascii.eqb c NL); [cbn; lia|]. specialize (IH f).
  destruct (take_line k f). cbn in *. lia.
Qed.

(** A newline can only be the last character of what [fgets] returns. *)
Lemma take_line_newline k f : NL ∉ removelast (fst (take_line k f)).
Proof.
  revert f. induction k as [|k IH]; intros [|c f]; try apply not_elem_of_nil. cbn [take_line].
  destruct (Ascii.eqb_spec c NL) as [|Hc]; [apply not_elem_of_nil|]. specialize (IH f).
  destruct (take_line k f) as [l r]. cbn [fst] in *. destruct l as [|d l]; [apply not_elem_of_nil|].
  change (removelast (c :: d :: l)) with (c :: removelast (d :: l)).
  rewrite not_elem_of_cons. auto.
Qed.

Lemma fgets_all_concat fuel f : (length f ≤ fuel)%nat → concat (fgets_all fuel f) = f.
Proof.
  revert f. induction fuel as [|n IH]; intros f Hl; [destruct f; [done|cbn in Hl; lia]|].
  cbn [fgets_all]. unfold fgets. destruct f as [|c f]; [done|].
  pose proof (take_line_app (LINE_LEN - 1) (c :: f)) as Ha.
  pose proof (take_line_nonempty (LINE_LEN - 2) c f) as Hn.
  change (S (LINE_LEN - 2)) with (LINE_LEN - 1)%nat in Hn.
  destruct (take_line (LINE_LEN - 1) (c :: f)) as [l r]. cbn [fst snd] in *.
  cbn [concat]. rewrite IH, Ha; [done|].
  apply (f_equal length) in Ha. rewrite length_app in Ha. cbn [length] in *.
  destruct l; [done|]. cbn [length] in *. lia.
Qed.

(** The line loop of [parse_config] sees the whole file: the pieces [fgets]
    delivers are non-empty, at most 255 characters long, contain a newline only
    as their last character, and concatenate to the file. *)
Theorem config_lines_cover_file f :
  concat (file_lines f) = f ∧
  Forall (λ l, l ≠ [] ∧ (length l < LINE_LEN)%nat ∧ NL ∉ removelast l) (file_lines f).
Proof.
  unfold file_lines. split; [by apply fgets_all_concat|].
  generalize (length f) as fuel. intros fuel. revert f.
  induction fuel as [|n IH]; intros f; cbn [fgets_all]; [constructor|].
  unfold fgets. destruct f as [|c f]; [constructor|].
  pose proof (take_line_nonempty (LINE_LEN - 2) c f) as Hn.
  pose proof (take_line_length (LINE_LEN - 1) (c :: f)) as Hl.
  pose proof (take_line_newline (LINE_LEN - 1) (c :: f)) as Hnl.
  change (S (LINE_LEN - 2)) with (LINE_LEN - 1)%nat in Hn.
  destruct (take_line (LINE_LEN - 1) (c :: f)) as [l r]. cbn [fst] in *.
  constructor; [|apply IH]. split_and!; [done| |done]. unfold LINE_LEN in *. lia.
Qed.

(** ** The state while the file is read *)

(** After [n] client sections: the first [n] slots are announced, nobody is
    active, and everything is well formed. *)
Record config_state (n : nat) (s : broker) : Prop := {
  cs_table : wf_table (clients s);
  cs_config : wf_config (config s);
  cs_shape : ∀ j c, clients s !! j = Some c →
    cl_active c = false ∧ cl_anounced c = bool_decide (j < n)%nat ∧
    cl_pid c = 0 ∧ cl_checkPID c = false;
  cs_count : (n ≤ WD_MAX_CLIENTS)%nat;
}.

Lemma config_state_change n s s' :
  config_state n s → clients s' = clients s → wf_config (config s') → config_state n s'.
Proof. intros [] Hc Hw. constructor; rewrite ?Hc; auto. Qed.

Lemma wf_config_defaults : wf_config config_defaults.
Proof. constructor; try reflexivity; vm_compute; split; discriminate. Qed.

(** [client_idx] after [n] client sections. *)
Definition idx_of (n : nat) : option nat := match n with O => None | S i => Some i end.

Lemma next_idx_of n : next_idx (idx_of n) = n.
Proof. by destruct n. Qed.

Lemma modify_config_state n s f :
  config_state n s → wf_config (f (config s)) →
  triple s (modify_config f) (λ _, config_state n).
Proof. intros H Hw. unfold modify_config. apply triple_modify. by eapply config_state_change. Qed.

Lemma wf_set_socket_path v c :
  wf_config c →
  wf_config (set_socket_path (strncpy (WD_CLIENT_SOCKPATH_LEN - 1) v
               ++ drop (WD_CLIENT_SOCKPATH_LEN - 1) (cfg_socket_path c)) c).
Proof.
  intros [Hl Ht Hw Hr]. constructor; cbn [set_socket_path cfg_socket_path cfg_wd_timeout_s
    cfg_reboot_timeout_s]; try done.
  - rewrite length_app, strncpy_length, length_drop, Hl. done.
  - apply last_Some in Ht as [l' Hl']. rewrite Hl' in *. rewrite length_app in Hl. cbn in Hl.
    assert (length l' = WD_CLIENT_SOCKPATH_LEN - 1)%nat as <- by (unfold WD_CLIENT_SOCKPATH_LEN in *; lia).
    rewrite drop_app_length. apply last_snoc.
Qed.

Lemma triple_config {A} s f (m : B A) (Q : A → broker → Prop) :
  triple (set_config (f (config s)) s) m Q → triple s (modify_config f ;; m) Q.
Proof. intros H. unfold modify_config. apply triple_bind, triple_modify. exact H. Qed.

Lemma triple_bind_gets {A C} (f : broker → A) s (m : A → B C) Q :
  triple s (m (f s)) Q → triple s (gets f ≫= m) Q.
Proof. intros H. by apply triple_bind, triple_gets. Qed.

Lemma config_state_timeout n i s t :
  config_state n s → (i < n)%nat → WD_CLIENT_TIMEOUT_MIN_MS ≤ t ≤ WD_CLIENT_TIMEOUT_MAX_MS →
  config_state n (alter_client i (set_timeout_ms t) s).
Proof.
  intros [Ht Hc Hs Hn] Hi Hr. constructor; cbn [alter_client set_clients clients config]; try done.
  - apply wf_table_alter; [done|]. intros c _ []. constructor; auto.
  - intros j c. destruct (decide (i = j)) as [<-|Hne].
    + rewrite list_lookup_alter_eq. destruct (clients s !! i) as [d|] eqn:Ed; [|done].
      intros [= <-]. apply (Hs i d Ed).
    + rewrite list_lookup_alter_ne by done. apply Hs.
Qed.

Lemma parse_option_state t_key t_val n ln s :
  config_state n s → triple s (parse_option t_key t_val (idx_of n) ln) (λ _, config_state n).
Proof.
  intros H. pose proof (cs_config n s H) as Hw. unfold parse_option.
  destruct (strcmp_eq t_key (lit "socket_path")).
  { apply modify_config_state; [done|]. by apply wf_set_socket_path. }
  destruct (strcmp_eq t_key (lit "wd_timeout_s")).
  { apply triple_config, triple_bind_gets. destruct (_ || _) eqn:E; [apply triple_fatal|].
    apply triple_ret. eapply config_state_change; [exact H|done|]. cbn in *.
    destruct Hw. constructor; cbn; try done. lia. }
  destruct (strcmp_eq t_key (lit "reboot_timeout_s")).
  { apply triple_config, triple_bind_gets. destruct (_ || _) eqn:E; [apply triple_fatal|].
    apply triple_ret. eapply config_state_change; [exact H|done|]. cbn in *.
    destruct Hw. constructor; cbn; try done. lia. }
  destruct (strcmp_eq t_key (lit "strict_clients")).
  { destruct (parse_bool t_val); [|apply triple_fatal].
    apply modify_config_state; [done|]. by destruct Hw. }
  destruct (strcmp_eq t_key (lit "unique_clients")).
  { destruct (parse_bool t_val); [|apply triple_fatal].
    apply modify_config_state; [done|]. by destruct Hw. }
  destruct (strcmp_eq t_key (lit "timeout_ms")); [|apply triple_fatal].
  destruct n as [|i]; [apply triple_fatal|]. cbn [idx_of].
  apply triple_bind, triple_modify. destruct (_ || _) eqn:E; [apply triple_fatal|].
  apply triple_ret, config_state_timeout; [done|lia|lia].
Qed.

(** ** Client sections *)

Definition client_fmt : list directive :=
  (DLit <$> lit "[client") ++ [DSpace; DSet 63 true (lit "]")].

Lemma client_fmt_parsed : parse_fmt CONFIG_CLIENT_FORMAT FNone = client_fmt.
Proof. reflexivity. Qed.

Lemma scan_lits l r inp vs e :
  scan ((DLit <$> l) ++ r) inp [] = (vs, e) → vs ≠ [] →
  ∃ rest, inp = l ++ rest ∧ scan r rest [] = (vs, e).
Proof.
  intros H Hv. revert inp H. induction l as [|c l IH]; intros inp H; [eauto|].
  cbn [fmap list_fmap app scan] in H. destruct inp as [|x i]; [congruence|].
  destruct (Ascii.eqb_spec x c) as [->|]; [|congruence].
  apply IH in H as (rest & -> & H). by exists rest.
Qed.

(** A line the client format matches: the words [\[client], white space, and a
    name that ends at the first bracket or after 63 characters. *)
Lemma sscanf_client inp vs :
  sscanf inp CONFIG_CLIENT_FORMAT = (1, vs) →
  ∃ name rest, vs = [SStr name] ∧ cstr inp = lit "[client" ++ rest ∧
    name ≠ [] ∧ (length name ≤ 63)%nat ∧ no_nul name.
Proof.
  unfold sscanf. rewrite client_fmt_parsed. unfold client_fmt.
  destruct (scan _ (cstr inp) []) as [vs' e] eqn:Hs. intros H.
  assert (vs' = vs ∧ length vs = 1%nat) as [-> Hl].
  { destruct vs' as [|v vs']; [destruct e; discriminate|].
    cbn [length] in H. injection H as H1 H2. subst vs. split; [done|]. cbn [length]. lia. }
  apply scan_lits in Hs as (rest & Hi & Hs); [|by intros ->].
  cbn [scan] in Hs. destruct (skip_ws_split rest) as (a & Ha & _).
  pose proof (no_nul_cstr inp) as Hnn. rewrite Hi in Hnn. apply Forall_app in Hnn as [_ Hnn].
  rewrite Ha in Hnn. apply Forall_app in Hnn as [_ Hnn].
  destruct (skip_ws rest) as [|c i] eqn:Er; [by injection Hs as <- _|].
  destruct (span (in_set true (lit "]")) 63 (c :: i)) as [t r'] eqn:Esp.
  apply span_spec in Esp as (Et & _ & Htl).
  destruct t as [|x t]; [by injection Hs as <- _|].
  injection Hs as <- _. exists (x :: t), rest. split_and!; try done.
  rewrite Et in Hnn. by apply Forall_app in Hnn as [? _].
Qed.

Section ConfigState.
Context {E : Env}.

Lemma config_state_ids n s i j : config_state n s → config_state n (set_id_ix i (set_now_ix j s)).
Proof. intros H. by eapply config_state_change; [exact H| |apply H]. Qed.

Lemma wf_announce name id now c :
  wf_client c → cl_active c = false → is_clientID id → name ≠ [] → no_nul name →
  (length name < WD_CLIENT_NAME_LEN)%nat → wf_client (announce name id now c).
Proof.
  intros [] Ha Hid Hn Hnn Hl.
  assert (strlen name < WD_CLIENT_NAME_LEN)%nat by (unfold strlen; by rewrite cstr_no_nul).
  constructor; cbn; intros; auto using is_clientID_length, strncpy_length, strncpy_terminated.
  - unfold client_default_timeout_ms, WD_CLIENT_TIMEOUT_MIN_MS, WD_CLIENT_TIMEOUT_MAX_MS. lia.
  - by rewrite cstr_strncpy, cstr_no_nul.
Qed.

Lemma config_state_announce n s name id now :
  config_state n s → (n < WD_MAX_CLIENTS)%nat → is_clientID id → name ≠ [] → no_nul name →
  (length name < WD_CLIENT_NAME_LEN)%nat →
  config_state (S n) (alter_client n (announce name id now) s).
Proof.
  intros [Ht Hc Hs Hn] Hlt Hid Hne Hnn Hl.
  constructor; cbn [alter_client set_clients clients config]; [|done| |lia].
  - apply wf_table_alter; [done|]. intros c Hc' Hw. apply wf_announce; auto. by apply (Hs n c).
  - intros j c. destruct (decide (n = j)) as [<-|Hne'].
    + rewrite list_lookup_alter_eq. destruct (clients s !! n) as [d|] eqn:Ed; [|done].
      intros [= <-]. destruct (Hs n d Ed) as (_ & _ & Hp & Hk). cbn.
      rewrite bool_decide_eq_true_2 by lia. auto.
    + rewrite list_lookup_alter_ne by done. intros Hj. destruct (Hs j c Hj) as (? & -> & ?).
      split; [done|]. split; [apply bool_decide_ext; lia|done].
Qed.

Lemma parse_client_section_state filename trimmed name n ln s :
  config_state n s → name ≠ [] → no_nul name → (length name ≤ 63)%nat →
  triple s (parse_client_section filename trimmed name (idx_of n) ln WD_MAX_CLIENTS)
    (λ i s', i = n ∧ config_state (S n) s').
Proof.
  intros H Hne Hnn Hl. unfold parse_client_section. rewrite next_idx_of.
  destruct (Nat.leb_spec WD_MAX_CLIENTS n) as [|Hlt]; [apply triple_fatal|].
  destruct (_ <? _)%nat; [apply triple_fatal|].
  unfold make_clientID, get_now, triple. mrun. split; [done|].
  apply config_state_announce; auto using clientID_of_ok.
  - by apply (config_state_change n s); [done|done|apply H].
  - unfold WD_CLIENT_NAME_LEN. lia.
Qed.

(** One line: the sections read so far grow by one or stay. *)
Lemma parse_line_state filename line n ln s :
  config_state n s →
  triple s (parse_line filename line (idx_of n) ln WD_MAX_CLIENTS)
    (λ i s', ∃ n', i = idx_of n' ∧ config_state n' s').
Proof.
  intros H. unfold parse_line. destruct (_ || _); [apply triple_ret; eauto|].
  destruct (sscanf _ CONFIG_OPTION_FORMAT) as [k vs]. destruct (k =? 2).
  { apply triple_bind. eapply triple_conseq; [by apply parse_option_state|].
    intros ? s' H'. apply triple_ret. eauto. }
  destruct (sscanf (trim (cstr line)) CONFIG_CLIENT_FORMAT) as [k' vs'] eqn:Es.
  destruct (Z.eqb_spec k' 1) as [->|]; [|apply triple_fatal].
  apply sscanf_client in Es as (name & rest & -> & _ & Hne & Hl & Hnn).
  apply triple_bind. eapply triple_conseq; [by apply parse_client_section_state|].
  intros i s' [Hi H']. apply triple_ret. exists (S n). by rewrite Hi.
Qed.

Lemma parse_lines_state filename lines n ln s :
  config_state n s →
  triple s (parse_lines filename lines (idx_of n) ln WD_MAX_CLIENTS)
    (λ i s', ∃ n', i = idx_of n' ∧ config_state n' s').
Proof.
  revert n ln s. induction lines as [|l r IH]; intros n ln s H; [apply triple_ret; eauto|].
  cbn [parse_lines]. apply triple_bind. eapply triple_conseq; [by apply parse_line_state|].
  intros i s' (n' & Hi & H'). rewrite Hi. by apply IH.
Qed.
End ConfigState.

(** No two slots announced under one name. *)
Definition announced_unique (cs : list client_t) : Prop :=
  ∀ i j c d, cs !! i = Some c → cs !! j = Some d → cl_anounced c = true → cl_anounced d = true →
    cstr (cl_name c) = cstr (cl_name d) → i = j.

Lemma find_duplicate_None cs : find_duplicate cs = None ↔ announced_unique cs.
Proof.
  induction cs as [|c r IH]; cbn [find_duplicate].
  { split; [|done]. by intros _ i j c d ?. }
  destruct (cl_anounced c && existsb _ r) eqn:E.
  - split; [done|]. intros Hu. apply andb_true_iff in E as [Ea Ex].
    apply existsb_exists in Ex as (d & Hd & Hx). apply andb_true_iff in Hx as [Hda Hx].
    apply strcmp_eq_spec in Hx. apply list_elem_of_In, list_elem_of_lookup in Hd as [j Hj].
    by specialize (Hu 0%nat (S j) c d eq_refl Hj Ea Hda Hx).
  - rewrite IH. split.
    + intros Hu i j a b Hi Hj Ha Hb Hn.
      assert (∀ k d, r !! k = Some d → cl_anounced c = true → cl_anounced d = true →
                cstr (cl_name c) = cstr (cl_name d) → False) as Hno.
      { intros k d Hk Hca Hda Heq. rewrite Hca in E. cbn in E.
        apply not_true_iff_false in E. apply E, existsb_exists. exists d.
        split; [by apply list_elem_of_In, list_elem_of_lookup_2 with k|].
        rewrite Hda. by apply strcmp_eq_spec. }
      destruct i as [|i], j as [|j]; [done| | |].
      * injection Hi as <-. exfalso. eauto.
      * injection Hj as <-. exfalso. eauto.
      * f_equal. by eapply Hu.
    + intros Hu i j a b Hi Hj Ha Hb Hn.
      by injection (Hu (S i) (S j) a b Hi Hj Ha Hb Hn).
Qed.

(** The state a configuration that was accepted leaves. *)
Definition configured (n : nat) (s : broker) : Prop :=
  config_state n s ∧
  (cfg_strict_clients (config s) = true → (0 < n)%nat) ∧
  (cfg_unique_clients (config s) = true → announced_unique (clients s)).

Lemma parse_config_spec `{Env} filename file s :
  triple s (parse_config filename file WD_MAX_CLIENTS) (λ _ s', ∃ n, configured n s').
Proof.
  destruct file as [content|]; [|apply triple_fatal]. unfold parse_config.
  apply triple_bind, triple_modify, triple_bind, triple_modify, triple_bind.
  eapply triple_conseq.
  { apply (parse_lines_state filename (file_lines content) 0 0).
    constructor; cbn [set_clients set_config clients config]; auto using wf_table_zero, wf_config_defaults; [|lia].
    intros j c Hj. apply lookup_replicate in Hj as [-> _]. done. }
  intros i s' (n & Hi & Hs). rewrite Hi. apply triple_bind_gets, triple_bind_gets.
  destruct (cfg_strict_clients (config s') && _) eqn:Est; [apply triple_fatal|].
  assert (cfg_strict_clients (config s') = true → (0 < n)%nat) as Hst.
  { intros Hst. rewrite Hst in Est. cbn in Est. apply bool_decide_eq_false in Est.
    destruct n; [done|lia]. }
  destruct (cfg_unique_clients (config s')) eqn:Eu.
  - destruct (find_duplicate (clients s')) eqn:Ed; [apply triple_fatal|].
    apply triple_ret. exists n. split; [done|]. split; [done|]. intros _. by apply find_duplicate_None.
  - apply triple_ret. exists n. split; [done|]. split; [done|]. congruence.
Qed.

(** C24: for every content of the configuration file, [parse_config] either reports
    an error and exits with [EXIT_FAILURE], or leaves a well-formed table whose
    first slots are the announced clients, all inactive, and a configuration in
    range; with strict clients at least one is announced, with unique clients no
    name is announced twice.  It never runs into undefined behaviour. *)
Theorem parse_config_sound `{Env} filename file s :
  match parse_config filename file WD_MAX_CLIENTS s with
  | (Ret _, s') => ∃ n, configured n s'
  | (Exit c, s') => c = EXIT_FAILURE ∧ reported s'
  | (Undef, _) => False
  end.
Proof. apply (parse_config_spec filename file s). Qed.

(** ** The syntax of lines *)

Lemma scan_set t rest w neg set r vals :
  t ≠ [] → Forall (λ c, in_set neg set c = true) t → (length t ≤ w)%nat →
  (∀ c r', rest = c :: r' → in_set neg set c = false) →
  scan (DSet w neg set :: r) (t ++ rest) vals = scan r rest (vals ++ [SStr t]).
Proof.
  intros Hn Ht Hl Hr. cbn [scan]. rewrite span_app by done.
  destruct t as [|c t]; [done|]. done.
Qed.

Lemma in_set_not c d : in_set true [d] c = true ↔ c ≠ d.
Proof. unfold in_set. change (negb (Ascii.eqb c d || false) = true ↔ c ≠ d).
  rewrite orb_false_r, negb_true_iff. apply Ascii.eqb_neq. Qed.

Lemma not_in_set d t : d ∉ t → Forall (λ c, in_set true [d] c = true) t.
Proof. intros H. apply Forall_forall. intros c Hc. apply in_set_not. by intros ->. Qed.

Lemma scan_lit c r i vals : scan (DLit c :: r) (c :: i) vals = scan r i vals.
Proof. cbn [scan]. by rewrite Ascii.eqb_refl. Qed.

Definition option_fmt : list directive :=
  [DSet 63 true (lit "="); DLit "="; DSet 127 true [NL]].

Lemma option_fmt_parsed : parse_fmt CONFIG_OPTION_FORMAT FNone = option_fmt.
Proof. reflexivity. Qed.

Lemma sscanf_option k v :
  no_nul k → no_nul v → k ≠ [] → v ≠ [] → "="%char ∉ k → NL ∉ v →
  (length k ≤ 63)%nat → (length v ≤ 127)%nat →
  sscanf (k ++ "="%char :: v) CONFIG_OPTION_FORMAT = (2, [SStr k; SStr v]).
Proof.
  intros Hnk Hnv Hk Hv He Hnl Hlk Hlv. unfold sscanf. rewrite option_fmt_parsed.
  rewrite cstr_no_nul by (apply no_nul_app; [done|by constructor]).
  unfold option_fmt. rewrite scan_set; [|done|by apply not_in_set|done|by intros c r [= <- <-]].
  rewrite scan_lit.
  pose proof (scan_set v [] 127 true [NL] [] ([] ++ [SStr k]) Hv (not_in_set _ _ Hnl) Hlv
    ltac:(done)) as Hs.
  rewrite app_nil_r in Hs. rewrite Hs. done.
Qed.

(** Without [=] the line is no option. *)
Lemma sscanf_option_none l :
  "="%char ∉ l → ∀ n vs, sscanf l CONFIG_OPTION_FORMAT = (n, vs) → n ≠ 2.
Proof.
  intros He n vs. unfold sscanf. rewrite option_fmt_parsed. unfold option_fmt. cbn [scan].
  assert ("="%char ∉ cstr l) as Hc.
  { clear -He. induction l as [|c l IH]; [done|]. cbn. apply not_elem_of_cons in He as [? He].
    destruct (Ascii.eqb c NUL); [apply not_elem_of_nil|]. apply not_elem_of_cons. auto. }
  destruct (cstr l) as [|c i]; [by intros [= <- <-]|].
  destruct (span _ 63 (c :: i)) as [t r] eqn:Es. apply span_spec in Es as (Et & _ & _).
  destruct t as [|x t]; [by intros [= <- <-]|]. cbn [app].
  destruct r as [|y r]; [by intros [= <- <-]|].
  rewrite ascii_eqb_false; [by intros [= <- <-]|]. intros ->. apply Hc. rewrite Et.
  apply elem_of_app. right. left.
Qed.

(** A text that keeps its ends when trimmed. *)
Definition tight (t : bytes) : Prop :=
  t ≠ [] ∧ no_nul t ∧ NL ∉ t ∧
  (∀ c, head t = Some c → isspace c = false) ∧ (∀ c, last t = Some c → isspace c = false).

Lemma rstrip_app_space t b : all_space b → rstrip (t ++ b) = rstrip t.
Proof.
  intros Hb. unfold rstrip. rewrite rev_app_distr, skip_ws_app_space; [done|].
  by apply Forall_rev.
Qed.

(** [trim] finds a tight text between any white space. *)
Lemma trim_pad a t b :
  t ≠ [] → (∀ c, head t = Some c → isspace c = false) →
  (∀ c, last t = Some c → isspace c = false) → all_space a → all_space b →
  trim (a ++ t ++ b) = t.
Proof.
  intros Hn Hh Hl Ha Hb. unfold trim. rewrite skip_ws_app_space by done.
  destruct t as [|c t]; [done|]. cbn [app].
  rewrite skip_ws_nonspace by (by apply Hh). f_equal.
  rewrite rstrip_app_space by done. rewrite last_cons in Hl.
  destruct (last t) as [x|] eqn:El; [eapply rstrip_stable; eauto|].
  apply last_None in El as ->. done.
Qed.

Lemma trim_tight a t b : tight t → all_space a → all_space b → trim (a ++ t ++ b) = t.
Proof. intros (? & ? & ? & ? & ?). by apply trim_pad. Qed.

Lemma parse_line_option filename key val a b c d idx ln m :
  tight key → tight val → "="%char ∉ key → head key ≠ Some "#"%char →
  all_space a → all_space b → all_space c → all_space d → no_nul a → no_nul b → no_nul c →
  no_nul d → NL ∉ c →
  (length key + length b ≤ 63)%nat → (length c + length val ≤ 127)%nat →
  ∀ `{Env} s,
  parse_line filename (a ++ key ++ b ++ lit "=" ++ c ++ val ++ d) idx ln m s =
  (parse_option key val idx ln ;; mret idx) s.
Proof.
  intros Hk Hv He Hh Ha Hb Hc Hd Hna Hnb Hnc Hnd Hcn Hl1 Hl2 EE s.
  pose proof Hk as (Hk0 & Hk1 & Hk2 & Hk3 & Hk4). pose proof Hv as (Hv0 & Hv1 & Hv2 & Hv3 & Hv4).
  unfold parse_line. change (lit "=") with ["="%char].
  rewrite cstr_no_nul by (repeat apply no_nul_app; auto; by repeat constructor).
  replace (a ++ key ++ b ++ ["="%char] ++ c ++ val ++ d)
    with (a ++ (key ++ b ++ ["="%char] ++ c ++ val) ++ d) by (by rewrite <-!app_assoc).
  rewrite trim_pad; [|by destruct key|by destruct key| |done|done].
  2: { intros x. rewrite !app_assoc, last_app. destruct (last val) eqn:El; [intros [= <-]; auto|].
       apply last_None in El. done. }
  assert (Ascii.eqb (hd NUL (key ++ b ++ ["="%char] ++ c ++ val)) "#"
          || Ascii.eqb (hd NUL (key ++ b ++ ["="%char] ++ c ++ val)) NUL = false) as ->.
  { destruct key as [|x key]; [done|]. cbn in *. apply orb_false_iff. split; apply ascii_eqb_false.
    - congruence.
    - apply Forall_cons in Hk1 as [? _]. done. }
  replace (key ++ b ++ ["="%char] ++ c ++ val) with ((key ++ b) ++ "="%char :: c ++ val)
    by (by rewrite <-!app_assoc).
  rewrite sscanf_option.
  - change (2 =? 2) with true. cbv iota.
    change (arg_str _ 0) with (key ++ b). change (arg_str _ 1) with (c ++ val).
    pose proof (trim_tight [] key b Hk ltac:(constructor) Hb) as E1.
    pose proof (trim_tight c val [] Hv Hc ltac:(constructor)) as E2.
    rewrite app_nil_r in E2. cbn [app] in E1. by rewrite E1, E2.
  - by apply no_nul_app.
  - by apply no_nul_app.
  - by destruct key.
  - destruct val; [done|]. by destruct c.
  - rewrite not_elem_of_app. split; [done|]. intros Hi.
    unfold all_space in Hb. rewrite Forall_forall in Hb. by specialize (Hb _ Hi).
  - by rewrite not_elem_of_app.
  - rewrite length_app. lia.
  - rewrite length_app. lia.
Qed.

