(* ===== verification/ConfigPrint.v ===== *)
(** * Writing a configuration file and reading it back

    A printer for configuration files in the documented layout, and the proof
    that [parse_config] of ConfigFile.v reads a printed file back to exactly
    the options and the announced clients it was printed from. *)

From S2P Require Import Prelude CString Scanf Common World ClientId Registry ConfigFile.

(** ** The printer *)

Definition print_option (key val : bytes) : bytes := key ++ lit " = " ++ val ++ [NL].

Definition print_options (path : bytes) (cfg : wd_config_t) : list bytes :=
  [print_option (lit "socket_path") path;
   print_option (lit "wd_timeout_s") (udec (cfg_wd_timeout_s cfg));
   print_option (lit "reboot_timeout_s") (udec (cfg_reboot_timeout_s cfg));
   print_option (lit "strict_clients") (if cfg_strict_clients cfg then lit "true" else lit "false");
   print_option (lit "unique_clients") (if cfg_unique_clients cfg then lit "true" else lit "false")].

Definition print_section (name : bytes) : bytes := lit "[client " ++ name ++ lit "]\n".

(** A client section: the name and the timeout. *)
Definition print_client (d : bytes * Z) : list bytes :=
  [print_section d.1; print_option (lit "timeout_ms") (udec d.2)].

Definition print_config (path : bytes) (cfg : wd_config_t) (ds : list (bytes * Z)) : bytes :=
  concat (print_options path cfg ++ concat (print_client <$> ds)).

(** A name the section syntax can carry. *)
Definition section_name (name : bytes) : Prop :=
  tight name ∧ (length name ≤ 63)%nat ∧ "="%char ∉ name ∧ "]"%char ∉ name.

Definition client_decl (d : bytes * Z) : Prop :=
  section_name d.1 ∧ WD_CLIENT_TIMEOUT_MIN_MS ≤ d.2 ≤ WD_CLIENT_TIMEOUT_MAX_MS.

(** ** Lines and files *)

(** A line as [fgets] delivers it. *)
Definition full_line (l : bytes) : Prop :=
  ∃ t, l = t ++ [NL] ∧ NL ∉ t ∧ (length l < LINE_LEN)%nat.

Lemma take_line_full t k rest :
  NL ∉ t → (length t < k)%nat → take_line k (t ++ NL :: rest) = (t ++ [NL], rest).
Proof.
  revert k. induction t as [|c t IH]; intros k Ht Hk; (destruct k as [|k]; [cbn in Hk; lia|]).
  - reflexivity.
  - apply not_elem_of_cons in Ht as [Hc Ht]. cbn [app take_line length] in *.
    rewrite ascii_eqb_false by done. by rewrite IH by (done || lia).
Qed.

Lemma fgets_all_lines ls fuel :
  Forall full_line ls → (length (concat ls) ≤ fuel)%nat → fgets_all fuel (concat ls) = ls.
Proof.
  intros H. revert fuel. induction H as [|l ls (t & -> & Ht & Hl) _ IH]; intros fuel Hf.
  { by destruct fuel. }
  cbn [concat] in *. rewrite !length_app in *. cbn [length] in *.
  destruct fuel as [|fuel]; [lia|]. cbn [fgets_all]. unfold fgets.
  rewrite <-app_assoc. cbn [app].
  destruct (t ++ NL :: concat ls) as [|x xs] eqn:E; [by destruct t|]. rewrite <-E.
  rewrite take_line_full by (done || unfold LINE_LEN in *; lia). by rewrite IH by lia.
Qed.

Lemma file_lines_concat ls : Forall full_line ls → file_lines (concat ls) = ls.
Proof. intros. by apply fgets_all_lines. Qed.

Lemma full_line_option key val :
  NL ∉ key → NL ∉ val → (length key + length val < 252)%nat → full_line (print_option key val).
Proof.
  intros Hk Hv Hl. exists (key ++ lit " = " ++ val). unfold print_option.
  split; [by rewrite <-!app_assoc|]. split.
  - rewrite !not_elem_of_app. split_and!; [done| |done].
    change (lit " = ") with [SP; "="%char; SP]. rewrite !not_elem_of_cons.
    split_and!; try discriminate. apply not_elem_of_nil.
  - rewrite !length_app. change (length (lit " = ")) with 3%nat. cbn [length].
    unfold LINE_LEN. lia.
Qed.

Lemma not_elem_lit (c : ascii) t : existsb (Ascii.eqb c) t = false → c ∉ t.
Proof.
  intros H Hc. apply list_elem_of_In in Hc. apply not_true_iff_false in H. apply H.
  apply existsb_exists. exists c. split; [done|apply Ascii.eqb_refl].
Qed.

(** ** Running the parser *)

Section Run.
Context {E : Env}.
Context (filename : bytes).

Definition lines_run (ls : list bytes) (idx : option nat) (s : broker) (ln : Z)
    (idx' : option nat) (s' : broker) : Prop :=
  parse_lines filename ls idx ln WD_MAX_CLIENTS s = (Ret idx', s').

Lemma lines_run_app ls1 ls2 i1 s1 ln i2 s2 i3 s3 :
  lines_run ls1 i1 s1 ln i2 s2 → lines_run ls2 i2 s2 (ln + Z.of_nat (length ls1)) i3 s3 →
  lines_run (ls1 ++ ls2) i1 s1 ln i3 s3.
Proof.
  unfold lines_run. revert i1 s1 ln. induction ls1 as [|l ls1 IH]; intros i1 s1 ln H1 H2.
  - injection H1 as -> ->. cbn in H2. by rewrite Z.add_0_r in H2.
  - cbn [app parse_lines] in *. rewrite bind_eq.
    apply bind_ret_inv in H1 as (i & s & -> & H1). apply IH; [done|].
    cbn [length] in H2. rewrite Nat2Z.inj_succ in H2.
    by replace (ln + 1 + Z.of_nat (length ls1)) with (ln + Z.succ (Z.of_nat (length ls1))) by lia.
Qed.

Lemma lines_run_one l i s ln i' s' :
  parse_line filename l i (ln + 1) WD_MAX_CLIENTS s = (Ret i', s') → lines_run [l] i s ln i' s'.
Proof. intros H. unfold lines_run. cbn [parse_lines]. by rewrite bind_eq, H. Qed.

Lemma lines_run_cons l ls i1 s1 ln i2 s2 i3 s3 :
  lines_run [l] i1 s1 ln i2 s2 → lines_run ls i2 s2 (ln + 1) i3 s3 →
  lines_run (l :: ls) i1 s1 ln i3 s3.
Proof. intros H1 H2. by apply (lines_run_app [l] ls i1 s1 ln i2 s2). Qed.

(** An option line runs its branch. *)
Lemma run_option key val idx s ln s' :
  tight key → tight val → "="%char ∉ key → head key ≠ Some "#"%char →
  (length key < 63)%nat → (length val < 127)%nat →
  (∀ k, parse_option key val idx k s = (Ret tt, s')) →
  lines_run [print_option key val] idx s ln idx s'.
Proof.
  intros Hk Hv He Hh Hlk Hlv Hp. apply lines_run_one.
  pose proof (parse_line_option filename key val [] [SP] [SP] [NL] idx (ln + 1)
    WD_MAX_CLIENTS Hk Hv He Hh) as H.
  change (print_option key val) with ([] ++ key ++ [SP] ++ lit "=" ++ [SP] ++ val ++ [NL]).
  rewrite H, bind_eq, Hp; try done; try (by repeat constructor); cbn [length]; try lia.
  by apply not_elem_lit.
Qed.
End Run.

(** ** The syntax of what is printed *)

Lemma tight_digits l : l ≠ [] → Forall (λ c, isdigit c = true) l → tight l.
Proof.
  intros Hn Hd. assert (∀ c, c ∈ l → isspace c = false) as Hs.
  { intros c Hc. rewrite Forall_forall in Hd. by apply isdigit_not_space, Hd. }
  split_and!; auto.
  - by apply digits_no_nul.
  - intros Hc. by specialize (Hs _ Hc).
  - intros c Hc. destruct l; [done|]. injection Hc as <-. apply Hs. left.
  - intros c Hc. apply last_Some in Hc as [l' ->]. apply Hs. apply elem_of_app. right. left.
Qed.

Lemma tight_udec n : 0 ≤ n → tight (udec n).
Proof. intros. apply tight_digits; auto with wd. Qed.

(** Decides [tight] of a literal. *)
Definition tightb (t : bytes) : bool :=
  negb (Nat.eqb (length t) 0) && forallb (λ c, negb (Ascii.eqb c NUL) && negb (Ascii.eqb c NL)) t &&
  from_option (λ c, negb (isspace c)) true (head t) && from_option (λ c, negb (isspace c)) true (last t).

Lemma tightb_tight t : tightb t = true → tight t.
Proof.
  unfold tightb. rewrite !andb_true_iff. intros [[[Hn Hf] Hh] Hl].
  rewrite forallb_forall in Hf.
  assert (∀ c, c ∈ t → c ≠ NUL ∧ c ≠ NL) as Hc.
  { intros c Hc%list_elem_of_In. specialize (Hf c Hc). apply andb_true_iff in Hf as [H1 H2].
    by apply negb_true_iff, Ascii.eqb_neq in H1; apply negb_true_iff, Ascii.eqb_neq in H2. }
  split_and!.
  - by intros ->.
  - apply Forall_forall. intros c Hin. by apply Hc.
  - intros Hin. by apply (Hc NL Hin).
  - intros c E. rewrite E in Hh. cbn in Hh. by apply negb_true_iff.
  - intros c E. rewrite E in Hl. cbn in Hl. by apply negb_true_iff.
Qed.

#[export] Hint Resolve tight_udec : wd.
#[export] Hint Extern 1 (tight (lit _)) => (apply tightb_tight; reflexivity) : wd.

Lemma atoi_udec_exact n : 0 ≤ n < 2 ^ 31 → atoi (udec n) = n.
Proof. intros H. rewrite <-(app_nil_r (udec n)). apply atoi_udec; [done|done|constructor]. Qed.

(** ** Running printed options *)

(** Evaluates the comparisons of literal keys in a goal. *)
Ltac key_case :=
  repeat match goal with
  | |- context [strcmp_eq (lit ?a) (lit ?b)] =>
      let v := eval vm_compute in (strcmp_eq (lit a) (lit b)) in
      let H := fresh in
      assert (strcmp_eq (lit a) (lit b) = v) as H by (vm_compute; reflexivity);
      rewrite H; clear H; cbv iota
  end.

Lemma strncpy_snoc n p : (strlen p ≤ n)%nat → strncpy n p ++ [NUL] = strncpy (S n) p.
Proof.
  unfold strlen, strncpy. intros H. rewrite !take_app_ge, !take_replicate by lia.
  rewrite <-app_assoc. f_equal.
  replace (Init.Nat.min (S n - length (cstr p)) (S n)) with (S (n - length (cstr p))) by lia.
  replace (Init.Nat.min (n - length (cstr p)) n) with (n - length (cstr p))%nat by lia.
  change [NUL] with (replicate 1 NUL). rewrite <-replicate_add. f_equal. lia.
Qed.

(** A usable option key. *)
Definition option_key (key : bytes) : bool :=
  tightb key && negb (existsb (Ascii.eqb "=") key) && negb (Ascii.eqb (hd NUL key) "#")
  && Nat.ltb (length key) 63.

Lemma run_key `{Env} filename key val idx s ln s' :
  option_key key = true → tight val → (length val < 127)%nat →
  (∀ k, parse_option key val idx k s = (Ret tt, s')) →
  lines_run filename [print_option key val] idx s ln idx s'.
Proof.
  unfold option_key. rewrite !andb_true_iff. intros [[[Ht He] Hh] Hl] Hv Hlv Hp.
  apply tightb_tight in Ht. apply negb_true_iff in He, Hh. apply Nat.ltb_lt in Hl.
  apply run_option; auto using not_elem_lit.
  destruct key as [|c key]; [discriminate|]. cbn [head hd] in *. intros [= ->]. by rewrite Ascii.eqb_refl in Hh.
Qed.

Section Options.
Context {E : Env} (filename : bytes).

Lemma run_socket_path path idx s ln :
  tight path → (length path < 127)%nat →
  lines_run filename [print_option (lit "socket_path") path] idx s ln idx
    (set_config (set_socket_path (strncpy (WD_CLIENT_SOCKPATH_LEN - 1) path
       ++ drop (WD_CLIENT_SOCKPATH_LEN - 1) (cfg_socket_path (config s))) (config s)) s).
Proof.
  intros Hp Hl. apply run_key; [reflexivity|done|done|]. intros k. unfold parse_option. by key_case.
Qed.

Lemma run_wd_timeout z idx s ln :
  WD_HW_TIMEOUT_MIN_S ≤ z ≤ WD_HW_TIMEOUT_MAX_S →
  lines_run filename [print_option (lit "wd_timeout_s") (udec z)] idx s ln idx
    (set_config (set_wd_timeout_s z (config s)) s).
Proof.
  intros Hz. unfold WD_HW_TIMEOUT_MIN_S, WD_HW_TIMEOUT_DEFAULT_S, WD_HW_TIMEOUT_MAX_S in Hz.
  apply run_key; [reflexivity|apply tight_udec; lia| |].
  - assert (length (udec z) ≤ 2)%nat by (apply udec_length; lia). lia.
  - intros k. unfold parse_option. key_case. rewrite atoi_udec_exact by lia.
    unfold modify_config. mrun. cbn [config set_config set_wd_timeout_s cfg_wd_timeout_s].
    destruct (_ || _) eqn:Eo; [|done].
    unfold WD_HW_TIMEOUT_MIN_S, WD_HW_TIMEOUT_DEFAULT_S, WD_HW_TIMEOUT_MAX_S in Eo. lia.
Qed.

Lemma run_reboot_timeout z idx s ln :
  WD_REBOOT_TIMEOUT_MIN_S ≤ z ≤ WD_REBOOT_TIMEOUT_MAX_S →
  lines_run filename [print_option (lit "reboot_timeout_s") (udec z)] idx s ln idx
    (set_config (set_reboot_timeout_s z (config s)) s).
Proof.
  intros Hz. unfold WD_REBOOT_TIMEOUT_MIN_S, WD_REBOOT_TIMEOUT_MAX_S in Hz.
  apply run_key; [reflexivity|apply tight_udec; lia| |].
  - assert (length (udec z) ≤ 3)%nat by (apply udec_length; lia). lia.
  - intros k. unfold parse_option. key_case. rewrite atoi_udec_exact by lia.
    unfold modify_config. mrun. cbn [config set_config set_reboot_timeout_s cfg_reboot_timeout_s].
    destruct (_ || _) eqn:Eo; [|done].
    unfold WD_REBOOT_TIMEOUT_MIN_S, WD_REBOOT_TIMEOUT_MAX_S in Eo. lia.
Qed.

Lemma run_strict (b : bool) idx s ln :
  lines_run filename [print_option (lit "strict_clients") (if b then lit "true" else lit "false")]
    idx s ln idx (set_config (set_strict_clients b (config s)) s).
Proof.
  destruct b; (apply run_key; [reflexivity|auto with wd|vm_compute; lia|]);
    intros k; unfold parse_option, parse_bool; by key_case.
Qed.

Lemma run_unique (b : bool) idx s ln :
  lines_run filename [print_option (lit "unique_clients") (if b then lit "true" else lit "false")]
    idx s ln idx (set_config (set_unique_clients b (config s)) s).
Proof.
  destruct b; (apply run_key; [reflexivity|auto with wd|vm_compute; lia|]);
    intros k; unfold parse_option, parse_bool; by key_case.
Qed.

(** The options of a configuration, over a configuration with a terminated path. *)
Lemma run_options path cfg idx s ln :
  tight path → (length path < WD_CLIENT_SOCKPATH_LEN)%nat → wf_config cfg →
  cfg_socket_path cfg = strncpy WD_CLIENT_SOCKPATH_LEN path → wf_config (config s) →
  lines_run filename (print_options path cfg) idx s ln idx (set_config cfg s).
Proof.
  intros Hp Hl Hc Hpath Hs. unfold WD_CLIENT_SOCKPATH_LEN in Hl. unfold print_options.
  eapply lines_run_cons; [apply run_socket_path; [done|lia]|].
  eapply lines_run_cons; [apply run_wd_timeout, Hc|].
  eapply lines_run_cons; [apply run_reboot_timeout, Hc|].
  eapply lines_run_cons; [apply run_strict|].
  assert (strncpy (WD_CLIENT_SOCKPATH_LEN - 1) path
            ++ drop (WD_CLIENT_SOCKPATH_LEN - 1) (cfg_socket_path (config s))
          = cfg_socket_path cfg) as Hsp.
  { rewrite Hpath. pose proof (wf_path_len _ Hs) as Hln. pose proof (wf_path_term _ Hs) as Hlast.
    apply last_Some in Hlast as [l' Hl']. rewrite Hl' in *. rewrite length_app in Hln. cbn in Hln.
    assert (length l' = WD_CLIENT_SOCKPATH_LEN - 1)%nat as <-
      by (unfold WD_CLIENT_SOCKPATH_LEN in *; lia).
    rewrite drop_app_length. rewrite strncpy_snoc; [f_equal; lia|].
    unfold strlen. rewrite cstr_no_nul by apply Hp. unfold WD_CLIENT_SOCKPATH_LEN in *. lia. }
  set (s4 := set_config (set_strict_clients (cfg_strict_clients cfg)
        (set_reboot_timeout_s (cfg_reboot_timeout_s cfg)
          (set_wd_timeout_s (cfg_wd_timeout_s cfg)
            (set_socket_path (strncpy (WD_CLIENT_SOCKPATH_LEN - 1) path
               ++ drop (WD_CLIENT_SOCKPATH_LEN - 1) (cfg_socket_path (config s)))
               (config s))))) s).
  assert (set_config cfg s =
    set_config (set_unique_clients (cfg_unique_clients cfg) (config s4)) s4) as ->.
  { subst s4. rewrite Hsp. by destruct cfg. }
  apply run_unique.
Qed.
End Options.

(** ** Running printed sections *)

Lemma list_alter_app_r_0 {A} (f : A → A) (l : list A) x r :
  alter f (length l) (l ++ x :: r) = l ++ f x :: r.
Proof. induction l as [|y l IH]; [done|]. cbn. by rewrite IH. Qed.

Section Sections.
Context {E : Env} (filename : bytes).

(** The slot of an announced client that has not registered yet. *)
Definition announced_slot (d : bytes * Z) (ni ii : nat) : client_t :=
  Client (clientID_of (env_entropy ii)) (strncpy WD_CLIENT_NAME_LEN d.1) 0 d.2 (env_now ni)
         false true false.

Fixpoint announced_slots (ds : list (bytes * Z)) (ni ii : nat) : list client_t :=
  match ds with
  | [] => []
  | d :: r => announced_slot d ni ii :: announced_slots r (S ni) (S ii)
  end.

Lemma announced_slots_length ds ni ii : length (announced_slots ds ni ii) = length ds.
Proof. revert ni ii. induction ds as [|d r IH]; intros; cbn; auto. Qed.

(** A state with [k] more clock readings and identifiers, and another table. *)
Definition advance (k : nat) (cs : list client_t) (s : broker) : broker :=
  set_clients cs (set_now_ix (now_ix s + k) (set_id_ix (id_ix s + k) s)).

Lemma sscanf_section name :
  section_name name →
  sscanf (lit "[client " ++ name ++ lit "]") CONFIG_CLIENT_FORMAT = (1, [SStr name]).
Proof.
  intros ((Hn & Hnn & _ & Hh & _) & Hl & _ & Hb). unfold sscanf. rewrite client_fmt_parsed.
  rewrite cstr_no_nul.
  2: { apply no_nul_app; [repeat constructor; discriminate|].
       apply no_nul_app; [done|repeat constructor; discriminate]. }
  unfold client_fmt. change (lit "[client " ++ name ++ lit "]")
    with (lit "[client" ++ SP :: name ++ lit "]").
  assert (∀ l r i, scan ((DLit <$> l) ++ r) (l ++ i) [] = scan r i []) as Hlits.
  { intros l r i. induction l as [|c l IH]; [done|]. cbn [fmap list_fmap app].
    by rewrite scan_lit. }
  rewrite Hlits, scan_space_skip by reflexivity. rewrite scan_space.
  destruct name as [|c name]; [done|]. cbn [app].
  rewrite skip_ws_nonspace by (by apply Hh). rewrite app_comm_cons.
  change (lit "]") with ["]"%char].
  rewrite scan_set; [done|done|by apply not_in_set|done|by intros x r [= <- <-]].
Qed.

Lemma run_section name i idx s ln :
  section_name name → next_idx idx = i → (i < WD_MAX_CLIENTS)%nat →
  lines_run filename [print_section name] idx s ln (Some i)
    (alter_client i (announce name (clientID_of (env_entropy (id_ix s))) (env_now (now_ix s)))
       (set_now_ix (S (now_ix s)) (set_id_ix (S (id_ix s)) s))).
Proof.
  intros Hs <- Hi. apply lines_run_one.
  pose proof Hs as ((Hn & Hnn & Hnl & Hh & Hlast) & Hl & He & Hb).
  unfold parse_line, print_section.
  assert (no_nul (lit "[client " ++ name ++ lit "]\n")) as Hnn'.
  { apply no_nul_app; [repeat constructor; discriminate|].
    apply no_nul_app; [done|repeat constructor; discriminate]. }
  rewrite cstr_no_nul by done.
  assert (trim (lit "[client " ++ name ++ lit "]\n") = lit "[client " ++ name ++ lit "]") as ->.
  { pose proof (trim_pad [] (lit "[client " ++ name ++ lit "]") [NL]) as Ht.
    cbn [app] in Ht. rewrite <-!app_assoc in Ht. apply Ht; [done| | |constructor|by repeat constructor].
    - by intros c [= <-].
    - intros c. change (lit "]") with ["]"%char]. rewrite app_assoc, last_snoc. by intros [= <-]. }
  change (Ascii.eqb (hd NUL (lit "[client " ++ name ++ lit "]")) "#"
          || Ascii.eqb (hd NUL (lit "[client " ++ name ++ lit "]")) NUL) with false. cbv iota.
  destruct (sscanf (lit "[client " ++ name ++ lit "]") CONFIG_OPTION_FORMAT) as [n vs] eqn:Eo.
  apply sscanf_option_none in Eo.
  2: { rewrite !not_elem_of_app. split_and!; [by apply not_elem_lit|done|by apply not_elem_lit]. }
  rewrite (proj2 (Z.eqb_neq n 2)) by done.
  rewrite sscanf_section by done. change (1 =? 1) with true. cbv iota.
  change (arg_str _ 0) with name. unfold parse_client_section.
  destruct (Nat.leb_spec WD_MAX_CLIENTS (next_idx idx)); [lia|].
  unfold strlen. rewrite (cstr_no_nul name) by done.
  rewrite (cstr_no_nul (lit "[client " ++ name ++ lit "]")).
  2: { apply no_nul_app; [repeat constructor; discriminate|].
       apply no_nul_app; [done|repeat constructor; discriminate]. }
  rewrite !length_app. change (length (cstr (lit "[client ]"))) with 9%nat.
  change (length (lit "[client ")) with 8%nat. change (length (lit "]")) with 1%nat.
  destruct (Nat.ltb_spec 9 (8 + (length name + 1) - length name)); [lia|]. done.
Qed.

Lemma run_timeout t i s ln :
  WD_CLIENT_TIMEOUT_MIN_MS ≤ t ≤ WD_CLIENT_TIMEOUT_MAX_MS →
  lines_run filename [print_option (lit "timeout_ms") (udec t)] (Some i) s ln (Some i)
    (alter_client i (set_timeout_ms t) s).
Proof.
  intros Ht. unfold WD_CLIENT_TIMEOUT_MIN_MS, WD_CLIENT_TIMEOUT_MAX_MS in Ht.
  apply run_key; [reflexivity|apply tight_udec; lia| |].
  - assert (length (udec t) ≤ 6)%nat by (apply udec_length; lia). lia.
  - intros k. unfold parse_option. key_case. rewrite atoi_udec_exact, u32_small by lia.
    mrun. destruct (_ || _) eqn:Eo; [|done].
    unfold WD_CLIENT_TIMEOUT_MIN_MS, WD_CLIENT_TIMEOUT_MAX_MS in Eo. lia.
Qed.

Lemma run_client d pre m idx s ln :
  client_decl d → next_idx idx = length pre → (length pre + S m = WD_MAX_CLIENTS)%nat →
  clients s = pre ++ replicate (S m) client_zero →
  lines_run filename (print_client d) idx s ln (Some (length pre))
    (advance 1 (pre ++ announced_slot d (now_ix s) (id_ix s) :: replicate m client_zero) s).
Proof.
  intros [Hn Ht] Hi Hlen Hc. unfold print_client.
  eapply lines_run_cons; [apply run_section; [done|done|lia]|].
  match goal with |- lines_run _ _ _ ?s1 _ _ ?s2 =>
    assert (alter_client (length pre) (set_timeout_ms d.2) s1 = s2) as <- end;
    [|by apply run_timeout].
  unfold advance, alter_client, set_clients. cbn. rewrite Hc, !Nat.add_1_r. f_equal.
  cbn [replicate]. by rewrite !list_alter_app_r_0.
Qed.

Lemma run_clients ds pre m idx s ln :
  Forall client_decl ds → next_idx idx = length pre →
  (length pre + length ds + m = WD_MAX_CLIENTS)%nat →
  clients s = pre ++ replicate (length ds + m) client_zero →
  ∃ idx', lines_run filename (concat (print_client <$> ds)) idx s ln idx'
    (advance (length ds) (pre ++ announced_slots ds (now_ix s) (id_ix s)
                            ++ replicate m client_zero) s) ∧
    (idx' = None ↔ idx = None ∧ ds = []).
Proof.
  intros H. revert pre idx s ln. induction H as [|d ds Hd _ IH]; intros pre idx s ln Hi Hlen Hc.
  - exists idx. split; [|naive_solver]. cbn in *. unfold advance. rewrite !Nat.add_0_r.
    rewrite <-Hc. by destruct s.
  - cbn [length] in *. rewrite Nat.add_succ_l in Hc.
    assert (lines_run filename (print_client d) idx s ln (Some (length pre))
      (advance 1 (pre ++ announced_slot d (now_ix s) (id_ix s)
                    :: replicate (length ds + m) client_zero) s)) as H1
      by (apply run_client; (done || lia)).
    destruct (IH (pre ++ [announced_slot d (now_ix s) (id_ix s)]) (Some (length pre))
      (advance 1 (pre ++ announced_slot d (now_ix s) (id_ix s)
                    :: replicate (length ds + m) client_zero) s)
      (ln + Z.of_nat (length (print_client d)))) as (idx' & H2 & Hidx).
    + rewrite length_app. cbn. lia.
    + rewrite length_app. cbn. lia.
    + cbn. by rewrite <-app_assoc.
    + exists idx'. split; [|split; [intros ->; by destruct (proj1 Hidx eq_refl)|by intros [_ ?]]].
      cbn [fmap list_fmap concat]. eapply lines_run_app; [exact H1|].
      replace (advance (S (length ds)) _ s) with
        (advance (length ds)
           ((pre ++ [announced_slot d (now_ix s) (id_ix s)]) ++
            announced_slots ds (S (now_ix s)) (S (id_ix s)) ++ replicate m client_zero)
           (advance 1 (pre ++ announced_slot d (now_ix s) (id_ix s)
                         :: replicate (length ds + m) client_zero) s)).
      * cbn [advance set_clients set_now_ix set_id_ix now_ix id_ix] in H2.
        by rewrite !(Nat.add_1_r) in H2.
      * unfold advance, set_clients, set_now_ix, set_id_ix. cbn.
        rewrite <-!app_assoc. cbn. f_equal; lia.
Qed.
End Sections.

(** ** The round trip *)

Lemma full_line_section name : section_name name → full_line (print_section name).
Proof.
  intros ((Hn & _ & Hnl & _) & Hl & _). exists (lit "[client " ++ name ++ lit "]").
  unfold print_section. change (lit "]\n") with (lit "]" ++ [NL]). split; [by rewrite <-!app_assoc|].
  split.
  - rewrite !not_elem_of_app. split_and!; [by apply not_elem_lit|done|by apply not_elem_lit].
  - rewrite !length_app. change (length (lit "[client ")) with 8%nat.
    change (length (lit "]")) with 1%nat. cbn [length]. unfold LINE_LEN. lia.
Qed.

Lemma full_line_clients ds :
  Forall client_decl ds → Forall full_line (concat (print_client <$> ds)).
Proof.
  induction 1 as [|d ds [Hn Ht] _ IH]; [constructor|]. cbn [fmap list_fmap concat].
  apply Forall_app. split; [|done]. unfold WD_CLIENT_TIMEOUT_MIN_MS, WD_CLIENT_TIMEOUT_MAX_MS in Ht.
  repeat constructor; [by apply full_line_section|].
  apply full_line_option; [by apply not_elem_lit| |].
  - apply (tight_udec d.2). lia.
  - assert (length (udec d.2) ≤ 6)%nat by (apply udec_length; lia).
    change (length (lit "timeout_ms")) with 10%nat. lia.
Qed.

Lemma full_line_options path cfg :
  tight path → (length path < WD_CLIENT_SOCKPATH_LEN)%nat → wf_config cfg →
  Forall full_line (print_options path cfg).
Proof.
  intros Hp Hl [_ _ Hw Hr]. unfold WD_CLIENT_SOCKPATH_LEN in Hl.
  unfold WD_HW_TIMEOUT_MIN_S, WD_HW_TIMEOUT_DEFAULT_S, WD_HW_TIMEOUT_MAX_S,
    WD_REBOOT_TIMEOUT_MIN_S, WD_REBOOT_TIMEOUT_MAX_S in *.
  assert (length (udec (cfg_wd_timeout_s cfg)) ≤ 2)%nat by (apply udec_length; lia).
  assert (length (udec (cfg_reboot_timeout_s cfg)) ≤ 3)%nat by (apply udec_length; lia).
  assert (∀ b : bool, NL ∉ (if b then lit "true" else lit "false") ∧
            (length (if b then lit "true" else lit "false") ≤ 5)%nat) as Hb
    by (by intros []; (split; [apply not_elem_lit|vm_compute; lia])).
  pose proof (Hb (cfg_strict_clients cfg)) as [? ?]. pose proof (Hb (cfg_unique_clients cfg)) as [? ?].
  assert (NL ∉ udec (cfg_wd_timeout_s cfg)) by (apply (tight_udec _); lia).
  assert (NL ∉ udec (cfg_reboot_timeout_s cfg)) by (apply (tight_udec _); lia).
  destruct Hp as (_ & _ & Hnl & _). unfold print_options.
  repeat constructor; (apply full_line_option; [by apply not_elem_lit|done|]).
  - change (length (lit "socket_path")) with 11%nat. lia.
  - change (length (lit "wd_timeout_s")) with 12%nat. lia.
  - change (length (lit "reboot_timeout_s")) with 16%nat. lia.
  - change (length (lit "strict_clients")) with 14%nat. lia.
  - change (length (lit "unique_clients")) with 14%nat. lia.
Qed.

Lemma announced_slots_lookup `{Env} ds ni ii i c :
  announced_slots ds ni ii !! i = Some c →
  ∃ d, ds !! i = Some d ∧ c = announced_slot d (ni + i) (ii + i).
Proof.
  revert ni ii i. induction ds as [|d r IH]; intros ni ii [|i] Hc; try done.
  - injection Hc as <-. exists d. by rewrite !Nat.add_0_r.
  - apply IH in Hc as (d' & ? & ->). exists d'. split; [done|]. by rewrite !Nat.add_succ_r.
Qed.

(** Distinct declared names leave distinct announced slots. *)
Lemma announced_slots_unique `{Env} ds ni ii m :
  Forall client_decl ds → NoDup (fst <$> ds) →
  announced_unique (announced_slots ds ni ii ++ replicate m client_zero).
Proof.
  intros Hd Hnd i j c d Hi Hj Hc Hda Heq.
  assert (∀ k e, (announced_slots ds ni ii ++ replicate m client_zero) !! k = Some e →
    cl_anounced e = true → ∃ x, (fst <$> ds) !! k = Some x ∧ cstr (cl_name e) = x) as Hk.
  { intros k e Hk He. apply lookup_app_Some in Hk as [Hk|[_ Hk]].
    - apply announced_slots_lookup in Hk as (x & Hx & ->). exists x.1.
      split; [by rewrite list_lookup_fmap, Hx|]. rewrite Forall_forall in Hd.
      destruct (Hd x (list_elem_of_lookup_2 _ _ _ Hx)) as [((_ & Hnn & _) & Hl & _) _]. cbn.
      rewrite cstr_strncpy; [by apply cstr_no_nul|].
      unfold strlen. rewrite cstr_no_nul by done. unfold WD_CLIENT_NAME_LEN. lia.
    - apply lookup_replicate in Hk as [-> _]. done. }
  destruct (Hk i c Hi Hc) as (x & Hx & Ex). destruct (Hk j d Hj Hda) as (y & Hy & Ey).
  rewrite NoDup_alt in Hnd. apply (Hnd i j x); congruence.
Qed.

(** C15: reading back what the documented file layout writes: every valid set of
    options and every list of up to 64 client sections with admissible names and
    timeouts, printed as a configuration file, is read by [parse_config] as
    exactly these options and announced clients, in order, the remaining slots
    zeroed, each client with the identifier drawn for it and the start of its timeout. *)
Theorem parse_config_roundtrip `{Env} filename path cfg ds s :
  tight path → (length path < WD_CLIENT_SOCKPATH_LEN)%nat → wf_config cfg →
  cfg_socket_path cfg = strncpy WD_CLIENT_SOCKPATH_LEN path →
  Forall client_decl ds → (length ds ≤ WD_MAX_CLIENTS)%nat →
  (cfg_strict_clients cfg = true → ds ≠ []) →
  (cfg_unique_clients cfg = true → NoDup (fst <$> ds)) →
  parse_config filename (Some (print_config path cfg ds)) WD_MAX_CLIENTS s =
  (Ret tt, set_config cfg (advance (length ds)
     (announced_slots ds (now_ix s) (id_ix s)
        ++ replicate (WD_MAX_CLIENTS - length ds) client_zero) s)).
Proof.
  intros Hp Hlp Hc Hpath Hd Hlen Hst Hun. unfold parse_config, print_config.
  rewrite file_lines_concat by (apply Forall_app; auto using full_line_options, full_line_clients).
  mrun. set (s1 := set_config config_defaults _).
  pose proof (run_options filename path cfg None s1 0 Hp Hlp Hc Hpath wf_config_defaults) as H1.
  set (s2 := set_config cfg s1) in *.
  destruct (run_clients filename ds [] (WD_MAX_CLIENTS - length ds) None s2
    (0 + Z.of_nat (length (print_options path cfg)))) as (idx & H2 & Hidx); auto.
  { cbn. unfold WD_MAX_CLIENTS in *. lia. }
  { cbn [app]. subst s2 s1. cbn [clients set_config set_clients]. f_equal.
    unfold WD_MAX_CLIENTS in *. lia. }
  pose proof (lines_run_app filename _ _ _ _ _ _ _ _ _ H1 H2) as H3. unfold lines_run in H3.
  rewrite H3. cbn [app].
  replace (config (advance _ _ s2)) with cfg by done.
  assert (cfg_strict_clients cfg && bool_decide (idx = None) = false) as ->.
  { destruct (cfg_strict_clients cfg); [|done]. apply bool_decide_eq_false. rewrite Hidx.
    intros [_ ?]. by apply Hst. }
  replace (advance (length ds) _ s2) with
    (set_config cfg (advance (length ds) (announced_slots ds (now_ix s) (id_ix s)
       ++ replicate (WD_MAX_CLIENTS - length ds) client_zero) s)) by done.
  destruct (cfg_unique_clients cfg); [|done].
  assert (find_duplicate (announced_slots ds (now_ix s) (id_ix s)
            ++ replicate (WD_MAX_CLIENTS - length ds) client_zero) = None) as Hf
    by (apply find_duplicate_None, announced_slots_unique; auto).
  cbn [clients set_config advance set_clients]. by rewrite Hf.
Qed.
