(* ===== verification/ConfigErrors.v ===== *)
(** * Errors in configuration files

    What [parse_config] of ConfigFile.v reports about an option it does not
    accept: a pure reference of the checks of [parse_option], and the line number
    in the message. *)

From S2P Require Import Prelude CString Scanf Common World ClientId Registry ConfigFile ConfigPrint.

(** ** The checks of one option *)

Definition out_of_range (lo hi z : Z) : bool := (z <? lo) || (z >? hi).

(** The message about an option, as a function of the line number, or nothing when
    the option is accepted; [in_section] tells whether a client section was begun. *)
Definition option_error (key val : bytes) (in_section : bool) : option (Z → bytes) :=
  if strcmp_eq key (lit "socket_path") then None
  else if strcmp_eq key (lit "wd_timeout_s") then
    if out_of_range WD_HW_TIMEOUT_MIN_S WD_HW_TIMEOUT_MAX_S (atoi val)
    then Some (λ ln, printf "Invalid watchdog timeout set in line %d. Must be between %d and %d seconds."
                       [PI ln; PI WD_HW_TIMEOUT_MIN_S; PI WD_HW_TIMEOUT_MAX_S])
    else None
  else if strcmp_eq key (lit "reboot_timeout_s") then
    if out_of_range WD_REBOOT_TIMEOUT_MIN_S WD_REBOOT_TIMEOUT_MAX_S (atoi val)
    then Some (λ ln, printf "Invalid reboot timeout set in line %d. Must be between %d and %d seconds."
                       [PI ln; PI WD_REBOOT_TIMEOUT_MIN_S; PI WD_REBOOT_TIMEOUT_MAX_S])
    else None
  else if strcmp_eq key (lit "strict_clients") then
    match parse_bool val with
    | Some _ => None
    | None => Some (λ ln, printf "Invalid value for strict_clients in line %d" [PI ln])
    end
  else if strcmp_eq key (lit "unique_clients") then
    match parse_bool val with
    | Some _ => None
    | None => Some (λ ln, printf "Invalid value for unique_clients in line %d" [PI ln])
    end
  else if strcmp_eq key (lit "timeout_ms") then
    if in_section then
      if out_of_range WD_CLIENT_TIMEOUT_MIN_MS WD_CLIENT_TIMEOUT_MAX_MS (u32 (atoi val))
      then Some (λ ln, printf "Invalid client timeout in line %d, must be between %d and %d ms"
                         [PI ln; PI WD_CLIENT_TIMEOUT_MIN_MS; PI WD_CLIENT_TIMEOUT_MAX_MS])
      else None
    else Some (λ ln, printf
           "Unexpected client timeout set in line %d (must be set in a client section)" [PI ln])
  else Some (λ ln, printf "Unknown config key '%s' in line %d" [PS key; PI ln]).

Definition in_section (idx : option nat) : bool := if idx then true else false.

(** What a fatal error leaves. *)
Definition reports {A} (m : B A) (s : broker) (text : bytes) : Prop :=
  ∃ s', m s = (Exit EXIT_FAILURE, add_event (EvStderr (fatal_error_text text)) s') ∧
    trace s' = trace s.

Lemma reports_fatal {A} text s : reports (fatal_error (A:=A) text) s text.
Proof. by exists s. Qed.

Lemma reports_bind {A C} (m : B A) (f : A → B C) s text :
  reports m s text → reports (m ≫= f) s text.
Proof. intros (s' & H & Ht). exists s'. by rewrite bind_eq, H. Qed.

(** [parse_option] decides as the reference does. *)
Lemma parse_option_error key val idx ln s :
  match option_error key val (in_section idx) with
  | Some msg => reports (parse_option key val idx ln) s (msg ln)
  | None => ∃ s', parse_option key val idx ln s = (Ret tt, s') ∧ trace s' = trace s
  end.
Proof.
  unfold option_error, parse_option, out_of_range, in_section, modify_config.
  destruct (strcmp_eq key (lit "socket_path")); [by eexists|].
  destruct (strcmp_eq key (lit "wd_timeout_s")).
  { mrun. cbn [config set_config set_wd_timeout_s cfg_wd_timeout_s].
    destruct (_ || _); [by eexists|by eexists]. }
  destruct (strcmp_eq key (lit "reboot_timeout_s")).
  { mrun. cbn [config set_config set_reboot_timeout_s cfg_reboot_timeout_s].
    destruct (_ || _); [by eexists|by eexists]. }
  destruct (strcmp_eq key (lit "strict_clients")); [destruct (parse_bool val); by eexists|].
  destruct (strcmp_eq key (lit "unique_clients")); [destruct (parse_bool val); by eexists|].
  destruct (strcmp_eq key (lit "timeout_ms")); [|by eexists].
  destruct idx as [i|]; [|by eexists]. mrun. destruct (_ || _); by eexists.
Qed.

(** ** Where the reading stops *)

(** Lines before a text are delivered whole. *)
Lemma file_lines_prefix ls r :
  Forall full_line ls → ∃ more, file_lines (concat ls ++ r) = ls ++ more.
Proof.
  intros H. unfold file_lines.
  assert (∀ fuel, (length (concat ls ++ r) ≤ fuel)%nat →
    ∃ more, fgets_all fuel (concat ls ++ r) = ls ++ more) as Hf; [|by apply Hf].
  induction H as [|l ls (t & -> & Ht & Hl) _ IH]; intros fuel Hfuel; [by eexists|].
  cbn [concat] in *. rewrite !length_app in *. cbn [length] in *.
  destruct fuel as [|fuel]; [lia|]. cbn [fgets_all]. unfold fgets.
  rewrite <-!app_assoc. cbn [app].
  destruct (t ++ NL :: concat ls ++ r) as [|x xs] eqn:E; [by destruct t|]. rewrite <-E.
  rewrite take_line_full by (done || unfold LINE_LEN in *; lia).
  destruct (IH fuel) as [more ->]; [lia|]. by exists more.
Qed.

Section Lines.
Context {E : Env} (filename : bytes).

(** After lines that are accepted, the first that is not ends the reading. *)
Lemma lines_run_reports ls l more idx s ln idx' s' text :
  lines_run filename ls idx s ln idx' s' → trace s' = trace s →
  reports (parse_line filename l idx' (ln + Z.of_nat (length ls) + 1) WD_MAX_CLIENTS) s' text →
  reports (parse_lines filename (ls ++ l :: more) idx ln WD_MAX_CLIENTS) s text.
Proof.
  unfold lines_run. intros H Ht (s2 & Hr & Ht2). exists s2. split; [|congruence]. clear Ht Ht2.
  revert idx s ln H Hr. induction ls as [|x ls IH]; intros idx s ln H Hr; cbn [app parse_lines] in *.
  - injection H as <- <-. cbn [length] in Hr. rewrite Z.add_0_r in Hr. by rewrite bind_eq, Hr.
  - apply bind_ret_inv in H as (i & s1 & Hx & H). rewrite bind_eq, Hx. apply (IH i s1 (ln + 1) H).
    rewrite <-Hr. f_equal. cbn [length]. f_equal. lia.
Qed.

Lemma parse_line_print_option key val idx ln s :
  option_key key = true → tight val → (length val < 127)%nat →
  parse_line filename (print_option key val) idx ln WD_MAX_CLIENTS s =
  (parse_option key val idx ln ;; mret idx) s.
Proof.
  unfold option_key. rewrite !andb_true_iff. intros [[[Ht He] Hh] Hl] Hv Hlv.
  apply tightb_tight in Ht. apply negb_true_iff in He, Hh. apply Nat.ltb_lt in Hl.
  pose proof (parse_line_option filename key val [] [SP] [SP] [NL] idx ln WD_MAX_CLIENTS Ht Hv) as H.
  change (print_option key val) with ([] ++ key ++ [SP] ++ lit "=" ++ [SP] ++ val ++ [NL]).
  apply H; try (by apply not_elem_lit); try done; try (by repeat constructor); cbn [length]; try lia.
  destruct key as [|c key]; [discriminate|]. cbn [head hd] in *. intros [= ->].
  by rewrite Ascii.eqb_refl in Hh.
Qed.
End Lines.

