(* ===== verification/Getopt.v ===== *)
(** * [getopt_long]

    Both programs read their options with the C library's [getopt_long].  It is
    modelled as a function of the words after the program name, in its default
    ordering: options may follow operands, a long option may be abbreviated as
    long as it stays unique, a word [--] ends the options.  Its own messages on
    stderr are left out. *)

From S2P Require Import Prelude CString.

(** One result: an option with its argument, or [?]. *)
Inductive opt : Type :=
  | Opt (c : ascii) (optarg : option bytes)
  | OptError.

(** Splits [name=value]. *)
Fixpoint split_eq (l : bytes) : bytes * option bytes :=
  match l with
  | [] => ([], None)
  | c :: r => if Ascii.eqb c "=" then ([], Some r)
              else let '(n, v) := split_eq r in (c :: n, v)
  end.

Section Getopt.
(** The short options and the long ones, each with whether it takes an argument;
    a long option stands for a letter. *)
Context (shorts : list (ascii * bool)) (longs : list (bytes * bool * ascii)).

(** The long option [name] stands for: an exact match, or the only one it
    abbreviates. *)
Definition find_long (name : bytes) : option (bool * ascii) :=
  match List.filter (λ o, bytes_eqb name o.1.1) longs with
  | o :: _ => Some (o.1.2, o.2)
  | [] => match List.filter (λ o, prefix_eqb name o.1.1) longs with
          | [o] => Some (o.1.2, o.2)
          | _ => None
          end
  end.

Definition find_short (c : ascii) : option bool :=
  snd <$> List.find (λ o, Ascii.eqb c o.1) shorts.

(** The letters of one word, and whether the next word is the last one's argument. *)
Fixpoint short_opts (l : bytes) (next : option bytes) : list opt * bool :=
  match l with
  | [] => ([], false)
  | c :: r =>
      match find_short c with
      | Some true =>
          match r, next with
          | _ :: _, _ => ([Opt c (Some r)], false)
          | [], Some v => ([Opt c (Some v)], true)
          | [], None => ([OptError], false)
          end
      | Some false => let '(os, b) := short_opts r next in (Opt c None :: os, b)
      | None => let '(os, b) := short_opts r next in (OptError :: os, b)
      end
  end.

(** All results in order, and the operands. *)
Fixpoint getopt_long (argv : list bytes) : list opt * list bytes :=
  match argv with
  | [] => ([], [])
  | a :: r =>
      match a with
      | "-"%char :: "-"%char :: [] => ([], r)
      | "-"%char :: "-"%char :: l =>
          let '(name, val) := split_eq l in
          match find_long name, val with
          | Some (false, c), None => let '(os, ws) := getopt_long r in (Opt c None :: os, ws)
          | Some (true, c), Some v => let '(os, ws) := getopt_long r in (Opt c (Some v) :: os, ws)
          | Some (true, c), None =>
              match r with
              | v :: r' => let '(os, ws) := getopt_long r' in (Opt c (Some v) :: os, ws)
              | [] => ([OptError], [])
              end
          | Some (false, _), Some _ | None, _ =>
              let '(os, ws) := getopt_long r in (OptError :: os, ws)
          end
      | "-"%char :: (_ :: _) as l =>
          match short_opts (tl l) (head r), r with
          | (os, true), _ :: r' => let '(os', ws) := getopt_long r' in (os ++ os', ws)
          | (os, _), _ => let '(os', ws) := getopt_long r in (os ++ os', ws)
          end
      | _ => let '(os, ws) := getopt_long r in (os, a :: ws)
      end
  end.
End Getopt.
