(* ===== verification/Daemon.v ===== *)
(** * The supervision loop

    src/src/wd-broker.c: [signal_handler], the body of the main loop of [main]
    (one connection, the heartbeat check, feeding the watchdog), the
    reset-pending loop and the shutdown sequence, and the life of the daemon
    as a step relation over these parts. *)

From S2P Require Import Prelude CString Scanf Common World ClientId Registry Status Handlers.
From S2P Require Import Requests.

(** ** What the kernel delivers in one round *)

Definition EINTR : Z := 4.
Definition EAGAIN : Z := 11.
Definition EWOULDBLOCK : Z := EAGAIN.
Definition ECONNABORTED : Z := 103.

Inductive accept_result : Type :=
  | Accepted (c : conn)
  | AcceptErr (errno : Z) (text : bytes).

(** The result of [select] on the server socket and the timer: an error, or which
    of the two is ready; for the timer the number of bytes [read] returns and the
    error text. *)
Inductive select_result : Type :=
  | SelErr (errno : Z) (text : bytes)
  | SelOk (server : option accept_result) (timer : option (Z * bytes)).

(** [wk_feed]: the error text when writing to the watchdog fails. *)
Record wake : Type := Wake { wk_select : select_result; wk_feed : option bytes }.

Definition accept_transient (errno : Z) : bool :=
  (errno =? EAGAIN) || (errno =? EWOULDBLOCK) || (errno =? ECONNABORTED) || (errno =? EINTR).

Definition signal_handler (sig : Z) : B unit :=
  log_message LOG_INFO (printf "Received signal %d, shutting down..." [PI sig]) ;;
  modify (set_running false).

Section Loop.
Context {E : Env}.

(** ** One round of the main loop *)

(** The connection that is ready, if any. *)
Definition serve (server : option accept_result) : B unit :=
  match server with
  | None => mret tt
  | Some (Accepted c) => emit EvAccept ;; handle_command c ;; emit EvCloseConn
  | Some (AcceptErr errno text) =>
      if accept_transient errno then mret tt
      else log_message LOG_ERR (printf "accept: %s" [PS text]) ;; modify (set_all_ok false)
  end.

Definition missed_text (c : client_t) (age : Z) : bytes :=
  printf "Client '%s' (PID %d, clientID=%s) missed heartbeat (%u ms > %d ms)"
    [PS (cl_name c); PI (cl_pid c); PS (cl_clientID c); PI age; PI (cl_timeout_ms c)].

Definition unregistered_text (c : client_t) : bytes :=
  printf "Client '%s' not registered within %u ms" [PS (cl_name c); PI (cl_timeout_ms c)].

(** The [for] loop over the clients; it breaks at the first one that is late. *)
Fixpoint check_from (cs : list client_t) : B unit :=
  match cs with
  | [] => mret tt
  | c :: r =>
      if cl_active c || cl_anounced c then
        age ← ms_since (cl_last_ping c);
        if age >? cl_timeout_ms c then
          (if cl_active c then log_message LOG_ALERT (missed_text c age)
           else log_message LOG_WARNING (unregistered_text c)) ;;
          modify (set_all_ok false)
        else check_from r
      else check_from r
  end.

Definition check_clients : B unit := cs ← gets clients; check_from cs.

(** [sizeof(expirations)] *)
Definition EXPIRATIONS_LEN : Z := 8.

Definition feed (timer : option (Z * bytes)) (feed_err : option bytes) : B unit :=
  match timer with
  | None => mret tt
  | Some (size, text) =>
      if negb (size =? EXPIRATIONS_LEN)
      then fatal_errno (lit "Failed to read timer file descriptor") text
      else
        ok ← gets all_ok;
        fd ← gets watchdog_fd;
        if (ok : bool) && fd then
          match feed_err with
          | Some err => fatal_error (printf "Failed to feed watchdog: %s" [PS err])
          | None => emit EvFeed
          end
        else mret tt
  end.

Definition iteration (w : wake) : B unit :=
  match wk_select w with
  | SelOk server timer => serve server ;; check_clients ;; feed timer (wk_feed w)
  | SelErr errno text =>
      if negb (errno =? EINTR)
      then log_message LOG_CRIT (printf "select: %s" [PS text]) ;; modify (set_all_ok false)
      else mret tt
  end.

(** ** After the loop *)

(** What precedes the waiting loop when supervision has failed. *)
Definition enter_pending : B unit :=
  log_message LOG_EMERG (lit "SYSTEM RESET PENDING!") ;;
  cfg ← gets config;
  emit (EvUnlink (cstr (cfg_socket_path cfg))).

(** The error texts of the calls of the shutdown sequence that may fail. *)
Record shutdown_io : Type := ShutdownIo {
  io_settimeout : option bytes;
  io_feed : option bytes;
  io_magic : option bytes;
  io_disable : option bytes;
}.

Definition log_failure (fmt : string) (err : option bytes) : B unit :=
  match err with
  | Some text => log_message LOG_ERR (printf fmt [PS text])
  | None => mret tt
  end.

(** The REBOOT branch: the watchdog gets its reboot timeout and a last feed. *)
Definition activate_reboot (io : shutdown_io) : B unit :=
  cfg ← gets config;
  fd ← gets watchdog_fd;
  if fd : bool then
    emit (EvSetTimeout (cfg_reboot_timeout_s cfg)) ;;
    log_failure "Failed to set watchdog reboot timeout: %s" (io_settimeout io) ;;
    match io_feed io with
    | Some err => fatal_error (printf "Failed to feed watchdog: %s" [PS err])
    | None => emit EvFeed
    end ;;
    log_message LOG_NOTICE
      (printf "Reboot failsafe activated, hardware watchdog will trigger reboot in %d seconds"
         [PI (cfg_reboot_timeout_s cfg)])
  else
    log_message LOG_NOTICE
      (printf
         "No hardware watchdog available, reboot failsafe not active (reboot_timeout_s: %d seconds)"
         [PI (cfg_reboot_timeout_s cfg)]).

Definition shutdown (io : shutdown_io) : B unit :=
  rb ← gets reboot;
  (if rb : bool then activate_reboot io else mret tt) ;;
  log_message LOG_INFO (lit "Exiting wd-broker...") ;;
  fd ← gets watchdog_fd;
  (if fd : bool then
     (if rb : bool then mret tt
      else
        emit EvMagicClose ;;
        log_failure "Failed to stop watchdog: %s" (io_magic io) ;;
        emit EvDisableCard ;;
        log_failure "Failed to disable watchdog: %s" (io_disable io)) ;;
     emit EvCloseWatchdog ;;
     modify (set_watchdog_fd false)
   else mret tt) ;;
  cfg ← gets config;
  emit (EvUnlink (cstr (cfg_socket_path cfg))).

(** ** The life of the daemon *)

Inductive phase : Type :=
  | Looping              (* while (running && all_ok) *)
  | Pending              (* while (running) { sync(); sleep(1); } *)
  | Ended (status : Z)   (* the process has exited *)
  | Crashed.             (* undefined behaviour *)

(** Where a completed part of [main] leads. *)
Definition continue_in (ph : phase) (o : outcome unit) : phase :=
  match o with Ret _ => ph | Exit c => Ended c | Undef => Crashed end.

Inductive dstep : phase * broker → phase * broker → Prop :=
  | step_iteration w s o s' :
      running s = true → all_ok s = true → iteration w s = (o, s') →
      dstep (Looping, s) (continue_in Looping o, s')
  | step_fail s o s' :
      all_ok s = false → enter_pending s = (o, s') →
      dstep (Looping, s) (continue_in Pending o, s')
  | step_wait s :
      running s = true → dstep (Pending, s) (Pending, add_event EvSync s)
  | step_end_loop io s o s' :
      running s = false → all_ok s = true → shutdown io s = (o, s') →
      dstep (Looping, s) (continue_in (Ended EXIT_SUCCESS) o, s')
  | step_end_pending io s o s' :
      running s = false → shutdown io s = (o, s') →
      dstep (Pending, s) (continue_in (Ended EXIT_SUCCESS) o, s')
  | step_signal sig ph s o s' :
      ph = Looping ∨ ph = Pending → signal_handler sig s = (o, s') →
      dstep (ph, s) (ph, s').

Definition dsteps : phase * broker → phase * broker → Prop := rtc dstep.
End Loop.

(** ** The heartbeat check *)

Section Check.
Context {E : Env}.

(** [c] is within its timeout at the [n]-th clock reading. *)
Definition on_time (n : nat) (c : client_t) : Prop :=
  ms_between (env_now n) (cl_last_ping c) ≤ cl_timeout_ms c.

#[export] Instance on_time_decision n c : Decision (on_time n c).
Proof. unfold on_time. apply _. Defined.

(** The clients that are checked, each with a clock reading of its own. *)
Definition live_clients (cs : list client_t) : list client_t := List.filter live cs.

Definition all_on_time (cs : list client_t) (n : nat) : Prop :=
  ∀ j c, live_clients cs !! j = Some c → on_time (n + j) c.

(** The first late client and what is logged about it. *)
Definition late_report (c : client_t) (age : Z) : event :=
  if cl_active c then EvLog LOG_ALERT (missed_text c age)
  else EvLog LOG_WARNING (unregistered_text c).

Lemma check_from_spec cs s :
  (all_on_time cs (now_ix s) ∧
   check_from cs s = (Ret tt, set_now_ix (now_ix s + length (live_clients cs)) s)) ∨
  (∃ j c, live_clients cs !! j = Some c ∧ ¬ on_time (now_ix s + j) c ∧
    (∀ k d, (k < j)%nat → live_clients cs !! k = Some d → on_time (now_ix s + k) d) ∧
    check_from cs s =
      (Ret tt, set_all_ok false
         (add_event (late_report c (ms_between (env_now (now_ix s + j)) (cl_last_ping c)))
            (set_now_ix (now_ix s + S j) s)))).
Proof.
  unfold all_on_time, live_clients.
  revert s. induction cs as [|c r IH]; intros s; cbn [check_from List.filter].
  { left. split; [done|]. cbn. rewrite Nat.add_0_r. by destruct s. }
  fold (live c). destruct (live c) eqn:El; cbn [length]; [|apply IH].
  unfold ms_since, get_now. mrun.
  destruct (ms_between (env_now (now_ix s)) (cl_last_ping c) >? cl_timeout_ms c) eqn:Eg.
  - right. exists O, c. split; [done|]. rewrite Nat.add_0_r, Nat.add_1_r.
    split; [unfold on_time; lia|]. split; [lia|]. unfold late_report, log_message, emit.
    by destruct (cl_active c).
  - assert (on_time (now_ix s) c) as H0 by (unfold on_time; lia).
    destruct (IH (set_now_ix (S (now_ix s)) s)) as [[Ha Hr]|(j & d & Hj & Hl & Hlt & Hr)].
    + left. split.
      * intros [|j] d Hj; [injection Hj as <-; by rewrite Nat.add_0_r|].
        specialize (Ha j d Hj). rewrite Nat.add_succ_r. exact Ha.
      * rewrite Hr. unfold set_now_ix. cbn. by rewrite Nat.add_succ_r.
    + right. exists (S j), d. cbn [now_ix set_now_ix] in Hl, Hlt, Hr. split; [done|].
      rewrite Nat.add_succ_r. split; [done|]. split.
      * intros [|k] e Hk He; [injection He as <-; by rewrite Nat.add_0_r|].
        rewrite Nat.add_succ_r. apply (Hlt k); [lia|done].
      * rewrite Hr. unfold set_now_ix. cbn. by rewrite !Nat.add_succ_r.
Qed.

Lemma check_clients_spec s :
  ∃ s' es, check_clients s = (Ret tt, s') ∧ log_only es ∧
    clients s' = clients s ∧ config s' = config s ∧ running s' = running s ∧
    reboot s' = reboot s ∧ daemonize s' = daemonize s ∧ watchdog_fd s' = watchdog_fd s ∧
    id_ix s' = id_ix s ∧ (now_ix s ≤ now_ix s')%nat ∧ trace s' = trace s ++ es ∧
    ((all_on_time (clients s) (now_ix s) ∧ es = [] ∧ all_ok s' = all_ok s) ∨
     (¬ all_on_time (clients s) (now_ix s) ∧ all_ok s' = false)).
Proof.
  unfold check_clients. mrun.
  destruct (check_from_spec (clients s) s) as [[Ha ->]|(j & c & Hj & Hl & _ & ->)].
  - exists (set_now_ix (now_ix s + length (live_clients (clients s))) s), []. cbn. rewrite app_nil_r.
    split_and!; try done; [constructor|lia|by left].
  - eexists _, [_]. split; [done|]. cbn. split_and!; try done.
    + unfold late_report. destruct (cl_active c); by repeat constructor.
    + lia.
    + right. split; [|done]. intros Ha. by apply Hl, Ha.
Qed.
End Check.

(** ** What one round does *)

(** Events of the watchdog device. *)
Definition watchdog_event (e : event) : bool :=
  match e with
  | EvOpenWatchdog | EvSetTimeout _ | EvFeed | EvMagicClose | EvDisableCard | EvCloseWatchdog => true
  | _ => false
  end.

Definition quiet (es : list event) : Prop := Forall (λ e, watchdog_event e = false) es.

Lemma log_only_quiet es : log_only es → quiet es.
Proof. intros H. eapply Forall_impl; [exact H|]. by intros []. Qed.

Lemma quiet_app es1 es2 : quiet es1 → quiet es2 → quiet (es1 ++ es2).
Proof. intros. by apply Forall_app. Qed.

(** How a part of the loop changes the daemon: supervision can only fail, the
    daemon can only stop, and only a reboot request stops it from within. *)
Record loop_rel (s s' : broker) (es : list event) : Prop := {
  lr_config : config s' = config s;
  lr_watchdog : watchdog_fd s' = watchdog_fd s;
  lr_trace : trace s' = trace s ++ es;
  lr_all_ok : all_ok s' = true → all_ok s = true;
  lr_running : running s' = true → running s = true;
  lr_why : running s = true → running s' = false → reboot s' = true;
  lr_reboot : reboot s = true → reboot s' = true;
  lr_table : wf_table (clients s) → wf_table (clients s');
}.

Lemma loop_rel_refl s : loop_rel s s [].
Proof. constructor; try done; [by rewrite app_nil_r|by intros ->]. Qed.

Lemma loop_rel_trans s1 s2 s3 es1 es2 :
  loop_rel s1 s2 es1 → loop_rel s2 s3 es2 → loop_rel s1 s3 (es1 ++ es2).
Proof.
  intros [] []. constructor; try congruence; auto.
  - rewrite lr_trace1, lr_trace0. by rewrite app_assoc.
  - intros H1 H3. destruct (running s2) eqn:E2; auto.
Qed.

Lemma loop_rel_event s e : loop_rel s (add_event e s) [e].
Proof. constructor; try done. by cbn; intros ->. Qed.

Section Iteration.
Context {E : Env}.

(** Serving a connection never touches the watchdog. *)
Lemma serve_spec server s :
  wf_table (clients s) →
  (∃ s', serve server s = (Undef, s') ∧ ∃ es, loop_rel s s' es ∧ quiet es) ∨
  ∃ s' es, serve server s = (Ret tt, s') ∧ loop_rel s s' es ∧ quiet es.
Proof.
  intros Hw. destruct server as [[c|errno text]|].
  - assert (loop_rel s (add_event EvAccept s) [EvAccept]) as H1 by apply loop_rel_event.
    set (s1 := add_event EvAccept s) in *.
    assert (serve (Some (Accepted c)) s =
      match handle_command c s1 with
      | (Ret _, s2) => (Ret tt, add_event EvCloseConn s2)
      | (Exit x, s2) => (Exit x, s2) | (Undef, s2) => (Undef, s2) end) as ->.
    { unfold serve, emit. mrun. fold s1. by destruct (handle_command c s1) as [[[]| |] ?]. }
    destruct (conn_peer c) as [creds|err] eqn:Hp.
    + destruct (handle_command_outcome c creds s1 Hw Hp) as [->|(s2 & es & -> & Ho)].
      { left. exists s1. split; [done|]. exists [EvAccept]. split; [done|by repeat constructor]. }
      right. exists (add_event EvCloseConn s2), ([EvAccept] ++ es ++ [EvCloseConn]). split; [done|].
      destruct Ho. split.
      * apply (loop_rel_trans s s1); [done|]. apply (loop_rel_trans s1 s2); [|apply loop_rel_event].
        constructor; try done; try (intros; destruct ro_running as [[? ?]|(? & ? & ?)]; congruence).
        intros H. exact (request_effect_wf creds s1 _ H ro_effect).
      * repeat (apply Forall_app; split); try by repeat constructor.
        destruct ro_answer as [Ha _]. eapply Forall_impl; [exact Ha|]. by intros [].
    + destruct (handle_command_no_peer c err s1 Hp) as (es & -> & Ha & _).
      right. exists (add_event EvCloseConn (with_events es s1)), ([EvAccept] ++ es ++ [EvCloseConn]).
      split; [done|]. split.
      * apply (loop_rel_trans s s1); [done|].
        apply (loop_rel_trans s1 (with_events es s1)); [|apply loop_rel_event].
        constructor; try done. by cbn; intros ->.
      * repeat (apply Forall_app; split); try by repeat constructor.
        eapply Forall_impl; [exact Ha|]. by intros [].
  - right. unfold serve. destruct (accept_transient errno).
    { exists s, []. split; [done|]. split; [apply loop_rel_refl|constructor]. }
    unfold log_message, emit. mrun. eexists _, [_]. split; [done|].
    split; [constructor; try done; by cbn; intros ->|by repeat constructor].
  - right. exists s, []. split; [done|]. split; [apply loop_rel_refl|constructor].
Qed.

(** Feeding: nothing, one byte to the device, or a fatal error. *)
Lemma feed_spec timer err s :
  (∃ b : bool, feed timer err s = (Ret tt, if b then add_event EvFeed s else s) ∧
     (b = true → all_ok s = true ∧ watchdog_fd s = true) ∧
     (∀ t, timer = Some (EXPIRATIONS_LEN, t) → b = all_ok s && watchdog_fd s) ∧
     (timer = None → b = false)) ∨
  (∃ t, feed timer err s = (Exit EXIT_FAILURE, add_event (EvStderr t) s) ∧
     (err = None → ∀ t, timer ≠ Some (EXPIRATIONS_LEN, t))).
Proof.
  unfold feed. destruct timer as [[size text]|].
  2: { left. exists false. by split_and!. }
  destruct (Z.eqb_spec size EXPIRATIONS_LEN) as [->|Hne]; cbn [negb].
  - mrun. destruct (all_ok s && watchdog_fd s) eqn:Eb.
    + apply andb_true_iff in Eb as [Ea Ew]. destruct err as [e|].
      * right. unfold fatal_error, emit. mrun. by eexists.
      * left. exists true. split; [done|]. by rewrite Ea, Ew.
    + left. by exists false.
  - right. unfold fatal_errno, emit. mrun. eexists. split; [done|]. intros _ t [= ? _]. done.
Qed.

(** The parts of a round: what [serve] left, the check, the feed. *)
Lemma iteration_ok_eq server timer err s s1 :
  serve server s = (Ret tt, s1) →
  ∃ s2 es, check_clients s1 = (Ret tt, s2) ∧ loop_rel s1 s2 es ∧ log_only es ∧
    clients s2 = clients s1 ∧ reboot s2 = reboot s1 ∧
    (all_ok s2 = true ↔ all_ok s1 = true ∧ all_on_time (clients s1) (now_ix s1)) ∧
    iteration (Wake (SelOk server timer) err) s = feed timer err s2.
Proof.
  intros Hs. destruct (check_clients_spec s1)
    as (s2 & es & Hc & Hl & H1 & H2 & H3 & H4 & H5 & H6 & _ & _ & H7 & H8).
  exists s2, es. split; [done|]. split_and!; try done.
  - constructor; try congruence; intros; destruct H8 as [(_ & _ & ?)|[_ ?]]; congruence.
  - destruct H8 as [(? & _ & Ha)|[? Ha]]; rewrite Ha; naive_solver.
  - unfold iteration. cbn [wk_select wk_feed]. by rewrite bind_eq, Hs, bind_eq, Hc.
Qed.

(** One round as a whole. *)
Lemma iteration_spec w s :
  wf_table (clients s) →
  ∃ o s' es, iteration w s = (o, s') ∧ loop_rel s s' es ∧
    (quiet es ∨ ∃ es', es = es' ++ [EvFeed] ∧ quiet es' ∧ o = Ret tt ∧
       all_ok s' = true ∧ watchdog_fd s' = true ∧
       ∃ server timer s1, wk_select w = SelOk server timer ∧ serve server s = (Ret tt, s1) ∧
         clients s' = clients s1 ∧ all_on_time (clients s1) (now_ix s1)).
Proof.
  intros Hw. destruct w as [[errno text|server timer] err].
  - unfold iteration. cbn [wk_select]. destruct (errno =? EINTR); cbn [negb].
    + exists (Ret tt), s, []. split; [done|]. split; [apply loop_rel_refl|left; constructor].
    + unfold log_message, emit. mrun. eexists _, _, [_]. split; [done|].
      split; [constructor; try done; by cbn; intros ->|left; by repeat constructor].
  - destruct (serve_spec server s Hw) as [(s1 & Hs & es & Hr & Hq)|(s1 & es & Hs & Hr & Hq)].
    + exists Undef, s1, es. split; [|auto]. unfold iteration. cbn [wk_select]. by rewrite bind_eq, Hs.
    + destruct (iteration_ok_eq server timer err s s1 Hs)
        as (s2 & es2 & _ & Hr2 & Hl2 & Hcl & _ & Hok & ->).
      pose proof (loop_rel_trans _ _ _ _ _ Hr Hr2) as Hr3.
      assert (quiet (es ++ es2)) as Hq2 by auto using quiet_app, log_only_quiet.
      destruct (feed_spec timer err s2) as [(b & -> & Hb & _)|(t & -> & _)].
      * destruct b; [|exists (Ret tt), s2, (es ++ es2); auto].
        destruct (Hb eq_refl) as [Ha Hwd]. exists (Ret tt), (add_event EvFeed s2), ((es ++ es2) ++ [EvFeed]).
        split; [done|]. split; [eapply loop_rel_trans; [exact Hr3|apply loop_rel_event]|].
        right. exists (es ++ es2). split_and!; try done.
        exists server, timer, s1. split_and!; try done. by apply Hok.
      * exists (Exit EXIT_FAILURE), (add_event (EvStderr t) s2), ((es ++ es2) ++ [EvStderr t]).
        split; [done|]. split; [eapply loop_rel_trans; [exact Hr3|apply loop_rel_event]|].
        left. apply quiet_app; [done|by repeat constructor].
Qed.
End Iteration.

(** C6: in a round in which the timer fired, the watchdog is open and its device
    can be written, the watchdog is fed if and only if supervision was still in
    order after the connection was served and every announced or active client
    was within its timeout when it was checked; otherwise supervision has failed
    and nothing is written to the watchdog. *)
Theorem round_feeds_iff_all_on_time `{Env} server t s s1 :
  wf_table (clients s) → watchdog_fd s = true → serve server s = (Ret tt, s1) →
  ∃ s' es, iteration (Wake (SelOk server (Some (EXPIRATIONS_LEN, t))) None) s = (Ret tt, s') ∧
    trace s' = trace s ++ es ∧ clients s' = clients s1 ∧
    (EvFeed ∈ es ↔ all_ok s1 = true ∧ all_on_time (clients s1) (now_ix s1)) ∧
    (all_ok s' = true ↔ all_ok s1 = true ∧ all_on_time (clients s1) (now_ix s1)).
Proof.
  intros Hw Hwd Hs.
  destruct (serve_spec server s Hw) as [(? & Hx & _)|(s1' & es1 & Hs' & Hr & Hq)]; [congruence|].
  assert (s1' = s1) as -> by congruence.
  destruct (iteration_ok_eq server (Some (EXPIRATIONS_LEN, t)) None s s1 Hs)
    as (s2 & es2 & _ & Hr2 & Hl2 & Hcl & _ & Hok & ->).
  destruct (feed_spec (Some (EXPIRATIONS_LEN, t)) None s2) as [(b & -> & _ & Hb & _)|(x & _ & Hx)];
    [|by destruct (Hx eq_refl t)].
  rewrite (Hb t eq_refl), (lr_watchdog _ _ _ Hr2), (lr_watchdog _ _ _ Hr), Hwd, andb_true_r.
  pose proof (loop_rel_trans _ _ _ _ _ Hr Hr2) as Hr3.
  assert (EvFeed ∉ es1 ++ es2) as Hnf.
  { assert (quiet (es1 ++ es2)) as Hq2 by auto using quiet_app, log_only_quiet.
    intros Hin. unfold quiet in Hq2. rewrite Forall_forall in Hq2. by specialize (Hq2 _ Hin). }
  destruct (all_ok s2) eqn:Ea.
  - exists (add_event EvFeed s2), ((es1 ++ es2) ++ [EvFeed]). split; [done|].
    cbn [trace add_event clients all_ok]. rewrite (lr_trace _ _ _ Hr3), <-app_assoc.
    split_and!; [done|done| |by rewrite Ea]. rewrite <-Hok, elem_of_app. split; [done|].
    intros _. right. left.
  - exists s2, (es1 ++ es2). split; [done|]. split; [apply Hr3|]. split; [done|].
    rewrite Ea, <-Hok. split; [|done]. by split.
Qed.
