(* ===== verification/Timing.v ===== *)
(** * Deadlines

    The arithmetic of [ms_since] in src/src/wd-broker.c: its 32-bit age against the
    time that has really passed, and what that means for the timeouts. *)

From S2P Require Import Prelude CString Scanf Common World ClientId Registry Status Handlers.
From S2P Require Import Requests Daemon.

(** ** Time *)

Definition ns_of (t : timespec) : Z := tv_sec t * 10 ^ 9 + tv_nsec t.
Definition wf_timespec (t : timespec) : Prop := 0 ≤ tv_nsec t < 10 ^ 9.

(** The subtraction of [ms_since] is within one millisecond of the elapsed time, on
    either side, and does not wrap before 49 days. *)
Lemma ms_between_accurate now then_ :
  wf_timespec now → wf_timespec then_ → 0 ≤ ns_of now - ns_of then_ ≤ (2 ^ 32 - 2) * 10 ^ 6 →
  (ns_of now - ns_of then_) / 10 ^ 6 ≤ ms_between now then_ ∧
  (ms_between now then_ - 1) * 10 ^ 6 < ns_of now - ns_of then_.
Proof.
  unfold wf_timespec, ns_of, ms_between. destruct now as [s1 n1], then_ as [s2 n2].
  cbn [tv_sec tv_nsec]. change (10 ^ 9) with 1000000000. change (10 ^ 6) with 1000000.
  change (2 ^ 32 - 2) with 4294967294. intros H1 H2 H3.
  set (d := n1 - n2) in *. set (e := s1 - s2) in *.
  pose proof (Z.quot_rem d 1000000 ltac:(done)) as Hq. set (q := Z.quot d 1000000) in *.
  set (r := Z.rem d 1000000) in *.
  assert (-1000000 < r < 1000000) as Hr.
  { pose proof (Z.rem_bound_abs d 1000000 ltac:(done)) as Hb. fold r in Hb. lia. }
  replace (s1 * 1000000000 + n1 - (s2 * 1000000000 + n2)) with ((e * 1000 + q) * 1000000 + r) in *
    by lia.
  assert (e = 0 → 0 ≤ r) as H0.
  { intros He. assert (0 ≤ d) by lia.
    pose proof (Z.rem_bound_pos d 1000000 ltac:(done) ltac:(done)). lia. }
  assert (0 ≤ e * 1000 + q) as Hnn by lia.
  rewrite u32_small by lia. split; [|lia].
  apply Z.lt_succ_r, Z.div_lt_upper_bound; lia.
Qed.

(** A heartbeat within the timeout is found on time, one a millisecond past it late. *)
Lemma elapsed_on_time c now :
  WD_CLIENT_TIMEOUT_MIN_MS ≤ cl_timeout_ms c ≤ WD_CLIENT_TIMEOUT_MAX_MS →
  wf_timespec now → wf_timespec (cl_last_ping c) →
  0 ≤ ns_of now - ns_of (cl_last_ping c) ≤ cl_timeout_ms c * 10 ^ 6 →
  ms_between now (cl_last_ping c) ≤ cl_timeout_ms c.
Proof.
  intros Ht H1 H2 He. pose proof (ms_between_accurate now (cl_last_ping c) H1 H2) as H.
  unfold WD_CLIENT_TIMEOUT_MIN_MS, WD_CLIENT_TIMEOUT_MAX_MS in Ht.
  change (2 ^ 32 - 2) with 4294967294 in *. change (10 ^ 6) with 1000000 in *.
  destruct H as [_ H]; lia.
Qed.

Lemma elapsed_late c now :
  WD_CLIENT_TIMEOUT_MIN_MS ≤ cl_timeout_ms c ≤ WD_CLIENT_TIMEOUT_MAX_MS →
  wf_timespec now → wf_timespec (cl_last_ping c) →
  (cl_timeout_ms c + 1) * 10 ^ 6 ≤ ns_of now - ns_of (cl_last_ping c) ≤ (2 ^ 32 - 2) * 10 ^ 6 →
  cl_timeout_ms c < ms_between now (cl_last_ping c).
Proof.
  intros Ht H1 H2 He. pose proof (ms_between_accurate now (cl_last_ping c) H1 H2) as H.
  unfold WD_CLIENT_TIMEOUT_MIN_MS, WD_CLIENT_TIMEOUT_MAX_MS in Ht.
  set (elapsed := ns_of now - ns_of (cl_last_ping c)) in *.
  change (2 ^ 32 - 2) with 4294967294 in *. change (10 ^ 6) with 1000000 in *.
  destruct H as [H _]; [lia|]. apply Z.lt_le_trans with (elapsed / 1000000); [|done].
  apply Z.lt_le_trans with (cl_timeout_ms c + 1); [lia|]. apply Z.div_le_lower_bound; lia.
Qed.

(** C38: the timeout check is exact to one millisecond: a client whose last heartbeat
    is at most its timeout ago is on time, one whose last heartbeat is at least
    one millisecond longer ago than that (and less than 49 days) is late. *)
Theorem deadline_exact_to_one_ms c now :
  WD_CLIENT_TIMEOUT_MIN_MS ≤ cl_timeout_ms c ≤ WD_CLIENT_TIMEOUT_MAX_MS →
  wf_timespec now → wf_timespec (cl_last_ping c) →
  let elapsed := ns_of now - ns_of (cl_last_ping c) in
  (0 ≤ elapsed ≤ cl_timeout_ms c * 10 ^ 6 → ms_between now (cl_last_ping c) ≤ cl_timeout_ms c) ∧
  ((cl_timeout_ms c + 1) * 10 ^ 6 ≤ elapsed ≤ (2 ^ 32 - 2) * 10 ^ 6 →
   cl_timeout_ms c < ms_between now (cl_last_ping c)).
Proof. intros Ht H1 H2 elapsed. split; [by apply elapsed_on_time|by apply elapsed_late]. Qed.
