(* ===== verification/Life.v ===== *)
(** * The life of the daemon

    What the shutdown sequence of src/src/wd-broker.c does, the invariant of the
    daemon's life as a step relation, what follows a failure of supervision, and
    the only way to undefined behaviour. *)

From S2P Require Import Prelude CString Scanf Common World ClientId Registry Status Handlers.
From S2P Require Import Requests Daemon.

(** ** The shutdown sequence *)

Lemma log_failure_eq fmt err s :
  ∃ es, log_failure fmt err s = (Ret tt, with_events es s) ∧ log_only es.
Proof.
  destruct err as [t|]; cbn [log_failure].
  - eexists [_]. split; [done|]. by repeat constructor.
  - exists []. rewrite with_events_nil. split; [done|constructor].
Qed.

Lemma with_events_app es1 es2 s : with_events es2 (with_events es1 s) = with_events (es1 ++ es2) s.
Proof. unfold with_events. cbn. by rewrite app_assoc. Qed.

(** The watchdog calls of a piece of trace, in order. *)
Definition watchdog_calls (es : list event) : list event := List.filter watchdog_event es.

Lemma watchdog_calls_cons e es :
  watchdog_calls (e :: es) = if watchdog_event e then e :: watchdog_calls es else watchdog_calls es.
Proof. done. Qed.

Lemma watchdog_calls_app es1 es2 :
  watchdog_calls (es1 ++ es2) = watchdog_calls es1 ++ watchdog_calls es2.
Proof. apply List.filter_app. Qed.

Lemma watchdog_calls_quiet es : quiet es → watchdog_calls es = [].
Proof. induction 1 as [|e es He _ IH]; [done|]. unfold watchdog_calls. cbn. by rewrite He. Qed.

Lemma watchdog_calls_log es : log_only es → watchdog_calls es = [].
Proof. auto using watchdog_calls_quiet, log_only_quiet. Qed.

Lemma watchdog_calls_in e es : watchdog_event e = true → e ∈ es ↔ e ∈ watchdog_calls es.
Proof.
  intros He. unfold watchdog_calls. rewrite !list_elem_of_In, List.filter_In. naive_solver.
Qed.

(** What the shutdown sequence asks of the watchdog, and how it ends. *)
Definition shutdown_calls (io : shutdown_io) (s : broker) : list event :=
  if watchdog_fd s then
    if reboot s then
      EvSetTimeout (cfg_reboot_timeout_s (config s)) ::
        match io_feed io with None => [EvFeed; EvCloseWatchdog] | Some _ => [] end
    else [EvMagicClose; EvDisableCard; EvCloseWatchdog]
  else [].

Definition shutdown_outcome (io : shutdown_io) (s : broker) : outcome unit :=
  if watchdog_fd s && reboot s
  then match io_feed io with None => Ret tt | Some _ => Exit EXIT_FAILURE end
  else Ret tt.

Record shutdown_rel (io : shutdown_io) (s s' : broker) (es : list event) : Prop := {
  sr_trace : trace s' = trace s ++ es;
  sr_reboot : reboot s' = reboot s;
  sr_all_ok : all_ok s' = all_ok s;
  sr_running : running s' = running s;
  sr_config : config s' = config s;
  sr_clients : clients s' = clients s;
  sr_calls : watchdog_calls es = shutdown_calls io s;
  sr_id_ix : id_ix s' = id_ix s;
  sr_replies : replies es = [];
}.

Ltac shutdown_rel :=
  constructor; [cbn; rewrite <-?app_assoc; reflexivity|done|done|done|done|done| |done|];
  repeat (rewrite watchdog_calls_app || (rewrite watchdog_calls_cons; cbn [watchdog_event]));
  rewrite ?watchdog_calls_log by done;
  repeat (rewrite replies_app || rewrite replies_cons); rewrite ?replies_log_only by done; try done.

Lemma shutdown_spec io s :
  ∃ s' es, shutdown io s = (shutdown_outcome io s, s') ∧ shutdown_rel io s s' es.
Proof.
  unfold shutdown, shutdown_outcome, activate_reboot, log_message, fatal_error, emit. mrun.
  destruct (reboot s) eqn:Er; destruct (watchdog_fd s) eqn:Ew; rewrite ?add_event_with;
    cbn [andb].
  - match goal with |- context [log_failure ?f ?e ?st] =>
      destruct (log_failure_eq f e st) as (es1 & -> & H1) end.
    destruct (io_feed io) eqn:Ef; rewrite !add_event_with, !with_events_app;
      cbn [watchdog_fd with_events]; rewrite ?Ew; eexists _, _; (split; [done|]);
      shutdown_rel; unfold shutdown_calls; by rewrite Er, Ew, Ef.
  - rewrite ?add_event_with, ?with_events_app. cbn [watchdog_fd with_events]. rewrite Ew.
    eexists _, _. split; [done|]. shutdown_rel. unfold shutdown_calls. by rewrite Ew.
  - cbn [watchdog_fd with_events]. rewrite Ew.
    destruct (log_failure_eq "Failed to stop watchdog: %s" (io_magic io)
      (add_event EvMagicClose (with_events [EvLog LOG_INFO (lit "Exiting wd-broker...")] s)))
      as (es1 & -> & H1). rewrite ?add_event_with.
    match goal with |- context [log_failure ?f ?e ?st] =>
      destruct (log_failure_eq f e st) as (es2 & -> & H2) end.
    rewrite ?add_event_with, ?with_events_app. eexists _, _. split; [done|].
    shutdown_rel. unfold shutdown_calls. by rewrite Er, Ew.
  - cbn [watchdog_fd with_events]. rewrite Ew. rewrite ?add_event_with, ?with_events_app.
    eexists _, _. split; [done|]. shutdown_rel. unfold shutdown_calls. by rewrite Ew.
Qed.

(** The shutdown sequence, exactly: without a reboot request an open watchdog is
    stopped both ways the driver offers and closed, whatever fails; after a reboot
    request it is never stopped, but given the configured reboot timeout, fed once
    and closed, or left armed with an error exit when that feed fails; without a
    watchdog nothing is asked of it. *)
Theorem shutdown_watchdog_calls io s :
  ∃ s' es, shutdown io s = (shutdown_outcome io s, s') ∧ trace s' = trace s ++ es ∧
    watchdog_calls es = shutdown_calls io s ∧
    (reboot s = true → EvMagicClose ∉ es ∧ EvDisableCard ∉ es) ∧
    (reboot s = false → EvFeed ∉ es).
Proof.
  destruct (shutdown_spec io s) as (s' & es & -> & Hr). exists s', es.
  destruct Hr as [Ht _ _ _ _ _ Hc _ _]. split; [done|]. split; [done|]. split; [done|].
  rewrite (watchdog_calls_in EvMagicClose), (watchdog_calls_in EvDisableCard),
    (watchdog_calls_in EvFeed), Hc by reflexivity. unfold shutdown_calls.
  rewrite !list_elem_of_In. destruct (watchdog_fd s), (reboot s); try destruct (io_feed io);
    cbn; intuition discriminate.
Qed.

(** ** The life of the daemon *)

Definition signal_event (sig : Z) : event :=
  EvLog LOG_INFO (printf "Received signal %d, shutting down..." [PI sig]).

Lemma signal_handler_eq sig s :
  signal_handler sig s = (Ret tt, set_running false (add_event (signal_event sig) s)).
Proof. done. Qed.

Lemma enter_pending_eq s :
  enter_pending s =
  (Ret tt, with_events [EvLog LOG_EMERG (lit "SYSTEM RESET PENDING!");
                        EvUnlink (cstr (cfg_socket_path (config s)))] s).
Proof.
  unfold enter_pending, log_message, emit. mrun. unfold with_events, add_event. cbn.
  by rewrite <-app_assoc.
Qed.

(** Every step by cases, with the equations of the parts that are functions. *)
Ltac step_cases H :=
  inversion H as [w ? o ? Hrun Hok He|? o ? Hok He|? Hrun|io ? o ? Hrun Hok He|io ? o ? Hrun He
    |sig ? ? o ? Hph He]; subst;
  [|rewrite enter_pending_eq in He; injection He as <- <-
   |
   |match type of He with shutdown ?i ?t = _ =>
      let Hsd := fresh in
      destruct (shutdown_spec i t) as (s3 & es3 & Hsd & Hrel);
      rewrite Hsd in He; clear Hsd end; injection He as <- <-
   |match type of He with shutdown ?i ?t = _ =>
      let Hsd := fresh in
      destruct (shutdown_spec i t) as (s3 & es3 & Hsd & Hrel);
      rewrite Hsd in He; clear Hsd end; injection He as <- <-
   |rewrite signal_handler_eq in He; injection He as <- <-].

Section Life.
Context {E : Env}.

(** Rule induction: a property every step preserves holds in every reachable state. *)
Lemma dsteps_invariant (P : phase → broker → Prop) :
  (∀ ph s ph' s', P ph s → dstep (ph, s) (ph', s') → P ph' s') →
  ∀ ph s ph' s', P ph s → dsteps (ph, s) (ph', s') → P ph' s'.
Proof.
  intros Hstep ph s ph' s' H Hs.
  change (P (ph', s').1 (ph', s').2). change (P (ph, s).1 (ph, s).2) in H.
  induction Hs as [d|[p1 s1] [p2 s2] d H1 _ IH]; [done|]. by apply IH, (Hstep p1 s1).
Qed.

Definition unfed (s0 : broker) (_ : phase) (s : broker) : Prop :=
  all_ok s = false ∧ reboot s = false ∧ ∃ es, trace s = trace s0 ++ es ∧ EvFeed ∉ es.

Lemma unfed_extend s0 ph s s' es :
  unfed s0 ph s → trace s' = trace s ++ es → EvFeed ∉ es → all_ok s' = false →
  reboot s' = false → ∀ ph', unfed s0 ph' s'.
Proof.
  intros (_ & _ & es0 & Ht & Hn) Ht' Hn' Ha Hr ph'. split_and!; try done.
  exists (es0 ++ es). rewrite Ht', Ht, app_assoc. split; [done|]. by rewrite not_elem_of_app.
Qed.

Lemma not_feed es : forallb (λ e, match e with EvFeed => false | _ => true end) es = true → EvFeed ∉ es.
Proof.
  intros H Hin. apply list_elem_of_In in Hin. rewrite forallb_forall in H. by specialize (H _ Hin).
Qed.

Lemma unfed_step s0 ph s ph' s' : unfed s0 ph s → dstep (ph, s) (ph', s') → unfed s0 ph' s'.
Proof.
  intros Hu Hs. pose proof Hu as (Ha & Hr & _). step_cases Hs; try congruence.
  - eapply unfed_extend; [exact Hu|reflexivity|by apply not_feed|done|done].
  - eapply unfed_extend; [exact Hu|reflexivity|by apply not_feed|done|done].
  - destruct Hrel as [Ht Hr' Ha' _ _ _ Hc _ _].
    eapply unfed_extend; [exact Hu|exact Ht| |congruence|congruence].
    rewrite watchdog_calls_in, Hc by done. unfold shutdown_calls. rewrite Hr.
    destruct (watchdog_fd s); by apply not_feed.
  - eapply unfed_extend; [exact Hu|reflexivity|by apply not_feed|done|done].
Qed.
End Life.

(** Once supervision has failed and no reboot was requested before, the watchdog
    is never fed again, whatever happens until the process ends. *)
Theorem no_feed_after_failure `{Env} ph s ph' s' :
  all_ok s = false → reboot s = false → dsteps (ph, s) (ph', s') →
  ∃ es, trace s' = trace s ++ es ∧ EvFeed ∉ es.
Proof.
  intros Ha Hr Hs.
  destruct (dsteps_invariant (unfed s) (unfed_step s) ph s ph' s') as (_ & _ & Hes); [|done|done].
  split_and!; try done. exists []. rewrite app_nil_r. split; [done|apply not_elem_of_nil].
Qed.

Section Invariant.
Context {E : Env}.

(** What holds between the start of the main loop in [s0] and the end of the
    process; [es] is the trace since then. *)
Record life_inv (s0 : broker) (es : list event) (ph : phase) (s : broker) : Prop := {
  li_trace : trace s = trace s0 ++ es;
  li_config : config s = config s0;
  li_table : wf_table (clients s);
  li_stopped : running s = false → reboot s = true ∨ ∃ sig, signal_event sig ∈ es;
  li_disarmed : ∀ e, e = EvMagicClose ∨ e = EvDisableCard → e ∈ watchdog_calls es →
    (∃ st, ph = Ended st) ∧ running s = false ∧ reboot s = false;
}.

Definition alive (s0 : broker) (ph : phase) (s : broker) : Prop := ∃ es, life_inv s0 es ph s.

(** Events that are no watchdog calls keep the invariant. *)
Lemma life_inv_quiet s0 es ph s ph' s' es' :
  life_inv s0 es ph s → (∀ st, ph ≠ Ended st) → trace s' = trace s ++ es' → quiet es' ∨
    (∃ es1, es' = es1 ++ [EvFeed] ∧ quiet es1) →
  config s' = config s → wf_table (clients s') →
  (running s' = false → reboot s' = true ∨ ∃ sig, signal_event sig ∈ es ++ es') →
  life_inv s0 (es ++ es') ph' s'.
Proof.
  intros [Ht Hc Hw Hst Hd] Hph Ht' Hq Hc' Hw' Hst'. constructor; auto; try congruence.
  { by rewrite Ht', Ht, app_assoc. }
  intros e He Hin. exfalso. rewrite watchdog_calls_app in Hin. apply elem_of_app in Hin as [Hin|Hin].
  - destruct (Hd e He Hin) as ([st ->] & _). by eapply Hph.
  - destruct Hq as [Hq|(es1 & -> & Hq)].
    + rewrite watchdog_calls_quiet in Hin by done. by apply elem_of_nil in Hin.
    + rewrite watchdog_calls_app, watchdog_calls_quiet in Hin by done.
      cbn in Hin. apply list_elem_of_singleton in Hin as ->. by destruct He.
Qed.

Lemma stopped_more es es' (P : Prop) :
  (P ∨ ∃ sig, signal_event sig ∈ es) → P ∨ ∃ sig, signal_event sig ∈ es ++ es'.
Proof. intros [?|[sig ?]]; [by left|right]. exists sig. apply elem_of_app. by left. Qed.

Lemma alive_shutdown s0 ph s io s' es' :
  alive s0 ph s → (∀ st, ph ≠ Ended st) → running s = false → shutdown_rel io s s' es' →
  alive s0 (continue_in (Ended EXIT_SUCCESS) (shutdown_outcome io s)) s'.
Proof.
  intros (es & [Ht Hc Hw Hst Hd]) Hph Hrun Hrel. destruct Hrel as [Ht' Hr' Ha' Hrun' Hc' Hcl' Hcalls _ _].
  exists (es ++ es'). constructor; try congruence.
  - by rewrite Ht', Ht, app_assoc.
  - intros _. apply stopped_more. rewrite Hr'. by apply Hst.
  - intros e He Hin. split.
    { unfold shutdown_outcome. destruct (_ && _); [destruct (io_feed io)|]; cbn; eauto. }
    split; [congruence|]. rewrite Hr'. destruct (reboot s) eqn:Er; [exfalso|done].
    rewrite watchdog_calls_app in Hin. apply elem_of_app in Hin as [Hin|Hin].
    + destruct (Hd e He Hin) as ([st ->] & _). by eapply Hph.
    + rewrite Hcalls in Hin. unfold shutdown_calls in Hin. rewrite Er in Hin.
      destruct (watchdog_fd s), (io_feed io); rewrite ?elem_of_cons, ?elem_of_nil in Hin; naive_solver.
Qed.

Lemma alive_step s0 ph s ph' s' : alive s0 ph s → dstep (ph, s) (ph', s') → alive s0 ph' s'.
Proof.
  intros Hal Hs. pose proof Hal as (es & Hi). pose proof Hi as [Ht Hc Hw Hst Hd].
  step_cases Hs.
  - destruct (iteration_spec w s Hw) as (o' & s3 & es3 & He' & Hr & Hq). rewrite He' in He.
    injection He as <- <-. exists (es ++ es3). pose proof (lr_why _ _ _ Hr) as Hwhy. destruct Hr.
    eapply life_inv_quiet; [exact Hi|done|done| |done|auto|].
    + destruct Hq as [|(es1 & ? & ? & _)]; eauto.
    + intros Hrun'. left. by apply Hwhy.
  - eexists. eapply life_inv_quiet; [exact Hi|done|reflexivity|left; by repeat constructor|done|done|].
    intros. by apply stopped_more, Hst.
  - eexists. eapply life_inv_quiet; [exact Hi|done|reflexivity|left; by repeat constructor|done|done|].
    intros. by apply stopped_more, Hst.
  - by eapply alive_shutdown.
  - by eapply alive_shutdown.
  - eexists. eapply life_inv_quiet;
      [exact Hi|by destruct Hph as [-> | ->]|reflexivity|left; by repeat constructor|done|done|].
    intros _. right. exists sig. apply elem_of_app. right. left.
Qed.

(** The invariant holds when the main loop starts. *)
Lemma alive_start s0 : running s0 = true → wf_table (clients s0) → alive s0 Looping s0.
Proof.
  intros Hrun Hw. exists []. constructor; try done; [by rewrite app_nil_r|congruence|].
  by intros e _ ?%elem_of_nil.
Qed.
End Invariant.

(** C7: a round that finds a client late starves the watchdog for good: unless root
    has requested a reboot by then, neither that round nor anything that follows
    feeds it. *)
Theorem late_client_starves_watchdog `{Env} server timer err s s1 o s2 ph' s' :
  wf_table (clients s) → serve server s = (Ret tt, s1) → reboot s1 = false →
  ¬ all_on_time (clients s1) (now_ix s1) →
  iteration (Wake (SelOk server timer) err) s = (o, s2) →
  dsteps (continue_in Looping o, s2) (ph', s') →
  all_ok s2 = false ∧ ∃ es, trace s' = trace s ++ es ∧ EvFeed ∉ es.
Proof.
  intros Hw Hs Hr Hl Hi Hd.
  destruct (serve_spec server s Hw) as [(? & Hx & _)|(s1' & es1 & Hs' & Hr1 & Hq1)]; [congruence|].
  assert (s1' = s1) as -> by congruence.
  destruct (iteration_ok_eq server timer err s s1 Hs)
    as (s3 & es3 & _ & Hr3 & Hl3 & _ & Hrb & Hok & Heq).
  rewrite Heq in Hi. pose proof (loop_rel_trans _ _ _ _ _ Hr1 Hr3) as Hr4.
  assert (all_ok s3 = false) as Ha by (destruct (all_ok s3); naive_solver).
  assert (∃ es, trace s2 = trace s ++ es ∧ EvFeed ∉ es ∧ all_ok s2 = false ∧ reboot s2 = false)
    as (es2 & Ht2 & Hn2 & Ha2 & Hb2).
  { assert (quiet (es1 ++ es3)) as Hq by auto using quiet_app, log_only_quiet.
    destruct (feed_spec timer err s3) as [(b & Hf & Hb & _)|(t & Hf & _)];
      rewrite Hf in Hi; injection Hi as <- <-.
    - destruct b; [destruct (Hb eq_refl); congruence|]. exists (es1 ++ es3).
      split_and!; [apply Hr4| |done|congruence].
      rewrite watchdog_calls_in, watchdog_calls_quiet by done. apply not_elem_of_nil.
    - exists ((es1 ++ es3) ++ [EvStderr t]). cbn. rewrite (lr_trace _ _ _ Hr4), <-!app_assoc.
      split_and!; [done| |done|congruence].
      assert (quiet ((es1 ++ es3) ++ [EvStderr t])) by (apply quiet_app; [done|by repeat constructor]).
      rewrite <-app_assoc in *. rewrite watchdog_calls_in, watchdog_calls_quiet by done.
      apply not_elem_of_nil. }
  split; [done|]. 
  destruct (dsteps_invariant (unfed s2) (unfed_step s2) (continue_in Looping o) s2 ph' s')
    as (_ & _ & es & Ht & Hn); [|done|].
  { split_and!; try done. exists []. rewrite app_nil_r. split; [done|apply not_elem_of_nil]. }
  exists (es2 ++ es). rewrite Ht, Ht2, app_assoc. split; [done|]. by rewrite not_elem_of_app.
Qed.

(** ** A daemon that was told to stop *)

(** Not ended yet: nothing was asked of the watchdog since [s]. *)
Definition stopping (s : broker) (ph : phase) (s' : broker) : Prop :=
  (ph = Looping ∨ ph = Pending) ∧ running s' = false ∧
  reboot s' = reboot s ∧ watchdog_fd s' = watchdog_fd s ∧ config s' = config s ∧
  ∃ es, trace s' = trace s ++ es ∧ watchdog_calls es = [].

(** Ended: the shutdown sequence has run once, on what its calls delivered. *)
Definition stopped (s : broker) (ph : phase) (s' : broker) : Prop :=
  ∃ io es, ph = continue_in (Ended EXIT_SUCCESS) (shutdown_outcome io s) ∧
    trace s' = trace s ++ es ∧ watchdog_calls es = shutdown_calls io s.

Section Stopping.
Context {E : Env}.

Lemma stopping_more s ph s1 ph' s2 es :
  stopping s ph s1 → ph' = Looping ∨ ph' = Pending → running s2 = false → reboot s2 = reboot s1 →
  watchdog_fd s2 = watchdog_fd s1 → config s2 = config s1 → trace s2 = trace s1 ++ es →
  quiet es → stopping s ph' s2.
Proof.
  intros (_ & _ & H1 & H2 & H3 & es0 & Ht & Hc) Hph Hr E1 E2 E3 Et Hq.
  split_and!; try congruence. exists (es0 ++ es). rewrite Et, Ht, app_assoc. split; [done|].
  by rewrite watchdog_calls_app, Hc, watchdog_calls_quiet.
Qed.

Lemma stopping_ends s ph s1 io s2 es :
  stopping s ph s1 → shutdown_rel io s1 s2 es →
  stopped s (continue_in (Ended EXIT_SUCCESS) (shutdown_outcome io s1)) s2.
Proof.
  intros (_ & _ & H1 & H2 & H3 & es0 & Ht & Hc) Hrel. exists io, (es0 ++ es).
  rewrite (sr_trace _ _ _ _ Hrel), Ht, app_assoc, watchdog_calls_app, Hc, (sr_calls _ _ _ _ Hrel).
  unfold shutdown_outcome, shutdown_calls. by rewrite H1, H2, H3.
Qed.

Lemma stopping_step s ph s1 ph' s2 :
  stopping s ph s1 ∨ stopped s ph s1 → dstep (ph, s1) (ph', s2) → stopping s ph' s2 ∨ stopped s ph' s2.
Proof.
  intros [Hst|(io & es & -> & _)] Hs.
  2: { unfold shutdown_outcome in Hs. exfalso.
       destruct (watchdog_fd s && reboot s); [destruct (io_feed io)|]; cbn in Hs;
         inversion Hs as [| | | | |? ? ? ? ? Hph]; subst; by destruct Hph. }
  pose proof Hst as (Hlive & Hnr & _). step_cases Hs; try congruence.
  - left. eapply stopping_more; [exact Hst|by right|done..|reflexivity|by repeat constructor].
  - right. by eapply stopping_ends.
  - right. by eapply stopping_ends.
  - left. eapply stopping_more; [exact Hst|done|done..|reflexivity|by repeat constructor].
Qed.

Lemma stopping_start s ph : ph = Looping ∨ ph = Pending → running s = false → stopping s ph s.
Proof. intros Hph Hr. split_and!; try done. exists []. by rewrite app_nil_r. Qed.

(** The end is near: at most two steps away. *)
Lemma stopping_reaches_end s ph io :
  ph = Looping ∨ ph = Pending → running s = false →
  ∃ s', dsteps (ph, s) (continue_in (Ended EXIT_SUCCESS) (shutdown_outcome io s), s').
Proof.
  assert (∀ t, running t = false → reboot t = reboot s → watchdog_fd t = watchdog_fd s →
    ∃ s', dstep (Pending, t) (continue_in (Ended EXIT_SUCCESS) (shutdown_outcome io s), s')) as Hend.
  { intros t Hr H1 H2. destruct (shutdown_spec io t) as (s' & es & He & _). exists s'.
    assert (shutdown_outcome io t = shutdown_outcome io s) as <-
      by (unfold shutdown_outcome; by rewrite H1, H2).
    by apply (step_end_pending io). }
  intros [-> | ->] Hr; [|destruct (Hend s) as [s' H]; [done..|exists s'; by apply rtc_once]].
  destruct (all_ok s) eqn:Ha.
  - destruct (shutdown_spec io s) as (s' & es & He & _). exists s'. apply rtc_once.
    by apply (step_end_loop io).
  - destruct (Hend (enter_pending s).2) as [s' H]; [by rewrite enter_pending_eq..|].
    exists s'. eapply rtc_l; [by apply (step_fail s (Ret tt) (enter_pending s).2)|by apply rtc_once].
Qed.
End Stopping.

(** C25: whoever stops the daemon, a signal or a reboot request of root, in the main loop
    or while the reset is pending, and whatever happens after that: it asks nothing
    more of the watchdog until the process ends, which it can do at once, and then
    exactly what the shutdown sequence prescribes.  Without a reboot request an open
    watchdog is stopped both ways the driver offers and closed, whatever fails; after
    a reboot request it is given the configured reboot timeout, fed once and closed,
    or left armed with an error exit when that feed fails. *)
Theorem stopped_daemon_shuts_down `{Env} ph s :
  ph = Looping ∨ ph = Pending → running s = false →
  (∀ ph' s', dsteps (ph, s) (ph', s') → stopping s ph' s' ∨ stopped s ph' s') ∧
  (∀ io, ∃ s', dsteps (ph, s) (continue_in (Ended EXIT_SUCCESS) (shutdown_outcome io s), s')).
Proof.
  intros Hph Hr. split; [|intros io; by apply stopping_reaches_end]. intros ph' s' Hd.
  apply (dsteps_invariant (λ ph s', stopping s ph s' ∨ stopped s ph s') (stopping_step s) ph s ph' s');
    [|done]. left. by apply stopping_start.
Qed.

(** C39: the reset-pending state is not final: a termination signal there makes the
    daemon disarm the watchdog and exit normally, although supervision has
    failed. *)
Theorem reset_pending_disarmed_by_signal `{Env} (sig : Z) s :
  running s = true → reboot s = false → watchdog_fd s = true →
  ∃ s' es, dsteps (Pending, s) (Ended EXIT_SUCCESS, s') ∧ trace s' = trace s ++ es ∧
    watchdog_calls es = [EvMagicClose; EvDisableCard; EvCloseWatchdog] ∧
    all_ok s' = all_ok s.
Proof.
  intros Hrun Hr Hw.
  set (s1 := set_running false (add_event (signal_event sig) s)).
  destruct (shutdown_spec (ShutdownIo None None None None) s1) as (s2 & es & He & Hrel).
  exists s2, ([signal_event sig] ++ es). split_and!.
  - apply rtc_l with (Pending, s1); [by apply (step_signal sig _ s (Ret tt) s1); [right|]|].
    apply rtc_once. assert (shutdown_outcome (ShutdownIo None None None None) s1 = Ret tt) as Ho.
    { unfold shutdown_outcome. subst s1. cbn. by rewrite Hr, andb_false_r. }
    rewrite Ho in He.
    exact (step_end_pending (ShutdownIo None None None None) s1 (Ret tt) s2 eq_refl He).
  - rewrite (sr_trace _ _ _ _ Hrel). subst s1. cbn. by rewrite <-app_assoc.
  - rewrite watchdog_calls_app, (sr_calls _ _ _ _ Hrel). unfold shutdown_calls. subst s1.
    cbn [watchdog_fd reboot set_running add_event]. by rewrite Hw, Hr.
  - by rewrite (sr_all_ok _ _ _ _ Hrel).
Qed.

(** ** Undefined behaviour *)

Lemma serve_undef `{Env} server s s' :
  wf_table (clients s) → serve server s = (Undef, s') →
  (STATUS_MSG_LEN ≤ length (status_text (config s) (clients s)))%nat.
Proof.
  intros Hw Hs. destruct server as [[c|errno text]|]; [| |done].
  - unfold serve, emit in Hs. mrun in Hs. set (s1 := add_event EvAccept s) in *.
    destruct (handle_command c s1) as [[[]| |] s2] eqn:Hc; try done.
    exact (handle_command_undef c s1 s2 Hw Hc).
  - unfold serve in Hs. by destruct (accept_transient errno).
Qed.

Lemma iteration_undef `{Env} w s s' :
  wf_table (clients s) → iteration w s = (Undef, s') → ∃ server s1, serve server s = (Undef, s1).
Proof.
  intros Hw Hi. destruct w as [[errno text|server timer] err].
  { unfold iteration in Hi. cbn [wk_select] in Hi. by destruct (errno =? EINTR). }
  destruct (serve_spec server s Hw) as [(s1 & Hs & _)|(s1 & es & Hs & _)]; [by exists server, s1|].
  destruct (iteration_ok_eq server timer err s s1 Hs) as (s2 & es2 & _ & _ & _ & _ & _ & _ & He).
  rewrite He in Hi. by destruct (feed_spec timer err s2) as [(b & Hf & _)|(t & Hf & _)]; rewrite Hf in Hi.
Qed.

