(* ===== verification/Interrupts.v ===== *)
(** * Termination signals during a round

    src/src/wd-broker.c: the handler of SIGINT and SIGTERM may run between any two
    actions of a round.  Daemon.v lets it run between rounds only; here the two
    are shown to be the same but for the place of the handler's log line. *)

From S2P Require Import Prelude CString Scanf Common World ClientId Registry Identifiers Status.
From S2P Require Import Handlers Requests Daemon Timing Life.

(** [t] is [s] after the handler ran at some earlier time: the daemon is to stop,
    and the line of the handler stands somewhere in the trace. *)
Record interrupted (sig : Z) (s t : broker) : Prop := {
  in_clients : clients t = clients s;
  in_config : config t = config s;
  in_running : running t = false;
  in_reboot : reboot t = reboot s;
  in_daemonize : daemonize t = daemonize s;
  in_all_ok : all_ok t = all_ok s;
  in_watchdog : watchdog_fd t = watchdog_fd s;
  in_now_ix : now_ix t = now_ix s;
  in_id_ix : id_ix t = id_ix s;
  in_trace : ∃ es1 es2, trace s = es1 ++ es2 ∧ trace t = es1 ++ signal_event sig :: es2;
}.

(** The handler itself. *)
Lemma interrupted_now sig s t : signal_handler sig s = (Ret tt, t) → interrupted sig s t.
Proof.
  rewrite signal_handler_eq. intros [= <-]. constructor; try done.
  exists (trace s), []. by rewrite app_nil_r.
Qed.

Section Blind.
Context (sig : Z).

(** [m] neither looks at what the handler changes nor undoes it. *)
Definition blind {A} (m : B A) : Prop :=
  ∀ s t, interrupted sig s t →
    ∃ o s' t', m s = (o, s') ∧ m t = (o, t') ∧ interrupted sig s' t'.

Definition blind_read {A} (f : broker → A) : Prop := ∀ s t, interrupted sig s t → f t = f s.
Definition blind_update (f : broker → broker) : Prop :=
  ∀ s t, interrupted sig s t → interrupted sig (f s) (f t).

Lemma blind_ret {A} (a : A) : blind (mret a).
Proof. intros s t H. by exists (Ret a), s, t. Qed.
Lemma blind_undef {A} : blind (A:=A) undef.
Proof. intros s t H. by exists Undef, s, t. Qed.
Lemma blind_exit {A} c : blind (A:=A) (exit_with c).
Proof. intros s t H. by exists (Exit c), s, t. Qed.
Lemma blind_gets {A} (f : broker → A) : blind_read f → blind (gets f).
Proof. intros Hf s t H. exists (Ret (f s)), s, t. unfold gets. by rewrite (Hf s t H). Qed.
Lemma blind_modify f : blind_update f → blind (modify f).
Proof. intros Hf s t H. exists (Ret tt), (f s), (f t). auto. Qed.
Lemma blind_bind {A C} (m : B A) (f : A → B C) :
  blind m → (∀ a, blind (f a)) → blind (m ≫= f).
Proof.
  intros Hm Hf s t H. destruct (Hm s t H) as (o & s1 & t1 & H1 & H2 & H3).
  rewrite !bind_eq, H1, H2. destruct o as [a|c|]; [by apply Hf|eauto 10|eauto 10].
Qed.

(** The updates of a round. *)
Lemma blind_add_event e : blind_update (add_event e).
Proof.
  intros s t []. constructor; try done. destruct in_trace0 as (es1 & es2 & H1 & H2).
  exists es1, (es2 ++ [e]). cbn. by rewrite H1, H2, <-!app_assoc.
Qed.
Lemma blind_stop : blind_update (set_running false).
Proof. intros s t []. by constructor. Qed.
Lemma blind_set_reboot b : blind_update (set_reboot b).
Proof. intros s t []. by constructor. Qed.
Lemma blind_set_all_ok b : blind_update (set_all_ok b).
Proof. intros s t []. by constructor. Qed.
Lemma blind_set_now_ix n : blind_update (set_now_ix n).
Proof. intros s t []. by constructor. Qed.
Lemma blind_set_id_ix n : blind_update (set_id_ix n).
Proof. intros s t []. by constructor. Qed.
Lemma blind_alter_client i f : blind_update (alter_client i f).
Proof. intros s t []. constructor; try done. cbn. by rewrite in_clients0. Qed.

(** What a round reads. *)
Lemma blind_clients {A} (f : list client_t → A) : blind_read (λ s, f (clients s)).
Proof. intros s t H. by rewrite (in_clients _ _ _ H). Qed.
Lemma blind_config : blind_read config.
Proof. intros s t H. apply H. Qed.
Lemma blind_all_ok : blind_read all_ok.
Proof. intros s t H. apply H. Qed.
Lemma blind_watchdog : blind_read watchdog_fd.
Proof. intros s t H. apply H. Qed.
Lemma blind_now_ix : blind_read now_ix.
Proof. intros s t H. apply H. Qed.
Lemma blind_id_ix : blind_read id_ix.
Proof. intros s t H. apply H. Qed.
End Blind.

#[export] Hint Resolve blind_ret blind_undef blind_exit blind_add_event blind_stop blind_set_reboot
  blind_set_all_ok blind_set_now_ix blind_set_id_ix blind_alter_client blind_config blind_all_ok
  blind_watchdog blind_now_ix blind_id_ix : blind.
#[export] Hint Extern 4 (blind_read _ clients) => exact (blind_clients _ (λ cs, cs)) : blind.
#[export] Hint Extern 4 (blind_read _ (client_at ?i)) =>
  exact (blind_clients _ (λ cs, default client_zero (cs !! i))) : blind.
#[export] Hint Extern 4 (blind_read _ (λ s, cl_anounced (client_at ?i s))) =>
  exact (blind_clients _ (λ cs, cl_anounced (default client_zero (cs !! i)))) : blind.

Ltac blind_step :=
  match goal with
  | |- blind _ (if ?b then _ else _) => destruct b
  | |- blind _ (match ?x with _ => _ end) => destruct x
  | |- blind _ (_ ≫= _) => apply blind_bind; [|intros ?]
  | |- blind _ (gets _) => apply blind_gets; solve [auto with blind]
  | |- blind _ (modify _) => apply blind_modify; solve [auto with blind]
  | |- blind _ _ => solve [auto with blind]
  end.
Ltac blind := repeat blind_step.

Section Round.
Context {E : Env} (sig : Z).

Lemma blind_emit e : blind sig (emit e).
Proof. unfold emit. blind. Qed.
Lemma blind_log p text : blind sig (log_message p text).
Proof. apply blind_emit. Qed.
Hint Resolve blind_emit blind_log : blind.

Lemma blind_write_str sock text : blind sig (write_str sock text).
Proof. unfold write_str. blind. Qed.
Lemma blind_fatal {A} text : blind (A:=A) sig (fatal_error text).
Proof. unfold fatal_error. blind. Qed.
Lemma blind_fatal_errno {A} ctx err : blind (A:=A) sig (fatal_errno ctx err).
Proof. unfold fatal_errno. blind. Qed.
Lemma blind_get_now : blind sig get_now.
Proof. unfold get_now. blind. Qed.
Hint Resolve blind_write_str blind_fatal blind_fatal_errno blind_get_now : blind.

Lemma blind_snprintf m text : blind sig (snprintf_msg m text).
Proof. unfold snprintf_msg. blind. Qed.
Lemma blind_write_msg sock m : blind sig (write_msg sock m).
Proof. unfold write_msg. blind. Qed.
Hint Resolve blind_snprintf blind_write_msg : blind.

Lemma blind_status_rows cs m : blind sig (status_rows cs m).
Proof. revert m. induction cs as [|c cs IH]; intros m; cbn [status_rows]; blind. Qed.
Hint Resolve blind_status_rows : blind.

Lemma blind_parse_clientID buf cmd sock : blind sig (parse_clientID buf cmd sock).
Proof. unfold parse_clientID. blind. Qed.
Lemma blind_by_name name pid : blind sig (get_clientInstance_by_name name pid).
Proof. unfold get_clientInstance_by_name. blind. Qed.
Lemma blind_by_id id pid : blind sig (get_clientInstance_by_clientID id pid).
Proof. unfold get_clientInstance_by_clientID. blind. Qed.
Hint Resolve blind_parse_clientID blind_by_name blind_by_id : blind.

Lemma blind_dispatch sock creds buf : blind sig (dispatch sock creds buf).
Proof.
  unfold dispatch, handle_register, handle_ping, handle_unregister, handle_reboot, handle_status,
    handle_version, registration_id, make_clientID. blind.
Qed.

Lemma blind_handle_command sock : blind sig (handle_command sock).
Proof.
  unfold handle_command. destruct (conn_peer sock); [|blind].
  destruct (read_with_timeout _ _ _ _) as [len buf]. destruct (len <=? 0); [blind|apply blind_dispatch].
Qed.
Hint Resolve blind_handle_command : blind.

Lemma blind_serve server : blind sig (serve server).
Proof. unfold serve. blind. Qed.

Lemma blind_check_clients : blind sig check_clients.
Proof.
  unfold check_clients. apply blind_bind; [apply blind_gets; auto with blind|].
  intros cs. induction cs as [|c cs IH]; cbn [check_from]; unfold ms_since; blind.
Qed.

Lemma blind_feed timer err : blind sig (feed timer err).
Proof. unfold feed. blind. Qed.

(** ** A round as its parts *)

Fixpoint in_sequence (ms : list (B unit)) : B unit :=
  match ms with [] => mret tt | m :: r => m ;; in_sequence r end.

(** The parts of a round in which [select] succeeded. *)
Definition round_parts (server : option accept_result) (timer : option (Z * bytes))
    (err : option bytes) : list (B unit) :=
  match server with
  | Some (Accepted c) => [emit EvAccept; handle_command c; emit EvCloseConn]
  | _ => [serve server]
  end ++ [check_clients; feed timer err].

Lemma unit_outcome (x : outcome unit * broker) :
  match x with (Ret _, s') => (Ret tt, s') | (Exit c, s') => (Exit c, s') | (Undef, s') => (Undef, s') end = x.
Proof. by destruct x as [[[]| |] ?]. Qed.

Lemma round_parts_eq server timer err s :
  in_sequence (round_parts server timer err) s = iteration (Wake (SelOk server timer) err) s.
Proof.
  unfold iteration, round_parts. cbn [wk_select wk_feed].
  assert (∀ s1, in_sequence [check_clients; feed timer err] s1 = (check_clients ;; feed timer err) s1) as Hc.
  { intros s1. cbn [in_sequence]. rewrite !bind_eq. destruct (check_clients s1) as [[[]| |] s2]; try done.
    rewrite bind_eq. apply unit_outcome. }
  destruct server as [[c|errno text]|].
  - transitivity (match handle_command c (add_event EvAccept s) with
      | (Ret _, s2) => in_sequence [check_clients; feed timer err] (add_event EvCloseConn s2)
      | (Exit x, s2) => (Exit x, s2) | (Undef, s2) => (Undef, s2) end); [done|].
    rewrite bind_eq. unfold serve, emit. mrun.
    destruct (handle_command c (add_event EvAccept s)) as [[[]| |] s2]; [apply Hc|done|done].
  - cbn [app]. rewrite bind_eq. transitivity (match serve (Some (AcceptErr errno text)) s with
      | (Ret _, s2) => in_sequence [check_clients; feed timer err] s2
      | (Exit x, s2) => (Exit x, s2) | (Undef, s2) => (Undef, s2) end); [done|].
    destruct (serve _ s) as [[[]| |] s2]; [apply Hc|done|done].
  - apply Hc.
Qed.

Lemma blind_in_sequence ms : Forall (blind sig) ms → blind sig (in_sequence ms).
Proof. induction 1 as [|m ms Hm _ IH]; cbn [in_sequence]; [apply blind_ret|]. by apply blind_bind. Qed.

Lemma round_parts_blind server timer err : Forall (blind sig) (round_parts server timer err).
Proof.
  unfold round_parts. apply Forall_app. split.
  - destruct server as [[c|errno text]|]; repeat constructor; auto using blind_serve with blind.
  - repeat constructor; [apply blind_check_clients|apply blind_feed].
Qed.

(** A signal before, between or after actions that are blind to it. *)
Lemma signal_commutes ms1 ms2 s :
  Forall (blind sig) ms2 →
  ∃ o s' t, in_sequence (ms1 ++ ms2) s = (o, s') ∧
    in_sequence (ms1 ++ signal_handler sig :: ms2) s = (o, t) ∧
    (interrupted sig s' t ∨ (o ≠ Ret tt ∧ t = s')).
Proof.
  intros Hb. revert s. induction ms1 as [|m ms1 IH]; intros s; cbn [app in_sequence].
  - destruct (blind_in_sequence ms2 Hb s _ (interrupted_now sig s _ eq_refl)) as (o & s' & t & H1 & H2 & H3).
    exists o, s', t. rewrite bind_eq, signal_handler_eq. auto.
  - rewrite !bind_eq. destruct (m s) as [[[]|c|] s1]; [apply IH| |].
    + exists (Exit c), s1, s1. auto.
    + exists Undef, s1, s1. auto.
Qed.
End Round.

(** C22: a termination signal may interrupt a round anywhere: with the handler run
    before the [k]-th of its actions (accepting, handling the command, closing,
    checking the clients, feeding the watchdog), for every [k], the round has the
    same outcome and leaves the same state as when the handler runs after it, but
    for the place of the handler's log line; or the process ends before that
    action and the handler does not run at all. *)
Theorem signal_commutes_with_round `{Env} sig k server timer err s :
  ∃ o s' t,
    iteration (Wake (SelOk server timer) err) s = (o, s') ∧
    in_sequence (take k (round_parts server timer err) ++
                 signal_handler sig :: drop k (round_parts server timer err)) s = (o, t) ∧
    (interrupted sig s' t ∨ (o ≠ Ret tt ∧ t = s')).
Proof.
  pose proof (round_parts_blind sig server timer err) as Hb.
  destruct (signal_commutes sig (take k (round_parts server timer err))
              (drop k (round_parts server timer err)) s) as (o & s' & t & H1 & H2 & H3).
  { by apply Forall_drop. }
  rewrite take_drop, round_parts_eq in H1. eauto 10.
Qed.
