(* ===== verification/Spec.v ===== *)
(** * The registry the broker implements

    An abstract specification of the protocol: requests, a finite map from
    client identifiers to sessions, and a step relation that says what each
    request does to the map and what it is answered.  The proof that
    [handle_command] implements it on the table of 64 slots is at the end. *)

From S2P Require Import Prelude CString Scanf Common World ClientId Registry Status Handlers.
From S2P Require Import Requests.

(** ** Requests *)

Inductive request : Type :=
  | ReqRegister (name : bytes) (timeout : Z) (checkPID : bool)
  | ReqPing (id : bytes)
  | ReqUnregister (id : bytes)
  | ReqReboot
  | ReqStatus
  | ReqVersion
  | ReqBad (err : bytes).

Definition with_id (f : bytes → request) (r : bytes + bytes) : request :=
  match r with inl err => ReqBad err | inr id => f id end.

Definition no_arg (fmt : string) (arg : bytes) (r : request) : request :=
  if fst (sscanf arg (lit fmt)) =? 1 then ReqBad (lit "ERROR invalid syntax\n") else r.

(** The request a received text stands for. *)
Definition decode (buf : bytes) : request :=
  if is_command CMD_REGISTER buf then
    match parse_register (drop (strlen CMD_REGISTER) buf) with
    | inl err => ReqBad err
    | inr (name, timeout, checkPID) => ReqRegister name timeout checkPID
    end
  else if is_command CMD_PING buf then
    with_id ReqPing (scan_clientID (drop (strlen CMD_PING) buf))
  else if is_command CMD_UNREGISTER buf then
    with_id ReqUnregister (scan_clientID (drop (strlen CMD_UNREGISTER) buf))
  else if is_command CMD_REBOOT buf then no_arg " %15s" (drop (strlen CMD_REBOOT) buf) ReqReboot
  else if is_command CMD_STATUS buf then no_arg " %31s" (drop (strlen CMD_STATUS) buf) ReqStatus
  else if is_command CMD_VERSION buf then no_arg " %31s" (drop (strlen CMD_VERSION) buf) ReqVersion
  else ReqBad (lit "ERROR unknown command\n").

(** ** Sessions *)

Record session : Type := Session {
  ss_name : bytes;
  ss_pid : Z;
  ss_timeout : Z;
  ss_last : timespec;
  ss_checkPID : bool;
  ss_active : bool;      (* otherwise announced and not registered yet *)
}.

Abbreviation registry := (gmap bytes session).

Definition session_of (c : client_t) : session :=
  Session (cstr (cl_name c)) (cl_pid c) (cl_timeout_ms c) (cl_last_ping c) (cl_checkPID c)
          (cl_active c).

Definition entry (c : client_t) : bytes * session := (cl_clientID c, session_of c).

(** The registry a table represents. *)
Definition abs (cs : list client_t) : registry := list_to_map (entry <$> List.filter live cs).

(** No two live slots share an identifier. *)
Definition ids_unique (cs : list client_t) : Prop :=
  ∀ i j c d, cs !! i = Some c → cs !! j = Some d → live c = true → live d = true →
    cl_clientID c = cl_clientID d → i = j.

(** ** What requests do *)

Definition announced_as (reg : registry) (name : bytes) : Prop :=
  ∃ id ss, reg !! id = Some ss ∧ ss_active ss = false ∧ ss_name ss = name.

Definition active_as (reg : registry) (name : bytes) : Prop :=
  ∃ id ss, reg !! id = Some ss ∧ ss_active ss = true ∧ ss_name ss = name.

Definition session_pid_ok (ss : session) (pid : Z) : Prop :=
  ss_checkPID ss = false ∨ ss_pid ss = pid.

Definition refreshed (now : timespec) (ss : session) : session :=
  Session (ss_name ss) (ss_pid ss) (ss_timeout ss) now (ss_checkPID ss) (ss_active ss).

Definition ok_reply (id : bytes) : bytes := lit "OK " ++ cstr id ++ lit "\n".

(** [spec_step cfg creds now fresh reg req reply reg']: a process with credentials
    [creds] sends [req] at time [now]; [fresh] is the identifier drawn for a client
    that was not announced. *)
Inductive spec_step (cfg : wd_config_t) (creds : ucred) (now : timespec) (fresh : bytes)
    (reg : registry) : request → bytes → registry → Prop :=
  | spec_bad err : spec_step cfg creds now fresh reg (ReqBad err) err reg
  | spec_register_announced name timeout checkPID id ss :
      (cfg_unique_clients cfg = true → ¬ active_as reg name) →
      reg !! id = Some ss → ss_active ss = false → ss_name ss = name →
      spec_step cfg creds now fresh reg (ReqRegister name timeout checkPID) (ok_reply id)
        (<[id := Session name (cr_pid creds) timeout now checkPID true]> reg)
  | spec_register_new name timeout checkPID :
      (cfg_unique_clients cfg = true → ¬ active_as reg name) →
      ¬ announced_as reg name → cfg_strict_clients cfg = false → (size reg < WD_MAX_CLIENTS)%nat →
      reg !! fresh = None →
      spec_step cfg creds now fresh reg (ReqRegister name timeout checkPID) (ok_reply fresh)
        (<[fresh := Session name (cr_pid creds) timeout now checkPID true]> reg)
  | spec_register_rejected name timeout checkPID :
      (cfg_unique_clients cfg = true ∧ active_as reg name) ∨
      (¬ announced_as reg name ∧ (cfg_strict_clients cfg = true ∨ size reg = WD_MAX_CLIENTS)) →
      spec_step cfg creds now fresh reg (ReqRegister name timeout checkPID)
        (lit "ERROR rejected\n") reg
  | spec_ping id ss :
      reg !! id = Some ss → session_pid_ok ss (cr_pid creds) →
      spec_step cfg creds now fresh reg (ReqPing id) (lit "OK\n") (<[id := refreshed now ss]> reg)
  | spec_ping_pid id ss :
      reg !! id = Some ss → ¬ session_pid_ok ss (cr_pid creds) →
      spec_step cfg creds now fresh reg (ReqPing id) (lit "ERROR wrong PID\n") reg
  | spec_ping_unknown id :
      reg !! id = None →
      spec_step cfg creds now fresh reg (ReqPing id) (lit "ERROR unknown clientID\n") reg
  | spec_unregister id ss :
      reg !! id = Some ss →
      cr_uid creds = 0 ∨ (session_pid_ok ss (cr_pid creds) ∧ cfg_strict_clients cfg = false) →
      spec_step cfg creds now fresh reg (ReqUnregister id) (lit "OK\n") (delete id reg)
  | spec_unregister_strict id ss :
      reg !! id = Some ss → cr_uid creds ≠ 0 → session_pid_ok ss (cr_pid creds) →
      cfg_strict_clients cfg = true →
      spec_step cfg creds now fresh reg (ReqUnregister id) (lit "ERROR rejected\n") reg
  | spec_unregister_pid id ss :
      reg !! id = Some ss → cr_uid creds ≠ 0 → ¬ session_pid_ok ss (cr_pid creds) →
      spec_step cfg creds now fresh reg (ReqUnregister id) (lit "ERROR no permission\n") reg
  | spec_unregister_unknown id :
      reg !! id = None →
      spec_step cfg creds now fresh reg (ReqUnregister id) (lit "ERROR unknown clientID\n") reg
  | spec_reboot :
      cr_uid creds = 0 →
      spec_step cfg creds now fresh reg ReqReboot
        (lit "OK, " ++ sdec (s32 (cfg_reboot_timeout_s cfg)) ++ lit "\n") reg
  | spec_reboot_refused :
      cr_uid creds ≠ 0 →
      spec_step cfg creds now fresh reg ReqReboot (lit "ERROR no permission\n") reg
  | spec_status text :
      status_allowed creds → spec_step cfg creds now fresh reg ReqStatus text reg
  | spec_status_refused :
      ¬ status_allowed creds →
      spec_step cfg creds now fresh reg ReqStatus (lit "ERROR no permission\n") reg
  | spec_version :
      spec_step cfg creds now fresh reg ReqVersion
        (lit "wd-broker_version=2.1.0\nprotocol_version=1.0\n") reg.

(** ** Tables and registries *)

Lemma filter_lookup_live cs c :
  c ∈ List.filter live cs ↔ ∃ i, cs !! i = Some c ∧ live c = true.
Proof.
  rewrite list_elem_of_In, List.filter_In, <-list_elem_of_In, list_elem_of_lookup. naive_solver.
Qed.

Lemma abs_NoDup cs : ids_unique cs → NoDup (entry <$> List.filter live cs).*1.
Proof.
  rewrite <-list_fmap_compose. induction cs as [|c cs IH]; intros Hu; [constructor|].
  cbn [List.filter]. destruct (live c) eqn:El.
  2: { apply IH. intros i j x y Hi Hj Hx Hy Heq. by injection (Hu (S i) (S j) x y Hi Hj Hx Hy Heq). }
  cbn [fmap list_fmap]. constructor.
  - rewrite list_elem_of_fmap. intros (d & Hid & (i & Hi & Hd)%filter_lookup_live).
    cbn in Hid. by specialize (Hu 0%nat (S i) c d eq_refl Hi El Hd Hid).
  - apply IH. intros i j x y Hi Hj Hx Hy Heq. by injection (Hu (S i) (S j) x y Hi Hj Hx Hy Heq).
Qed.

Lemma abs_lookup cs id ss :
  ids_unique cs →
  abs cs !! id = Some ss ↔
  ∃ i c, cs !! i = Some c ∧ live c = true ∧ cl_clientID c = id ∧ session_of c = ss.
Proof.
  intros Hu. unfold abs. rewrite <-elem_of_list_to_map by by apply abs_NoDup.
  rewrite list_elem_of_fmap. unfold entry. split.
  - intros (c & [= -> ->] & (i & Hi & Hl)%filter_lookup_live). eauto 10.
  - intros (i & c & Hi & Hl & <- & <-). exists c. split; [done|]. apply filter_lookup_live. eauto.
Qed.

Lemma abs_lookup_None cs id :
  ids_unique cs →
  abs cs !! id = None ↔ ∀ i c, cs !! i = Some c → live c = true → cl_clientID c ≠ id.
Proof.
  intros Hu. rewrite eq_None_not_Some. split.
  - intros Hn i c Hi Hl Hid. apply Hn. exists (session_of c). apply abs_lookup; eauto 10.
  - intros Hn [ss Hs]. apply abs_lookup in Hs as (i & c & Hi & Hl & Hid & _); [|done]. by eapply Hn.
Qed.

Lemma abs_size cs : ids_unique cs → size (abs cs) = length (List.filter live cs).
Proof.
  intros Hu. unfold abs. rewrite map_size_list_to_map by by apply abs_NoDup. by rewrite length_fmap.
Qed.

(** Replacing a live slot by a live slot of the same identifier, or filling a free
    slot under a new identifier, inserts into the registry. *)
Lemma ids_unique_insert cs i c c' :
  ids_unique cs → cs !! i = Some c → live c' = true →
  (∀ j d, j ≠ i → cs !! j = Some d → live d = true → cl_clientID d ≠ cl_clientID c') →
  ids_unique (<[i := c']> cs).
Proof.
  intros Hu Hc Hl Hn j k x y Hj Hk Hx Hy Heq. pose proof (lookup_lt_Some _ _ _ Hc) as Hlt.
  apply list_lookup_insert_Some in Hj as [(<- & <- & _)|[Hij Hj]];
    apply list_lookup_insert_Some in Hk as [(<- & <- & _)|[Hik Hk]]; [done| | |by eapply Hu].
  - exfalso. by eapply (Hn k y).
  - exfalso. by eapply (Hn j x).
Qed.

Lemma abs_insert cs i c c' :
  ids_unique cs → cs !! i = Some c → live c' = true →
  (∀ j d, j ≠ i → cs !! j = Some d → live d = true → cl_clientID d ≠ cl_clientID c') →
  (live c = true → cl_clientID c = cl_clientID c') →
  abs (<[i := c']> cs) = <[cl_clientID c' := session_of c']> (abs cs).
Proof.
  intros Hu Hc Hl Hn Hold. pose proof (ids_unique_insert cs i c c' Hu Hc Hl Hn) as Hu'.
  pose proof (lookup_lt_Some _ _ _ Hc) as Hlt.
  apply map_eq. intros id. apply option_eq. intros ss.
  rewrite (abs_lookup _ _ _ Hu'). destruct (decide (id = cl_clientID c')) as [->|Hid].
  - rewrite lookup_insert_eq. split.
    + intros (j & d & Hj & Hd & Heq & <-). f_equal.
      apply list_lookup_insert_Some in Hj as [(<- & <- & _)|[Hij Hj]]; [done|]. exfalso. by eapply Hn.
    + intros [= <-]. exists i, c'. split_and!; try done. by apply list_lookup_insert_eq.
  - rewrite lookup_insert_ne by done. rewrite (abs_lookup _ _ _ Hu). split.
    + intros (j & d & Hj & Hd & Heq & Hs).
      apply list_lookup_insert_Some in Hj as [(<- & <- & _)|[Hij Hj]]; [congruence|]. eauto 10.
    + intros (j & d & Hj & Hd & Heq & Hs). exists j, d. split_and!; try done.
      rewrite list_lookup_insert_ne; [done|]. intros <-.
      assert (d = c) as -> by congruence. rewrite Hold in Heq; congruence.
Qed.

(** Clearing a live slot deletes its identifier. *)
Lemma ids_unique_clear cs i c' :
  ids_unique cs → live c' = false → ids_unique (<[i := c']> cs).
Proof.
  intros Hu Hl j k x y Hj Hk Hx Hy Heq.
  apply list_lookup_insert_Some in Hj as [(<- & <- & _)|[Hij Hj]]; [congruence|].
  apply list_lookup_insert_Some in Hk as [(<- & <- & _)|[Hik Hk]]; [congruence|]. by eapply Hu.
Qed.

Lemma abs_clear cs i c c' :
  ids_unique cs → cs !! i = Some c → live c = true → live c' = false →
  abs (<[i := c']> cs) = delete (cl_clientID c) (abs cs).
Proof.
  intros Hu Hc Hl Hl'. pose proof (ids_unique_clear cs i c' Hu Hl') as Hu'.
  apply map_eq. intros id. apply option_eq. intros ss.
  rewrite (abs_lookup _ _ _ Hu'). rewrite lookup_delete_Some, (abs_lookup _ _ _ Hu). split.
  - intros (j & d & Hj & Hd & Heq & Hs).
    apply list_lookup_insert_Some in Hj as [(<- & <- & _)|[Hij Hj]]; [congruence|]. split; [|eauto 10].
    intros Hx. apply Hij. eapply Hu; eauto. congruence.
  - intros (Hne & j & d & Hj & Hd & Heq & Hs). exists j, d. split_and!; try done.
    rewrite list_lookup_insert_ne; [done|]. intros <-. congruence.
Qed.

(** Identifiers of the right shape are compared in full. *)
Lemma strncmp_eq_clientID a b :
  is_clientID a → is_clientID b → strncmp_eq WD_CLIENTID_FMT_LEN a b = true ↔ a = b.
Proof.
  intros (d1 & -> & L1 & H1) (d2 & -> & L2 & H2).
  apply lower_hex_digits_no_nul in H1, H2. split; [|intros ->].
  - unfold WD_CLIENTID_FMT_LEN in *. revert L1 L2. generalize 16%nat. intros n L1 L2.
    revert d2 n H2 L1 L2. induction H1 as [|x d1 Hx _ IH]; intros d2 n H2 L1 L2 H.
    + cbn in L1. subst n. by destruct d2.
    + destruct n as [|n]; [done|]. destruct H2 as [|y d2 Hy H2]; [done|]. cbn in *.
      destruct (Ascii.eqb_spec x y) as [->|]; [|done].
      rewrite ascii_eqb_false in H by done. injection L1 as L1. injection L2 as L2.
      by rewrite (IH d2 n H2 L1 L2 H).
  - generalize WD_CLIENTID_FMT_LEN. clear. intros n. generalize (d2 ++ [NUL]). clear.
    induction n as [|n IH]; intros l; [done|]. cbn. rewrite Ascii.eqb_refl.
    destruct (Ascii.eqb (hd NUL l) NUL); [done|]. apply IH.
Qed.

Lemma scan_clientID_shape arg id : scan_clientID arg = inr id → is_clientID id.
Proof.
  unfold scan_clientID. destruct (sscanf arg WD_CLIENTID_SCANF_FORMAT) as [n vs].
  destruct (n =? 1); [|done]. cbn [negb].
  destruct (Nat.eqb_spec (strlen (arg_str vs 0)) WD_CLIENTID_FMT_LEN) as [Hl|]; [|done]. cbn [negb].
  destruct (lower_hex (arg_str vs 0)) as [o|] eqn:Ho; [|done]. intros [= <-].
  apply lower_hex_Some in Ho as [Hx ->]. exists (tolower <$> arg_str vs 0).
  split; [done|]. split.
  - rewrite length_fmap. unfold strlen in Hl. rewrite cstr_no_nul in Hl; [done|].
    by apply xdigits_no_nul.
  - apply Forall_fmap. eapply Forall_impl; [exact Hx|]. apply tolower_lower_hex.
Qed.

(** Searching by identifier is lookup in the registry. *)
Lemma find_clientID_abs cs id pid :
  wf_table cs → ids_unique cs → is_clientID id →
  match find_clientID cs id pid 0 with
  | WD_CLIENT_IDENTIFIED i => ∃ c, cs !! i = Some c ∧ live c = true ∧ cl_clientID c = id ∧
      abs cs !! id = Some (session_of c) ∧ session_pid_ok (session_of c) pid
  | WD_CLIENT_PID_MISMATCH i => ∃ c, cs !! i = Some c ∧ live c = true ∧ cl_clientID c = id ∧
      abs cs !! id = Some (session_of c) ∧ ¬ session_pid_ok (session_of c) pid
  | WD_CLIENT_NOT_FOUND => abs cs !! id = None
  end.
Proof.
  intros Hw Hu Hid. pose proof (find_clientID_cases cs id pid) as H.
  assert (∀ c i, cs !! i = Some c → has_clientID id c = true ↔ live c = true ∧ cl_clientID c = id) as Hh.
  { intros c i Hc. unfold has_clientID. rewrite andb_true_iff. split.
    - intros [Hl He]. split; [done|]. apply strncmp_eq_clientID in He; [done| |done].
      by eapply wf_id; [eapply wf_table_lookup|].
    - intros [Hl <-]. split; [done|]. by apply strncmp_eq_clientID. }
  assert (∀ c, pid_ok c pid = true ↔ session_pid_ok (session_of c) pid) as Hp.
  { intros c. unfold pid_ok, session_pid_ok. cbn. rewrite orb_true_iff, negb_true_iff, Z.eqb_eq. done. }
  destruct (find_clientID cs id pid 0) as [i|i|].
  - destruct H as (c & Hc & Hhc & Hpc). apply (Hh c i Hc) in Hhc as [Hl Heq].
    exists c. split_and!; try done; [|by apply Hp]. apply abs_lookup; eauto 10.
  - destruct H as (c & Hc & Hhc & Hpc). apply (Hh c i Hc) in Hhc as [Hl Heq].
    exists c. split_and!; try done; [|by rewrite <-Hp, Hpc]. apply abs_lookup; eauto 10.
  - apply abs_lookup_None; [done|]. intros i c Hc Hl Heq.
    pose proof (Forall_lookup_1 _ _ _ _ H Hc) as Hf. cbn in Hf.
    assert (has_clientID id c = true) as Ht by by apply (Hh c i Hc). congruence.
Qed.

(** ** Searching by name *)

Section Names.
Context (cs : list client_t) (name : bytes).
Context (Hw : wf_table cs) (Hu : ids_unique cs) (Hn : good_name name).

Lemma named_iff c : named name c = true ↔ cstr (cl_name c) = name.
Proof. unfold named. rewrite strcmp_eq_spec. by rewrite (cstr_no_nul name) by auto with wd. Qed.

Lemma active_as_iff : active_as (abs cs) name ↔ existsb (active_named name) cs = true.
Proof.
  unfold active_as. rewrite existsb_exists. split.
  - intros (id & ss & Hs & Ha & Hname). apply abs_lookup in Hs as (i & c & Hc & Hl & _ & <-); [|done].
    exists c. split; [by apply list_elem_of_In, list_elem_of_lookup_2 with i|].
    unfold active_named. cbn in Ha. rewrite Ha. by apply named_iff.
  - intros (c & Hin & Ha). apply list_elem_of_In, list_elem_of_lookup in Hin as [i Hc].
    unfold active_named in Ha. apply andb_true_iff in Ha as [Ha Hnm].
    exists (cl_clientID c), (session_of c). split; [|split; [done|by apply named_iff]].
    apply abs_lookup; [done|]. exists i, c. split_and!; try done. unfold live. by rewrite Ha.
Qed.

Lemma announced_for_session c i :
  cs !! i = Some c → announced_for name c = true ↔
  live c = true ∧ ss_active (session_of c) = false ∧ ss_name (session_of c) = name.
Proof.
  intros Hc. unfold announced_for, live. cbn. rewrite !andb_true_iff, named_iff, negb_true_iff.
  destruct (cl_active c), (cl_anounced c); cbn; naive_solver.
Qed.

Lemma announced_as_iff : announced_as (abs cs) name ↔ is_Some (find_index (announced_for name) cs).
Proof.
  unfold announced_as. split.
  - intros (id & ss & Hs & Ha & Hname). apply abs_lookup in Hs as (i & c & Hc & Hl & _ & <-); [|done].
    apply not_eq_None_Some. rewrite find_index_None. intros Hf.
    pose proof (Forall_lookup_1 _ _ _ _ Hf Hc) as Hx. cbn in Hx.
    assert (announced_for name c = true) as Ht by by apply (announced_for_session c i Hc).
    congruence.
  - intros [i Hi]. apply find_index_Some in Hi as (c & Hc & Ha & _).
    apply (announced_for_session c i Hc) in Ha as (Hl & Ha & Hname).
    exists (cl_clientID c), (session_of c). split; [|done]. apply abs_lookup; eauto 10.
Qed.

Lemma is_free_live c : is_free c = negb (live c).
Proof. unfold is_free, live. by destruct (cl_anounced c), (cl_active c). Qed.

Lemma filter_live_full (l : list client_t) :
  (length (List.filter live l) ≤ length l)%nat ∧
  (find_index is_free l = None ↔ length (List.filter live l) = length l).
Proof.
  induction l as [|c l [IH1 IH2]]; [done|]. cbn [List.filter find_index length].
  rewrite is_free_live. destruct (live c); cbn [negb length].
  - split; [lia|]. destruct (find_index is_free l); cbn; split; intros H; try done; try lia.
    + exfalso. assert (Some n = None) by (apply IH2; lia). done.
    + f_equal. by apply IH2.
  - split; [lia|]. split; [done|lia].
Qed.

Lemma no_free_iff : find_index is_free cs = None ↔ size (abs cs) = WD_MAX_CLIENTS.
Proof.
  rewrite abs_size by done. destruct Hw as [<- _]. apply filter_live_full.
Qed.

Lemma free_size i : find_index is_free cs = Some i → (size (abs cs) < WD_MAX_CLIENTS)%nat.
Proof.
  intros Hi. destruct (filter_live_full cs) as [Hle Hfull]. rewrite abs_size by done.
  destruct Hw as [Hl _]. destruct (decide (length (List.filter live cs) = length cs)) as [Heq|Hne]; [|lia].
  apply Hfull in Heq. congruence.
Qed.

(** A registration is rejected by the table exactly when the rules say so. *)
Lemma slot_spec_rejected cfg :
  slot_spec cfg cs name = None →
  (cfg_unique_clients cfg = true ∧ active_as (abs cs) name) ∨
  (¬ announced_as (abs cs) name ∧
   (cfg_strict_clients cfg = true ∨ size (abs cs) = WD_MAX_CLIENTS)).
Proof.
  unfold slot_spec. rewrite announced_as_iff, active_as_iff.
  destruct (cfg_unique_clients cfg && existsb (active_named name) cs) eqn:Eu.
  { intros _. left. by apply andb_true_iff in Eu. }
  destruct (find_index (announced_for name) cs) as [i|]; [done|]. intros H. right.
  split; [by intros [? ?]|]. destruct (cfg_strict_clients cfg); [by left|right]. by apply no_free_iff.
Qed.

Lemma slot_spec_unique cfg i :
  slot_spec cfg cs name = Some i → cfg_unique_clients cfg = true → ¬ active_as (abs cs) name.
Proof.
  unfold slot_spec. rewrite active_as_iff. intros H Hq Ha. by rewrite Hq, Ha in H.
Qed.

(** Otherwise the slot is announced under the name, or free. *)
Lemma slot_spec_accepted cfg i :
  slot_spec cfg cs name = Some i →
  ∃ c, cs !! i = Some c ∧
    ((cl_anounced c = true ∧ abs cs !! cl_clientID c = Some (session_of c) ∧
      ss_active (session_of c) = false ∧ ss_name (session_of c) = name) ∨
     (live c = false ∧ ¬ announced_as (abs cs) name ∧ cfg_strict_clients cfg = false ∧
      (size (abs cs) < WD_MAX_CLIENTS)%nat)).
Proof.
  unfold slot_spec. destruct (cfg_unique_clients cfg && _); [done|].
  destruct (find_index (announced_for name) cs) as [j|] eqn:Ej.
  - intros [= <-]. apply find_index_Some in Ej as (c & Hc & Ha & _). exists c. split; [done|]. left.
    pose proof Ha as Ha'. apply (announced_for_session c j Hc) in Ha' as (Hl & Hs1 & Hs2).
    split_and!; try done.
    + unfold announced_for in Ha. by destruct (cl_anounced c).
    + apply abs_lookup; eauto 10.
  - destruct (cfg_strict_clients cfg) eqn:Es; [done|]. intros Hf. pose proof (free_size i Hf) as Hs.
    apply find_index_Some in Hf as (c & Hc & Hfr & _). rewrite is_free_live in Hfr.
    exists c. split; [done|]. right. split_and!; try done; [by apply negb_true_iff|].
    rewrite announced_as_iff, Ej. by intros [? ?].
Qed.
End Names.

(** ** The refinement *)

Section Refinement.
Context {E : Env}.

(** The identifier the next registration would draw. *)
Definition next_id (s : broker) : bytes := clientID_of (env_entropy (id_ix s)).

(** [s'] is an answer of the broker in [s] that the specification allows. *)
Definition implements (sock : conn) (creds : ucred) (req : request) (s s' : broker) : Prop :=
  ∃ reply es,
    spec_step (config s) creds (env_now (now_ix s)) (next_id s) (abs (clients s)) req reply
      (abs (clients s')) ∧
    trace s' = trace s ++ es ∧ replies es = answer_of sock reply ∧
    ids_unique (clients s').

Lemma implements_events sock creds req s es reply :
  ids_unique (clients s) → replies es = answer_of sock reply →
  spec_step (config s) creds (env_now (now_ix s)) (next_id s) (abs (clients s)) req reply
    (abs (clients s)) →
  implements sock creds req s (with_events es s).
Proof. intros Hu Hr Hs. exists reply, es. done. Qed.

Lemma replies_one sock t es1 es2 :
  log_only es1 → log_only es2 →
  replies (es1 ++ reply_event sock t :: es2) = answer_of sock t.
Proof.
  intros H1 H2. unfold reply_event, answer_of. rewrite replies_app, (replies_log_only es1) by done.
  destruct (conn_wfail sock); cbn; [|f_equal]; by apply replies_log_only.
Qed.

Lemma register_implements sock creds buf s s' name timeout checkPID :
  wf_table (clients s) → ids_unique (clients s) → abs (clients s) !! next_id s = None →
  parse_register (drop (strlen CMD_REGISTER) buf) = inr (name, timeout, checkPID) →
  handle_register sock creds buf s = (Ret tt, s') →
  implements sock creds (ReqRegister name timeout checkPID) s s'.
Proof.
  intros Hw Hu Hf Hp Hh. destruct (parse_register_inr _ _ _ _ Hp) as [Hn _].
  pose proof (good_name_no_nul name Hn) as Hnn.
  destruct (slot_spec (config s) (clients s) name) as [i|] eqn:Es.
  2: { destruct (handle_register_rejected sock creds buf s name timeout checkPID Hp Es) as (es & Hl & He).
       rewrite He in Hh. injection Hh as <-.
       eapply implements_events; [done|apply (replies_one sock _ es []); [done|constructor]|].
       apply spec_register_rejected. by eapply slot_spec_rejected. }
  destruct (slot_spec_accepted (clients s) name Hw Hu Hn _ _ Es) as (c & Hc & Hcase).
  destruct (handle_register_ok sock creds buf s name timeout checkPID i c Hp Es Hc)
    as (s2 & l & He & Hsd & Hcl & _). rewrite He in Hh. injection Hh as <-.
  set (id := registration_clientID s c) in *.
  set (c' := registered name (cr_pid creds) checkPID timeout (env_now (now_ix s)) id) in *.
  assert (session_of c' = Session name (cr_pid creds) timeout (env_now (now_ix s)) checkPID true) as Hss.
  { unfold session_of. subst c'. cbn. f_equal. destruct Hn as (_ & Hl & _).
    rewrite cstr_strncpy; [by apply cstr_no_nul|]. unfold strlen. by rewrite cstr_no_nul. }
  assert ((live c = true → cl_clientID c = id) ∧
    ∀ j d, j ≠ i → clients s !! j = Some d → live d = true → cl_clientID d ≠ id) as [Hold Hoth].
  { subst id. unfold registration_clientID. destruct Hcase as [(Ha & Hin & _)|(Hl & _)].
    - rewrite Ha. split; [done|]. intros j d Hji Hd Hdl Heq. apply Hji.
      eapply Hu; eauto. unfold live. by rewrite Ha, orb_true_r.
    - assert (cl_anounced c = false) as ->.
      { unfold live in Hl. apply orb_false_iff in Hl. naive_solver. }
      split; [congruence|]. intros j d _ Hd Hdl. eapply abs_lookup_None; eauto. }
  assert (abs (clients s2) = <[id := session_of c']> (abs (clients s))) as Habs
    by (rewrite Hcl; by eapply abs_insert).
  exists (ok_reply id), [EvLog LOG_INFO l; reply_event sock (printf "OK %s\n" [PS id])].
  rewrite Habs, Hss. split_and!.
  - destruct Hcase as [(Ha & Hin & Hact & Hnm)|(Hl & Hna & Hst & Hsz)].
    + assert (cl_clientID c = id) as Hidc by (apply Hold; unfold live; by rewrite Ha, orb_true_r).
      rewrite Hidc in Hin. eapply spec_register_announced; eauto.
      by eapply slot_spec_unique.
    + assert (id = next_id s) as ->.
      { subst id. unfold registration_clientID, live in *. apply orb_false_iff in Hl as [_ ->]. done. }
      apply spec_register_new; auto. by eapply slot_spec_unique.
  - apply Hsd.
  - by apply (replies_one sock (ok_reply id) [_] []); repeat constructor.
  - rewrite Hcl. by eapply ids_unique_insert.
Qed.

Lemma ping_implements sock creds buf s s' id :
  wf_table (clients s) → ids_unique (clients s) →
  scan_clientID (drop (strlen CMD_PING) buf) = inr id →
  handle_ping sock creds buf s = (Ret tt, s') → implements sock creds (ReqPing id) s s'.
Proof.
  intros Hw Hu Hi Hh. pose proof (handle_ping_eq sock creds buf s id Hi) as He.
  pose proof (find_clientID_abs (clients s) id (cr_pid creds) Hw Hu (scan_clientID_shape _ _ Hi)) as Hf.
  destruct (find_clientID (clients s) id (cr_pid creds) 0) as [i|i|].
  - destruct Hf as (c & Hc & Hl & Hid & Hlk & Hp). rewrite He in Hh. injection Hh as <-.
    exists (lit "OK\n"), [reply_event sock (lit "OK\n")].
    cbn [clients add_event alter_client set_clients set_now_ix trace].
    rewrite (list_alter_known _ _ _ _ Hc).
    assert (∀ j d, j ≠ i → clients s !! j = Some d → live d = true →
              cl_clientID d ≠ cl_clientID (set_last_ping (env_now (now_ix s)) c)) as Hoth.
    { intros j d Hji Hd Hdl Heq. apply Hji. by eapply Hu. }
    erewrite abs_insert; [|done|done|done|done|done]. cbn [cl_clientID set_last_ping]. rewrite Hid.
    split_and!; [|done| |by eapply ids_unique_insert].
    + by apply (spec_ping _ _ _ _ _ id (session_of c)).
    + by apply (replies_one sock _ [] []); constructor.
  - destruct Hf as (c & Hc & Hl & Hid & Hlk & Hp). destruct He as [l He]. rewrite He in Hh.
    injection Hh as <-. eapply implements_events; [done| |by eapply spec_ping_pid].
    by apply (replies_one sock _ [] [_]); repeat constructor.
  - rewrite He in Hh. injection Hh as <-. rewrite add_event_with.
    eapply implements_events; [done| |by apply spec_ping_unknown].
    by apply (replies_one sock _ [] []); constructor.
Qed.

Lemma unregister_implements sock creds buf s s' id :
  wf_table (clients s) → ids_unique (clients s) →
  scan_clientID (drop (strlen CMD_UNREGISTER) buf) = inr id →
  handle_unregister sock creds buf s = (Ret tt, s') → implements sock creds (ReqUnregister id) s s'.
Proof.
  intros Hw Hu Hi Hh. destruct (handle_unregister_eq sock creds buf s id Hi) as (es1 & es2 & H1 & H2 & He).
  rewrite He in Hh. injection Hh as <-.
  pose proof (find_clientID_abs (clients s) id (cr_pid creds) Hw Hu (scan_clientID_shape _ _ Hi)) as Hf.
  assert (∀ i c reply, clients s !! i = Some c → live c = true → cl_clientID c = id →
    spec_step (config s) creds (env_now (now_ix s)) (next_id s) (abs (clients s)) (ReqUnregister id)
      reply (delete id (abs (clients s))) →
    implements sock creds (ReqUnregister id) s
      (with_events (es1 ++ reply_event sock reply :: es2) (alter_client i deactivate s))) as Hdel.
  { intros i c reply Hc Hl Hid Hs. exists reply, (es1 ++ reply_event sock reply :: es2).
    cbn [clients with_events alter_client set_clients trace]. rewrite (list_alter_known _ _ _ _ Hc).
    rewrite (abs_clear _ _ _ _ Hu Hc Hl) by done. rewrite Hid.
    split_and!; [done|done|by apply replies_one|by apply ids_unique_clear]. }
  destruct (find_clientID (clients s) id (cr_pid creds) 0) as [i|i|];
    cbn [unregister_allowed unregister_refusal].
  - destruct Hf as (c & Hc & Hl & Hid & Hlk & Hp).
    destruct (cfg_strict_clients (config s)) eqn:Est; cbn [andb].
    + destruct (Z.eqb_spec (cr_uid creds) 0); cbn [negb].
      * eapply Hdel; eauto. eapply spec_unregister; eauto.
      * eapply implements_events; [done|by apply replies_one|by eapply spec_unregister_strict].
    + eapply Hdel; eauto. eapply spec_unregister; eauto.
  - destruct Hf as (c & Hc & Hl & Hid & Hlk & Hp). destruct (Z.eqb_spec (cr_uid creds) 0).
    + eapply Hdel; eauto. eapply spec_unregister; eauto.
    + eapply implements_events; [done|by apply replies_one|by eapply spec_unregister_pid].
  - eapply implements_events; [done|by apply replies_one|by apply spec_unregister_unknown].
Qed.

Lemma bad_implements sock creds err s :
  ids_unique (clients s) → implements sock creds (ReqBad err) s (add_event (reply_event sock err) s).
Proof.
  intros Hu. rewrite add_event_with. apply implements_events with err; [done| |apply spec_bad].
  by apply (replies_one sock _ [] []); constructor.
Qed.

Lemma reboot_implements sock creds buf s s' :
  ids_unique (clients s) → handle_reboot sock creds buf s = (Ret tt, s') →
  implements sock creds (no_arg " %15s" (drop (strlen CMD_REBOOT) buf) ReqReboot) s s'.
Proof.
  intros Hu Hh. unfold no_arg.
  destruct (Z.eqb_spec (fst (sscanf (drop (strlen CMD_REBOOT) buf) (lit " %15s"))) 1) as [Ea|Ea].
  { unfold handle_reboot in Hh. rewrite Ea, Z.eqb_refl, write_str_eq in Hh. injection Hh as <-.
    by apply bad_implements. }
  destruct (Z.eq_dec (cr_uid creds) 0) as [Hz|Hz].
  - rewrite handle_reboot_eq in Hh by done. injection Hh as <-.
    eexists _, _. split; [by apply spec_reboot|]. split; [done|]. split; [|done].
    by apply (replies_one sock _ [] [_]); repeat constructor.
  - unfold handle_reboot in Hh. rewrite (proj2 (Z.eqb_neq _ _) Ea), (proj2 (Z.eqb_neq _ _) Hz) in Hh.
    cbn [negb] in Hh. unfold log_message, emit in Hh. mrun in Hh. rewrite write_str_eq in Hh.
    injection Hh as <-. exists (lit "ERROR no permission\n"), (reply_event sock (lit "ERROR no permission\n")
      :: [EvLog LOG_WARNING (printf "Client with PID %d tried to activate reboot failsafe"
                               [PI (cr_pid creds)])]).
    split; [by apply spec_reboot_refused|]. cbn [trace add_event]. rewrite <-app_assoc. split; [done|]. split; [|done].
    by apply (replies_one sock _ [] [_]); repeat constructor.
Qed.

Lemma status_implements sock creds buf s s' :
  ids_unique (clients s) → handle_status sock creds buf s = (Ret tt, s') →
  implements sock creds (no_arg " %31s" (drop (strlen CMD_STATUS) buf) ReqStatus) s s'.
Proof.
  intros Hu Hh. unfold no_arg.
  destruct (Z.eqb_spec (fst (sscanf (drop (strlen CMD_STATUS) buf) (lit " %31s"))) 1) as [Ea|Ea].
  { unfold handle_status in Hh. rewrite Ea, Z.eqb_refl, write_str_eq in Hh. injection Hh as <-.
    by apply bad_implements. }
  destruct (decide (cr_pid creds = 0 ∨ cr_uid creds = 0)) as [Hal|Hal].
  - destruct (handle_status_events sock creds buf s) as [Hx|(es & He & _ & Hans)]; [congruence|].
    rewrite He in Hh. injection Hh as <-.
    destruct Hans as [t Hr].
    exists t, es. split; [by apply spec_status|done].
  - unfold handle_status in Hh. rewrite (proj2 (Z.eqb_neq _ _) Ea) in Hh.
    assert (negb (cr_pid creds =? 0) && negb (cr_uid creds =? 0) = true) as Hc by lia.
    rewrite Hc in Hh. unfold log_message, emit in Hh. mrun in Hh. rewrite write_str_eq in Hh.
    injection Hh as <-. exists (lit "ERROR no permission\n"), (reply_event sock (lit "ERROR no permission\n")
      :: [EvLog LOG_WARNING (printf "Client with PID %d tried to list clients" [PI (cr_pid creds)])]).
    split; [by apply spec_status_refused|]. cbn [trace add_event]. rewrite <-app_assoc. split; [done|]. split; [|done].
    by apply (replies_one sock _ [] [_]); repeat constructor.
Qed.

Lemma version_implements sock creds buf s s' :
  ids_unique (clients s) → handle_version sock buf s = (Ret tt, s') →
  implements sock creds (no_arg " %31s" (drop (strlen CMD_VERSION) buf) ReqVersion) s s'.
Proof.
  intros Hu Hh. rewrite handle_version_eq in Hh. unfold no_arg. injection Hh as <-.
  destruct (_ =? 1); [by apply bad_implements|]. rewrite add_event_with.
  eapply implements_events; [done| |apply spec_version].
  unfold send_event, answer_of. by destruct (conn_wfail sock).
Qed.

Lemma dispatch_implements sock creds buf s s' :
  wf_table (clients s) → ids_unique (clients s) → abs (clients s) !! next_id s = None →
  dispatch sock creds buf s = (Ret tt, s') → implements sock creds (decode buf) s s'.
Proof.
  intros Hw Hu Hf. unfold dispatch, decode.
  destruct (is_command CMD_REGISTER buf).
  { destruct (parse_register _) as [err|[[name t] chk]] eqn:Ep; intros Hh.
    - rewrite (handle_register_bad _ _ _ _ _ Ep) in Hh. injection Hh as <-. by apply bad_implements.
    - by eapply register_implements. }
  destruct (is_command CMD_PING buf).
  { unfold with_id. destruct (scan_clientID _) as [err|id] eqn:Ei; intros Hh.
    - rewrite (handle_ping_bad _ _ _ _ _ Ei) in Hh. injection Hh as <-. by apply bad_implements.
    - by eapply ping_implements. }
  destruct (is_command CMD_UNREGISTER buf).
  { unfold with_id. destruct (scan_clientID _) as [err|id] eqn:Ei; intros Hh.
    - rewrite (handle_unregister_bad _ _ _ _ _ Ei) in Hh. injection Hh as <-. by apply bad_implements.
    - by eapply unregister_implements. }
  destruct (is_command CMD_REBOOT buf); [by apply reboot_implements|].
  destruct (is_command CMD_STATUS buf); [by apply status_implements|].
  destruct (is_command CMD_VERSION buf); [by apply version_implements|].
  rewrite write_str_eq. intros [= <-]. by apply bad_implements.
Qed.
End Refinement.

(** The text a connection delivers to the dispatcher. *)
Definition received (sock : conn) : Z * bytes :=
  read_with_timeout (conn_select sock) (conn_read sock) (replicate CMD_BUF_LEN NUL) CMD_BUF_LEN.

(** C3: the broker refines the registry.  Every completed request of an identified
    peer changes the registry the table represents, and is answered, exactly as
    the specification of its request allows: registration under the naming rules
    with a new or the announced identifier, heartbeats and removals only for known
    identifiers of the right process or root, everything else without effect.
    The identifiers of live slots stay distinct as long as the one drawn for a new
    client is not in use already. *)
Theorem broker_refines_registry `{Env} sock creds len buf s s' :
  wf_table (clients s) → ids_unique (clients s) → abs (clients s) !! next_id s = None →
  conn_peer sock = inl creds → received sock = (len, buf) → 0 < len →
  handle_command sock s = (Ret tt, s') →
  ∃ reply es,
    spec_step (config s) creds (env_now (now_ix s)) (next_id s) (abs (clients s)) (decode buf) reply
      (abs (clients s')) ∧
    trace s' = trace s ++ es ∧ (conn_wfail sock = None → replies es = [reply]) ∧
    ids_unique (clients s').
Proof.
  intros Hw Hu Hf Hp Hr Hl Hh. unfold handle_command, received in *. rewrite Hp, Hr in Hh.
  destruct (Z.leb_spec len 0); [lia|].
  destruct (dispatch_implements sock creds buf s s' Hw Hu Hf Hh) as (reply & es & Hs & Ht & Ha & Hu').
  exists reply, es. split_and!; try done. intros Hn. rewrite Ha. unfold answer_of. by rewrite Hn.
Qed.
