(* ===== verification/Startup.v ===== *)
(** * From [main] to the main loop

    src/src/wd-broker.c: [print_help], [parse_syslog_facility],
    [log_bootstatus] and the part of [main] before the signal handlers are
    installed: options, the checks of user and configuration file, the timer,
    the socket, the watchdog device, the privileges, the daemon. *)

From S2P Require Import Prelude CString Scanf Common World ClientId Registry ConfigFile Getopt.

(** ** Options *)

(** The long options of [main] and whether they take an argument. *)
Definition long_options : list (bytes * bool * ascii) :=
  [(lit "daemonize", false, "d"%char); (lit "config-file", true, "c"%char);
   (lit "help", false, "h"%char); (lit "no-watchdog", false, "n"%char);
   (lit "service-user", true, "u"%char); (lit "syslog-facility", true, "s"%char);
   (lit "version", false, "v"%char)].

(** The short options, "hv". *)
Definition short_options : list (ascii * bool) := [("h"%char, false); ("v"%char, false)].

(** The facilities, by name; the numbers are those of syslog.h. *)
Definition LOG_USER : Z := 8.
Definition LOG_DAEMON : Z := 24.
Definition LOG_LOCAL (i : Z) : Z := Z.shiftl (16 + i) 3.

Definition parse_syslog_facility (str : bytes) : B Z :=
  if strcmp_eq str (lit "LOG_USER") then mret LOG_USER
  else if strcmp_eq str (lit "LOG_DAEMON") then mret LOG_DAEMON
  else if strcmp_eq str (lit "LOG_LOCAL0") then mret (LOG_LOCAL 0)
  else if strcmp_eq str (lit "LOG_LOCAL1") then mret (LOG_LOCAL 1)
  else if strcmp_eq str (lit "LOG_LOCAL2") then mret (LOG_LOCAL 2)
  else if strcmp_eq str (lit "LOG_LOCAL3") then mret (LOG_LOCAL 3)
  else if strcmp_eq str (lit "LOG_LOCAL4") then mret (LOG_LOCAL 4)
  else if strcmp_eq str (lit "LOG_LOCAL5") then mret (LOG_LOCAL 5)
  else if strcmp_eq str (lit "LOG_LOCAL6") then mret (LOG_LOCAL 6)
  else if strcmp_eq str (lit "LOG_LOCAL7") then mret (LOG_LOCAL 7)
  else
    emit (EvStderr (lit "Error: Only LOG_USER, LOG_DAEMON and LOG_LOCAL* are supported\n")) ;;
    exit_with EXIT_FAILURE.

(** The locals of [main] the options set. *)
Record settings : Type := Settings {
  watchdog_enabled : bool;
  syslog_facility : Z;
  service_user : bytes;
  config_file : bytes;
}.

Section Options.
Context (SYSCONFDIR : bytes).

Definition DEFAULT_CONFIG_PATH : bytes := SYSCONFDIR ++ lit "/wd-broker.conf".

Definition print_help : B unit :=
  emit (EvStdout (concat
    [lit "Usage: wd-broker [OPTIONS]\n"; lit "\nOptions:\n";
     lit "  --help                    Show this help message and exit\n";
     lit "  --version                 Show version information and exit\n";
     lit "  --daemonize               Run as a daemon (default: false)\n";
     printf "  --config-file <file>      Load configuration from file (default: %s)\n"
       [PS DEFAULT_CONFIG_PATH];
     printf "  --service-user <user>     Set the service user to drop privileges to (default: %s)\n"
       [PS SERVICE_USER_DEFAULT];
     lit "                            ATTENTION: Must not be 'root'\n";
     lit "  --syslog-facility <name>  Set syslog facility when running as a daemon\n";
     lit "                            Supported values: LOG_DAEMON (default), LOG_USER,\n";
     lit "                            LOG_LOCAL0 through LOG_LOCAL7\n";
     lit "  --no-watchdog             Disable hardware watchdog (test mode, default: false)\n";
     lit "\nExamples:\n";
     lit "  wd-broker --no-watchdog --config-file /tmp/test-config\n";
     lit "  wd-broker --daemonize\n"; lit "\n"])).

Definition settings_default : settings :=
  Settings true LOG_DAEMON SERVICE_USER_DEFAULT DEFAULT_CONFIG_PATH.

(** The body of the option loop. *)
Definition apply_option (o : opt) (st : settings) : B settings :=
  let '(Settings wd fac user file) := st in
  match o with
  | Opt c arg =>
      if Ascii.eqb c "c" then mret (Settings wd fac user (default [] arg))
      else if Ascii.eqb c "d" then modify (set_daemonize true) ;; mret st
      else if Ascii.eqb c "h" then print_help ;; exit_with EXIT_SUCCESS
      else if Ascii.eqb c "n" then mret (Settings false fac user file)
      else if Ascii.eqb c "s" then
        f ← parse_syslog_facility (default [] arg); mret (Settings wd f user file)
      else if Ascii.eqb c "u" then mret (Settings wd fac (default [] arg) file)
      else if Ascii.eqb c "v" then
        emit (EvStdout (printf "wd-broker v%s\n" [PS PACKAGE_VERSION])) ;; exit_with 0
      else print_help ;; exit_with EXIT_FAILURE
  | OptError => print_help ;; exit_with EXIT_FAILURE
  end.

Fixpoint apply_options (os : list opt) (st : settings) : B settings :=
  match os with
  | [] => mret st
  | o :: r => st ← apply_option o st; apply_options r st
  end.

Definition parse_options (argv : list bytes) : B settings :=
  apply_options (fst (getopt_long short_options long_options argv)) settings_default.
End Options.

(** ** What the system answers *)

Record passwd : Type := Passwd { pw_uid : Z; pw_gid : Z }.

(** The fields of [struct stat] that are used. *)
Record stat : Type := Stat { st_mode : Z; st_uid : Z }.

Definition S_IFMT : Z := 61440.    (* 0170000 *)
Definition S_IFSOCK : Z := 49152.  (* 0140000 *)
Definition S_IFLNK : Z := 40960.   (* 0120000 *)
Definition S_IFREG : Z := 32768.   (* 0100000 *)

Definition S_ISREG (mode : Z) : bool := Z.land mode S_IFMT =? S_IFREG.
Definition S_ISLNK (mode : Z) : bool := Z.land mode S_IFMT =? S_IFLNK.
Definition S_ISSOCK (mode : Z) : bool := Z.land mode S_IFMT =? S_IFSOCK.

Definition EACCES : Z := 13.
Definition ECONNREFUSED : Z := 111.
Definition LOGIN_NAME_MAX : nat := 256.

Inductive fork_result : Type :=
  | ForkErr (err : bytes)
  | ForkParent (pid : Z)
  | ForkChild.

(** The results of the system calls of the startup sequence, in its order.  An
    [option bytes] is the error text of a call that failed. *)
Record os : Type := Os {
  os_geteuid : Z;
  os_getpwnam : bytes → option passwd;
  os_lstat_config : stat + bytes;
  os_config_file : option bytes;              (* content, when it can be opened *)
  os_settime : option bytes;
  os_lstat_socket : option stat;
  os_probe_socket : option bytes;
  os_probe_connect : option (Z * bytes);      (* None: somebody listens *)
  os_unlink : option bytes;
  os_bind : option (Z * bytes);
  os_listen : option bytes;
  os_chmod : option bytes;
  os_chown : option bytes;
  os_open_watchdog : option bytes;
  os_settimeout : option bytes;
  os_setgroups : option bytes;
  os_setgid : option bytes;
  os_setuid : option bytes;
  os_fork : fork_result;
  os_setsid : option bytes;
  os_chdir : option bytes;
  os_bootstatus : Z + bytes;
}.

(** A call that is fatal when it fails, by [fatal_errno] or by [fatal_error]. *)
Definition or_fatal_errno (context : bytes) (err : option bytes) (e : event) : B unit :=
  match err with
  | Some text => fatal_errno context text
  | None => emit e
  end.

Definition or_fatal_error (fmt : string) (err : option bytes) (e : event) : B unit :=
  match err with
  | Some text => fatal_error (printf fmt [PS text])
  | None => emit e
  end.

(** ** The checks before the configuration is read *)

Definition check_service_user (o : os) (service_user : bytes) : B passwd :=
  let pw := os_getpwnam o service_user in
  if Nat.eqb (strlen service_user) 0 || (LOGIN_NAME_MAX <? strlen service_user)%nat
  then fatal_error (printf "Invalid service user name '%s'.\n" [PS service_user])
  else match pw with
       | None => fatal_error (printf "Service user '%s' does not exist.\n" [PS service_user])
       | Some pw =>
           if pw_uid pw =? 0
           then fatal_error
                  (lit "Refusing to drop privileges to root, use a different service user.\n")
           else mret pw
       end.

Definition check_config_file (o : os) (config_file service_user : bytes) (pw : passwd) : B unit :=
  match os_lstat_config o with
  | inr err => fatal_error (printf "Cannot stat config file '%s': %s" [PS config_file; PS err])
  | inl st =>
      if negb (S_ISREG (st_mode st))
      then fatal_error (printf "Config file '%s' is not a regular file" [PS config_file])
      else if S_ISLNK (st_mode st)
      then fatal_error (printf "Config file '%s' must not be a symlink" [PS config_file])
      else if negb (st_uid st =? pw_uid pw)
      then fatal_error (printf "Config file '%s' must be owned by '%s' (uid %d)\n"
                          [PS config_file; PS service_user; PI (pw_uid pw)])
      else if negb (Z.land (st_mode st) 18 =? 0)  (* 022 *)
      then fatal_error (printf "Config file '%s' must not be writable by group or others"
                          [PS config_file])
      else mret tt
  end.

(** ** Timer, socket, watchdog *)

Definition timer_interval (cfg : wd_config_t) : Z := Z.quot (cfg_wd_timeout_s cfg) 2.

Definition start_timer (o : os) : B unit :=
  config ← gets config;
  or_fatal_errno (lit "timerfd_settime failed") (os_settime o) (EvTimerSet (timer_interval config)).

Definition remove_stale_socket (o : os) : B unit :=
  config ← gets config;
  let path := cstr (cfg_socket_path config) in
  match os_lstat_socket o with
  | None => mret tt
  | Some st =>
      if negb (S_ISSOCK (st_mode st)) then
        fatal_error (printf
          "Cannot use '%s'. File exists but is not a socket.\nHint: Remove the file or choose a different path."
          [PS path])
      else
        match os_probe_socket o with
        | Some err => fatal_errno (lit "Could not create socket to test for active broker") err
        | None =>
            match os_probe_connect o with
            | None => fatal_error (printf "Active wd-broker instance detected at '%s'.\n" [PS path])
            | Some (errno, err) =>
                if negb (errno =? ECONNREFUSED)
                then fatal_errno (lit "Unexpected error when probing existing socket") err
                else
                  match os_unlink o with
                  | None =>
                      emit (EvUnlink path) ;;
                      emit (EvStdout (printf "Removed stale socket at '%s'\n" [PS path]))
                  | Some err => fatal_errno (lit "Could not remove stale socket file") err
                  end
            end
        end
  end.

Definition bind_socket (o : os) : B unit :=
  config ← gets config;
  let path := cstr (cfg_socket_path config) in
  match os_bind o with
  | None => emit (EvBind path)
  | Some (errno, err) =>
      if errno =? EACCES then
        emit (EvStderr (printf "Error: Permission denied to bind to socket path '%s'\n" [PS path])) ;;
        (if negb (os_geteuid o =? 0)
         then emit (EvStderr (lit "Please run as root or use a different socket path\n"))
         else mret tt) ;;
        exit_with EXIT_FAILURE
      else fatal_error (printf "Failed to bind to socket path '%s'\n" [PS path])
  end.

(** 0660 *)
Definition SOCKET_MODE : Z := 432.

Definition open_socket (o : os) (pw : passwd) : B unit :=
  bind_socket o ;;
  or_fatal_errno (lit "Could not listen on the server socket") (os_listen o) EvListen ;;
  config ← gets config;
  let path := cstr (cfg_socket_path config) in
  or_fatal_errno (lit "Could not set socket permissions") (os_chmod o) (EvChmod path SOCKET_MODE) ;;
  if os_geteuid o =? 0
  then or_fatal_errno (lit "Could not set socket ownership") (os_chown o)
         (EvChown path (pw_uid pw) (pw_gid pw))
  else mret tt.

Definition open_watchdog (o : os) (enabled : bool) : B unit :=
  if enabled then
    if negb (os_geteuid o =? 0) then fatal_error (lit "wd-broker must be started as root!\n")
    else
      or_fatal_error "Failed to open /dev/watchdog: %s\n" (os_open_watchdog o) EvOpenWatchdog ;;
      modify (set_watchdog_fd true) ;;
      log_message LOG_INFO (lit "Opened hardware watchdog device /dev/watchdog") ;;
      config ← gets config;
      or_fatal_error "Failed to set watchdog timeout: %s\n" (os_settimeout o)
        (EvSetTimeout (cfg_wd_timeout_s config))
  else mret tt.

Definition drop_privileges (o : os) (pw : passwd) : B unit :=
  if os_geteuid o =? 0 then
    or_fatal_errno (lit "Failed to drop supplementary groups") (os_setgroups o) EvSetgroups ;;
    or_fatal_errno (lit "Failed to drop group privileges") (os_setgid o) (EvSetgid (pw_gid pw)) ;;
    or_fatal_errno (lit "Failed to drop user privileges") (os_setuid o) (EvSetuid (pw_uid pw))
  else mret tt.

Definition become_daemon (o : os) (syslog_facility : Z) : B unit :=
  d ← gets daemonize;
  if d : bool then
    match os_fork o with
    | ForkErr err => fatal_errno (lit "Could not create daemon process") err
    | ForkParent pid =>
        emit EvFork ;; emit (EvStdout (printf "Daemon started with PID: %d\n" [PI pid])) ;;
        exit_with EXIT_SUCCESS
    | ForkChild =>
        emit EvFork ;;
        or_fatal_errno (lit "Could not detach from terminal") (os_setsid o) EvSetsid ;;
        or_fatal_errno (lit "Could not change working directory to '/'") (os_chdir o) EvChdir ;;
        emit (EvUmask 0) ;;
        emit EvCloseStdio ;;
        emit (EvOpenlog syslog_facility)
    end
  else mret tt.

(** ** The startup log *)

Section BootStatus.
(** [bootflags]: the WDIOF_* values of the kernel's watchdog interface. *)
Context (WDIOF_OVERHEAT WDIOF_FANFAULT WDIOF_EXTERN1 WDIOF_EXTERN2 WDIOF_POWERUNDER
  WDIOF_CARDRESET WDIOF_POWEROVER : Z).

Definition bootflags : list (Z * bytes) :=
  [(WDIOF_OVERHEAT, lit " OVERHEAT"); (WDIOF_FANFAULT, lit " FANFAULT");
   (WDIOF_EXTERN1, lit " EXTERN1"); (WDIOF_EXTERN2, lit " EXTERN2");
   (WDIOF_POWERUNDER, lit " POWERUNDER"); (WDIOF_CARDRESET, lit " CARDRESET");
   (WDIOF_POWEROVER, lit " POWEROVER")].

(** [sizeof(flags)] *)
Definition FLAGS_LEN : nat := 128.

Fixpoint boot_flags (bootstatus : Z) (l : list (Z * bytes)) (flags : bytes) : bytes :=
  match l with
  | [] => flags
  | (flag, name) :: r =>
      boot_flags bootstatus r
        (if negb (Z.land bootstatus flag =? 0)
         then strncat flags name (FLAGS_LEN - length flags - 1) else flags)
  end.

Definition bootstatus_text (bootstatus : Z) : bytes :=
  let flags := boot_flags bootstatus bootflags [] in
  printf "Boot status 0x%08x:%s"
    [PI bootstatus;
     PS (if Nat.eqb (length flags) 0 then strncat flags (lit " none") (FLAGS_LEN - 1) else flags)].

Definition log_bootstatus (bootstatus : Z) : B unit :=
  log_message LOG_INFO (bootstatus_text bootstatus).

(** The announced clients, up to the first slot that is not. *)
Fixpoint log_announced (cs : list client_t) : B unit :=
  match cs with
  | [] => mret tt
  | c :: r =>
      if cl_anounced c then
        log_message LOG_INFO (printf "Client '%s' announced, expected within %d ms"
                                [PS (cl_name c); PI (cl_timeout_ms c)]) ;;
        log_announced r
      else mret tt
  end.

Definition log_startup (o : os) : B unit :=
  config ← gets config;
  log_message LOG_NOTICE (printf "wd-broker v%s started on socket %s"
                            [PS PACKAGE_VERSION; PS (cfg_socket_path config)]) ;;
  fd ← gets watchdog_fd;
  (if fd : bool then
     log_message LOG_INFO (printf "Hardware watchdog timeout: %d seconds"
                             [PI (cfg_wd_timeout_s config)]) ;;
     match os_bootstatus o with
     | inr err => log_message LOG_ERR (printf "Failed to get boot status: %s" [PS err])
     | inl bootstatus => log_bootstatus bootstatus
     end
   else log_message LOG_INFO (lit "Running in test mode, no hardware watchdog used")) ;;
  clients ← gets clients;
  log_announced clients.

(** ** The whole sequence *)

Context {E : Env}.
Context (SYSCONFDIR : bytes).

Definition startup (o : os) (argv : list bytes) : B unit :=
  st ← parse_options SYSCONFDIR argv;
  pw ← check_service_user o (service_user st);
  check_config_file o (config_file st) (service_user st) pw ;;
  parse_config (config_file st) (os_config_file o) WD_MAX_CLIENTS ;;
  start_timer o ;;
  remove_stale_socket o ;;
  open_socket o pw ;;
  open_watchdog o (watchdog_enabled st) ;;
  drop_privileges o pw ;;
  become_daemon o (syslog_facility st) ;;
  log_startup o.
End BootStatus.
