(* ===== verification/StartupFacts.v ===== *)
(** * Properties of the startup sequence

    What the sequence of Startup.v has checked and done when it reaches the main
    loop, and that the startup log fits its buffer. *)

From S2P Require Import Prelude CString Scanf Common World ClientId Registry ConfigFile Getopt.
From S2P Require Import Startup.

(** ** Successful runs *)

(** The parts of the state the startup sequence changes only in one place. *)
Record frame (s s' : broker) : Prop := {
  fr_running : running s' = running s;
  fr_reboot : reboot s' = reboot s;
  fr_all_ok : all_ok s' = all_ok s;
}.

#[export] Instance frame_preorder : PreOrder frame.
Proof. split; [by constructor|]. intros s1 s2 s3 [] []. constructor; congruence. Qed.

(** The calls that change something outside the process. *)
Definition system_call (e : event) : bool :=
  match e with EvReply _ | EvLog _ _ | EvStdout _ | EvStderr _ => false | _ => true end.

Definition system_calls (es : list event) : list event := List.filter system_call es.

Definition opens_watchdog (es : list event) : bool :=
  existsb (λ e, match e with EvOpenWatchdog => true | _ => false end) es.

(** [s'] is [s] after the system calls [cs]. *)
Record calls_rel (s s' : broker) (cs : list event) : Prop := {
  ca_frame : frame s s';
  ca_clients : clients s' = clients s;
  ca_config : config s' = config s;
  ca_daemonize : daemonize s' = daemonize s;
  ca_watchdog : watchdog_fd s' = watchdog_fd s || opens_watchdog cs;
  ca_calls : system_calls (trace s') = system_calls (trace s) ++ cs;
  ca_id_ix : id_ix s' = id_ix s;
  ca_now_ix : now_ix s' = now_ix s;
}.

Lemma calls_rel_refl s : calls_rel s s [].
Proof. constructor; try done; [by rewrite orb_false_r|by rewrite app_nil_r]. Qed.

Lemma calls_rel_trans s1 s2 s3 cs1 cs2 :
  calls_rel s1 s2 cs1 → calls_rel s2 s3 cs2 → calls_rel s1 s3 (cs1 ++ cs2).
Proof.
  intros [F1 ? ? ? W1 H1 ? ?] [F2 ? ? ? W2 H2 ? ?]. constructor; try congruence; [by transitivity s2| |].
  - rewrite W2, W1. unfold opens_watchdog. by rewrite existsb_app, orb_assoc.
  - by rewrite H2, H1, app_assoc.
Qed.

Lemma system_calls_snoc es e :
  system_calls (es ++ [e]) = system_calls es ++ (if system_call e then [e] else []).
Proof. unfold system_calls. by rewrite List.filter_app. Qed.

(** An event other than opening the watchdog. *)
Lemma calls_rel_event s e :
  e ≠ EvOpenWatchdog → calls_rel s (add_event e s) (if system_call e then [e] else []).
Proof.
  intros He. constructor; try done; [|apply system_calls_snoc].
  cbn [watchdog_fd add_event]. by destruct e; cbn; rewrite ?orb_false_r.
Qed.

Lemma calls_rel_call s e :
  system_call e = true → e ≠ EvOpenWatchdog → calls_rel s (add_event e s) [e].
Proof. intros Hs He. pose proof (calls_rel_event s e He) as H. by rewrite Hs in H. Qed.

Lemma calls_rel_quiet s e : system_call e = false → calls_rel s (add_event e s) [].
Proof.
  intros Hs. assert (e ≠ EvOpenWatchdog) as He by (by intros ->).
  pose proof (calls_rel_event s e He) as H. by rewrite Hs in H.
Qed.

Lemma calls_rel_open s :
  calls_rel s (set_watchdog_fd true (add_event EvOpenWatchdog s)) [EvOpenWatchdog].
Proof. constructor; try done; [by cbn; rewrite orb_true_r|apply system_calls_snoc]. Qed.

(** A fatal step returns only when the call worked. *)
Lemma or_fatal_errno_ret ctx err e s a s' :
  or_fatal_errno ctx err e s = (Ret a, s') → err = None ∧ s' = add_event e s.
Proof.
  unfold or_fatal_errno, fatal_errno, emit. destruct err; mrun; [done|]. by intros [= _ <-].
Qed.

Lemma or_fatal_error_ret fmt err e s a s' :
  or_fatal_error fmt err e s = (Ret a, s') → err = None ∧ s' = add_event e s.
Proof.
  unfold or_fatal_error, fatal_error, emit. destruct err; mrun; [done|]. by intros [= _ <-].
Qed.

Lemma fatal_error_ret {A} t s (a : A) s' : fatal_error t s = (Ret a, s') → False.
Proof. done. Qed.

(** ** The checks *)

Lemma check_service_user_ret o user s pw s' :
  check_service_user o user s = (Ret pw, s') →
  s' = s ∧ os_getpwnam o user = Some pw ∧ pw_uid pw ≠ 0 ∧
  (0 < strlen user ≤ LOGIN_NAME_MAX)%nat.
Proof.
  unfold check_service_user. destruct (_ || _) eqn:El; [by intros ?%fatal_error_ret|].
  destruct (os_getpwnam o user) as [p|]; [|by intros ?%fatal_error_ret].
  destruct (Z.eqb_spec (pw_uid p) 0); [by intros ?%fatal_error_ret|].
  intros [= <- <-]. apply orb_false_iff in El as [E1 E2].
  apply Nat.eqb_neq in E1. apply Nat.ltb_ge in E2. split_and!; try done; lia.
Qed.

(** What a configuration file must be. *)
Definition safe_config_file (st : stat) (pw : passwd) : Prop :=
  S_ISREG (st_mode st) = true ∧ st_uid st = pw_uid pw ∧ Z.land (st_mode st) 18 = 0.

Lemma check_config_file_ret o file user pw s a s' :
  check_config_file o file user pw s = (Ret a, s') →
  s' = s ∧ ∃ st, os_lstat_config o = inl st ∧ safe_config_file st pw.
Proof.
  unfold check_config_file. destruct (os_lstat_config o) as [st|err]; [|by intros ?%fatal_error_ret].
  destruct (S_ISREG (st_mode st)) eqn:Er; [|by intros ?%fatal_error_ret]. cbn [negb].
  destruct (S_ISLNK (st_mode st)); [by intros ?%fatal_error_ret|].
  destruct (Z.eqb_spec (st_uid st) (pw_uid pw)); [|by intros ?%fatal_error_ret]. cbn [negb].
  destruct (Z.eqb_spec (Z.land (st_mode st) 18) 0); [|by intros ?%fatal_error_ret].
  intros [= _ <-]. split; [done|]. by exists st.
Qed.

(** The symlink test comes after one that refuses symbolic links already. *)
Lemma symlink_test_unreachable mode : S_ISREG mode = true → S_ISLNK mode = false.
Proof.
  unfold S_ISREG, S_ISLNK, S_IFREG, S_IFLNK. intros H. apply Z.eqb_eq in H. by rewrite H.
Qed.

(** ** The configuration leaves the rest of the state alone *)

Definition config_frame (s s' : broker) : Prop :=
  frame s s' ∧ daemonize s' = daemonize s ∧ watchdog_fd s' = watchdog_fd s ∧ trace s' = trace s.

#[export] Instance config_frame_preorder : PreOrder config_frame.
Proof.
  split; [intros s; by repeat split|]. intros s1 s2 s3 (? & ? & ? & ?) (? & ? & ? & ?).
  split; [by transitivity s2|]. split_and!; congruence.
Qed.

(** Every return leaves a state in relation to the start. *)
Definition framed {A} (m : B A) : Prop := ∀ s a s', m s = (Ret a, s') → config_frame s s'.

Lemma framed_ret {A} (a : A) : framed (mret a).
Proof. intros s b s' [= _ <-]. reflexivity. Qed.
Lemma framed_gets {A} (f : broker → A) : framed (gets f).
Proof. intros s b s' [= _ <-]. reflexivity. Qed.
Lemma framed_fatal {A} t : framed (A:=A) (fatal_error t).
Proof. by intros s b s'. Qed.
Lemma framed_bind {A C} (m : B A) (f : A → B C) :
  framed m → (∀ a, framed (f a)) → framed (m ≫= f).
Proof.
  intros Hm Hf s b s' H. apply bind_ret_inv in H as (a & s1 & H1 & H2).
  transitivity s1; [by eapply Hm|by eapply Hf].
Qed.
Lemma framed_modify f : (∀ s, config_frame s (f s)) → framed (modify f).
Proof. intros H s b s'. by intros [= _ <-]. Qed.
Lemma framed_config f : framed (modify_config f).
Proof. by apply framed_modify. Qed.

#[export] Hint Resolve framed_ret framed_gets framed_fatal framed_bind framed_config : framed.

Ltac framed_step :=
  match goal with
  | |- framed (if ?b then _ else _) => destruct b
  | |- framed (match ?x with _ => _ end) => destruct x
  | |- framed (_ ≫= _) => apply framed_bind; [|intros ?]
  | |- framed (modify _) => by apply framed_modify
  | |- framed _ => solve [auto with framed]
  end.

Lemma parse_option_framed k v i ln : framed (parse_option k v i ln).
Proof. unfold parse_option. repeat framed_step. Qed.

Section Config.
Context {E : Env}.

Lemma make_clientID_framed : framed make_clientID.
Proof. unfold make_clientID. repeat framed_step. Qed.
Lemma get_now_framed : framed get_now.
Proof. unfold get_now. repeat framed_step. Qed.

Lemma parse_line_framed fn l i ln m : framed (parse_line fn l i ln m).
Proof.
  unfold parse_line, parse_client_section. repeat framed_step;
    auto using parse_option_framed, make_clientID_framed, get_now_framed.
Qed.

Lemma parse_lines_framed fn ls i ln m : framed (parse_lines fn ls i ln m).
Proof.
  revert i ln. induction ls as [|l ls IH]; intros i ln; cbn [parse_lines]; [apply framed_ret|].
  apply framed_bind; [apply parse_line_framed|auto].
Qed.

Lemma parse_config_framed fn file m : framed (parse_config fn file m).
Proof.
  unfold parse_config. destruct file; [|apply framed_fatal].
  repeat (apply parse_lines_framed || framed_step).
Qed.
End Config.

(** ** The steps *)

Section Steps.
Context (o : os).

Definition socket_file (s : broker) : bytes := cstr (cfg_socket_path (config s)).

Ltac one_call H := apply or_fatal_errno_ret in H as [_ ->]; by apply calls_rel_call.

Lemma start_timer_ret s a s' :
  start_timer o s = (Ret a, s') → calls_rel s s' [EvTimerSet (timer_interval (config s))].
Proof. intros H. unfold start_timer in H. mrun in H. one_call H. Qed.

Lemma remove_stale_socket_ret s a s' :
  remove_stale_socket o s = (Ret a, s') →
  calls_rel s s' (if os_lstat_socket o then [EvUnlink (socket_file s)] else []) ∧
  (∀ st, os_lstat_socket o = Some st → S_ISSOCK (st_mode st) = true ∧
     ∃ err, os_probe_connect o = Some (ECONNREFUSED, err)).
Proof.
  unfold remove_stale_socket, fatal_errno, emit. mrun.
  destruct (os_lstat_socket o) as [st|]; [|intros [= _ <-]; split; [apply calls_rel_refl|done]].
  destruct (S_ISSOCK (st_mode st)) eqn:Es; [|by intros ?%fatal_error_ret]. cbn [negb].
  destruct (os_probe_socket o); [done|].
  destruct (os_probe_connect o) as [[e err]|]; [|by intros ?%fatal_error_ret].
  destruct (Z.eqb_spec e ECONNREFUSED) as [->|]; [|done]. cbn [negb].
  destruct (os_unlink o); [done|]. intros [= _ <-]. split; [|intros st' [= <-]; eauto].
  apply (calls_rel_trans s (add_event (EvUnlink (socket_file s)) s) _ [EvUnlink (socket_file s)] []).
  - by apply calls_rel_call.
  - by apply calls_rel_quiet.
Qed.

Definition socket_calls (path : bytes) (pw : passwd) : list event :=
  [EvBind path; EvListen; EvChmod path SOCKET_MODE] ++
  (if os_geteuid o =? 0 then [EvChown path (pw_uid pw) (pw_gid pw)] else []).

Lemma bind_socket_ret s a s' :
  bind_socket o s = (Ret a, s') → s' = add_event (EvBind (socket_file s)) s.
Proof.
  unfold bind_socket, emit. mrun. destruct (os_bind o) as [[e err]|]; [|by intros [= _ <-]].
  destruct (e =? EACCES); [|by intros ?%fatal_error_ret]. by destruct (negb (os_geteuid o =? 0)).
Qed.

Lemma open_socket_ret pw s a s' :
  open_socket o pw s = (Ret a, s') → calls_rel s s' (socket_calls (socket_file s) pw).
Proof.
  unfold open_socket, socket_calls. intros H.
  apply bind_ret_inv in H as ([] & s1 & H1 & H). apply bind_socket_ret in H1 as ->.
  apply bind_ret_inv in H as (? & s2 & H2 & H). apply or_fatal_errno_ret in H2 as [_ ->].
  apply bind_ret_inv in H as (? & s2 & H2 & H). injection H2 as <- <-.
  apply bind_ret_inv in H as (? & s3 & H3 & H). apply or_fatal_errno_ret in H3 as [_ ->].
  fold (socket_file s) in H. cbn [app].
  apply (calls_rel_trans s (add_event (EvBind (socket_file s)) s) _ [_]); [by apply calls_rel_call|].
  eapply (calls_rel_trans _ _ _ [_]); [by apply calls_rel_call|].
  eapply (calls_rel_trans _ _ _ [_]); [by apply calls_rel_call|].
  destruct (os_geteuid o =? 0).
  - one_call H.
  - injection H as _ <-. apply calls_rel_refl.
Qed.

Definition watchdog_calls_of (enabled : bool) (cfg : wd_config_t) : list event :=
  if enabled then [EvOpenWatchdog; EvSetTimeout (cfg_wd_timeout_s cfg)] else [].

Lemma open_watchdog_ret enabled s a s' :
  open_watchdog o enabled s = (Ret a, s') →
  calls_rel s s' (watchdog_calls_of enabled (config s)) ∧ (enabled = true → os_geteuid o = 0).
Proof.
  unfold open_watchdog, watchdog_calls_of. destruct enabled; intros H.
  2: { injection H as _ <-. split; [apply calls_rel_refl|done]. }
  destruct (Z.eqb_spec (os_geteuid o) 0); [|by apply fatal_error_ret in H]. cbn [negb] in H.
  apply bind_ret_inv in H as ([] & s1 & H1 & H). apply or_fatal_error_ret in H1 as [_ ->].
  apply bind_ret_inv in H as (? & s2 & H2 & H). injection H2 as _ <-.
  apply bind_ret_inv in H as (? & s2 & H2 & H). injection H2 as _ <-.
  apply bind_ret_inv in H as (? & s2 & H2 & H). injection H2 as <- <-.
  apply or_fatal_error_ret in H as [_ ->]. split; [|done].
  eapply (calls_rel_trans s _ _ [EvOpenWatchdog] [_]); [apply calls_rel_open|].
  match goal with |- calls_rel _ (add_event ?e (add_event ?l ?x)) _ =>
    apply (calls_rel_trans _ (add_event l x) _ [] [e]) end;
    [by apply calls_rel_quiet|by apply calls_rel_call].
Qed.

Definition privilege_calls (pw : passwd) : list event :=
  if os_geteuid o =? 0 then [EvSetgroups; EvSetgid (pw_gid pw); EvSetuid (pw_uid pw)] else [].

Lemma drop_privileges_ret pw s a s' :
  drop_privileges o pw s = (Ret a, s') → calls_rel s s' (privilege_calls pw).
Proof.
  unfold drop_privileges, privilege_calls. destruct (os_geteuid o =? 0); intros H.
  2: { injection H as _ <-. apply calls_rel_refl. }
  apply bind_ret_inv in H as (? & s1 & H1 & H). apply or_fatal_errno_ret in H1 as [_ ->].
  apply bind_ret_inv in H as (? & s1 & H1 & H). apply or_fatal_errno_ret in H1 as [_ ->].
  eapply (calls_rel_trans _ _ _ [_]); [by apply calls_rel_call|].
  eapply (calls_rel_trans _ _ _ [_]); [by apply calls_rel_call|]. one_call H.
Qed.

Definition daemon_calls (d : bool) (facility : Z) : list event :=
  if d then [EvFork; EvSetsid; EvChdir; EvUmask 0; EvCloseStdio; EvOpenlog facility] else [].

Lemma become_daemon_ret fac s a s' :
  become_daemon o fac s = (Ret a, s') → calls_rel s s' (daemon_calls (daemonize s) fac).
Proof.
  unfold become_daemon, daemon_calls. intros H.
  apply bind_ret_inv in H as (d & s0 & H1 & H). injection H1 as <- <-.
  destruct (daemonize s) eqn:Ed.
  2: { injection H as _ <-. apply calls_rel_refl. }
  destruct (os_fork o); [done|done|].
  apply bind_ret_inv in H as (? & s1 & H1 & H). injection H1 as _ <-.
  apply bind_ret_inv in H as (? & s1 & H1 & H). apply or_fatal_errno_ret in H1 as [_ ->].
  apply bind_ret_inv in H as (? & s1 & H1 & H). apply or_fatal_errno_ret in H1 as [_ ->].
  injection H as _ <-. do 5 (eapply (calls_rel_trans _ _ _ [_]); [by apply calls_rel_call|]).
  by apply calls_rel_call.
Qed.

(** Logging is no system call. *)
Lemma log_announced_ret cs s : ∃ s', log_announced cs s = (Ret tt, s') ∧ calls_rel s s' [].
Proof.
  revert s. induction cs as [|c cs IH]; intros s; cbn [log_announced].
  { exists s. split; [done|apply calls_rel_refl]. }
  destruct (cl_anounced c); [|exists s; split; [done|apply calls_rel_refl]].
  unfold log_message, emit. mrun.
  match goal with |- context [log_announced cs ?s1] =>
    destruct (IH s1) as (s' & -> & Hr); exists s'; split; [done|];
    apply (calls_rel_trans s s1 s' [] []); [|done] end.
  by apply calls_rel_quiet.
Qed.
End Steps.

(** ** Options *)

(** Options that return only choose settings and whether to daemonize. *)
Definition options_rel (s s' : broker) : Prop := ∃ d, s' = set_daemonize d s.

Lemma options_rel_refl s : options_rel s s.
Proof. exists (daemonize s). by destruct s. Qed.

Lemma options_rel_trans s1 s2 s3 : options_rel s1 s2 → options_rel s2 s3 → options_rel s1 s3.
Proof. intros [d1 ->] [d2 ->]. by exists d2. Qed.

Lemma parse_syslog_facility_ret str s f s' :
  parse_syslog_facility str s = (Ret f, s') → s' = s.
Proof. unfold parse_syslog_facility. repeat case_match; by intros [= _ <-] || done. Qed.

Lemma apply_option_ret dir op st s st' s' :
  apply_option dir op st s = (Ret st', s') → options_rel s s'.
Proof.
  unfold apply_option. destruct st as [wd fac user file]. destruct op as [c arg|]; [|done].
  repeat (match goal with |- context [if ?b then _ else _] => destruct b end);
    try done; intros H.
  - injection H as _ <-. apply options_rel_refl.
  - injection H as _ <-. by exists true.
  - injection H as _ <-. apply options_rel_refl.
  - apply bind_ret_inv in H as (f & s1 & H1 & H). injection H as _ <-.
    apply parse_syslog_facility_ret in H1 as ->. apply options_rel_refl.
  - injection H as _ <-. apply options_rel_refl.
Qed.

Lemma parse_options_ret dir argv s st s' :
  parse_options dir argv s = (Ret st, s') → options_rel s s'.
Proof.
  unfold parse_options. generalize (settings_default dir). generalize (fst (getopt_long short_options long_options argv)).
  intros ops. revert s. induction ops as [|op ops IH]; intros s st0 H; cbn [apply_options] in H.
  - injection H as _ <-. apply options_rel_refl.
  - apply bind_ret_inv in H as (st1 & s1 & H1 & H).
    eapply options_rel_trans; [by eapply apply_option_ret|by eapply IH].
Qed.

(** ** The whole sequence *)

Section Startup.
Context (ov ff e1 e2 pu cr po : Z) {E : Env} (SYSCONFDIR : bytes).

Lemma log_startup_ret o s :
  ∃ s', log_startup ov ff e1 e2 pu cr po o s = (Ret tt, s') ∧ calls_rel s s' [].
Proof.
  unfold log_startup, log_bootstatus, log_message, emit. mrun.
  match goal with |- context [log_announced] => idtac end.
  cbn [watchdog_fd add_event clients].
  assert (∀ s1, calls_rel s s1 [] → clients s1 = clients s →
    ∃ s', log_announced (clients s) s1 = (Ret tt, s') ∧ calls_rel s s' []) as Hl.
  { intros s1 H1 _. destruct (log_announced_ret (clients s) s1) as (s' & -> & H2).
    exists s'. split; [done|]. by apply (calls_rel_trans s s1 s' [] []). }
  assert (∀ s1 e, calls_rel s s1 [] → system_call e = false → calls_rel s (add_event e s1) []) as Ha.
  { intros s1 e H1 He. apply (calls_rel_trans s s1 _ [] []); [done|by apply calls_rel_quiet]. }
  destruct (watchdog_fd s); [destruct (os_bootstatus o)|];
    (apply Hl; [repeat apply Ha; try done; apply calls_rel_refl|done]).
Qed.

(** Everything the sequence asks of the system, in order. *)
Definition startup_calls (o : os) (st : settings) (pw : passwd) (s : broker) : list event :=
  [EvTimerSet (timer_interval (config s))] ++
  (if os_lstat_socket o then [EvUnlink (socket_file s)] else []) ++
  socket_calls o (socket_file s) pw ++
  watchdog_calls_of (watchdog_enabled st) (config s) ++
  privilege_calls o pw ++
  daemon_calls (daemonize s) (syslog_facility st).

Lemma startup_ret o argv s0 s :
  startup ov ff e1 e2 pu cr po SYSCONFDIR o argv s0 = (Ret tt, s) →
  ∃ st pw s1 s2 cst,
    parse_options SYSCONFDIR argv s0 = (Ret st, s1) ∧
    os_getpwnam o (service_user st) = Some pw ∧ pw_uid pw ≠ 0 ∧
    os_lstat_config o = inl cst ∧ safe_config_file cst pw ∧
    parse_config (config_file st) (os_config_file o) WD_MAX_CLIENTS s1 = (Ret tt, s2) ∧
    calls_rel s2 s (startup_calls o st pw s2) ∧
    (watchdog_enabled st = true → os_geteuid o = 0) ∧
    (∀ sst, os_lstat_socket o = Some sst → S_ISSOCK (st_mode sst) = true ∧
       ∃ err, os_probe_connect o = Some (ECONNREFUSED, err)).
Proof.
  unfold startup. intros H.
  apply bind_ret_inv in H as (st & s1 & Hopt & H).
  apply bind_ret_inv in H as (pw & s1' & Hpw & H).
  apply check_service_user_ret in Hpw as (-> & Hpw & Huid & _).
  apply bind_ret_inv in H as (? & s1' & Hcf & H).
  apply check_config_file_ret in Hcf as (-> & cst & Hcst & Hsafe).
  apply bind_ret_inv in H as ([] & s2 & Hcfg & H).
  apply bind_ret_inv in H as (? & s3 & H3 & H). apply start_timer_ret in H3.
  apply bind_ret_inv in H as (? & s4 & H4 & H). apply remove_stale_socket_ret in H4 as [H4 Hstale].
  apply bind_ret_inv in H as (? & s5 & H5 & H). apply open_socket_ret in H5.
  apply bind_ret_inv in H as (? & s6 & H6 & H). apply open_watchdog_ret in H6 as [H6 Hroot].
  apply bind_ret_inv in H as (? & s7 & H7 & H). apply drop_privileges_ret in H7.
  apply bind_ret_inv in H as (? & s8 & H8 & H). apply become_daemon_ret in H8.
  destruct (log_startup_ret o s8) as (s9 & H9 & H9r). rewrite H9 in H. injection H as <-.
  exists st, pw, s1, s2, cst. split_and!; try done.
  assert (socket_file s3 = socket_file s2 ∧ socket_file s4 = socket_file s2) as [E3 E4].
  { unfold socket_file. by rewrite (ca_config _ _ _ H4), (ca_config _ _ _ H3). }
  assert (config s5 = config s2) as E5
    by (by rewrite (ca_config _ _ _ H5), (ca_config _ _ _ H4), (ca_config _ _ _ H3)).
  assert (daemonize s7 = daemonize s2) as E7
    by (by rewrite (ca_daemonize _ _ _ H7), (ca_daemonize _ _ _ H6), (ca_daemonize _ _ _ H5),
          (ca_daemonize _ _ _ H4), (ca_daemonize _ _ _ H3)).
  rewrite E3 in H4. rewrite E4 in H5. rewrite E5 in H6. rewrite E7 in H8. unfold startup_calls.
  repeat (eapply calls_rel_trans; [eassumption|]).
  rewrite <-(app_nil_r (daemon_calls _ _)). by eapply calls_rel_trans.
Qed.
End Startup.

(** C23: when the startup sequence reaches the main loop, it has found a service user
    that is not root and a configuration file that is a regular file of that user
    without write permission for group or others; it has removed a socket file
    only if it was a socket nobody listened on; and the calls it made are exactly
    these, in this order: timer, stale socket, bind, listen, permissions, watchdog
    device, dropping groups, group and user, and only then the daemon. *)
Theorem startup_call_sequence `{Env} ov ff e1 e2 pu cr po dir o argv s0 s :
  startup ov ff e1 e2 pu cr po dir o argv s0 = (Ret tt, s) →
  ∃ st pw s1 s2 cst,
    parse_options dir argv s0 = (Ret st, s1) ∧
    parse_config (config_file st) (os_config_file o) WD_MAX_CLIENTS s1 = (Ret tt, s2) ∧
    os_getpwnam o (service_user st) = Some pw ∧ pw_uid pw ≠ 0 ∧
    os_lstat_config o = inl cst ∧ safe_config_file cst pw ∧
    (∀ sst, os_lstat_socket o = Some sst → S_ISSOCK (st_mode sst) = true ∧
       ∃ err, os_probe_connect o = Some (ECONNREFUSED, err)) ∧
    system_calls (trace s) = system_calls (trace s0) ++ startup_calls o st pw s2 ∧
    (watchdog_enabled st = true → os_geteuid o = 0).
Proof.
  intros Hs. destruct (startup_ret _ _ _ _ _ _ _ _ _ _ _ _ Hs)
    as (st & pw & s1 & s2 & cst & Ho & Hpw & Hu & Hc & Hsafe & Hcfg & Hr & Hroot & Hst).
  exists st, pw, s1, s2, cst. split_and!; try done.
  rewrite (ca_calls _ _ _ Hr). destruct (parse_options_ret _ _ _ _ _ Ho) as [d ->].
  destruct (parse_config_framed _ _ _ _ _ _ Hcfg) as (_ & _ & _ & ->). done.
Qed.


(** ** What the main loop starts from *)

(** The state in which the main loop begins. *)
Record loop_start (s : broker) : Prop := {
  ls_configured : ∃ n, configured n s;
  ls_running : running s = true;
  ls_all_ok : all_ok s = true;
  ls_reboot : reboot s = false;
}.

Lemma loop_start_table s : loop_start s → wf_table (clients s).
Proof. intros [(n & Hc & _) _ _ _]. apply (cs_table n s Hc). Qed.

Lemma configured_same n s s' :
  configured n s → clients s' = clients s → config s' = config s → configured n s'.
Proof.
  intros ([Ht Hc Hs Hn] & Hst & Hun) Ecl Ecfg. split.
  - constructor; rewrite ?Ecl, ?Ecfg; auto.
  - by rewrite Ecl, Ecfg.
Qed.

Lemma startup_loop_start `{Env} ov ff e1 e2 pu cr po dir o argv s :
  startup ov ff e1 e2 pu cr po dir o argv broker_init = (Ret tt, s) →
  loop_start s ∧
  ∃ st, watchdog_fd s = watchdog_enabled st ∧ (watchdog_enabled st = true → os_geteuid o = 0).
Proof.
  intros Hs. destruct (startup_ret _ _ _ _ _ _ _ _ _ _ _ _ Hs)
    as (st & pw & s1 & s2 & cst & Ho & _ & _ & _ & _ & Hcfg & Hr & Hroot & _).
  destruct (parse_options_ret _ _ _ _ _ Ho) as [d ->].
  pose proof (parse_config_spec (config_file st) (os_config_file o) (set_daemonize d broker_init)) as Ht.
  destruct (triple_elim _ _ _ _ _ Ht Hcfg) as [n Hn].
  destruct (parse_config_framed _ _ _ _ _ _ Hcfg) as ([F1 F2 F3] & _ & Hw & _).
  destruct Hr as [[G1 G2 G3] Hcl Hcf _ Hwd _ _].
  split.
  - constructor; [|by rewrite G1, F1|by rewrite G3, F3|by rewrite G2, F2].
    exists n. by eapply configured_same.
  - exists st. split; [|done]. rewrite Hwd, Hw. unfold startup_calls.
    cbn [watchdog_fd set_daemonize broker_init].
    destruct (os_lstat_socket o); unfold socket_calls, privilege_calls, daemon_calls, watchdog_calls_of;
      destruct (os_geteuid o =? 0), (watchdog_enabled st), (daemonize s2); reflexivity.
Qed.

(** The timer that paces the loop fires at least twice within the watchdog's own
    timeout, with an interval of at least 5 seconds, for every configuration that
    is accepted. *)
Theorem timer_fires_twice_per_timeout cfg :
  wf_config cfg →
  5 ≤ timer_interval cfg ∧ 2 * timer_interval cfg ≤ cfg_wd_timeout_s cfg < 2 * timer_interval cfg + 2.
Proof.
  intros [_ _ Hw _]. unfold WD_HW_TIMEOUT_MIN_S, WD_HW_TIMEOUT_DEFAULT_S, WD_HW_TIMEOUT_MAX_S in Hw.
  unfold timer_interval. rewrite Z.quot_div_nonneg by lia.
  pose proof (Z.div_mod (cfg_wd_timeout_s cfg) 2). pose proof (Z.mod_pos_bound (cfg_wd_timeout_s cfg) 2).
  lia.
Qed.

(** ** Failures *)

(** A part of the sequence that ends the process only with a proper status. *)
Definition tame {A} (m : B A) : Prop :=
  ∀ s, match m s with (Ret _, _) => True | (Exit c, _) => c = EXIT_SUCCESS ∨ c = EXIT_FAILURE | (Undef, _) => False end.

Lemma tame_ret {A} (a : A) : tame (mret a).
Proof. done. Qed.
Lemma tame_gets {A} (f : broker → A) : tame (gets f).
Proof. done. Qed.
Lemma tame_modify f : tame (modify f).
Proof. done. Qed.
Lemma tame_emit e : tame (emit e).
Proof. done. Qed.
Lemma tame_log p t : tame (log_message p t).
Proof. done. Qed.
Lemma tame_success {A} : tame (exit_with (A:=A) EXIT_SUCCESS).
Proof. by left. Qed.
Lemma tame_zero {A} : tame (exit_with (A:=A) 0).
Proof. by left. Qed.
Lemma tame_failure {A} : tame (exit_with (A:=A) EXIT_FAILURE).
Proof. by right. Qed.
Lemma tame_fatal {A} t : tame (fatal_error (A:=A) t).
Proof. intros s. by right. Qed.
Lemma tame_fatal_errno {A} c t : tame (fatal_errno (A:=A) c t).
Proof. intros s. by right. Qed.
Lemma tame_bind {A C} (m : B A) (f : A → B C) : tame m → (∀ a, tame (f a)) → tame (m ≫= f).
Proof.
  intros Hm Hf s. specialize (Hm s). rewrite bind_eq. destruct (m s) as [[a|c|] s']; [apply Hf|done|done].
Qed.
Lemma tame_triple {A} (m : B A) : (∀ s, triple s m (λ _ _, True)) → tame m.
Proof. intros H s. specialize (H s). unfold triple in H. destruct (m s) as [[a|c|] s']; naive_solver. Qed.

#[export] Hint Resolve tame_ret tame_gets tame_modify tame_emit tame_log tame_success tame_zero
  tame_failure tame_fatal tame_fatal_errno : tame.

Ltac tame_step :=
  match goal with
  | |- tame (if ?b then _ else _) => destruct b
  | |- tame (match ?x with _ => _ end) => destruct x
  | |- tame (_ ≫= _) => apply tame_bind; [|intros ?]
  | |- tame _ => solve [auto with tame]
  end.
Ltac tame := repeat tame_step.

Lemma tame_apply_option dir op st : tame (apply_option dir op st).
Proof. destruct st. unfold apply_option, print_help, parse_syslog_facility. tame. Qed.

Lemma tame_parse_options dir argv : tame (parse_options dir argv).
Proof.
  unfold parse_options. generalize (settings_default dir). induction (fst (getopt_long short_options long_options argv)) as [|op ops IH];
    intros st; cbn [apply_options]; [apply tame_ret|].
  apply tame_bind; [apply tame_apply_option|auto].
Qed.

Lemma tame_log_announced cs : tame (log_announced cs).
Proof. induction cs as [|c cs IH]; cbn [log_announced]; [apply tame_ret|]. tame. Qed.


(** ** The boot status *)

Definition flag_set (bootstatus : Z) (f : Z * bytes) : bool := negb (Z.land bootstatus f.1 =? 0).

Lemma boot_flags_concat bootstatus l flags :
  Forall (λ f, no_nul f.2) l → (length flags + length (concat (snd <$> l)) < FLAGS_LEN)%nat →
  boot_flags bootstatus l flags
  = flags ++ concat (snd <$> List.filter (flag_set bootstatus) l).
Proof.
  intros H. revert flags. induction H as [|[f name] l Hn _ IH]; intros flags Hl; cbn [boot_flags List.filter].
  { by rewrite app_nil_r. }
  unfold flag_set at 1. cbn [fst fmap list_fmap concat snd] in *. rewrite length_app in Hl.
  destruct (negb (Z.land bootstatus f =? 0)); [|apply IH; lia].
  unfold strncat. rewrite (cstr_no_nul name) by done. rewrite take_ge by lia.
  rewrite IH by (rewrite length_app; lia). cbn [fmap list_fmap concat snd]. by rewrite app_assoc.
Qed.

(** The names of all flags set in the boot status are logged in full, in table
    order, whatever the values of the kernel's flags are: the text of 128 bytes is
    never truncated. *)
Theorem bootstatus_not_truncated ov ff e1 e2 pu cr po bootstatus :
  boot_flags bootstatus (bootflags ov ff e1 e2 pu cr po) [] =
  concat (snd <$> List.filter (flag_set bootstatus) (bootflags ov ff e1 e2 pu cr po)).
Proof.
  apply (boot_flags_concat bootstatus _ []).
  - repeat constructor; discriminate.
  - cbn [bootflags fmap list_fmap concat snd length]. vm_compute. lia.
Qed.

(** ** When the startup succeeds *)

(** A system on which the calls of the startup sequence succeed, in the process that
    goes on after [fork]. *)
Record cooperative (o : os) : Prop := {
  co_settime : os_settime o = None;
  co_stale : ∀ sst, os_lstat_socket o = Some sst → S_ISSOCK (st_mode sst) = true ∧
    os_probe_socket o = None ∧ (∃ err, os_probe_connect o = Some (ECONNREFUSED, err)) ∧
    os_unlink o = None;
  co_socket : os_bind o = None ∧ os_listen o = None ∧ os_chmod o = None ∧ os_chown o = None;
  co_watchdog : os_open_watchdog o = None ∧ os_settimeout o = None;
  co_privileges : os_setgroups o = None ∧ os_setgid o = None ∧ os_setuid o = None;
  co_daemon : os_fork o = ForkChild ∧ os_setsid o = None ∧ os_chdir o = None;
}.

Definition valid_user (user : bytes) : Prop := (0 < strlen user ≤ LOGIN_NAME_MAX)%nat.

Section Cooperative.
Context (o : os) (Hco : cooperative o).

Lemma check_service_user_ok user pw s :
  valid_user user → os_getpwnam o user = Some pw → pw_uid pw ≠ 0 →
  check_service_user o user s = (Ret pw, s).
Proof.
  unfold valid_user, check_service_user. intros [H1 H2] -> Hu.
  rewrite (proj2 (Nat.eqb_neq _ _)) by lia. destruct (Nat.ltb_spec LOGIN_NAME_MAX (strlen user)); [lia|].
  by rewrite (proj2 (Z.eqb_neq _ _) Hu).
Qed.

Lemma check_config_file_ok file user pw cst s :
  os_lstat_config o = inl cst → safe_config_file cst pw →
  check_config_file o file user pw s = (Ret tt, s).
Proof.
  unfold check_config_file. intros -> (Hr & Ho & Hm). rewrite (symlink_test_unreachable _ Hr), Hr, Ho, Hm.
  by rewrite Z.eqb_refl.
Qed.

Lemma remove_stale_socket_ok s : ∃ s', remove_stale_socket o s = (Ret tt, s').
Proof.
  unfold remove_stale_socket. mrun. destruct (os_lstat_socket o) as [sst|] eqn:E; [|eauto].
  destruct (co_stale o Hco sst E) as (-> & -> & (err & ->) & ->). cbn [negb].
  rewrite Z.eqb_refl. unfold emit. mrun. eauto.
Qed.

Lemma open_socket_ok pw s : ∃ s', open_socket o pw s = (Ret tt, s').
Proof.
  destruct (co_socket o Hco) as (Hb & Hl & Hc & Hw).
  unfold open_socket, bind_socket, or_fatal_errno, emit. rewrite Hb, Hl, Hc, Hw. mrun.
  destruct (os_geteuid o =? 0); eauto.
Qed.

Lemma open_watchdog_ok b s :
  (b = true → os_geteuid o = 0) → ∃ s', open_watchdog o b s = (Ret tt, s').
Proof.
  intros Hr. destruct (co_watchdog o Hco) as [Hw Ht]. unfold open_watchdog. destruct b; [|eauto].
  rewrite Hr by done. unfold or_fatal_error, log_message, emit. rewrite Hw, Ht. cbn [Z.eqb negb].
  mrun. eauto.
Qed.

Lemma drop_privileges_ok pw s : ∃ s', drop_privileges o pw s = (Ret tt, s').
Proof.
  destruct (co_privileges o Hco) as (H1 & H2 & H3). unfold drop_privileges, or_fatal_errno, emit.
  rewrite H1, H2, H3. mrun. destruct (os_geteuid o =? 0); eauto.
Qed.

Lemma become_daemon_ok fac s : ∃ s', become_daemon o fac s = (Ret tt, s').
Proof.
  destruct (co_daemon o Hco) as (H1 & H2 & H3). unfold become_daemon, or_fatal_errno, emit.
  rewrite H1, H2, H3. mrun. destruct (daemonize s); eauto.
Qed.
End Cooperative.

(** C28: the startup sequence gets to the main loop whenever it should: with options
    that are accepted, an existing service user that is not root, a configuration
    file that is safe and valid, root if the watchdog is used, no active broker on
    the socket and a system whose calls succeed; and it gets there running, without
    a failure or a reboot request, with the table and the configuration it read. *)
Theorem startup_reaches_loop `{Env} ov ff e1 e2 pu cr po dir o argv st pw cst s1 s2 :
  cooperative o → parse_options dir argv broker_init = (Ret st, s1) →
  valid_user (service_user st) → os_getpwnam o (service_user st) = Some pw → pw_uid pw ≠ 0 →
  os_lstat_config o = inl cst → safe_config_file cst pw →
  parse_config (config_file st) (os_config_file o) WD_MAX_CLIENTS s1 = (Ret tt, s2) →
  (watchdog_enabled st = true → os_geteuid o = 0) →
  ∃ s, startup ov ff e1 e2 pu cr po dir o argv broker_init = (Ret tt, s) ∧ loop_start s.
Proof.
  intros Hco Hopt Huser Hpw Huid Hcst Hsafe Hcfg Hroot.
  assert (∃ s, startup ov ff e1 e2 pu cr po dir o argv broker_init = (Ret tt, s)) as [s Hs].
  { unfold startup. rewrite bind_eq, Hopt, bind_eq, (check_service_user_ok o _ pw) by done.
    rewrite bind_eq, (check_config_file_ok o _ _ pw cst) by done. rewrite bind_eq, Hcfg.
    assert (start_timer o s2 = (Ret tt, add_event (EvTimerSet (timer_interval (config s2))) s2)) as Ht
      by (unfold start_timer, or_fatal_errno, emit; by rewrite (co_settime o Hco)).
    rewrite bind_eq, Ht, bind_eq.
    edestruct (remove_stale_socket_ok o Hco) as [s4 ->]. rewrite bind_eq.
    edestruct (open_socket_ok o Hco pw) as [s5 ->]. rewrite bind_eq.
    edestruct (open_watchdog_ok o Hco _ s5 Hroot) as [s6 ->]. rewrite bind_eq.
    edestruct (drop_privileges_ok o Hco pw) as [s7 ->]. rewrite bind_eq.
    edestruct (become_daemon_ok o Hco (syslog_facility st)) as [s8 ->].
    destruct (log_startup_ret ov ff e1 e2 pu cr po o s8) as (s9 & Hl & _). eauto. }
  exists s. split; [done|]. by destruct (startup_loop_start _ _ _ _ _ _ _ _ _ _ _ Hs).
Qed.
