(* ===== verification/Main.v ===== *)
(** * The whole broker

    [main] of src/src/wd-broker.c: the startup sequence of Startup.v followed by
    the life of Daemon.v, and what holds of every run from the first
    instruction on. *)

From S2P Require Import Prelude CString Scanf Common World ClientId Registry Status Handlers.
From S2P Require Import Requests ConfigFile Daemon Timing Life Getopt Startup StartupFacts.

Section Main.
Context (ov ff e1 e2 pu cr po : Z) {E : Env} (SYSCONFDIR : bytes).

(** The states a run of the program can be in once the main loop is reached. *)
Definition main_reaches (o : os) (argv : list bytes) (d : phase * broker) : Prop :=
  ∃ s0, startup ov ff e1 e2 pu cr po SYSCONFDIR o argv broker_init = (Ret tt, s0) ∧
    dsteps (Looping, s0) d.

Definition disarming (e : event) : bool :=
  match e with EvMagicClose | EvDisableCard => true | _ => false end.

Lemma startup_calls_armed o st pw s : existsb disarming (startup_calls o st pw s) = false.
Proof.
  unfold startup_calls, socket_calls, watchdog_calls_of, privilege_calls, daemon_calls.
  rewrite !existsb_app. destruct (os_lstat_socket o), (os_geteuid o =? 0), (watchdog_enabled st),
    (daemonize s); reflexivity.
Qed.

(** The startup sequence never disarms the watchdog. *)
Lemma startup_armed o argv s0 e :
  startup ov ff e1 e2 pu cr po SYSCONFDIR o argv broker_init = (Ret tt, s0) →
  disarming e = true → e ∉ trace s0.
Proof.
  intros Hs He Hin.
  destruct (startup_ret _ _ _ _ _ _ _ _ _ _ _ _ Hs)
    as (st & pw & s1 & s2 & cst & Ho & _ & _ & _ & _ & Hcfg & Hr & _).
  destruct (parse_options_ret _ _ _ _ _ Ho) as [d ->].
  destruct (parse_config_framed _ _ _ _ _ _ Hcfg) as (_ & _ & _ & Ht).
  pose proof (ca_calls _ _ _ Hr) as Hc. rewrite Ht in Hc. cbn in Hc.
  assert (e ∈ system_calls (trace s0)) as Hsc.
  { apply list_elem_of_In, List.filter_In. split; [by apply list_elem_of_In|by destruct e]. }
  rewrite Hc in Hsc. pose proof (startup_calls_armed o st pw s2) as Ha.
  apply not_true_iff_false in Ha. apply Ha, existsb_exists. exists e.
  split; [by apply list_elem_of_In|done].
Qed.
End Main.

(** C4: in every state a run of the broker reaches after its startup, the client table
    is well formed and the configuration is the one that was read, with every
    value in its range; and the watchdog has been disarmed, at any time since the
    program started, only if the process has ended after a termination signal and
    no reboot had been requested. *)
Theorem main_safety `{Env} ov ff e1 e2 pu cr po dir o argv ph s :
  main_reaches ov ff e1 e2 pu cr po dir o argv (ph, s) →
  wf_table (clients s) ∧ wf_config (config s) ∧
  (EvMagicClose ∈ trace s ∨ EvDisableCard ∈ trace s →
   (∃ st, ph = Ended st) ∧ reboot s = false ∧ ∃ sig, signal_event sig ∈ trace s).
Proof.
  intros (s0 & Hs & Hd).
  destruct (startup_loop_start _ _ _ _ _ _ _ _ _ _ _ Hs) as [Hls _].
  pose proof (loop_start_table s0 Hls) as Hw. destruct Hls as [(n & Hcfg & _) Hrun _ _].
  destruct (dsteps_invariant (alive s0) (alive_step s0) Looping s0 ph s (alive_start s0 Hrun Hw) Hd)
    as (es & [Ht Hc Hw' Hst Hdis]).
  split; [done|]. split; [rewrite Hc; apply Hcfg|]. rewrite Ht, !elem_of_app. intros Hin.
  assert (∃ e, disarming e = true ∧ (e = EvMagicClose ∨ e = EvDisableCard) ∧ e ∈ es) as (e & He & Hor & Hes).
  { destruct Hin as [[Hin|Hin]|[Hin|Hin]].
    - exfalso. exact (startup_armed _ _ _ _ _ _ _ _ _ _ _ EvMagicClose Hs eq_refl Hin).
    - by exists EvMagicClose; auto.
    - exfalso. exact (startup_armed _ _ _ _ _ _ _ _ _ _ _ EvDisableCard Hs eq_refl Hin).
    - by exists EvDisableCard; auto. }
  apply watchdog_calls_in in Hes; [|by destruct Hor as [-> | ->]].
  destruct (Hdis e Hor Hes) as (Hph & Hr & Hb). split; [done|]. split; [done|].
  destruct (Hst Hr) as [|[sig Hsig]]; [congruence|]. exists sig. apply elem_of_app. by right.
Qed.
