(* ===== verification/Runs.v ===== *)
(** * Whole runs of the broker

    What any sequence of rounds, signals and requests does to the client table:
    every step of the daemon's life leaves the table alone or serves one
    connection, so that what holds of single requests holds of whole runs. *)

From S2P Require Import Prelude CString Scanf Common World ClientId Registry Identifiers Status.
From S2P Require Import Handlers Requests ConfigFile Daemon Timing Life Spec Getopt Startup StartupFacts Main.

(** ** What a step does to the table *)

(** Nothing that the clients could see. *)
Record same_table (s s' : broker) : Prop := {
  st_clients : clients s' = clients s;
  st_id_ix : id_ix s' = id_ix s;
  st_config : config s' = config s;
  st_replies : replies (trace s') = replies (trace s);
}.

#[export] Instance same_table_preorder : PreOrder same_table.
Proof. split; [by constructor|]. intros s1 s2 s3 [] []. constructor; congruence. Qed.

Lemma same_table_events s s' es :
  clients s' = clients s → id_ix s' = id_ix s → config s' = config s →
  trace s' = trace s ++ es → replies es = [] → same_table s s'.
Proof. intros ? ? ? Ht Hr. constructor; try done. by rewrite Ht, replies_app, Hr, app_nil_r. Qed.

(** An event that is no answer. *)
Definition silent (e : event) : bool := match e with EvReply _ => false | _ => true end.

Lemma same_table_event s e : silent e = true → same_table s (add_event e s).
Proof. intros He. apply (same_table_events s _ [e]); try done. by destruct e. Qed.

Section Steps.
Context {E : Env}.

(** The table is left alone, or one connection is served. *)
Inductive table_step (s s' : broker) : Prop :=
  | TS_idle : same_table s s' → table_step s s'
  | TS_request sock s1 s2 :
      same_table s s1 → handle_command sock s1 = (Ret tt, s2) → same_table s2 s' →
      table_step s s'.

Lemma table_step_after s s1 s2 : table_step s s1 → same_table s1 s2 → table_step s s2.
Proof.
  intros [H|sock s0 s3 H0 H1 H2] H3; [apply TS_idle; by transitivity s1|].
  apply (TS_request s s2 sock s0 s3); [done|done|by transitivity s1].
Qed.

Lemma serve_table server s o s1 :
  wf_table (clients s) → serve server s = (o, s1) → table_step s s1.
Proof.
  intros Hw. destruct server as [[c|errno text]|]; unfold serve.
  - unfold emit. mrun. set (s0 := add_event EvAccept s).
    assert (same_table s s0) as H0 by by apply same_table_event.
    destruct (handle_command c s0) as [[[]|x|] s2] eqn:Hh.
    + intros [= _ <-]. apply (TS_request s _ c s0 s2); [done|done|by apply same_table_event].
    + exfalso. destruct (conn_peer c) as [creds|err] eqn:Hp.
      * destruct (handle_command_outcome c creds s0 Hw Hp) as [He|(? & ? & He & _)]; congruence.
      * destruct (handle_command_no_peer c err s0 Hp) as (? & He & _). congruence.
    + intros [= _ <-]. apply TS_idle. enough (s2 = s0) as -> by done.
      destruct (conn_peer c) as [creds|err] eqn:Hp.
      * destruct (handle_command_outcome c creds s0 Hw Hp) as [He|(? & ? & He & _)]; congruence.
      * destruct (handle_command_no_peer c err s0 Hp) as (? & He & _). congruence.
  - destruct (accept_transient errno).
    + intros [= _ <-]. by apply TS_idle.
    + unfold log_message, emit. mrun. intros [= _ <-]. apply TS_idle.
      by apply (same_table_events s _ [EvLog LOG_ERR (printf "accept: %s" [PS text])]).
  - intros [= _ <-]. by apply TS_idle.
Qed.

Lemma feed_table timer err s o s' : feed timer err s = (o, s') → same_table s s'.
Proof.
  intros Hf. destruct (feed_spec timer err s) as [(b & He & _)|(t & He & _)];
    rewrite He in Hf; injection Hf as _ <-.
  - destruct b; [by apply same_table_event|done].
  - by apply same_table_event.
Qed.

Lemma iteration_table w s o s' :
  wf_table (clients s) → iteration w s = (o, s') → table_step s s'.
Proof.
  intros Hw. destruct w as [[errno text|server timer] err]; unfold iteration; cbn [wk_select wk_feed].
  { destruct (negb (errno =? EINTR)); [|intros [= _ <-]; by apply TS_idle].
    unfold log_message, emit. mrun. intros [= _ <-]. apply TS_idle.
    by apply (same_table_events s _ [EvLog LOG_CRIT (printf "select: %s" [PS text])]). }
  rewrite bind_eq. destruct (serve server s) as [o1 s1] eqn:Hs.
  pose proof (serve_table server s o1 s1 Hw Hs) as Ht.
  destruct o1 as [[]|x|]; [|by intros [= _ <-]|by intros [= _ <-]].
  destruct (check_clients_spec s1)
    as (s2 & es & Hc & Hl & H1 & H2 & _ & _ & _ & _ & H3 & _ & H4 & _).
  rewrite bind_eq, Hc. intros Hf. apply (table_step_after s s1); [done|].
  transitivity s2; [|by eapply feed_table].
  by apply (same_table_events s1 s2 es); try done; apply replies_log_only.
Qed.

(** Every step of the daemon's life. *)
Lemma dstep_table ph s ph' s' :
  wf_table (clients s) → dstep (ph, s) (ph', s') → table_step s s'.
Proof.
  intros Hw Hs. step_cases Hs.
  - by eapply iteration_table.
  - apply TS_idle. by eapply same_table_events.
  - apply TS_idle. by apply same_table_event.
  - apply TS_idle. destruct Hrel. by eapply same_table_events.
  - apply TS_idle. destruct Hrel. by eapply same_table_events.
  - apply TS_idle. by apply (same_table_events s _ [signal_event sig]).
Qed.

(** A property of the table that every request preserves holds during the whole
    run, together with what every run guarantees. *)
Definition tabled (s0 s : broker) : Prop :=
  wf_table (clients s) ∧ config s = config s0 ∧ drawn s.

Lemma request_config_wf sock s s' :
  wf_table (clients s) → handle_command sock s = (Ret tt, s') →
  wf_table (clients s') ∧ config s' = config s ∧ (drawn s → drawn s') ∧ (id_ix s ≤ id_ix s')%nat ∧
  (clients s' = clients s ∨ ∃ creds, request_effect creds s (clients s')).
Proof.
  intros Hw Hh. destruct (conn_peer sock) as [creds|err] eqn:Hp.
  - destruct (handle_command_outcome sock creds s Hw Hp) as [Hu|(s1 & es & He & Ho)]; [congruence|].
    assert (s1 = s') as -> by congruence. destruct Ho.
    split; [by eapply request_effect_wf|]. split_and!; try done. right. by exists creds.
  - destruct (handle_command_no_peer sock err s Hp) as (es & He & _).
    rewrite He in Hh. injection Hh as <-. split_and!; try done. by left.
Qed.

Lemma table_step_keeps s s' :
  wf_table (clients s) → table_step s s' → wf_table (clients s') ∧ (id_ix s ≤ id_ix s')%nat.
Proof.
  intros Hw [Hst|sock s1 s2 H1 H2 H3]; [by rewrite (st_clients _ _ Hst), (st_id_ix _ _ Hst)|].
  destruct (request_config_wf sock s1 s2) as (Hw2 & _ & _ & Hle & _); [by rewrite (st_clients _ _ H1)|done|].
  by rewrite (st_clients _ _ H3), (st_id_ix _ _ H3), <-(st_id_ix _ _ H1).
Qed.

Lemma drawn_same_table s s' : same_table s s' → drawn s → drawn s'.
Proof. intros [Hc Hi _ _]. apply drawn_kept. apply ids_kept_same; [done|lia]. Qed.

Lemma run_invariant (P : broker → Prop) s0 ph s ph' s' :
  (∀ s1 s2, tabled s0 s1 → P s1 → same_table s1 s2 → P s2) →
  (∀ sock s1 s2, tabled s0 s1 → P s1 → handle_command sock s1 = (Ret tt, s2) → P s2) →
  tabled s0 s → P s → dsteps (ph, s) (ph', s') → tabled s0 s' ∧ P s'.
Proof.
  intros Hsame Hreq Ht HP Hs.
  apply (dsteps_invariant (λ _ s, tabled s0 s ∧ P s)) with ph s ph'; [|done|done].
  clear ph s ph' s' Ht HP Hs. intros ph s ph' s' [Ht HP] Hs. pose proof Ht as (Hw & Hc & Hd).
  assert (∀ s1 s2, same_table s1 s2 → tabled s0 s1 → tabled s0 s2) as Hts.
  { intros s1 s2 H (H1 & H2 & H3). split_and!; [|destruct H; congruence|by eapply drawn_same_table].
    by rewrite (st_clients _ _ H). }
  destruct (dstep_table _ _ _ _ Hw Hs) as [Hst|sock s1 s2 H1 H2 H3].
  { split; [by eapply Hts|exact (Hsame s s' Ht HP Hst)]. }
  pose proof (Hts _ _ H1 Ht) as Ht1. pose proof Ht1 as (Hw1 & Hc1 & Hd1).
  destruct (request_config_wf sock s1 s2 Hw1 H2) as (Hw2 & Hc2 & Hd2 & _).
  assert (tabled s0 s2) as Ht2 by (split_and!; [done|congruence|auto]).
  split; [by eapply Hts|]. eapply Hsame; [exact Ht2| |exact H3]. eapply Hreq; [exact Ht1| |exact H2].
  exact (Hsame s s1 Ht HP H1).
Qed.
End Steps.

(** ** Names *)

(** No two live slots have one name. *)
Definition names_distinct (cs : list client_t) : Prop :=
  ∀ i j c d, cs !! i = Some c → cs !! j = Some d → live c = true → live d = true →
    cstr (cl_name c) = cstr (cl_name d) → i = j.

(** A slot whose name and liveness are those of the old one changes nothing here. *)
Lemma names_distinct_keep cs i c c' :
  names_distinct cs → cs !! i = Some c →
  (live c' = true → live c = true ∧ cstr (cl_name c') = cstr (cl_name c)) →
  names_distinct (<[i := c']> cs).
Proof.
  intros Hn Hc Hk j k x y Hj Hk' Hx Hy Heq.
  apply list_lookup_insert_Some in Hj as [(<- & <- & _)|[Hij Hj]];
    apply list_lookup_insert_Some in Hk' as [(<- & <- & _)|[Hik Hk']]; [done| | |by eapply Hn].
  - destruct (Hk Hx) as [Hl He]. eapply Hn; eauto. congruence.
  - destruct (Hk Hy) as [Hl He]. eapply Hn; eauto. congruence.
Qed.

Lemma names_distinct_new cs i c' :
  names_distinct cs →
  (∀ j d, j ≠ i → cs !! j = Some d → live d = true → cstr (cl_name d) ≠ cstr (cl_name c')) →
  names_distinct (<[i := c']> cs).
Proof.
  intros Hn Hnew j k x y Hj Hk Hx Hy Heq.
  apply list_lookup_insert_Some in Hj as [(<- & <- & _)|[Hij Hj]];
    apply list_lookup_insert_Some in Hk as [(<- & <- & _)|[Hik Hk]]; [done| | |by eapply Hn].
  - exfalso. eapply Hnew; eauto.
  - exfalso. eapply Hnew; eauto.
Qed.

Lemma registered_name name pid chk t now id :
  good_name name → cstr (cl_name (registered name pid chk t now id)) = name.
Proof.
  intros Hn. pose proof (good_name_no_nul name Hn) as Hnn. destruct Hn as (_ & Hl & _).
  cbn. rewrite cstr_strncpy; [by apply cstr_no_nul|]. unfold strlen. by rewrite cstr_no_nul.
Qed.

(** The slot the naming rules give away is the only live one of that name, when
    names are unique: announced under it, or free while nobody bears it. *)
Lemma slot_spec_names cfg cs name i :
  wf_table cs → cfg_unique_clients cfg = true → names_distinct cs → good_name name →
  slot_spec cfg cs name = Some i →
  ∀ j d, j ≠ i → cs !! j = Some d → live d = true → cstr (cl_name d) ≠ name.
Proof.
  intros Hw Hu Hn Hg Hs j d Hj Hd Hl Heq. pose proof (good_name_no_nul name Hg) as Hnn.
  assert (named name d = true) as Hnm by (unfold named; apply strcmp_eq_spec; by rewrite (cstr_no_nul name)).
  pose proof (wf_excl d (wf_table_lookup cs j d Hw Hd)) as Hex.
  unfold slot_spec in Hs. rewrite Hu in Hs. cbn [andb] in Hs.
  destruct (existsb (active_named name) cs) eqn:Ea; [done|].
  destruct (cl_active d) eqn:Hact.
  { apply not_true_iff_false in Ea. apply Ea, existsb_exists. exists d.
    split; [by apply list_elem_of_In, list_elem_of_lookup_2 with j|]. unfold active_named. by rewrite Hact. }
  assert (announced_for name d = true) as Han.
  { unfold announced_for, live in *. rewrite Hact in *. cbn in Hl. by rewrite Hl, Hnm. }
  destruct (find_index (announced_for name) cs) as [k|] eqn:Ek.
  - injection Hs as ->. apply find_index_Some in Ek as (c & Hc & Hac & _). apply Hj. symmetry.
    pose proof (live_announced name c Hac) as Hcl.
    unfold announced_for in Hac. apply andb_true_iff in Hac as [_ Hcn].
    apply strcmp_eq_spec in Hcn. rewrite (cstr_no_nul name) in Hcn by done.
    eapply Hn; eauto. congruence.
  - rewrite find_index_None in Ek. pose proof (Forall_lookup_1 _ _ _ _ Ek Hd) as Hf. cbn in Hf. congruence.
Qed.

Section Names.
Context {E : Env}.

Lemma request_names creds s cs' :
  wf_table (clients s) → cfg_unique_clients (config s) = true → names_distinct (clients s) →
  request_effect creds s cs' → names_distinct cs'.
Proof.
  intros Hw Hu Hn [|i c name t chk Hs Hc Hg Ht|i c Hc Hl|i c Hc Hl]; [done|..].
  - apply names_distinct_new; [done|]. rewrite registered_name by done. by eapply slot_spec_names.
  - eapply names_distinct_keep; [done|exact Hc|done].
  - eapply names_distinct_keep; [done|exact Hc|done].
Qed.

(** A run in which names stay distinct: every request keeps them so. *)
Lemma run_names s0 ph s :
  tabled s0 s0 → cfg_unique_clients (config s0) = true → names_distinct (clients s0) →
  dsteps (Looping, s0) (ph, s) → tabled s0 s ∧ names_distinct (clients s).
Proof.
  intros Ht Hu Hn Hs.
  apply (run_invariant (λ s, names_distinct (clients s)) s0 Looping s0 ph s); [| |done|done|done].
  - intros s1 s2 _ H1 H2. by rewrite (st_clients _ _ H2).
  - intros sock s1 s2 (Hw & Hc & _) H1 H2.
    destruct (request_config_wf sock s1 s2 Hw H2) as (_ & _ & _ & _ & [->|[creds He]]); [done|].
    eapply request_names; [exact Hw|by rewrite Hc|done|exact He].
Qed.

Lemma configured_names n s :
  configured n s → cfg_unique_clients (config s) = true → names_distinct (clients s).
Proof.
  intros ([_ _ Hs _] & _ & Hun) Hu i j c d Hi Hj Hc Hd Heq.
  destruct (Hs i c Hi) as (Hac & _), (Hs j d Hj) as (Had & _).
  unfold live in *. rewrite Hac in Hc. rewrite Had in Hd. by eapply (Hun Hu i j c d).
Qed.

(** ** Strictness *)

(** [c] still is the client slot [i] was announced for. *)
Definition announced_in (s0 : broker) (i : nat) (c : client_t) : Prop :=
  ∃ c0, clients s0 !! i = Some c0 ∧ cl_anounced c0 = true ∧
    cl_clientID c = cl_clientID c0 ∧ cstr (cl_name c) = cstr (cl_name c0).

Definition only_announced (s0 s : broker) : Prop :=
  ∀ i c, clients s !! i = Some c → live c = true → announced_in s0 i c.

Lemma request_announced s0 creds s cs' :
  cfg_strict_clients (config s) = true → only_announced s0 s → request_effect creds s cs' →
  ∀ i c, cs' !! i = Some c → live c = true → announced_in s0 i c.
Proof.
  intros Hst Ho [|i c name t chk Hs Hc Hg Ht|i c Hc Hl|i c Hc Hl]; [done|..]; intros j d Hj Hdl;
    (apply list_lookup_insert_Some in Hj as [(<- & <- & _)|[_ Hj]]; [|by eapply Ho]).
  - destruct (slot_spec_cases _ _ _ _ Hs) as (c1 & Hc1 & [Ha|[_ Hns]]); [|congruence].
    assert (c1 = c) as -> by congruence.
    destruct (Ho i c Hc (live_announced name c Ha)) as (c0 & H0 & H1 & H2 & H3).
    unfold announced_for in Ha. apply andb_true_iff in Ha as [Ha Hnm]. apply andb_true_iff in Ha as [Ha _].
    exists c0. split; [done|]. split; [done|]. rewrite registered_name by done. split.
    + unfold registration_clientID. by rewrite Ha.
    + apply strcmp_eq_spec in Hnm. rewrite (cstr_no_nul name) in Hnm by auto with wd. congruence.
  - exact (Ho i c Hc Hl).
  - done.
Qed.

Lemma run_announced s0 ph s :
  tabled s0 s0 → cfg_strict_clients (config s0) = true → only_announced s0 s0 →
  dsteps (Looping, s0) (ph, s) → only_announced s0 s.
Proof.
  intros Ht Hst Ho Hs.
  apply (run_invariant (only_announced s0) s0 Looping s0 ph s); [| |done|done|done].
  - intros s1 s2 _ H1 H2. unfold only_announced. by rewrite (st_clients _ _ H2).
  - intros sock s1 s2 (Hw & Hc & _) H1 H2.
    destruct (request_config_wf sock s1 s2 Hw H2) as (_ & _ & _ & _ & [He|[creds He]]).
    + unfold only_announced. by rewrite He.
    + intros i c. eapply request_announced; [|exact H1|exact He]. by rewrite Hc.
Qed.

Lemma configured_announced n s : configured n s → only_announced s s.
Proof.
  intros ([_ _ Hs _] & _) i c Hi Hl. exists c. split; [done|]. split; [|done].
  destruct (Hs i c Hi) as (Ha & _). unfold live in Hl. by rewrite Ha in Hl.
Qed.
End Names.

(** ** The identifiers of announced clients *)

(** Every return of [m] keeps [P]. *)
Definition keeps {A} (P : broker → Prop) (m : B A) : Prop :=
  ∀ s a s', P s → m s = (Ret a, s') → P s'.

Section Keeps.
Context (P : broker → Prop).

Lemma keeps_ret {A} (a : A) : keeps P (mret a).
Proof. intros s b s' H [= _ <-]. done. Qed.
Lemma keeps_gets {A} (f : broker → A) : keeps P (gets f).
Proof. intros s b s' H [= _ <-]. done. Qed.
Lemma keeps_fatal {A} t : keeps (A:=A) P (fatal_error t).
Proof. by intros s b s'. Qed.
Lemma keeps_modify f : (∀ s, P s → P (f s)) → keeps P (modify f).
Proof. intros Hf s b s' H [= _ <-]. auto. Qed.
Lemma keeps_bind {A C} (m : B A) (f : A → B C) :
  keeps P m → (∀ a, keeps P (f a)) → keeps P (m ≫= f).
Proof.
  intros Hm Hf s b s' H He. apply bind_ret_inv in He as (a & s1 & H1 & H2).
  eapply Hf; [|exact H2]. by eapply Hm.
Qed.
End Keeps.

#[export] Hint Resolve keeps_ret keeps_gets keeps_fatal : keeps.

Ltac keeps_step :=
  match goal with
  | |- keeps _ (if ?b then _ else _) => destruct b
  | |- keeps _ (match ?x with _ => _ end) => destruct x
  | |- keeps _ (_ ≫= _) => apply keeps_bind; [|intros ?]
  | |- keeps _ _ => solve [auto with keeps]
  end.

Section Draws.
Context {E : Env}.

Lemma drawn_same s s' : clients s' = clients s → (id_ix s ≤ id_ix s')%nat → drawn s → drawn s'.
Proof. intros. eapply drawn_kept; [by apply ids_kept_same|done]. Qed.

Lemma keeps_drawn_config f : keeps drawn (modify_config f).
Proof. apply keeps_modify. intros s. by apply drawn_same. Qed.

Lemma keeps_drawn_timeout i t : keeps drawn (modify (alter_client i (set_timeout_ms t))).
Proof. apply keeps_modify. intros s. apply drawn_kept. by eapply ids_kept_alter. Qed.

Lemma parse_option_drawn k v i ln : keeps drawn (parse_option k v i ln).
Proof.
  unfold parse_option.
  repeat (apply keeps_drawn_config || apply keeps_drawn_timeout || keeps_step).
Qed.

Lemma parse_client_section_drawn fn tr name i ln m :
  keeps drawn (parse_client_section fn tr name i ln m).
Proof.
  unfold parse_client_section. repeat (case_match; [apply keeps_fatal|]).
  intros s a s' Hd. unfold make_clientID, get_now. mrun. intros [= _ <-].
  by eapply (drawn_new_alter s).
Qed.

Lemma parse_lines_drawn fn ls i ln m : keeps drawn (parse_lines fn ls i ln m).
Proof.
  revert i ln. induction ls as [|l ls IH]; intros i ln; cbn [parse_lines]; [apply keeps_ret|].
  apply keeps_bind; [|auto]. unfold parse_line.
  repeat (apply parse_option_drawn || apply parse_client_section_drawn || keeps_step).
Qed.

Lemma drawn_empty s n : clients s = replicate n client_zero → drawn s.
Proof. intros Hc. exists id. intros i c Hi. rewrite Hc in Hi. by apply lookup_replicate in Hi as [-> _]. Qed.

(** Whatever was in the table before, [parse_config] leaves drawn identifiers. *)
Lemma parse_config_drawn fn file m s s' :
  parse_config fn file m s = (Ret tt, s') → drawn s'.
Proof.
  destruct file as [content|]; [|done]. unfold parse_config. intros H.
  apply bind_ret_inv in H as (? & s1 & [= _ <-] & H).
  apply bind_ret_inv in H as (? & s2 & [= _ <-] & H).
  assert (drawn (set_config config_defaults (set_clients (replicate m client_zero) s))) as H0
    by by eapply drawn_empty.
  eapply keeps_bind; [apply parse_lines_drawn| |exact H0|exact H].
  intros idx. cbv beta. repeat keeps_step.
Qed.

(** ** From the start of the program *)

(** The state in which the main loop begins satisfies what runs preserve. *)
Lemma startup_tabled ov ff e1 e2 pu cr po dir o argv s :
  startup ov ff e1 e2 pu cr po dir o argv broker_init = (Ret tt, s) →
  tabled s s ∧ ∃ n, configured n s.
Proof.
  intros Hs. destruct (startup_loop_start _ _ _ _ _ _ _ _ _ _ _ Hs) as [Hls _].
  split; [|apply Hls]. split; [by apply loop_start_table|]. split; [done|].
  destruct (startup_ret _ _ _ _ _ _ _ _ _ _ _ _ Hs)
    as (st & pw & s1 & s2 & cst & _ & _ & _ & _ & _ & Hcfg & Hr & _).
  apply (drawn_same s2 s); [apply Hr| |by eapply parse_config_drawn].
  by rewrite (ca_id_ix _ _ _ Hr).
Qed.
End Draws.

(** C16: with unique client names no two clients, announced or registered, ever bear
    one name: in every state a run of the broker reaches, whatever was requested,
    two live slots with the same name are the same slot. *)
Theorem unique_names_in_every_state `{Env} ov ff e1 e2 pu cr po dir o argv ph s :
  main_reaches ov ff e1 e2 pu cr po dir o argv (ph, s) → cfg_unique_clients (config s) = true →
  ∀ i j c d, clients s !! i = Some c → clients s !! j = Some d → live c = true → live d = true →
    cstr (cl_name c) = cstr (cl_name d) → i = j.
Proof.
  intros (s0 & Hs & Hd) Hu. destruct (startup_tabled _ _ _ _ _ _ _ _ _ _ _ Hs) as [Ht [n Hn]].
  assert (config s = config s0) as Hc.
  { destruct (run_invariant (λ _, True) s0 Looping s0 ph s) as [(_ & ? & _) _]; done. }
  rewrite Hc in Hu. exact (proj2 (run_names s0 ph s Ht Hu (configured_names n s0 Hn Hu) Hd)).
Qed.

(** C17: with strict clients only the clients of the configuration file can ever be
    in the table: in every state a run reaches, every live slot was announced when
    the main loop began, in the same slot, under the same name and with the same
    identifier. *)
Theorem strict_clients_only_announced `{Env} ov ff e1 e2 pu cr po dir o argv s0 ph s :
  startup ov ff e1 e2 pu cr po dir o argv broker_init = (Ret tt, s0) →
  dsteps (Looping, s0) (ph, s) → cfg_strict_clients (config s0) = true →
  ∀ i c, clients s !! i = Some c → live c = true →
    ∃ c0, clients s0 !! i = Some c0 ∧ cl_anounced c0 = true ∧
      cl_clientID c = cl_clientID c0 ∧ cstr (cl_name c) = cstr (cl_name c0).
Proof.
  intros Hs Hd Hst. destruct (startup_tabled _ _ _ _ _ _ _ _ _ _ _ Hs) as [Ht [n Hn]].
  exact (run_announced s0 ph s Ht Hst (configured_announced n s0 Hn) Hd).
Qed.

(** ** Runs of the specification *)

(** A sequence of requests with their answers. *)
Inductive spec_run (cfg : wd_config_t) (reg : registry) : list (request * bytes) → registry → Prop :=
  | spec_run_nil : spec_run cfg reg [] reg
  | spec_run_snoc evs reg1 creds now fresh req reply reg2 :
      spec_run cfg reg evs reg1 → spec_step cfg creds now fresh reg1 req reply reg2 →
      spec_run cfg reg (evs ++ [(req, reply)]) reg2.

Section Simulation.
Context {E : Env}.

(** Any connection, a peer that cannot be identified and a request that cannot be
    read included, is a step of the specification. *)
Lemma handle_command_refines sock s s' :
  wf_table (clients s) → ids_unique (clients s) → abs (clients s) !! next_id s = None →
  handle_command sock s = (Ret tt, s') →
  ∃ creds req reply es,
    spec_step (config s) creds (env_now (now_ix s)) (next_id s) (abs (clients s)) req reply
      (abs (clients s')) ∧
    trace s' = trace s ++ es ∧ replies es = answer_of sock reply.
Proof.
  intros Hw Hu Hf Hh. destruct (conn_peer sock) as [creds|err] eqn:Hp.
  - exists creds. unfold handle_command in Hh. rewrite Hp in Hh.
    destruct (read_with_timeout _ _ _ _) as [len buf]. destruct (len <=? 0).
    + rewrite write_str_eq in Hh. injection Hh as <-.
      eexists (ReqBad _), _, [_]. split; [apply spec_bad|]. split; [done|].
      apply (replies_one sock _ [] []); constructor.
    + destruct (dispatch_implements sock creds buf s s' Hw Hu Hf Hh) as (reply & es & Hs & Ht & Ha & _).
      by exists (decode buf), reply, es.
  - destruct (handle_command_no_peer sock err s Hp) as (es & He & [_ [t Ht]]).
    rewrite He in Hh. injection Hh as <-. exists (Ucred 0 0 0), (ReqBad t), t, es.
    split; [apply spec_bad|done].
Qed.

(** What the clients have seen since [s0] is a run of the specification. *)
Definition simulated (s0 s : broker) : Prop :=
  ∃ evs ans, spec_run (config s0) (abs (clients s0)) evs (abs (clients s)) ∧
    replies (trace s) = replies (trace s0) ++ ans ∧ ans `sublist_of` evs.*2.

Lemma simulated_same s0 s1 s2 : simulated s0 s1 → same_table s1 s2 → simulated s0 s2.
Proof. intros (evs & ans & ?) [Hc _ _ Hr]. exists evs, ans. by rewrite Hc, Hr. Qed.

Lemma simulated_request s0 sock s s' :
  tabled s0 s → draws_distinct (id_ix s) → simulated s0 s → handle_command sock s = (Ret tt, s') →
  simulated s0 s'.
Proof.
  intros (Hw & Hc & Hd) Hdd (evs & ans & Hr & Ha & Hsub) Hh.
  assert (ids_unique (clients s)) as Hu by (intros i j c d ???? ?; by eapply drawn_unique).
  assert (abs (clients s) !! next_id s = None) as Hf.
  { apply abs_lookup_None; [done|]. intros i c Hi Hl. by eapply drawn_fresh. }
  destruct (handle_command_refines sock s s' Hw Hu Hf Hh) as (creds & req & reply & es & Hs & Ht & He).
  rewrite Hc in Hs. exists (evs ++ [(req, reply)]), (ans ++ answer_of sock reply).
  split; [by eapply spec_run_snoc|]. split.
  - by rewrite Ht, replies_app, Ha, He, app_assoc.
  - rewrite fmap_app. apply sublist_app; [done|]. unfold answer_of. cbn.
    destruct (conn_wfail sock); [apply sublist_nil_l|done].
Qed.

(** The number of identifiers drawn only grows. *)
Lemma run_simulated s0 ph s :
  tabled s0 s0 → dsteps (Looping, s0) (ph, s) →
  tabled s0 s ∧ (draws_distinct (id_ix s) → simulated s0 s).
Proof.
  intros Ht Hs.
  apply (run_invariant (λ s, draws_distinct (id_ix s) → simulated s0 s) s0 Looping s0 ph s);
    [| |done| |done].
  - intros s1 s2 _ H1 H2 Hd. eapply simulated_same; [|exact H2]. apply H1. by rewrite <-(st_id_ix _ _ H2).
  - intros sock s1 s2 Ht1 H1 H2 Hd. pose proof Ht1 as (Hw & _).
    destruct (request_config_wf sock s1 s2 Hw H2) as (_ & _ & _ & Hle & _).
    pose proof (draws_distinct_mono _ _ Hle Hd). eapply simulated_request; eauto.
  - intros _. exists [], []. rewrite app_nil_r. split; [constructor|done].
Qed.
End Simulation.

(** C8: a whole run of the broker is a run of the abstract registry: from the
    announced clients the main loop begins with, some sequence of requests, each
    answered as the specification demands, leads to the registry the table of the
    reached state represents, and what has been sent to the clients are answers of
    that sequence in its order, all of them but those that could not be written.
    The identifiers drawn so far need only be different from each other, the next
    one included; they then are unique in the table. *)
Theorem run_refines_registry `{Env} ov ff e1 e2 pu cr po dir o argv s0 ph s :
  startup ov ff e1 e2 pu cr po dir o argv broker_init = (Ret tt, s0) →
  dsteps (Looping, s0) (ph, s) → draws_distinct (id_ix s) →
  ids_unique (clients s) ∧
  ∃ evs ans, spec_run (config s0) (abs (clients s0)) evs (abs (clients s)) ∧
    replies (trace s) = replies (trace s0) ++ ans ∧ ans `sublist_of` evs.*2.
Proof.
  intros Hs Hd Hdd. destruct (startup_tabled _ _ _ _ _ _ _ _ _ _ _ Hs) as [Ht _].
  destruct (run_simulated s0 ph s Ht Hd) as [(_ & _ & Hdr) Hsim]. split; [|exact (Hsim Hdd)].
  intros i j c d Hi Hj Hc Hdl Heq. by eapply drawn_unique.
Qed.

(** ** Runs in which every client is alive *)

Section Healthy.
Context {E : Env}.

(** [c]'s last heartbeat is at most its timeout old at the [n]-th clock reading. *)
Definition heartbeat_fresh (n : nat) (c : client_t) : Prop :=
  wf_timespec (env_now n) ∧ wf_timespec (cl_last_ping c) ∧
  0 ≤ ns_of (env_now n) - ns_of (cl_last_ping c) ≤ cl_timeout_ms c * 10 ^ 6.

(** A round in which the timer fired and the watchdog accepts the byte. *)
Definition tick (server : option accept_result) (t : bytes) : wake :=
  Wake (SelOk server (Some (EXPIRATIONS_LEN, t))) None.

(** Every round serves its connection, is not told to stop, and finds all
    heartbeats fresh when it checks them. *)
Fixpoint healthy (rounds : list (option accept_result * bytes)) (s : broker) : Prop :=
  match rounds with
  | [] => True
  | (server, t) :: r =>
      (∃ s1, serve server s = (Ret tt, s1) ∧ running s1 = true ∧ all_ok s1 = true ∧
        ∀ j c, live_clients (clients s1) !! j = Some c → heartbeat_fresh (now_ix s1 + j) c) ∧
      healthy r (snd (iteration (tick server t) s))
  end.

Lemma fresh_on_time n c :
  wf_client c → live c = true → heartbeat_fresh n c → on_time n c.
Proof.
  intros Hw Hl (H1 & H2 & H3). apply elapsed_on_time; [|done..]. exact (wf_timeout c Hw Hl).
Qed.

Lemma fresh_all_on_time cs n :
  wf_table cs → (∀ j c, live_clients cs !! j = Some c → heartbeat_fresh (n + j) c) →
  all_on_time cs n.
Proof.
  intros Hw Hf j c Hj. pose proof (list_elem_of_lookup_2 _ _ _ Hj) as Hin.
  apply filter_lookup_live in Hin as (i & Hi & Hl).
  apply fresh_on_time; [by eapply wf_table_lookup|done|auto].
Qed.

(** One such round writes to the watchdog and leaves everything in order. *)
Lemma healthy_round server t s s1 :
  wf_table (clients s) → watchdog_fd s = true → serve server s = (Ret tt, s1) →
  running s1 = true → all_ok s1 = true →
  (∀ j c, live_clients (clients s1) !! j = Some c → heartbeat_fresh (now_ix s1 + j) c) →
  ∃ s' es, iteration (tick server t) s = (Ret tt, s') ∧ trace s' = trace s ++ es ∧
    watchdog_calls es = [EvFeed] ∧ wf_table (clients s') ∧ watchdog_fd s' = true ∧
    running s' = true ∧ all_ok s' = true.
Proof.
  intros Hw Hwd Hs Hrun Hok Hf.
  destruct (serve_spec server s Hw) as [(? & Hx & _)|(s1' & es1 & Hs' & Hr & Hq)]; [congruence|].
  assert (s1' = s1) as -> by congruence. pose proof (lr_table _ _ _ Hr Hw) as Hw1.
  destruct (check_clients_spec s1)
    as (s2 & es2 & Hc & Hl & H1 & _ & H3 & _ & _ & H6 & _ & _ & H7 & H8).
  pose proof (fresh_all_on_time _ _ Hw1 Hf) as Hat.
  destruct H8 as [(_ & -> & Ha)|[Hn _]]; [|done].
  assert (iteration (tick server t) s = feed (Some (EXPIRATIONS_LEN, t)) None s2) as ->.
  { unfold iteration, tick. cbn [wk_select wk_feed]. by rewrite bind_eq, Hs, bind_eq, Hc. }
  destruct (feed_spec (Some (EXPIRATIONS_LEN, t)) None s2) as [(b & -> & _ & Hb & _)|(x & _ & Hx)];
    [|by destruct (Hx eq_refl t)].
  rewrite (Hb t eq_refl), H6, (lr_watchdog _ _ _ Hr), Hwd, Ha, Hok. cbn [andb].
  exists (add_event EvFeed s2), (es1 ++ [EvFeed]).
  cbn [trace add_event clients watchdog_fd running all_ok].
  rewrite H7, app_nil_r, (lr_trace _ _ _ Hr), <-app_assoc, H1, H3, H6, Ha.
  split_and!; try done; [|by rewrite (lr_watchdog _ _ _ Hr)].
  rewrite watchdog_calls_app, watchdog_calls_quiet by done. done.
Qed.
End Healthy.

(** As long as the clients live, so does the machine: through any number of
    rounds in which the timer fires, connections are served and every heartbeat is
    younger than its client's timeout when it is checked, the broker stays in its
    main loop, with supervision in order, and writes to the watchdog exactly once
    per round and nothing else. *)
Theorem healthy_rounds_feed_every_tick `{Env} rounds s :
  wf_table (clients s) → watchdog_fd s = true → running s = true → all_ok s = true →
  healthy rounds s →
  ∃ s' es, dsteps (Looping, s) (Looping, s') ∧ trace s' = trace s ++ es ∧
    watchdog_calls es = replicate (length rounds) EvFeed ∧
    running s' = true ∧ all_ok s' = true.
Proof.
  revert s. induction rounds as [|[server t] r IH]; intros s Hw Hwd Hrun Hok Hh.
  { exists s, []. rewrite app_nil_r. split; [apply rtc_refl|done]. }
  destruct Hh as [(s1 & Hs & Hr1 & Ho1 & Hf) Hrest].
  destruct (healthy_round server t s s1 Hw Hwd Hs Hr1 Ho1 Hf)
    as (s2 & es2 & Hi & Ht2 & Hc2 & Hw2 & Hwd2 & Hr2 & Ho2).
  rewrite Hi in Hrest. destruct (IH s2 Hw2 Hwd2 Hr2 Ho2 Hrest) as (s' & es & Hd & Ht & Hc & Hr & Ho).
  exists s', (es2 ++ es). split_and!; try done.
  - eapply rtc_l; [|exact Hd]. by apply (step_iteration (tick server t) s (Ret tt) s2).
  - by rewrite Ht, Ht2, app_assoc.
  - by rewrite watchdog_calls_app, Hc2, Hc.
Qed.
