(* ===== verification/Silence.v ===== *)
(** * Clients that fall silent

    The purpose of the broker, over whole runs: once a client has stopped sending
    heartbeats for longer than its timeout, the watchdog is not fed any more,
    whatever other processes request meanwhile, and the next round ends the
    supervision.  Runs are labelled with the connections they serve, so that "nobody
    spoke for the client" can be said of a run. *)

From S2P Require Import Prelude CString Scanf Common World ClientId Registry Identifiers Status.
From S2P Require Import Handlers Requests Daemon Timing Life Spec Runs.

(** ** Labelled runs *)

(** The connections a round accepts. *)
Definition accepted (server : option accept_result) : list conn :=
  match server with Some (Accepted c) => [c] | _ => [] end.

Definition wake_conns (w : wake) : list conn :=
  match wk_select w with SelOk server _ => accepted server | SelErr _ _ => [] end.

Section Labels.
Context {E : Env}.

(** The steps of Daemon.v with the connections they serve. *)
Inductive lstep : list conn → phase * broker → phase * broker → Prop :=
  | lstep_iteration w s o s' :
      running s = true → all_ok s = true → iteration w s = (o, s') →
      lstep (wake_conns w) (Looping, s) (continue_in Looping o, s')
  | lstep_fail s o s' :
      all_ok s = false → enter_pending s = (o, s') →
      lstep [] (Looping, s) (continue_in Pending o, s')
  | lstep_wait s :
      running s = true → lstep [] (Pending, s) (Pending, add_event EvSync s)
  | lstep_end_loop io s o s' :
      running s = false → all_ok s = true → shutdown io s = (o, s') →
      lstep [] (Looping, s) (continue_in (Ended EXIT_SUCCESS) o, s')
  | lstep_end_pending io s o s' :
      running s = false → shutdown io s = (o, s') →
      lstep [] (Pending, s) (continue_in (Ended EXIT_SUCCESS) o, s')
  | lstep_signal sig ph s o s' :
      ph = Looping ∨ ph = Pending → signal_handler sig s = (o, s') →
      lstep [] (ph, s) (ph, s').

Inductive lruns : list conn → phase * broker → phase * broker → Prop :=
  | lruns_nil d : lruns [] d d
  | lruns_cons cs1 d1 d2 cs2 d3 : lstep cs1 d1 d2 → lruns cs2 d2 d3 → lruns (cs1 ++ cs2) d1 d3.

Lemma lstep_dstep d d' : dstep d d' ↔ ∃ cs, lstep cs d d'.
Proof.
  split.
  - intros H. destruct H; eexists; econstructor; eauto.
  - intros [cs H]. destruct H; econstructor; eauto.
Qed.

(** The labels add nothing but the connections. *)
Lemma lruns_dsteps d d' : dsteps d d' ↔ ∃ cs, lruns cs d d'.
Proof.
  split.
  - intros H. induction H as [d|d1 d2 d3 H _ [cs IH]]; [by exists []; constructor|].
    apply lstep_dstep in H as [cs1 H]. exists (cs1 ++ cs). by econstructor.
  - intros [cs H]. induction H as [d|cs1 d1 d2 cs2 d3 H _ IH]; [apply rtc_refl|].
    eapply rtc_l; [|exact IH]. apply lstep_dstep. eauto.
Qed.

Lemma lruns_app cs1 cs2 d1 d2 d3 : lruns cs1 d1 d2 → lruns cs2 d2 d3 → lruns (cs1 ++ cs2) d1 d3.
Proof.
  induction 1 as [d|cs1 d1 d2 cs1' d3' H _ IH]; [done|]. intros H2. rewrite <-app_assoc.
  econstructor; [exact H|auto].
Qed.

(** ** The clock only advances *)

Definition advances {A} (m : B A) : Prop := ∀ s, (now_ix s ≤ now_ix (m s).2)%nat.

Lemma advances_ret {A} (a : A) : advances (mret a).
Proof. intros s. done. Qed.
Lemma advances_undef {A} : advances (A:=A) undef.
Proof. intros s. done. Qed.
Lemma advances_exit {A} c : advances (A:=A) (exit_with c).
Proof. intros s. done. Qed.
Lemma advances_gets {A} (f : broker → A) : advances (gets f).
Proof. intros s. done. Qed.
Lemma advances_modify f : (∀ s, now_ix (f s) = now_ix s) → advances (modify f).
Proof. intros Hf s. cbn. rewrite Hf. done. Qed.
Lemma advances_bind {A C} (m : B A) (f : A → B C) :
  advances m → (∀ a, advances (f a)) → advances (m ≫= f).
Proof.
  intros Hm Hf s. rewrite bind_eq. specialize (Hm s). destruct (m s) as [[a|c|] s1]; [|done|done].
  cbn in Hm. etrans; [exact Hm|apply Hf].
Qed.
Lemma advances_get_now : advances get_now.
Proof. intros s. unfold get_now. mrun. cbn. lia. Qed.
End Labels.

#[export] Hint Resolve advances_ret advances_undef advances_exit advances_gets advances_get_now : advances.

Ltac advances_step :=
  match goal with
  | |- advances (if ?b then _ else _) => destruct b
  | |- advances (match ?x with _ => _ end) => destruct x
  | |- advances (_ ≫= _) => apply advances_bind; [|intros ?]
  | |- advances (modify _) => apply advances_modify; reflexivity
  | |- advances _ => solve [auto with advances]
  end.
Ltac advances := repeat advances_step.

Section Clock.
Context {E : Env}.

Lemma advances_emit e : advances (emit e).
Proof. unfold emit. advances. Qed.
Lemma advances_log p text : advances (log_message p text).
Proof. apply advances_emit. Qed.
Hint Resolve advances_emit advances_log : advances.
Lemma advances_write_str sock text : advances (write_str sock text).
Proof. unfold write_str. advances. Qed.
Lemma advances_fatal {A} text : advances (A:=A) (fatal_error text).
Proof. unfold fatal_error. advances. Qed.
Lemma advances_fatal_errno {A} ctx err : advances (A:=A) (fatal_errno ctx err).
Proof. unfold fatal_errno. advances. Qed.
Hint Resolve advances_write_str advances_fatal advances_fatal_errno : advances.
Lemma advances_snprintf m text : advances (snprintf_msg m text).
Proof. unfold snprintf_msg. advances. Qed.
Lemma advances_write_msg sock m : advances (write_msg sock m).
Proof. unfold write_msg. advances. Qed.
Hint Resolve advances_snprintf advances_write_msg : advances.
Lemma advances_status_rows cs m : advances (status_rows cs m).
Proof. revert m. induction cs as [|c cs IH]; intros m; cbn [status_rows]; advances. Qed.
Lemma advances_parse_clientID buf cmd sock : advances (parse_clientID buf cmd sock).
Proof. unfold parse_clientID. advances. Qed.
Lemma advances_by_name name pid : advances (get_clientInstance_by_name name pid).
Proof. unfold get_clientInstance_by_name. advances. Qed.
Lemma advances_by_id id pid : advances (get_clientInstance_by_clientID id pid).
Proof. unfold get_clientInstance_by_clientID. advances. Qed.
Hint Resolve advances_status_rows advances_parse_clientID advances_by_name advances_by_id : advances.

Lemma advances_handle_command sock : advances (handle_command sock).
Proof.
  unfold handle_command. destruct (conn_peer sock); [|advances].
  destruct (read_with_timeout _ _ _ _) as [len buf]. destruct (len <=? 0); [advances|].
  unfold dispatch, handle_register, handle_ping, handle_unregister, handle_reboot, handle_status,
    handle_version, registration_id, make_clientID. advances.
Qed.
Hint Resolve advances_handle_command : advances.

Lemma advances_serve server : advances (serve server).
Proof. unfold serve. advances. Qed.

Lemma advances_check_clients : advances check_clients.
Proof.
  unfold check_clients. apply advances_bind; [advances|]. intros cs.
  induction cs as [|c cs IH]; cbn [check_from]; unfold ms_since; advances.
Qed.

Lemma advances_feed timer err : advances (feed timer err).
Proof. unfold feed. advances. Qed.
Hint Resolve advances_serve advances_check_clients advances_feed : advances.

Lemma advances_iteration w : advances (iteration w).
Proof. unfold iteration. advances. Qed.

Lemma advances_eq {A} (m : B A) s o s' : advances m → m s = (o, s') → (now_ix s ≤ now_ix s')%nat.
Proof. intros Hm He. specialize (Hm s). by rewrite He in Hm. Qed.

Lemma lstep_clock cs d d' : lstep cs d d' → (now_ix d.2 ≤ now_ix d'.2)%nat.
Proof.
  intros H. destruct H as [w s o s' _ _ He|s o s' _ He|s _|io s o s' _ _ He|io s o s' _ He|sig ph s o s' _ He];
    cbn [snd]; [by apply (advances_eq _ _ _ _ (advances_iteration w) He)| |done| | |].
  - rewrite enter_pending_eq in He. by injection He as _ <-.
  - refine (advances_eq (shutdown io) _ _ _ _ He). unfold shutdown, activate_reboot, log_failure. advances.
  - refine (advances_eq (shutdown io) _ _ _ _ He). unfold shutdown, activate_reboot, log_failure. advances.
  - rewrite signal_handler_eq in He. by injection He as _ <-.
Qed.

Lemma lruns_clock cs d d' : lruns cs d d' → (now_ix d.2 ≤ now_ix d'.2)%nat.
Proof. induction 1 as [|cs1 d1 d2 cs2 d3 H _ IH]; [done|]. apply lstep_clock in H. lia. Qed.
End Clock.

(** ** Rounds without a word for the client *)

(** The connection comes from a process that is neither root nor [c]'s. *)
Definition foreign (c : client_t) (sock : conn) : Prop :=
  ∀ creds, conn_peer sock = inl creds → stranger c creds.

(** A request that is not meant for [c], whoever sends it: it bears another
    identifier, and another name if [c] is still expected to register; and it does
    not stop the daemon. *)
Definition not_about (c : client_t) (creds : ucred) (r : request) : Prop :=
  match r with
  | ReqRegister name _ _ => announced_for name c = false
  | ReqPing id | ReqUnregister id => strncmp_eq WD_CLIENTID_FMT_LEN (cl_clientID c) id = false
  | ReqReboot => cr_uid creds ≠ 0
  | ReqStatus | ReqVersion | ReqBad _ => True
  end.

(** Nobody speaks for [c]: the sender is a stranger to a client whose process is
    checked, or the request is not about it. *)
Definition unspoken (c : client_t) (sock : conn) : Prop :=
  ∀ creds, conn_peer sock = inl creds →
    (cl_active c = true ∧ cl_checkPID c = true ∧ stranger c creds) ∨
    not_about c creds (decode (snd (received sock))).

Lemma foreign_unspoken c sock :
  cl_active c = true → cl_checkPID c = true → foreign c sock → unspoken c sock.
Proof. intros Ha Hk Hf creds Hp. left. split_and!; auto. Qed.

Definition unspokenb (c : client_t) (sock : conn) : bool :=
  match conn_peer sock with
  | inl creds =>
      (cl_active c && cl_checkPID c && negb (cl_pid c =? cr_pid creds) && negb (cr_uid creds =? 0)) ||
      match decode (snd (received sock)) with
      | ReqRegister name _ _ => negb (announced_for name c)
      | ReqPing id | ReqUnregister id => negb (strncmp_eq WD_CLIENTID_FMT_LEN (cl_clientID c) id)
      | ReqReboot => negb (cr_uid creds =? 0)
      | ReqStatus | ReqVersion | ReqBad _ => true
      end
  | inr _ => true
  end.

Lemma unspokenb_sound c sock : unspokenb c sock = true → unspoken c sock.
Proof.
  unfold unspokenb. intros H creds Hp. rewrite Hp in H. apply orb_true_iff in H as [H|H].
  - rewrite !andb_true_iff, !negb_true_iff, !Z.eqb_neq in H. destruct H as [[[? ?] ?] ?]. left. by split_and!.
  - right. unfold not_about. destruct (decode _); try done; rewrite negb_true_iff, ?Z.eqb_neq in H; done.
Qed.

Section Silence.
Context {E : Env} (i : nat) (c : client_t) (Hlive : live c = true).

(** Another slot is the one a request is about. *)
Lemma other_id_slot (cs : list client_t) j d id :
  cs !! i = Some c → cs !! j = Some d → has_clientID id d = true →
  strncmp_eq WD_CLIENTID_FMT_LEN (cl_clientID c) id = false → i ≠ j.
Proof.
  intros Hc Hd Hh Hn <-. assert (d = c) as -> by congruence.
  unfold has_clientID in Hh. by rewrite Hn, andb_false_r in Hh.
Qed.

Lemma other_name_slot cfg (cs : list client_t) name j :
  cs !! i = Some c → slot_spec cfg cs name = Some j → announced_for name c = false → i ≠ j.
Proof.
  intros Hc Hs Hn <-. destruct (slot_spec_cases _ _ _ _ Hs) as (d & Hd & [Ha|[Hf _]]);
    assert (d = c) as -> by congruence; [congruence|].
  by rewrite is_free_live, Hlive in Hf.
Qed.

(** Slot [i] and the daemon are as before. *)
Definition passed_over (s s' : broker) : Prop :=
  clients s' !! i = Some c ∧ reboot s' = reboot s ∧ running s' = running s.

Lemma passed_over_same s s' :
  clients s !! i = Some c → clients s' = clients s → reboot s' = reboot s → running s' = running s →
  passed_over s s'.
Proof. intros Hc H1 H2 H3. split; [by rewrite H1|done]. Qed.

Lemma alter_other j f s : clients s !! i = Some c → i ≠ j → passed_over s (alter_client j f s).
Proof. intros Hc Hij. split; [|done]. cbn. by rewrite list_lookup_alter_ne. Qed.

Lemma register_passes sock creds buf s name t chk :
  clients s !! i = Some c → announced_for name c = false →
  parse_register (drop (strlen CMD_REGISTER) buf) = inr (name, t, chk) →
  passed_over s (handle_register sock creds buf s).2.
Proof.
  intros Hc Hn Hp. destruct (slot_spec (config s) (clients s) name) as [j|] eqn:Hs.
  - destruct (slot_spec_cases _ _ _ _ Hs) as (d & Hd & _).
    destruct (handle_register_ok sock creds buf s name t chk j d Hp Hs Hd) as (s' & l & -> & Hsd & Hcl & _).
    split; [|by destruct Hsd]. cbn [snd]. rewrite Hcl, list_lookup_insert_ne; [done|].
    apply not_eq_sym. by eapply other_name_slot.
  - destruct (handle_register_rejected sock creds buf s name t chk Hp Hs) as (es & _ & ->).
    by apply passed_over_same.
Qed.

Lemma ping_passes sock creds buf s id :
  clients s !! i = Some c → strncmp_eq WD_CLIENTID_FMT_LEN (cl_clientID c) id = false →
  scan_clientID (drop (strlen CMD_PING) buf) = inr id → passed_over s (handle_ping sock creds buf s).2.
Proof.
  intros Hc Hn Hsc. pose proof (handle_ping_eq sock creds buf s id Hsc) as He.
  pose proof (find_clientID_cases (clients s) id (cr_pid creds)) as Hf.
  destruct (find_clientID _ _ _ _) as [j|j|].
  - destruct Hf as (d & Hd & Hh & _). rewrite He.
    apply (alter_other j (set_last_ping (env_now (now_ix s))) s Hc). by eapply other_id_slot.
  - destruct He as [l ->]. by apply passed_over_same.
  - rewrite He. by apply passed_over_same.
Qed.

Lemma unregister_passes sock creds buf s id :
  clients s !! i = Some c → strncmp_eq WD_CLIENTID_FMT_LEN (cl_clientID c) id = false →
  scan_clientID (drop (strlen CMD_UNREGISTER) buf) = inr id →
  passed_over s (handle_unregister sock creds buf s).2.
Proof.
  intros Hc Hn Hsc. destruct (handle_unregister_eq sock creds buf s id Hsc) as (es1 & es2 & _ & _ & ->).
  pose proof (find_clientID_cases (clients s) id (cr_pid creds)) as Hf.
  destruct (unregister_allowed _ _ _) as [j|] eqn:Ha; [|by apply passed_over_same].
  assert (∃ d, clients s !! j = Some d ∧ has_clientID id d = true) as (d & Hd & Hh).
  { destruct (find_clientID _ _ _ _) as [k|k|]; cbn in Ha; [| |done].
    - destruct (_ && _); [done|]. injection Ha as ->. naive_solver.
    - destruct (_ =? 0); [|done]. injection Ha as ->. naive_solver. }
  apply (alter_other j deactivate s Hc). by eapply other_id_slot.
Qed.

Lemma dispatch_passes sock creds buf s :
  clients s !! i = Some c → not_about c creds (decode buf) → passed_over s (dispatch sock creds buf s).2.
Proof.
  intros Hc. unfold dispatch, decode.
  destruct (is_command CMD_REGISTER buf).
  { destruct (parse_register _) as [err|[[name t] chk]] eqn:Ep; intros Hn.
    - rewrite (handle_register_bad _ _ _ _ _ Ep). by apply passed_over_same.
    - exact (register_passes sock creds buf s name t chk Hc Hn Ep). }
  destruct (is_command CMD_PING buf).
  { destruct (scan_clientID _) as [err|id] eqn:Ei; intros Hn.
    - rewrite (handle_ping_bad _ _ _ _ _ Ei). by apply passed_over_same.
    - exact (ping_passes sock creds buf s id Hc Hn Ei). }
  destruct (is_command CMD_UNREGISTER buf).
  { destruct (scan_clientID _) as [err|id] eqn:Ei; intros Hn.
    - rewrite (handle_unregister_bad _ _ _ _ _ Ei). by apply passed_over_same.
    - exact (unregister_passes sock creds buf s id Hc Hn Ei). }
  destruct (is_command CMD_REBOOT buf).
  { intros Hn. destruct (handle_reboot_refused sock creds buf s) as [es ->]; [|by apply passed_over_same].
    unfold no_arg in Hn. destruct (Z.eqb_spec (fst (sscanf (drop (strlen CMD_REBOOT) buf) (lit " %15s"))) 1);
      [by right|by left]. }
  destruct (is_command CMD_STATUS buf).
  { intros _. destruct (handle_status_events sock creds buf s) as [->|(es & -> & _)]; by apply passed_over_same. }
  intros _. destruct (is_command CMD_VERSION buf).
  - rewrite handle_version_eq. by apply passed_over_same.
  - rewrite write_str_eq. by apply passed_over_same.
Qed.

(** What no such request changes. *)
Record untouched (s s' : broker) : Prop := {
  un_slot : clients s !! i = Some c → clients s' !! i = Some c;
  un_reboot : reboot s' = reboot s;
  un_table : wf_table (clients s) → wf_table (clients s');
}.

Instance untouched_preorder : PreOrder untouched.
Proof. split; [by constructor|]. intros s1 s2 s3 [] []. constructor; auto. congruence. Qed.

Lemma untouched_same s s' : clients s' = clients s → reboot s' = reboot s → untouched s s'.
Proof. intros H1 H2. constructor; rewrite ?H1; done. Qed.

Lemma request_passes sock s o s' :
  wf_table (clients s) → clients s !! i = Some c → unspoken c sock → handle_command sock s = (o, s') →
  passed_over s s'.
Proof.
  intros Hw Hc Hf Hh. destruct (conn_peer sock) as [creds|err] eqn:Hp.
  - destruct (Hf creds Hp) as [(Ha & Hk & Hst)|Hn].
    + exact (stranger_request sock creds s o s' i c Hw Hp Hc Ha Hk Hst Hh).
    + unfold handle_command in Hh. rewrite Hp in Hh. unfold received in Hn.
      destruct (read_with_timeout _ _ _ _) as [len buf]. destruct (len <=? 0).
      * rewrite write_str_eq in Hh. injection Hh as _ <-. by apply passed_over_same.
      * pose proof (dispatch_passes sock creds buf s Hc Hn) as Hd. by rewrite Hh in Hd.
  - destruct (handle_command_no_peer sock err s Hp) as (es & He & _).
    rewrite He in Hh. injection Hh as _ <-. by apply passed_over_same.
Qed.

Lemma request_unspoken sock s o s' :
  wf_table (clients s) → clients s !! i = Some c → unspoken c sock → handle_command sock s = (o, s') →
  untouched s s' ∧ running s' = running s.
Proof.
  intros Hw Hc Hf Hh. destruct (request_passes sock s o s' Hw Hc Hf Hh) as (H1 & H2 & H3).
  split; [|done]. constructor; [done|done|]. intros _.
  destruct (conn_peer sock) as [creds|err] eqn:Hp.
  - destruct (handle_command_outcome sock creds s Hw Hp) as [Hx|(s1 & es & He & Ho)].
    + rewrite Hx in Hh. by injection Hh as _ <-.
    + assert (s1 = s') as -> by congruence. exact (request_effect_wf creds s _ Hw (ro_effect _ _ _ _ _ Ho)).
  - destruct (handle_command_no_peer sock err s Hp) as (es & He & _).
    rewrite He in Hh. by injection Hh as _ <-.
Qed.

Lemma serve_unspoken server s o s1 :
  wf_table (clients s) → clients s !! i = Some c → Forall (unspoken c) (accepted server) →
  serve server s = (o, s1) → untouched s s1 ∧ running s1 = running s.
Proof.
  intros Hw Hc Hf. destruct server as [[sock|errno text]|]; unfold serve.
  - apply Forall_cons in Hf as [Hf _]. unfold emit. mrun. set (s0 := add_event EvAccept s).
    destruct (handle_command sock s0) as [o' s2] eqn:Hh.
    destruct (request_unspoken sock s0 o' s2 Hw Hc Hf Hh) as [[H1 H2 H3] H4].
    destruct o' as [[]|x|]; intros [= _ <-]; (split; [constructor|]); done.
  - destruct (accept_transient errno); [intros [= _ <-]; by split|].
    unfold log_message, emit. mrun. intros [= _ <-]. split; [by apply untouched_same|done].
  - intros [= _ <-]. by split.
Qed.

Lemma feed_untouched timer err s o s' :
  feed timer err s = (o, s') →
  untouched s s' ∧ now_ix s' = now_ix s ∧ running s' = running s ∧ all_ok s' = all_ok s ∧
  ∃ es, trace s' = trace s ++ es ∧ (EvFeed ∈ es → all_ok s = true).
Proof.
  intros Hf. destruct (feed_spec timer err s) as [(b & He & Hb & _)|(t & He & _)];
    rewrite He in Hf; injection Hf as _ <-.
  - destruct b; (split; [by apply untouched_same|]); (split_and!; [done..|]).
    + exists [EvFeed]. split; [done|]. intros _. by destruct Hb.
    + exists []. rewrite app_nil_r. split; [done|]. by intros ?%elem_of_nil.
  - split; [by apply untouched_same|]. split_and!; [done..|]. exists [EvStderr t]. split; [done|].
    by intros ?%list_elem_of_singleton.
Qed.

(** The check keeps supervision in order only if it found [c] on time. *)
Lemma check_on_time s s' :
  clients s !! i = Some c → check_clients s = (Ret tt, s') → all_ok s' = true →
  ∃ n, (now_ix s ≤ n < now_ix s')%nat ∧ on_time n c.
Proof.
  intros Hc. unfold check_clients. mrun. intros He Hok.
  assert (c ∈ live_clients (clients s)) as [j Hj]%list_elem_of_lookup_1.
  { apply filter_lookup_live. by exists i. }
  destruct (check_from_spec (clients s) s) as [[Hall Heq]|(k & d & _ & _ & _ & Heq)];
    rewrite Heq in He; injection He as <-; [|done].
  exists (now_ix s + j)%nat. split; [|by apply Hall]. cbn. pose proof (lookup_lt_Some _ _ _ Hj). lia.
Qed.

(** One round: the slot stays, and the watchdog is fed, or supervision kept in
    order through a successful [select], only if [c] was found on time. *)
Lemma round_unspoken w s o s' :
  wf_table (clients s) → clients s !! i = Some c → Forall (unspoken c) (wake_conns w) →
  iteration w s = (o, s') →
  untouched s s' ∧ running s' = running s ∧
  (∃ es, trace s' = trace s ++ es ∧
    (EvFeed ∈ es → ∃ n, (now_ix s ≤ n < now_ix s')%nat ∧ on_time n c)) ∧
  (o = Ret tt → all_ok s' = true → (∃ server timer, wk_select w = SelOk server timer) →
    ∃ n, (now_ix s ≤ n < now_ix s')%nat ∧ on_time n c).
Proof.
  intros Hw Hc Hf Hi. destruct w as [[errno text|server timer] err].
  { unfold iteration in Hi. cbn [wk_select] in Hi. destruct (errno =? EINTR); cbn [negb] in Hi.
    - injection Hi as <- <-. split; [done|]. split; [done|]. split; [|by intros _ _ (? & ? & ?)].
      exists []. rewrite app_nil_r. split; [done|]. by intros ?%elem_of_nil.
    - unfold log_message, emit in Hi. mrun in Hi. injection Hi as <- <-.
      split; [by apply untouched_same|]. split; [done|]. split; [|by intros _ _ (? & ? & ?)].
      eexists. split; [reflexivity|]. by intros ?%list_elem_of_singleton. }
  unfold iteration in Hi. cbn [wk_select wk_feed wake_conns] in *. rewrite bind_eq in Hi.
  destruct (serve server s) as [o1 s1] eqn:Hs.
  destruct (serve_unspoken server s o1 s1 Hw Hc Hf Hs) as [Hu1 Hr1].
  pose proof (advances_eq _ _ _ _ (advances_serve server) Hs) as Hn1.
  destruct (serve_spec server s Hw) as [(sx & Hx & es1 & Hl1 & Hq1)|(sx & es1 & Hx & Hl1 & Hq1)];
    rewrite Hx in Hs; injection Hs as <- <-.
  { injection Hi as <- <-. split; [done|]. split; [done|]. split; [|done].
    exists es1. split; [apply Hl1|]. intros Hin. exfalso. unfold quiet in Hq1.
    rewrite Forall_forall in Hq1. by specialize (Hq1 _ Hin). }
  pose proof (un_slot _ _ Hu1 Hc) as Hc1.
  destruct (check_clients_spec sx)
    as (s2 & es2 & Hck & Hl2 & E1 & _ & E3 & E4 & _ & _ & _ & Hn2 & Ht2 & _).
  rewrite bind_eq, Hck in Hi.
  destruct (feed_untouched timer err s2 o s' Hi) as (Hu3 & Hn3 & Hr3 & Ha3 & es3 & Ht3 & Hfed).
  assert (∀ b, b = all_ok s' → b = true → ∃ n, (now_ix s ≤ n < now_ix s')%nat ∧ on_time n c) as Hkey.
  { intros b -> Hb. rewrite Ha3 in Hb. destruct (check_on_time sx s2 Hc1 Hck Hb) as (n & Hn & Hon).
    exists n. split; [lia|done]. }
  split; [transitivity sx; [done|]; transitivity s2; [by apply untouched_same|done]|].
  split; [congruence|]. split; [|by intros; eapply Hkey].
  exists (es1 ++ es2 ++ es3). rewrite Ht3, Ht2, (lr_trace _ _ _ Hl1), !app_assoc. split; [done|].
  intros [[Hin|Hin]%elem_of_app|Hin]%elem_of_app.
  - exfalso. unfold quiet in Hq1. rewrite Forall_forall in Hq1. by specialize (Hq1 _ Hin).
  - exfalso. unfold log_only in Hl2. rewrite Forall_forall in Hl2. by specialize (Hl2 _ Hin).
  - eapply Hkey; [reflexivity|]. rewrite Ha3. auto.
Qed.

Lemma shutdown_untouched io s o s' :
  reboot s = false → shutdown io s = (o, s') →
  untouched s s' ∧ ∃ es, trace s' = trace s ++ es ∧ EvFeed ∉ es.
Proof.
  intros Hr He. destruct (shutdown_spec io s) as (s3 & es3 & Hsd & Hrel).
  rewrite Hsd in He. injection He as _ <-. destruct Hrel as [Ht3 Hr3 _ _ _ Hcl3 Hc3 _ _].
  split; [by apply untouched_same|]. exists es3. split; [done|].
  rewrite (watchdog_calls_in EvFeed), Hc3 by done. unfold shutdown_calls. rewrite Hr.
  destruct (watchdog_fd s); by apply not_feed.
Qed.

(** Every step of the daemon's life, likewise. *)
Lemma lstep_unspoken cs ph s ph' s' :
  wf_table (clients s) → clients s !! i = Some c → reboot s = false → Forall (unspoken c) cs →
  lstep cs (ph, s) (ph', s') →
  untouched s s' ∧ ∃ es, trace s' = trace s ++ es ∧
    (EvFeed ∈ es → ∃ n, (now_ix s ≤ n < now_ix s')%nat ∧ on_time n c).
Proof.
  intros Hw Hc Hr Hf Hs.
  assert (∀ s' es, untouched s s' → trace s' = trace s ++ es → EvFeed ∉ es →
    untouched s s' ∧ ∃ es, trace s' = trace s ++ es ∧
      (EvFeed ∈ es → ∃ n, (now_ix s ≤ n < now_ix s')%nat ∧ on_time n c)) as Hquiet.
  { intros s0 es H1 H2 H3. split; [done|]. exists es. split; [done|]. by intros ?. }
  inversion Hs as [w ? o ? Hg1 Hg2 He|? o ? Hg1 He|? Hg1|io ? o ? Hg1 Hg2 He|io ? o ? Hg1 He|sig ? ? o ? Hg1 He]; subst.
  - destruct (round_unspoken w s o s' Hw Hc Hf He) as (H1 & _ & H2 & _). done.
  - rewrite enter_pending_eq in He. injection He as _ <-.
    eapply Hquiet; [by apply untouched_same|reflexivity|by apply not_feed].
  - eapply Hquiet; [by apply untouched_same|reflexivity|by apply not_feed].
  - destruct (shutdown_untouched io s o s' Hr He) as (Hu & es & Ht & Hn). by eapply Hquiet.
  - destruct (shutdown_untouched io s o s' Hr He) as (Hu & es & Ht & Hn). by eapply Hquiet.
  - rewrite signal_handler_eq in He. injection He as _ <-.
    eapply Hquiet; [by apply untouched_same|reflexivity|by apply not_feed].
Qed.

Lemma lruns_unspoken cs d d' :
  lruns cs d d' → wf_table (clients d.2) → clients d.2 !! i = Some c → reboot d.2 = false →
  Forall (unspoken c) cs →
  untouched d.2 d'.2 ∧ ∃ es, trace d'.2 = trace d.2 ++ es ∧
    (EvFeed ∈ es → ∃ n, (now_ix d.2 ≤ n < now_ix d'.2)%nat ∧ on_time n c).
Proof.
  induction 1 as [d|cs1 [p1 s1] [p2 s2] cs2 [p3 s3] H H2 IH]; cbn [snd] in *; intros Hw Hc Hr Hf.
  { split; [done|]. exists []. rewrite app_nil_r. split; [done|]. by intros ?%elem_of_nil. }
  apply Forall_app in Hf as [Hf1 Hf2].
  destruct (lstep_unspoken cs1 p1 s1 p2 s2 Hw Hc Hr Hf1 H) as (Hu & es1 & Ht1 & Hn1).
  destruct Hu as [Hu1 Hu2 Hu3].
  destruct (IH (Hu3 Hw) (Hu1 Hc)) as (Hu' & es2 & Ht2 & Hn2); [congruence|done|].
  pose proof (lstep_clock _ _ _ H) as Hk1. pose proof (lruns_clock _ _ _ H2) as Hk2. cbn [snd] in *.
  split; [transitivity s2; [by constructor|done]|]. exists (es1 ++ es2). rewrite Ht2, Ht1, app_assoc.
  split; [done|]. intros [Hin|Hin]%elem_of_app.
  - destruct (Hn1 Hin) as (n & ? & ?). exists n. split; [lia|done].
  - destruct (Hn2 Hin) as (n & ? & ?). exists n. split; [lia|done].
Qed.
End Silence.

(** [c]'s last heartbeat lies at least a millisecond more than its timeout before
    [now] (and less than 49 days, when the 32-bit age wraps). *)
Definition overdue (now : timespec) (c : client_t) : Prop :=
  wf_timespec now ∧ wf_timespec (cl_last_ping c) ∧
  (cl_timeout_ms c + 1) * 10 ^ 6 ≤ ns_of now - ns_of (cl_last_ping c) ≤ (2 ^ 32 - 2) * 10 ^ 6.

Lemma overdue_late `{Env} n c :
  wf_client c → live c = true → overdue (env_now n) c → ¬ on_time n c.
Proof.
  intros Hw Hl (H1 & H2 & H3). pose proof (elapsed_late c (env_now n) (wf_timeout c Hw Hl) H1 H2 H3) as Hlt.
  unfold on_time. lia.
Qed.

Lemma overdue_never_on_time `{Env} i c s m k :
  wf_table (clients s) → clients s !! i = Some c → live c = true →
  (∀ n, (m ≤ n < k)%nat → overdue (env_now n) c) → ¬ ∃ n, (m ≤ n < k)%nat ∧ on_time n c.
Proof.
  intros Hw Hc Hl Ho (n & Hn & Hon). apply (overdue_late n c); [by eapply wf_table_lookup|done|auto|done].
Qed.


(** C10: and it does so at once: the first round that completes after a silent client's
    timeout, whoever else it served, ends the supervision and leads to the pending
    reset, without a feed and with the daemon still running. *)
Theorem silent_client_forces_reset `{Env} i c s server timer err s' :
  wf_table (clients s) → running s = true → all_ok s = true →
  clients s !! i = Some c → live c = true →
  Forall (unspoken c) (accepted server) →
  iteration (Wake (SelOk server timer) err) s = (Ret tt, s') →
  (∀ n, (now_ix s ≤ n < now_ix s')%nat → overdue (env_now n) c) →
  ∃ s2 es, dsteps (Looping, s) (Pending, s2) ∧ trace s2 = trace s ++ es ∧ EvFeed ∉ es ∧
    EvLog LOG_EMERG (lit "SYSTEM RESET PENDING!") ∈ es ∧
    running s2 = true ∧ all_ok s2 = false.
Proof.
  intros Hw Hrun Hok Hc Hl Hf Hi Ho.
  destruct (round_unspoken i c Hl (Wake (SelOk server timer) err) s _ s' Hw Hc Hf Hi)
    as (_ & Hrun' & (es & Ht & Hfed) & Hkey).
  pose proof (overdue_never_on_time i c s _ _ Hw Hc Hl Ho) as Hno.
  destruct (all_ok s') eqn:Eok; [exfalso; apply Hno, Hkey; eauto|].
  eexists _, _. split.
  { eapply rtc_l; [by apply (step_iteration _ s (Ret tt) s' Hrun Hok Hi)|]. apply rtc_once.
    by apply (step_fail s' (Ret tt) _ Eok), enter_pending_eq. }
  cbn [trace with_events]. rewrite Ht, <-app_assoc. split; [reflexivity|].
  rewrite not_elem_of_app. split; [split; [auto|by apply not_feed]|].
  split; [|cbn; split; congruence].
  apply elem_of_app. right. left.
Qed.
