(* ===== verification/Connections.v ===== *)
(** * The broker and its connections

    What clients can see of a whole run: one conversation after the other, in the
    order in which the connections came, each with one answer and closed.  Which
    events a part of the program can produce is a small logic with a rule per
    construct. *)

From S2P Require Import Prelude CString Scanf Common World ClientId Registry Status.
From S2P Require Import Handlers Requests Daemon Timing Life Runs Silence.

(** ** Which events a part of the program produces *)

Section Emits.
Context {E : Env} (P : event → Prop).

Definition emits {A} (m : B A) : Prop :=
  ∀ s, ∃ es, trace (m s).2 = trace s ++ es ∧ Forall P es.

Lemma emits_none {A} (m : B A) : (∀ s, trace (m s).2 = trace s) → emits m.
Proof. intros H s. exists []. rewrite app_nil_r. split; [apply H|constructor]. Qed.

Lemma emits_ret {A} (a : A) : emits (mret a).
Proof. by apply emits_none. Qed.
Lemma emits_exit {A} c : emits (A:=A) (exit_with c).
Proof. by apply emits_none. Qed.
Lemma emits_gets {A} (f : broker → A) : emits (gets f).
Proof. by apply emits_none. Qed.
Lemma emits_get_now : emits get_now.
Proof. by apply emits_none. Qed.
Lemma emits_modify f : (∀ s, trace (f s) = trace s) → emits (modify f).
Proof. intros Hf. apply emits_none. exact Hf. Qed.
Lemma emits_emit e : P e → emits (emit e).
Proof. intros He s. exists [e]. split; [done|by constructor]. Qed.

Lemma emits_bind {A C} (m : B A) (f : A → B C) : emits m → (∀ a, emits (f a)) → emits (m ≫= f).
Proof.
  intros Hm Hf s. rewrite bind_eq. destruct (Hm s) as (es & Ht & He).
  destruct (m s) as [[a|c|] s1]; [|by exists es|by exists es]. cbn [snd] in Ht.
  destruct (Hf a s1) as (es' & Ht' & He'). exists (es ++ es'). rewrite Ht', Ht, app_assoc.
  split; [done|by apply Forall_app].
Qed.

Lemma emits_eq {A} (m : B A) s o s' :
  emits m → m s = (o, s') → ∃ es, trace s' = trace s ++ es ∧ Forall P es.
Proof. intros Hm He. specialize (Hm s). by rewrite He in Hm. Qed.
End Emits.

#[export] Hint Resolve emits_ret emits_exit emits_gets emits_get_now : emits.

Ltac emits_step :=
  match goal with
  | |- emits _ (if ?b then _ else _) => destruct b
  | |- emits _ (match ?x with _ => _ end) => destruct x
  | |- emits _ (_ ≫= _) => apply emits_bind; [|intros ?]
  | |- emits _ (modify _) => apply emits_modify; reflexivity
  | |- emits _ (emit _) => apply emits_emit; done
  | |- emits _ _ => solve [auto with emits]
  end.
Ltac emits := repeat emits_step.

(** ** Conversations *)

Definition conn_event (e : event) : bool :=
  match e with EvAccept | EvReply _ | EvCloseConn => true | _ => false end.

(** What can be seen at the socket. *)
Definition conversation (es : list event) : list event := List.filter conn_event es.

Lemma conversation_app es1 es2 : conversation (es1 ++ es2) = conversation es1 ++ conversation es2.
Proof. apply List.filter_app. Qed.

Definition offline (e : event) : Prop := conn_event e = false.

Lemma conversation_offline es : Forall offline es → conversation es = [].
Proof. induction 1 as [|e es He _ IH]; [done|]. unfold conversation. cbn. by rewrite He. Qed.

Lemma conversation_answered sock es :
  answered sock es → ∃ t, conversation es = EvReply <$> answer_of sock t.
Proof.
  intros [Hf [t Ht]]. exists t. rewrite <-Ht. clear Ht. induction Hf as [|e es He _ IH]; [done|].
  destruct e; try done; cbn; by f_equal.
Qed.

(** A connection is accepted, answered, once if it can be written to, and closed. *)
Definition served (sock : conn) (es : list event) : Prop :=
  ∃ t, es = EvAccept :: (EvReply <$> answer_of sock t) ++ [EvCloseConn].

Section Connections.
Context {E : Env}.

Lemma offline_log p text : emits offline (log_message p text).
Proof. by apply emits_emit. Qed.
Lemma offline_fatal {A} text : emits (A:=A) offline (fatal_error text).
Proof. unfold fatal_error. emits. Qed.
Lemma offline_fatal_errno {A} ctx err : emits (A:=A) offline (fatal_errno ctx err).
Proof. unfold fatal_errno. emits. Qed.
Hint Resolve offline_log offline_fatal offline_fatal_errno : emits.

Lemma offline_check : emits offline check_clients.
Proof.
  unfold check_clients. apply emits_bind; [emits|]. intros cs.
  induction cs as [|c cs IH]; cbn [check_from]; unfold ms_since; emits.
Qed.

Lemma offline_feed timer err : emits offline (feed timer err).
Proof. unfold feed. emits. Qed.

Lemma offline_pending : emits offline enter_pending.
Proof. unfold enter_pending. emits. Qed.

Lemma offline_shutdown io : emits offline (shutdown io).
Proof. unfold shutdown, activate_reboot, log_failure. emits. Qed.

Lemma offline_signal sig : emits offline (signal_handler sig).
Proof. unfold signal_handler. emits. Qed.

(** One connection, unless it crashes the broker. *)
Lemma serve_conversation server s o s1 :
  wf_table (clients s) → serve server s = (o, s1) → o ≠ Undef →
  ∃ es bs, trace s1 = trace s ++ es ∧ Forall2 served (accepted server) bs ∧ conversation es = concat bs.
Proof.
  intros Hw Hs Ho. destruct server as [[sock|errno text]|].
  - unfold serve, emit in Hs. mrun in Hs. set (s0 := add_event EvAccept s) in *.
    assert (∃ s2 es, handle_command sock s0 = (Ret tt, s2) ∧ trace s2 = trace s0 ++ es ∧ answered sock es)
      as (s2 & es & He & Ht & Ha).
    { destruct (conn_peer sock) as [creds|err] eqn:Hp.
      - destruct (handle_command_outcome sock creds s0 Hw Hp) as [Hu|(s2 & es & He & Hout)].
        + exfalso. rewrite Hu in Hs. by injection Hs as <- _.
        + exists s2, es. split; [done|]. split; apply Hout.
      - destruct (handle_command_no_peer sock err s0 Hp) as (es & He & Ha). by exists (with_events es s0), es. }
    rewrite He in Hs. injection Hs as _ <-. destruct (conversation_answered sock es Ha) as [t Hc].
    exists ([EvAccept] ++ es ++ [EvCloseConn]), [EvAccept :: (EvReply <$> answer_of sock t) ++ [EvCloseConn]].
    split; [cbn [trace add_event]; rewrite Ht; cbn; by rewrite <-!app_assoc|]. split.
    + apply Forall2_cons. split; [by exists t|apply Forall2_nil; exact I].
    + cbn [concat]. rewrite !conversation_app, Hc, app_nil_r. done.
  - destruct (emits_eq offline (serve (Some (AcceptErr errno text))) s o s1) as (es & Ht & Hf);
      [unfold serve; emits|done|].
    exists es, []. split; [done|]. split; [constructor|by apply conversation_offline].
  - injection Hs as _ <-. exists [], []. rewrite app_nil_r. split; [done|]. split; [constructor|done].
Qed.

Lemma quiet_conversation (s s' : broker) :
  (∃ es, trace s' = trace s ++ es ∧ Forall offline es) →
  ∃ es bs, trace s' = trace s ++ es ∧ Forall2 served [] bs ∧ conversation es = concat bs.
Proof.
  intros (es & Ht & Hf). exists es, []. split; [done|]. split; [constructor|by apply conversation_offline].
Qed.

Lemma iteration_conversation w s o s' :
  wf_table (clients s) → iteration w s = (o, s') → o ≠ Undef →
  ∃ es bs, trace s' = trace s ++ es ∧ Forall2 served (wake_conns w) bs ∧ conversation es = concat bs.
Proof.
  intros Hw Hi Ho. destruct w as [[errno text|server timer] err]; unfold wake_conns; cbn [wk_select].
  { apply quiet_conversation. unfold iteration in Hi. cbn [wk_select] in Hi.
    eapply emits_eq; [|exact Hi]. emits. }
  unfold iteration in Hi. cbn [wk_select wk_feed] in Hi. rewrite bind_eq in Hi.
  destruct (serve server s) as [o1 s1] eqn:Hs.
  assert (o1 ≠ Undef) as Ho1 by (intros ->; injection Hi as <- _; done).
  destruct (serve_conversation server s o1 s1 Hw Hs Ho1) as (es & bs & Ht & Hb & Hc).
  assert (∃ es', trace s' = trace s1 ++ es' ∧ Forall offline es') as (es' & Ht' & Hf).
  { destruct o1 as [[]|x|]; [|injection Hi as _ <-; exists []; by rewrite app_nil_r|done].
    eapply (emits_eq offline (check_clients ;; feed timer err)); [|exact Hi].
    apply emits_bind; [apply offline_check|intros; apply offline_feed]. }
  exists (es ++ es'), bs. rewrite Ht', Ht, app_assoc, conversation_app, (conversation_offline es'), app_nil_r
    by done. done.
Qed.

Lemma lstep_conversation cs ph s ph' s' :
  wf_table (clients s) → lstep cs (ph, s) (ph', s') → ph' ≠ Crashed →
  ∃ es bs, trace s' = trace s ++ es ∧ Forall2 served cs bs ∧ conversation es = concat bs.
Proof.
  intros Hw Hs Hph.
  inversion Hs as [w ? o ? _ _ He|? o ? _ He|? _|io ? o ? _ _ He|io ? o ? _ He|sig ? ? o ? _ He]; subst.
  - apply (iteration_conversation w s o s' Hw He). by intros ->.
  - apply quiet_conversation. by eapply emits_eq; [apply offline_pending|].
  - apply quiet_conversation. exists [EvSync]. by repeat constructor.
  - apply quiet_conversation. by eapply emits_eq; [apply offline_shutdown|].
  - apply quiet_conversation. by eapply emits_eq; [apply offline_shutdown|].
  - apply quiet_conversation. by eapply emits_eq; [apply offline_signal|].
Qed.

(** Nothing follows a crash. *)
Lemma crashed_stuck cs s d : lruns cs (Crashed, s) d → d = (Crashed, s).
Proof.
  intros H. inversion H as [|? ? ? ? ? Hs]; subst; [done|]. inversion Hs as [| | | | |? ? ? ? ? Hph]; subst.
  by destruct Hph.
Qed.

Lemma lruns_conversation cs d d' :
  lruns cs d d' → wf_table (clients d.2) → d'.1 ≠ Crashed →
  ∃ es bs, trace d'.2 = trace d.2 ++ es ∧ Forall2 served cs bs ∧ conversation es = concat bs.
Proof.
  induction 1 as [d|cs1 [p1 s1] [p2 s2] cs2 [p3 s3] H H2 IH]; cbn [fst snd] in *; intros Hw Hp.
  { exists [], []. rewrite app_nil_r. split; [done|]. split; [constructor|done]. }
  assert (p2 ≠ Crashed) as Hp2 by (intros ->; apply crashed_stuck in H2; congruence).
  destruct (lstep_conversation cs1 p1 s1 p2 s2 Hw H Hp2) as (es1 & bs1 & Ht1 & Hb1 & Hc1).
  destruct IH as (es2 & bs2 & Ht2 & Hb2 & Hc2); [|done|].
  { apply (table_step_keeps s1 s2 Hw), (dstep_table p1 s1 p2 s2 Hw), lstep_dstep. by exists cs1. }
  exists (es1 ++ es2), (bs1 ++ bs2). rewrite Ht2, Ht1, app_assoc. split; [done|].
  split; [by apply Forall2_app|]. by rewrite conversation_app, Hc1, Hc2, concat_app.
Qed.
End Connections.

(** C21: the broker talks to one client at a time and leaves nobody without an answer:
    in any run that has not crashed, what was accepted, answered and closed since it
    began is one conversation per connection, in the order in which they came; each
    of them is accepted, gets exactly one answer, or none if writing to it fails, and
    is closed before the next one is accepted. *)
Theorem connections_served_in_order `{Env} cs s ph s' :
  wf_table (clients s) → lruns cs (Looping, s) (ph, s') → ph ≠ Crashed →
  ∃ es bs, trace s' = trace s ++ es ∧ Forall2 served cs bs ∧ conversation es = concat bs.
Proof. intros Hw Hr. by apply (lruns_conversation cs (Looping, s) (ph, s')). Qed.
