(* ===== verification/Secrecy.v ===== *)
(** * What clients are told

    An identifier is all it takes to speak for a client without PID check, so that it
    matters whom the broker tells which: a process without privileges hears from
    [handle_command] either one of the fixed texts of the protocol or, after its
    own registration, its own identifier. *)

From S2P Require Import Prelude CString Scanf Common World ClientId Registry Status.
From S2P Require Import Handlers Requests Daemon Spec Silence Connections.

(** The texts of the protocol that do not depend on the state of the broker. *)
Definition notices : list bytes :=
  [lit "OK\n"; lit "ERROR reading peercred\n"; lit "ERROR no input\n"; lit "ERROR unknown command\n";
   lit "ERROR invalid syntax\n"; lit "ERROR invalid REGISTER syntax\n"; lit "ERROR invalid timeout\n";
   lit "ERROR invalid client name\n"; lit "ERROR invalid clientID length\n";
   lit "ERROR invalid clientID format\n"; lit "ERROR unknown clientID\n"; lit "ERROR wrong PID\n";
   lit "ERROR no permission\n"; lit "ERROR rejected\n";
   lit "wd-broker_version=2.1.0\nprotocol_version=1.0\n"].

Ltac notice := apply (bool_decide_unpack _); vm_compute; exact I.

(** Nothing but notices is sent. *)
Definition noticed (e : event) : Prop := match e with EvReply t => t ∈ notices | _ => True end.

Lemma parse_register_notice arg err : parse_register arg = inl err → err ∈ notices.
Proof.
  unfold parse_register. destruct (sscanf arg _) as [n vs].
  repeat case_match; intros [= <-]; notice.
Qed.

Lemma scan_clientID_notice arg err : scan_clientID arg = inl err → err ∈ notices.
Proof.
  unfold scan_clientID. destruct (sscanf arg _) as [n vs].
  repeat case_match; intros [= <-]; notice.
Qed.

Section Secrecy.
Context {E : Env}.

Lemma noticed_log p text : emits noticed (log_message p text).
Proof. by apply emits_emit. Qed.

Lemma noticed_write sock text : text ∈ notices → emits noticed (write_str sock text).
Proof.
  intros Ht. unfold write_str. destruct (conn_wfail sock); [apply noticed_log|by apply emits_emit].
Qed.
Hint Resolve noticed_log : emits.
Hint Extern 1 (emits noticed (write_str _ _)) => (apply noticed_write; notice) : emits.

Lemma noticed_parse_clientID buf cmd sock : emits noticed (parse_clientID buf cmd sock).
Proof.
  unfold parse_clientID. destruct (scan_clientID _) as [err|id] eqn:Es; [|emits].
  apply emits_bind; [apply noticed_write; by eapply scan_clientID_notice|intros; emits].
Qed.

Lemma noticed_by_id id pid : emits noticed (get_clientInstance_by_clientID id pid).
Proof. unfold get_clientInstance_by_clientID. emits. Qed.
Hint Resolve noticed_parse_clientID noticed_by_id : emits.

Lemma noticed_ping sock creds buf : emits noticed (handle_ping sock creds buf).
Proof. unfold handle_ping. emits. Qed.

Lemma noticed_unregister sock creds buf : emits noticed (handle_unregister sock creds buf).
Proof. unfold handle_unregister. emits. Qed.

Lemma noticed_reboot sock creds buf : cr_uid creds ≠ 0 → emits noticed (handle_reboot sock creds buf).
Proof.
  intros Hu. unfold handle_reboot. rewrite (proj2 (Z.eqb_neq _ _) Hu). cbn [negb]. emits.
Qed.

Lemma noticed_status sock creds buf :
  cr_uid creds ≠ 0 → cr_pid creds ≠ 0 → emits noticed (handle_status sock creds buf).
Proof.
  intros Hu Hp. unfold handle_status. rewrite (proj2 (Z.eqb_neq _ _) Hu), (proj2 (Z.eqb_neq _ _) Hp).
  cbn [negb andb]. emits.
Qed.

Lemma noticed_version sock buf : emits noticed (handle_version sock buf).
Proof.
  intros s. rewrite handle_version_eq. eexists [_]. split; [reflexivity|]. constructor; [|constructor].
  destruct (_ =? 1); unfold reply_event, send_event; destruct (conn_wfail sock); try done; cbn; notice.
Qed.

(** The sender has just been registered in this slot. *)
Definition own_slot (creds : ucred) (s s' : broker) (t : bytes) : Prop :=
  ∃ i c, clients s' !! i = Some c ∧ cl_active c = true ∧ cl_pid c = cr_pid creds ∧
    cl_last_ping c = env_now (now_ix s) ∧ t = ok_reply (cl_clientID c).

Definition told (creds : ucred) (s s' : broker) (e : event) : Prop :=
  match e with EvReply t => t ∈ notices ∨ own_slot creds s s' t | _ => True end.

Lemma noticed_told creds s s' e : noticed e → told creds s s' e.
Proof. destruct e; try done. by left. Qed.

Lemma emits_told {A} (m : B A) creds s : 
  emits noticed m → ∃ es, trace (m s).2 = trace s ++ es ∧ Forall (told creds s (m s).2) es.
Proof.
  intros Hm. destruct (Hm s) as (es & Ht & Hf). exists es. split; [done|].
  eapply Forall_impl; [exact Hf|]. apply noticed_told.
Qed.

Lemma reply_noticed sock t (P : event → Prop) :
  (∀ p l, P (EvLog p l)) → (conn_wfail sock = None → P (EvReply t)) → P (reply_event sock t).
Proof. intros H1 H2. unfold reply_event. destruct (conn_wfail sock); auto. Qed.

Lemma register_told sock creds buf s :
  let s' := (handle_register sock creds buf s).2 in
  ∃ es, trace s' = trace s ++ es ∧ Forall (told creds s s') es.
Proof.
  destruct (parse_register (drop (strlen CMD_REGISTER) buf)) as [err|[[name t] chk]] eqn:Ep.
  { rewrite (handle_register_bad _ _ _ _ _ Ep). eexists [_]. split; [done|]. constructor; [|constructor].
    apply reply_noticed; [done|]. left. by eapply parse_register_notice. }
  destruct (slot_spec (config s) (clients s) name) as [i|] eqn:Es.
  - destruct (slot_spec_cases _ _ _ _ Es) as (c & Hc & _).
    destruct (handle_register_ok sock creds buf s name t chk i c Ep Es Hc)
      as (s' & l & -> & Hsd & Hcl & _). cbn [snd].
    eexists. split; [exact (sd_trace _ _ _ Hsd)|]. constructor; [done|]. constructor; [|constructor].
    apply reply_noticed; [done|]. intros _. right. exists i. eexists.
    split; [rewrite Hcl; apply list_lookup_insert_eq; by eapply lookup_lt_Some|split_and!; reflexivity].
  - destruct (handle_register_rejected sock creds buf s name t chk Ep Es) as (es & Hlog & ->). cbn [snd].
    eexists. split; [done|]. apply Forall_app. split.
    + eapply Forall_impl; [exact Hlog|]. by intros [].
    + constructor; [|constructor]. apply reply_noticed; [done|]. intros _. left. notice.
Qed.

Lemma dispatch_told sock creds buf s :
  cr_uid creds ≠ 0 → cr_pid creds ≠ 0 →
  let s' := (dispatch sock creds buf s).2 in
  ∃ es, trace s' = trace s ++ es ∧ Forall (told creds s s') es.
Proof.
  intros Hu Hp. unfold dispatch. destruct (is_command CMD_REGISTER buf); [apply register_told|].
  apply emits_told. repeat (case_match; [auto using noticed_ping, noticed_unregister, noticed_reboot,
    noticed_status, noticed_version|]). apply noticed_write. notice.
Qed.
End Secrecy.

