(* ===== verification/Alarms.v ===== *)
(** * No false alarms

    The converse of Silence.v, for whole runs: supervision fails for a client only
    when the client really was silent for longer than its timeout.  The heart is an
    invariant of the table: the last heartbeat of every live slot is an earlier
    reading of the clock, so that the 32-bit age of ms_since cannot wrap while the
    clock is monotonic. *)

From S2P Require Import Prelude CString Scanf Common World ClientId Registry Identifiers Status.
From S2P Require Import Handlers Requests ConfigFile Daemon Timing Life Spec Getopt Startup StartupFacts Main.
From S2P Require Import Runs Silence.

Section Stamps.
Context {E : Env}.

(** Heartbeats are stamped with readings the daemon has made. *)
Definition stamped (s : broker) : Prop :=
  ∀ i c, clients s !! i = Some c → live c = true →
    ∃ m, (m < now_ix s)%nat ∧ cl_last_ping c = env_now m.

Lemma stamped_idle s s' :
  clients s' = clients s → (now_ix s ≤ now_ix s')%nat → stamped s → stamped s'.
Proof.
  intros Hc Hn Hs i c Hi Hl. rewrite Hc in Hi. destruct (Hs i c Hi Hl) as (m & Hm & He).
  exists m. split; [lia|done].
Qed.

Lemma stamped_update s s' j d :
  clients s' = <[j := d]> (clients s) → (now_ix s ≤ now_ix s')%nat →
  (live d = true → ∃ m, (m < now_ix s')%nat ∧ cl_last_ping d = env_now m) → stamped s → stamped s'.
Proof.
  intros Hc Hn Hd Hs i c Hi Hl. rewrite Hc in Hi.
  apply list_lookup_insert_Some in Hi as [(_ & <- & _)|[_ Hi]]; [by apply Hd|].
  destruct (Hs i c Hi Hl) as (m & Hm & He). exists m. split; [lia|done].
Qed.

Lemma stamped_alter s s' j f :
  clients s' = alter f j (clients s) → (now_ix s ≤ now_ix s')%nat →
  (∀ d, clients s !! j = Some d → live (f d) = true →
     ∃ m, (m < now_ix s')%nat ∧ cl_last_ping (f d) = env_now m) → stamped s → stamped s'.
Proof.
  intros Hc Hn Hd Hs. destruct (clients s !! j) as [d|] eqn:Hj.
  - apply (stamped_update s s' j (f d)); auto. by rewrite Hc, (list_alter_known _ _ _ _ Hj).
  - intros i c Hi Hl. rewrite Hc in Hi. destruct (decide (j = i)) as [<-|Hne].
    + by rewrite list_lookup_alter_eq, Hj in Hi.
    + rewrite list_lookup_alter_ne in Hi by done. destruct (Hs i c Hi Hl) as (m & Hm & He).
      exists m. split; [lia|done].
Qed.

(** Slots without a live client need no stamp. *)
Lemma stamped_empty s n : clients s = replicate n client_zero → stamped s.
Proof. intros Hc i c Hi. rewrite Hc in Hi. by apply lookup_replicate in Hi as [-> _]. Qed.

(** *** Requests *)

Lemma register_stamped sock creds buf s name t chk :
  parse_register (drop (strlen CMD_REGISTER) buf) = inr (name, t, chk) →
  stamped s → stamped (handle_register sock creds buf s).2.
Proof.
  intros Hp Hs. destruct (slot_spec (config s) (clients s) name) as [j|] eqn:Hsl.
  - destruct (slot_spec_cases _ _ _ _ Hsl) as (d & Hd & _).
    destruct (handle_register_ok sock creds buf s name t chk j d Hp Hsl Hd)
      as (s' & l & -> & _ & Hcl & Hn & _). cbn [snd].
    apply (stamped_update s s' j _ Hcl); [lia| |done]. intros _. exists (now_ix s). split; [lia|done].
  - destruct (handle_register_rejected sock creds buf s name t chk Hp Hsl) as (es & _ & ->).
    by apply (stamped_idle s).
Qed.

Lemma ping_stamped sock creds buf s id :
  scan_clientID (drop (strlen CMD_PING) buf) = inr id → stamped s →
  stamped (handle_ping sock creds buf s).2.
Proof.
  intros Hsc Hs. pose proof (handle_ping_eq sock creds buf s id Hsc) as He.
  destruct (find_clientID _ _ _ _) as [j|j|].
  - rewrite He. cbn [snd]. apply (stamped_alter s _ j (set_last_ping (env_now (now_ix s)))); [done| | |done].
    + cbn. lia.
    + intros d _ _. exists (now_ix s). split; [cbn; lia|done].
  - destruct He as [l ->]. by apply (stamped_idle s).
  - rewrite He. by apply (stamped_idle s).
Qed.

Lemma unregister_stamped sock creds buf s id :
  scan_clientID (drop (strlen CMD_UNREGISTER) buf) = inr id → stamped s →
  stamped (handle_unregister sock creds buf s).2.
Proof.
  intros Hsc Hs. destruct (handle_unregister_eq sock creds buf s id Hsc) as (es1 & es2 & _ & _ & ->).
  destruct (unregister_allowed _ _ _) as [j|]; [|by apply (stamped_idle s)].
  by apply (stamped_alter s _ j deactivate).
Qed.

Lemma dispatch_stamped sock creds buf s : stamped s → stamped (dispatch sock creds buf s).2.
Proof.
  intros Hs. assert (∀ es, stamped (with_events es s)) as Hev by (intros es; by apply (stamped_idle s)).
  unfold dispatch. destruct (is_command CMD_REGISTER buf).
  { destruct (parse_register (drop (strlen CMD_REGISTER) buf)) as [err|[[name t] chk]] eqn:Ep.
    - rewrite (handle_register_bad _ _ _ _ _ Ep). by apply (stamped_idle s).
    - exact (register_stamped sock creds buf s name t chk Ep Hs). }
  destruct (is_command CMD_PING buf).
  { destruct (scan_clientID (drop (strlen CMD_PING) buf)) as [err|id] eqn:Ei.
    - rewrite (handle_ping_bad _ _ _ _ _ Ei). by apply (stamped_idle s).
    - exact (ping_stamped sock creds buf s id Ei Hs). }
  destruct (is_command CMD_UNREGISTER buf).
  { destruct (scan_clientID (drop (strlen CMD_UNREGISTER) buf)) as [err|id] eqn:Ei.
    - rewrite (handle_unregister_bad _ _ _ _ _ Ei). by apply (stamped_idle s).
    - exact (unregister_stamped sock creds buf s id Ei Hs). }
  destruct (is_command CMD_REBOOT buf).
  { destruct (decide (cr_uid creds ≠ 0 ∨ fst (sscanf (drop (strlen CMD_REBOOT) buf) (lit " %15s")) = 1))
      as [Hr|Hr].
    - destruct (handle_reboot_refused sock creds buf s Hr) as [es ->]. by apply (stamped_idle s).
    - rewrite handle_reboot_eq by (destruct (decide (cr_uid creds = 0)); tauto). by apply (stamped_idle s). }
  destruct (is_command CMD_STATUS buf).
  { destruct (handle_status_events sock creds buf s) as [->|(es & -> & _)]; by apply (stamped_idle s). }
  destruct (is_command CMD_VERSION buf).
  - rewrite handle_version_eq. by apply (stamped_idle s).
  - rewrite write_str_eq. by apply (stamped_idle s).
Qed.

Lemma handle_command_stamped sock s : stamped s → stamped (handle_command sock s).2.
Proof.
  intros Hs. destruct (conn_peer sock) as [creds|err] eqn:Hp.
  - unfold handle_command. rewrite Hp. destruct (read_with_timeout _ _ _ _) as [len buf].
    destruct (len <=? 0); [|by apply dispatch_stamped]. rewrite write_str_eq. by apply (stamped_idle s).
  - destruct (handle_command_no_peer sock err s Hp) as (es & -> & _). by apply (stamped_idle s).
Qed.

(** *** The life of the daemon *)

Lemma serve_stamped server s : stamped s → stamped (serve server s).2.
Proof.
  intros Hs. destruct server as [[sock|errno text]|]; unfold serve; [| |done].
  - unfold emit. mrun. set (s0 := add_event EvAccept s).
    assert (stamped s0) as H0 by by apply (stamped_idle s).
    pose proof (handle_command_stamped sock s0 H0) as H1.
    destruct (handle_command sock s0) as [[[]|x|] s2]; [by apply (stamped_idle s2)|done|done].
  - destruct (accept_transient errno); [done|]. by apply (stamped_idle s).
Qed.

Lemma iteration_stamped w s : stamped s → stamped (iteration w s).2.
Proof.
  intros Hs. destruct w as [[errno text|server timer] err]; unfold iteration; cbn [wk_select wk_feed].
  { destruct (negb _); [|done]. by apply (stamped_idle s). }
  rewrite bind_eq. pose proof (serve_stamped server s Hs) as H1.
  destruct (serve server s) as [[[]|x|] s1]; [|done|done]. cbn [snd] in H1.
  destruct (check_clients_spec s1) as (s2 & es & Hc & _ & Hcl & _ & _ & _ & _ & _ & _ & Hn & _).
  rewrite bind_eq, Hc. destruct (feed timer err s2) as [o s3] eqn:Hf. cbn [snd].
  pose proof (feed_table _ _ _ _ _ Hf) as Hft. pose proof (advances_eq _ _ _ _ (advances_feed timer err) Hf).
  apply (stamped_idle s1); [|lia|done]. by rewrite (st_clients _ _ Hft).
Qed.

Lemma dsteps_stamped d d' : dsteps d d' → stamped d.2 → stamped d'.2.
Proof.
  induction 1 as [d|d1 d2 d3 H _ IH]; [done|]. intros Hs. apply IH. clear IH.
  pose proof (proj1 (lstep_dstep _ _) H) as [cs Hl]. apply lstep_clock in Hl.
  destruct H as [w s o s' _ _ He|s o s' _ He|s _|io s o s' _ _ He|io s o s' _ He|sig ph s o s' _ He];
    cbn [snd] in *.
  - pose proof (iteration_stamped w s Hs) as Hi. by rewrite He in Hi.
  - rewrite enter_pending_eq in He. injection He as _ <-. by apply (stamped_idle s).
  - by apply (stamped_idle s).
  - destruct (shutdown_spec io s) as (s3 & es3 & Hsd & Hrel). rewrite Hsd in He. injection He as _ <-.
    by apply (stamped_idle s); [apply Hrel|..].
  - destruct (shutdown_spec io s) as (s3 & es3 & Hsd & Hrel). rewrite Hsd in He. injection He as _ <-.
    by apply (stamped_idle s); [apply Hrel|..].
  - rewrite signal_handler_eq in He. injection He as _ <-. by apply (stamped_idle s).
Qed.

(** *** The configuration file *)

Lemma keeps_stamped_config f : keeps stamped (modify_config f).
Proof. apply keeps_modify. intros s. by apply stamped_idle. Qed.

Lemma keeps_stamped_timeout i t : keeps stamped (modify (alter_client i (set_timeout_ms t))).
Proof.
  apply keeps_modify. intros s Hs. apply (stamped_alter s _ i (set_timeout_ms t)); [done|done| |done].
  intros d Hd Hl. by apply (Hs i d Hd).
Qed.

Lemma parse_option_stamped k v i ln : keeps stamped (parse_option k v i ln).
Proof.
  unfold parse_option.
  repeat (apply keeps_stamped_config || apply keeps_stamped_timeout || keeps_step).
Qed.

Lemma parse_client_section_stamped fn tr name i ln m :
  keeps stamped (parse_client_section fn tr name i ln m).
Proof.
  unfold parse_client_section. repeat (case_match; [apply keeps_fatal|]).
  intros s a s' Hs. unfold make_clientID, get_now. mrun. intros [= _ <-].
  eapply (stamped_alter s); [reflexivity|cbn; lia| |done].
  intros d _ _. exists (now_ix s). split; [cbn; lia|done].
Qed.

Lemma parse_lines_stamped fn ls i ln m : keeps stamped (parse_lines fn ls i ln m).
Proof.
  revert i ln. induction ls as [|l ls IH]; intros i ln; cbn [parse_lines]; [apply keeps_ret|].
  apply keeps_bind; [|auto]. unfold parse_line.
  repeat (apply parse_option_stamped || apply parse_client_section_stamped || keeps_step).
Qed.

Lemma parse_config_stamped fn file m s s' :
  parse_config fn file m s = (Ret tt, s') → stamped s'.
Proof.
  destruct file as [content|]; [|done]. unfold parse_config. intros H.
  apply bind_ret_inv in H as (? & s1 & [= _ <-] & H).
  apply bind_ret_inv in H as (? & s2 & [= _ <-] & H).
  assert (stamped (set_config config_defaults (set_clients (replicate m client_zero) s))) as H0
    by by eapply stamped_empty.
  eapply keeps_bind; [apply parse_lines_stamped| |exact H0|exact H].
  intros idx. cbv beta. repeat keeps_step.
Qed.

Lemma startup_stamped ov ff e1 e2 pu cr po dir o argv s :
  startup ov ff e1 e2 pu cr po dir o argv broker_init = (Ret tt, s) → stamped s.
Proof.
  intros Hs.
  destruct (startup_ret _ _ _ _ _ _ _ _ _ _ _ _ Hs)
    as (st & pw & s1 & s2 & cst & _ & _ & _ & _ & _ & Hcfg & Hr & _).
  apply (stamped_idle s2); [apply Hr|by rewrite (ca_now_ix _ _ _ Hr)|by eapply parse_config_stamped].
Qed.
End Stamps.

(** ** Why supervision fails *)

Section Reasons.
Context {E : Env}.

(** A monotonic clock, up to its [n]-th reading, over less than 49 days. *)
Definition clock_ok (n : nat) : Prop :=
  ∀ k m, (k ≤ m < n)%nat → wf_timespec (env_now k) ∧ wf_timespec (env_now m) ∧
    0 ≤ ns_of (env_now m) - ns_of (env_now k) ≤ (2 ^ 32 - 2) * 10 ^ 6.

(** A live client that is found late, with a sane clock, has been silent for longer
    than its timeout. *)
Lemma late_is_late s i c n :
  wf_table (clients s) → stamped s → clients s !! i = Some c → live c = true →
  (now_ix s ≤ n)%nat → clock_ok (S n) → ¬ on_time n c →
  cl_timeout_ms c * 10 ^ 6 < ns_of (env_now n) - ns_of (cl_last_ping c).
Proof.
  intros Hw Hs Hc Hl Hn Hok Hlate. destruct (Hs i c Hc Hl) as (m & Hm & He).
  destruct (Hok m n ltac:(lia)) as (H1 & H2 & H3). apply Z.nle_gt. intros Hle. apply Hlate.
  apply elapsed_on_time; rewrite ?He in *; [|done|done|lia].
  exact (wf_timeout c (wf_table_lookup _ _ _ Hw Hc) Hl).
Qed.

(** The check fails because of a client it reports, at one of its readings. *)
Lemma check_blames s s' :
  check_clients s = (Ret tt, s') → all_ok s = true → all_ok s' = false →
  ∃ i c n, clients s !! i = Some c ∧ live c = true ∧ (now_ix s ≤ n < now_ix s')%nat ∧ ¬ on_time n c ∧
    late_report c (ms_between (env_now n) (cl_last_ping c)) ∈ trace s'.
Proof.
  unfold check_clients. mrun. intros He Hok Hbad.
  destruct (check_from_spec (clients s) s) as [[_ Heq]|(j & c & Hj & Hl & _ & Heq)];
    rewrite Heq in He; injection He as <-.
  { cbn in Hbad. congruence. }
  pose proof (list_elem_of_lookup_2 _ _ _ Hj) as Hin. apply filter_lookup_live in Hin as (i & Hi & Hlive).
  exists i, c, (now_ix s + j)%nat. split_and!; [done|done|lia|cbn; lia|done|].
  cbn [trace set_all_ok add_event set_now_ix]. apply elem_of_app. right. by left.
Qed.

Definition select_failed (w : wake) : Prop :=
  ∃ errno text, wk_select w = SelErr errno text ∧ errno ≠ EINTR.

Definition accept_failed (w : wake) : Prop :=
  ∃ errno text timer, wk_select w = SelOk (Some (AcceptErr errno text)) timer ∧
    accept_transient errno = false.

(** A round in which supervision fails. *)
Lemma round_blames w s o s' :
  wf_table (clients s) → stamped s → all_ok s = true → iteration w s = (o, s') → all_ok s' = false →
  clock_ok (now_ix s') →
  select_failed w ∨ accept_failed w ∨
  ∃ i c n, clients s' !! i = Some c ∧ live c = true ∧ (now_ix s ≤ n < now_ix s')%nat ∧
    cl_timeout_ms c * 10 ^ 6 < ns_of (env_now n) - ns_of (cl_last_ping c) ∧
    late_report c (ms_between (env_now n) (cl_last_ping c)) ∈ trace s'.
Proof.
  intros Hw Hs Hok Hi Hbad Hclock. destruct w as [[errno text|server timer] err].
  { left. exists errno, text. split; [done|]. intros ->. unfold iteration in Hi. cbn in Hi.
    injection Hi as _ <-. congruence. }
  right. unfold iteration in Hi. cbn [wk_select wk_feed] in Hi. rewrite bind_eq in Hi.
  pose proof (serve_stamped server s Hs) as Hs1.
  destruct (serve_spec server s Hw) as [(s1 & He & es1 & Hl1 & _)|(s1 & es1 & He & Hl1 & _)];
    pose proof (advances_eq _ _ _ _ (advances_serve server) He) as Hn1; rewrite He in Hi, Hs1; cbn [snd] in Hs1.
  { injection Hi as <- <-. exfalso. destruct server as [[sock|errno text]|].
    - unfold serve, emit in He. mrun in He.
      destruct (handle_command sock (add_event EvAccept s)) as [[[]|x|] s2] eqn:Hh; try done.
      injection He as <-. pose proof (handle_command_all_ok sock (add_event EvAccept s) _ s2 Hw Hh) as Ha.
      cbn in Ha. congruence.
    - unfold serve in He. by destruct (accept_transient errno).
    - done. }
  destruct (check_clients_spec s1) as (s2 & es2 & Hc & _ & Hcl & _ & _ & _ & _ & _ & _ & Hn2 & Ht2 & _).
  rewrite bind_eq, Hc in Hi.
  destruct (feed_untouched 0 client_zero timer err s2 o s' Hi) as (_ & Hn3 & _ & Ha3 & es3 & Ht3 & _).
  pose proof (feed_table _ _ _ _ _ Hi) as Hft.
  destruct (all_ok s1) eqn:Ha1.
  - right. destruct (check_blames s1 s2 Hc Ha1 ltac:(congruence)) as (i & c & n & Hci & Hl & Hn & Hlate & Hin).
    exists i, c, n. rewrite (st_clients _ _ Hft), Hcl. split_and!; try done; [lia|lia| |].
    + apply (late_is_late s1 i c n); try done; [by apply Hl1|lia|].
      intros k m Hkm. apply Hclock. lia.
    + rewrite Ht3. apply elem_of_app. by left.
  - left. destruct server as [[sock|errno text]|]; unfold serve in He.
    + exfalso. unfold emit in He. mrun in He.
      destruct (handle_command sock (add_event EvAccept s)) as [[[]|x|] s3] eqn:Hh; try done.
      injection He as <-. pose proof (handle_command_all_ok sock (add_event EvAccept s) _ s3 Hw Hh) as Ha.
      cbn in Ha, Ha1. congruence.
    + exists errno, text, timer. split; [done|]. destruct (accept_transient errno); [|done].
      injection He as <-. congruence.
    + injection He as <-. congruence.
Qed.
End Reasons.

