(* ===== verification/Punctual.v ===== *)
(** * Clients that keep their promise

    The other half of what the broker is for, from the clients' point of view: as
    long as every announced or registered client gets a sign of life through to the
    broker within its timeout (it was announced, it was told its identifier, or it
    sent a PING), the watchdog is fed whenever the timer fires.  What a client has
    sent and was told is a log of the requests of the run; that the table knows at
    least as much as this log is an invariant. *)

From S2P Require Import Prelude CString Scanf Common World ClientId Registry Identifiers Status.
From S2P Require Import Handlers Requests ConfigFile Daemon Timing Life Spec Getopt Startup StartupFacts Main.
From S2P Require Import Runs Silence Alarms.

(** ** Signs of life *)

Inductive sign : Type :=
  | Announced (id : bytes)                (* a section of the configuration file *)
  | Welcomed (answer : bytes)             (* what a REGISTER request was answered *)
  | Heard (creds : ucred) (id : bytes).   (* a PING request *)

(** The sign is [c]'s: its identifier was announced or told, or sent by a process
    that may speak for it. *)
Definition sign_of (c : client_t) (sg : sign) : bool :=
  match sg with
  | Announced id => bytes_eqb id (cl_clientID c)
  | Welcomed answer => bytes_eqb answer (ok_reply (cl_clientID c))
  | Heard creds id => has_clientID id c && pid_ok c (cr_pid creds)
  end.

(** The request a connection brings, when its peer is known and it can be read. *)
Definition heard_request (sock : conn) : option (ucred * request) :=
  match conn_peer sock with
  | inl creds => let '(len, buf) := received sock in
                 if len <=? 0 then None else Some (creds, decode buf)
  | inr _ => None
  end.

Abbreviation signs := (list (sign * timespec)).

Section Punctual.
Context {E : Env}.

(** What serving a connection adds to the log, at the clock reading it begins with. *)
Definition answers (s s1 : broker) : list bytes := replies (drop (length (trace s)) (trace s1)).

Definition request_signs (sock : conn) (s s1 : broker) : list sign :=
  match heard_request sock with
  | Some (creds, ReqPing id) => [Heard creds id]
  | Some (_, ReqRegister _ _ _) => Welcomed <$> answers s s1
  | _ => []
  end.

Definition new_signs (server : option accept_result) (s s1 : broker) : signs :=
  match server with
  | Some (Accepted sock) => (λ sg, (sg, env_now (now_ix s))) <$> request_signs sock s s1
  | _ => []
  end.

(** There was a sign of [c] at most its timeout before the [n]-th reading. *)
Definition attended (L : signs) (n : nat) (c : client_t) : Prop :=
  ∃ sg t, (sg, t) ∈ L ∧ sign_of c sg = true ∧
    ns_of (env_now n) - ns_of t ≤ cl_timeout_ms c * 10 ^ 6.

(** The clients' promise, along rounds of the main loop: whoever is in the table when a
    round checks it has shown a sign of life in time. *)
Fixpoint punctual (L : signs) (ws : list wake) (s : broker) : Prop :=
  match ws with
  | [] => True
  | w :: r =>
      match wk_select w with
      | SelErr _ _ => punctual L r (iteration w s).2
      | SelOk server _ =>
          let s1 := (serve server s).2 in
          let L1 := new_signs server s s1 ++ L in
          (∀ j c, live_clients (clients s1) !! j = Some c → attended L1 (now_ix s1 + j) c) ∧
          punctual L1 r (iteration w s).2
      end
  end.

(** The log when they are over. *)
Fixpoint log_after (L : signs) (ws : list wake) (s : broker) : signs :=
  match ws with
  | [] => L
  | w :: r =>
      let L1 := match wk_select w with
                | SelErr _ _ => L
                | SelOk server _ => new_signs server s (serve server s).2 ++ L
                end in
      log_after L1 r (iteration w s).2
  end.

(** No REBOOT of root, no STATUS beyond the array. *)
Definition harmless_request (s : broker) (creds : ucred) (r : request) : Prop :=
  match r with
  | ReqReboot => cr_uid creds ≠ 0
  | ReqStatus => (length (status_text (config s) (clients s)) < STATUS_MSG_LEN)%nat
  | _ => True
  end.

Definition harmless (s : broker) (server : option accept_result) : Prop :=
  match server with
  | None => True
  | Some (AcceptErr errno _) => accept_transient errno = true
  | Some (Accepted sock) => ∀ creds r, heard_request sock = Some (creds, r) → harmless_request s creds r
  end.

(** The system calls of a round work, a select that was interrupted included. *)
Definition undisturbed (w : wake) (s : broker) : Prop :=
  match wk_select w with
  | SelErr errno _ => errno = EINTR
  | SelOk server timer =>
      harmless s server ∧ wk_feed w = None ∧
      match timer with None => True | Some (size, _) => size = EXPIRATIONS_LEN end
  end.

Fixpoint along (P : wake → broker → Prop) (ws : list wake) (s : broker) : Prop :=
  match ws with [] => True | w :: r => P w s ∧ along P r (iteration w s).2 end.

(** Rounds in sequence, and in how many the timer fired. *)
Fixpoint rounds (ws : list wake) : B unit :=
  match ws with [] => mret tt | w :: r => iteration w ;; rounds r end.

Definition fired (w : wake) : bool :=
  match wk_select w with SelOk _ (Some _) => true | _ => false end.

Definition ticks (ws : list wake) : nat := length (List.filter fired ws).

(** A monotonic clock, up to its [n]-th reading. *)
Definition monotonic (n : nat) : Prop :=
  ∀ k m, (k ≤ m < n)%nat →
    wf_timespec (env_now k) ∧ wf_timespec (env_now m) ∧ ns_of (env_now k) ≤ ns_of (env_now m).

(** ** The table knows the signs *)

(** No sign is from the future, and a live client's heartbeat is not older than any of
    its signs. *)
Record informed (L : signs) (s : broker) : Prop := {
  in_past : ∀ sg t, (sg, t) ∈ L → ∃ m, (m ≤ now_ix s)%nat ∧ t = env_now m;
  in_known : ∀ sg t i c, (sg, t) ∈ L → clients s !! i = Some c → live c = true →
    sign_of c sg = true → ns_of t ≤ ns_of (cl_last_ping c);
}.

Lemma informed_idle L s s' :
  clients s' = clients s → (now_ix s ≤ now_ix s')%nat → informed L s → informed L s'.
Proof.
  intros Hc Hn [H1 H2]. constructor; [|by rewrite Hc].
  intros sg t Hin. destruct (H1 sg t Hin) as (m & Hm & ->). exists m. split; [lia|done].
Qed.

Lemma informed_app L1 L2 s : informed L1 s → informed L2 s → informed (L1 ++ L2) s.
Proof.
  intros [H1 H2] [H3 H4].
  constructor; intros ? ? *; rewrite elem_of_app; intros [?|?]; eauto.
Qed.

(** Requests do not make the table forget: whatever heartbeat changes is the newest. *)
Lemma informed_effect L creds s s' n :
  request_effect creds s (clients s') → (now_ix s ≤ now_ix s')%nat →
  monotonic n → (now_ix s < n)%nat → informed L s → informed L s'.
Proof.
  intros He Hle Hmon Hn [H1 H2]. constructor.
  { intros sg t Hin. destruct (H1 sg t Hin) as (m & Hm & ->). exists m. split; [lia|done]. }
  intros sg t i c Hin Hi Hl Hsg.
  assert (ns_of t ≤ ns_of (env_now (now_ix s))) as Hnew.
  { destruct (H1 sg t Hin) as (m & Hm & ->). apply (Hmon m (now_ix s)). lia. }
  destruct He as [|j d name tm chk _ _ _ _|j d Hj _ _|j d Hj _ _]; [by eapply H2|..];
    (apply list_lookup_insert_Some in Hi as [(<- & <- & _)|[_ Hi]]; [|by eapply H2]); done.
Qed.

(** *** The signs a request adds *)

Lemma decode_ping creds sock buf id :
  decode buf = ReqPing id →
  dispatch sock creds buf = handle_ping sock creds buf ∧
  scan_clientID (drop (strlen CMD_PING) buf) = inr id.
Proof.
  unfold decode, dispatch, with_id, no_arg.
  destruct (is_command CMD_REGISTER buf); [by destruct (parse_register _) as [|[[? ?] ?]]|].
  destruct (is_command CMD_PING buf); [|repeat case_match; discriminate].
  destruct (scan_clientID _) as [|id']; [done|by intros [= ->]].
Qed.

Lemma decode_register creds sock buf name t chk :
  decode buf = ReqRegister name t chk →
  dispatch sock creds buf = handle_register sock creds buf ∧
  parse_register (drop (strlen CMD_REGISTER) buf) = inr (name, t, chk).
Proof.
  unfold decode, dispatch, with_id, no_arg.
  destruct (is_command CMD_REGISTER buf); [|repeat case_match; discriminate].
  destruct (parse_register _) as [|[[? ?] ?]]; [done|by intros [= -> -> ->]].
Qed.

Lemma matching_unique cs id i j c d :
  wf_table cs → ids_unique cs → is_clientID id → cs !! i = Some c → cs !! j = Some d →
  has_clientID id c = true → has_clientID id d = true → i = j.
Proof.
  intros Hw Hu Hid Hc Hd Hhc Hhd. unfold has_clientID in *.
  apply andb_true_iff in Hhc as [Hlc Hec], Hhd as [Hld Hed].
  apply strncmp_eq_clientID in Hec; [|by apply (wf_id c); [eapply wf_table_lookup|]|done].
  apply strncmp_eq_clientID in Hed; [|by apply (wf_id d); [eapply wf_table_lookup|]|done].
  apply (Hu i j c d); congruence.
Qed.

(** After a PING the slot it speaks for, if any, has a new heartbeat. *)
Lemma ping_known sock creds buf s o s' id i c :
  wf_table (clients s) → ids_unique (clients s) → scan_clientID (drop (strlen CMD_PING) buf) = inr id →
  handle_ping sock creds buf s = (o, s') → clients s' !! i = Some c →
  has_clientID id c = true → pid_ok c (cr_pid creds) = true → cl_last_ping c = env_now (now_ix s).
Proof.
  intros Hw Hu Hsc Hh Hi Hid Hpid. pose proof (scan_clientID_shape _ _ Hsc) as Hshape.
  pose proof (handle_ping_eq sock creds buf s id Hsc) as He.
  pose proof (find_clientID_cases (clients s) id (cr_pid creds)) as Hf.
  destruct (find_clientID _ _ _ _) as [j|j|].
  - destruct Hf as (d & Hd & Hhd & _). rewrite He in Hh. injection Hh as _ <-.
    cbn [clients add_event alter_client set_clients set_now_ix] in Hi.
    destruct (decide (j = i)) as [->|Hne].
    + rewrite (list_alter_known _ _ _ d), list_lookup_insert_eq in Hi; [|by eapply lookup_lt_Some|done].
      by injection Hi as <-.
    + rewrite list_lookup_alter_ne in Hi by done. exfalso. apply Hne.
      by eapply (matching_unique (clients s) id j i d c).
  - destruct Hf as (d & Hd & Hhd & Hpd). destruct He as [l He]. rewrite He in Hh. injection Hh as _ <-.
    cbn [clients with_events] in Hi.
    assert (j = i) as -> by by eapply (matching_unique (clients s) id j i d c).
    exfalso. congruence.
  - rewrite He in Hh. injection Hh as _ <-. pose proof (Forall_lookup_1 _ _ _ _ Hf Hi) as Hn.
    cbn in Hn. congruence.
Qed.

Lemma ok_reply_inj id1 id2 : is_clientID id1 → is_clientID id2 → ok_reply id1 = ok_reply id2 → id1 = id2.
Proof.
  intros H1 H2. unfold ok_reply. intros H%(app_inv_head (lit "OK "))%app_inv_tail.
  destruct (is_clientID_cstr id1 H1) as (_ & E1 & _), (is_clientID_cstr id2 H2) as (_ & E2 & _). congruence.
Qed.

(** A client whose identifier is in the answer of a REGISTER request has the
    heartbeat of that request. *)
Lemma register_known sock creds buf s s' name tm chk es t i c :
  wf_table (clients s) → ids_unique (clients s') → wf_table (clients s') →
  parse_register (drop (strlen CMD_REGISTER) buf) = inr (name, tm, chk) →
  handle_register sock creds buf s = (Ret tt, s') → trace s' = trace s ++ es → t ∈ replies es →
  clients s' !! i = Some c → live c = true → t = ok_reply (cl_clientID c) →
  cl_last_ping c = env_now (now_ix s).
Proof.
  intros Hw Hu Hw' Hp Hh Ht Hin Hi Hl ->.
  destruct (slot_spec (config s) (clients s) name) as [j|] eqn:Hs.
  - destruct (slot_spec_cases _ _ _ _ Hs) as (d & Hd & _).
    destruct (handle_register_ok sock creds buf s name tm chk j d Hp Hs Hd)
      as (s2 & l & He & Hsd & Hcl & _). rewrite He in Hh. injection Hh as <-.
    rewrite (sd_trace _ _ _ Hsd) in Ht. apply app_inv_head in Ht as <-.
    set (id := registration_clientID s d) in *.
    pose proof (registration_clientID_ok s j d name Hw Hs Hd) as Hid.
    assert (ok_reply (cl_clientID c) = ok_reply id) as Hwel.
    { unfold reply_event in Hin. destruct (conn_wfail sock); cbn in Hin.
      - by apply elem_of_nil in Hin.
      - by apply list_elem_of_singleton in Hin. }
    apply ok_reply_inj in Hwel; [|by apply (wf_id c); [eapply wf_table_lookup|]|done].
    set (r := registered name (cr_pid creds) chk tm (env_now (now_ix s)) id) in *.
    assert (clients s2 !! j = Some r) as Hj.
    { rewrite Hcl. apply list_lookup_insert_eq. by eapply lookup_lt_Some. }
    assert (i = j) as -> by by apply (Hu i j c r).
    assert (c = r) as -> by congruence. done.
  - destruct (handle_register_rejected sock creds buf s name tm chk Hp Hs) as (es' & Hlog & He).
    rewrite He in Hh. injection Hh as <-. cbn [trace with_events] in Ht. apply app_inv_head in Ht as <-.
    rewrite replies_app, (replies_log_only es') in Hin by done. unfold reply_event in Hin.
    destruct (conn_wfail sock); cbn in Hin; [by apply elem_of_nil in Hin|].
    by apply list_elem_of_singleton in Hin.
Qed.

(** All signs a request adds are known when it has been served. *)
Lemma request_signs_known sock s s' es sg i c :
  wf_table (clients s) → ids_unique (clients s) → wf_table (clients s') → ids_unique (clients s') →
  handle_command sock s = (Ret tt, s') → trace s' = trace s ++ es →
  sg ∈ request_signs sock s s' → clients s' !! i = Some c → live c = true → sign_of c sg = true →
  cl_last_ping c = env_now (now_ix s).
Proof.
  intros Hw Hu Hw' Hu' Hh Ht Hin Hi Hl Hsg.
  unfold request_signs, heard_request, handle_command, received in *.
  destruct (conn_peer sock) as [creds|]; [|by apply elem_of_nil in Hin].
  destruct (read_with_timeout _ _ _ _) as [len buf].
  destruct (len <=? 0); [by apply elem_of_nil in Hin|].
  destruct (decode buf) as [name tm chk|id|id| | | |err] eqn:Hd; try by apply elem_of_nil in Hin.
  - apply list_elem_of_fmap in Hin as (t & -> & Hin). unfold answers in Hin.
    rewrite Ht, drop_app_length in Hin. cbn in Hsg. apply bytes_eqb_eq in Hsg.
    destruct (decode_register creds sock buf name tm chk Hd) as [He Hp]. rewrite He in Hh.
    by eapply register_known.
  - apply list_elem_of_singleton in Hin as ->. cbn in Hsg. apply andb_true_iff in Hsg as [H1 H2].
    destruct (decode_ping creds sock buf id Hd) as [He Hp]. rewrite He in Hh. by eapply ping_known.
Qed.

(** ** Harmless requests *)

(** Answered, and the daemon goes on. *)
Definition goes_on {A} (m : B A) (s : broker) : Prop :=
  ∃ a s', m s = (Ret a, s') ∧ running s' = running s.

Lemma goes_on_eq {A} (m : B A) s a s' : m s = (Ret a, s') → running s' = running s → goes_on m s.
Proof. by exists a, s'. Qed.

Lemma register_goes_on sock creds buf s : goes_on (handle_register sock creds buf) s.
Proof.
  destruct (parse_register (drop (strlen CMD_REGISTER) buf)) as [err|[[name t] chk]] eqn:Ep.
  { by eapply goes_on_eq; [by apply (handle_register_bad _ _ _ _ _ Ep)|]. }
  destruct (slot_spec (config s) (clients s) name) as [i|] eqn:Es.
  - destruct (slot_spec_cases _ _ _ _ Es) as (c & Hc & _).
    destruct (handle_register_ok sock creds buf s name t chk i c Ep Es Hc) as (s' & l & He & Hsd & _).
    eapply goes_on_eq; [exact He|apply Hsd].
  - destruct (handle_register_rejected sock creds buf s name t chk Ep Es) as (es & _ & He).
    by eapply goes_on_eq; [exact He|].
Qed.

Lemma ping_goes_on sock creds buf s : goes_on (handle_ping sock creds buf) s.
Proof.
  destruct (scan_clientID (drop (strlen CMD_PING) buf)) as [err|id] eqn:Ei.
  { by eapply goes_on_eq; [by apply (handle_ping_bad _ _ _ _ _ Ei)|]. }
  pose proof (handle_ping_eq sock creds buf s id Ei) as H.
  destruct (find_clientID _ _ _ _); [|destruct H as [l H]|]; by eapply goes_on_eq; [exact H|].
Qed.

Lemma unregister_goes_on sock creds buf s : goes_on (handle_unregister sock creds buf) s.
Proof.
  destruct (scan_clientID (drop (strlen CMD_UNREGISTER) buf)) as [err|id] eqn:Ei.
  { by eapply goes_on_eq; [by apply (handle_unregister_bad _ _ _ _ _ Ei)|]. }
  destruct (handle_unregister_eq sock creds buf s id Ei) as (es1 & es2 & _ & _ & He).
  eapply goes_on_eq; [exact He|]. by destruct (unregister_allowed _ _ _).
Qed.

Lemma status_goes_on sock creds buf s :
  harmless_request s creds (no_arg " %31s" (drop (strlen CMD_STATUS) buf) ReqStatus) →
  goes_on (handle_status sock creds buf) s.
Proof.
  unfold no_arg. intros Hq.
  destruct (handle_status_events sock creds buf s) as [Hx|(es & He & _)]; [|by eapply goes_on_eq; [exact He|]].
  exfalso. pose proof (handle_status_undef sock creds buf s s Hx) as Hlen.
  destruct (Z.eqb_spec (fst (sscanf (drop (strlen CMD_STATUS) buf) (lit " %31s"))) 1) as [Ea|Ea].
  - unfold handle_status in Hx. by rewrite Ea, Z.eqb_refl, write_str_eq in Hx.
  - exact (Nat.lt_irrefl _ (Nat.lt_le_trans _ _ _ Hq Hlen)).
Qed.

Lemma dispatch_goes_on sock creds buf s :
  harmless_request s creds (decode buf) → goes_on (dispatch sock creds buf) s.
Proof.
  unfold decode, dispatch.
  destruct (is_command CMD_REGISTER buf); [intros _; apply register_goes_on|].
  destruct (is_command CMD_PING buf); [intros _; apply ping_goes_on|].
  destruct (is_command CMD_UNREGISTER buf); [intros _; apply unregister_goes_on|].
  destruct (is_command CMD_REBOOT buf).
  { intros Hn. destruct (handle_reboot_refused sock creds buf s) as [es He]; [|by eapply goes_on_eq; [exact He|]].
    unfold no_arg in Hn. destruct (Z.eqb_spec (fst (sscanf (drop (strlen CMD_REBOOT) buf) (lit " %15s"))) 1);
      [by right|by left]. }
  destruct (is_command CMD_STATUS buf); [apply status_goes_on|]. intros _.
  destruct (is_command CMD_VERSION buf).
  - by eapply goes_on_eq; [apply handle_version_eq|].
  - by eapply goes_on_eq; [apply write_str_eq|].
Qed.

Lemma handle_command_goes_on sock s :
  (∀ creds r, heard_request sock = Some (creds, r) → harmless_request s creds r) →
  goes_on (handle_command sock) s.
Proof.
  unfold heard_request, received. destruct (conn_peer sock) as [creds|err] eqn:Hp.
  - intros Hq. unfold goes_on, handle_command. rewrite Hp.
    destruct (read_with_timeout _ _ _ _) as [len buf].
    destruct (len <=? 0); [by eapply goes_on_eq; [apply write_str_eq|]|].
    apply dispatch_goes_on. by apply Hq.
  - intros _. destruct (handle_command_no_peer sock err s Hp) as (es & He & _).
    by eapply goes_on_eq; [exact He|].
Qed.

(** ** One round *)

(** Everything holds that rounds need and keep. *)
Record attentive (L : signs) (s : broker) : Prop := {
  at_table : wf_table (clients s);
  at_drawn : drawn s;
  at_stamped : stamped s;
  at_informed : informed L s;
  at_running : running s = true;
  at_all_ok : all_ok s = true;
}.

Lemma drawn_ids s N : drawn s → draws_distinct N → (id_ix s ≤ N)%nat → ids_unique (clients s).
Proof.
  intros Hd HN Hle i j c d ???? ?. eapply drawn_unique; eauto. by eapply draws_distinct_mono.
Qed.

Lemma answers_app s s1 es : trace s1 = trace s ++ es → answers s s1 = replies es.
Proof. intros H. unfold answers. by rewrite H, drop_app_length. Qed.

Lemma request_trace sock s s' :
  wf_table (clients s) → handle_command sock s = (Ret tt, s') → ∃ es, trace s' = trace s ++ es.
Proof.
  intros Hw Hh. destruct (conn_peer sock) as [creds|err] eqn:Hp.
  - destruct (handle_command_outcome sock creds s Hw Hp) as [Hu|(s1 & es & He & Ho)]; [congruence|].
    assert (s1 = s') as -> by congruence. exists es. apply Ho.
  - destruct (handle_command_no_peer sock err s Hp) as (es & He & _). rewrite He in Hh.
    injection Hh as <-. by exists es.
Qed.

(** The signs of a served connection are known. *)
Lemma served_signs_known sock s s2 N :
  wf_table (clients s) → drawn s → draws_distinct N → (id_ix s2 ≤ N)%nat →
  handle_command sock (add_event EvAccept s) = (Ret tt, s2) →
  informed (new_signs (Some (Accepted sock)) s (add_event EvCloseConn s2)) s2.
Proof.
  intros Hw Hd HN Hix Hh.
  destruct (request_config_wf sock (add_event EvAccept s) s2 Hw Hh) as (Hw2 & _ & Hd2 & Hle & _). cbn [id_ix add_event] in Hle.
  pose proof (advances_eq _ _ _ _ (advances_handle_command sock) Hh) as Hnow. cbn [now_ix add_event] in Hnow.
  destruct (request_trace sock (add_event EvAccept s) s2 Hw Hh) as [es Ht].
  assert (answers s (add_event EvCloseConn s2) = answers (add_event EvAccept s) s2) as Ha.
  { rewrite (answers_app _ _ es Ht), (answers_app s _ ([EvAccept] ++ es ++ [EvCloseConn])).
    - rewrite replies_app, replies_app. apply app_nil_r.
    - cbn [trace add_event] in *. rewrite Ht, <-!app_assoc. done. }
  assert (request_signs sock s (add_event EvCloseConn s2) = request_signs sock (add_event EvAccept s) s2) as Hs
    by (unfold request_signs; by rewrite Ha).
  unfold new_signs. rewrite Hs. constructor.
  - intros sg t (sg' & [= <- ->] & _)%list_elem_of_fmap. by exists (now_ix s).
  - intros sg t i c (sg' & [= <- ->] & Hin)%list_elem_of_fmap Hi Hl Hsg.
    rewrite (request_signs_known sock (add_event EvAccept s) s2 es sg i c); auto; [done|..].
    + by apply (drawn_ids s N Hd HN); cbn; lia.
    + by apply (drawn_ids s2 N (Hd2 Hd) HN).
Qed.

(** A harmless connection is served, and leaves all signs known. *)
Lemma serve_attentive L server s N n :
  attentive L s → harmless s server → draws_distinct N → (id_ix (serve server s).2 ≤ N)%nat →
  monotonic n → (now_ix (serve server s).2 < n)%nat →
  ∃ s1, serve server s = (Ret tt, s1) ∧ attentive (new_signs server s s1 ++ L) s1.
Proof.
  intros [Hw Hd Hst Hi Hr Ha] Hh HN Hix Hmon Hn.
  destruct server as [[sock|errno text]|].
  - destruct (handle_command_goes_on sock (add_event EvAccept s) Hh) as ([] & s2 & He & Hr2).
    set (s0 := add_event EvAccept s) in *.
    assert (serve (Some (Accepted sock)) s = (Ret tt, add_event EvCloseConn s2)) as Hs.
    { unfold serve, emit. mrun. fold s0. by rewrite He. }
    rewrite Hs in Hix, Hn |- *. cbn [snd id_ix now_ix add_event] in Hix, Hn.
    exists (add_event EvCloseConn s2). split; [done|].
    destruct (request_config_wf sock s0 s2 Hw He) as (Hw2 & _ & Hd2 & Hle & Heff).
    specialize (Hd2 Hd).
    pose proof (advances_eq _ _ _ _ (advances_handle_command sock) He) as Hnow. cbn in Hnow, Hle.
    pose proof (handle_command_stamped sock s0 (stamped_idle s s0 eq_refl ltac:(done) Hst)) as Hst2.
    rewrite He in Hst2.
    assert (informed L s2) as Hi2.
    { destruct Heff as [Hcl|[creds Heff]]; [by apply (informed_idle L s)|].
      apply (informed_effect L creds s0 s2 n); auto; [cbn; lia|]. by apply (informed_idle L s). }
    constructor; [exact Hw2|exact Hd2|by apply (stamped_idle s2)| | |].
    + apply informed_app; [|by apply (informed_idle L s2)].
      apply (informed_idle _ s2); [done|done|]. by apply (served_signs_known sock s s2 N).
    + exact (eq_trans Hr2 Hr).
    + pose proof (handle_command_all_ok sock s0 _ s2 Hw He) as Hok. exact (eq_trans Hok Ha).
  - cbn in Hh. unfold serve. rewrite Hh. exists s. split; [done|]. by constructor.
  - exists s. split; [done|]. by constructor.
Qed.

(** Whoever has shown a sign of life in time is on time. *)
Lemma attended_on_time L s i c n k :
  attentive L s → clients s !! i = Some c → live c = true → (now_ix s ≤ k < n)%nat → monotonic n →
  attended L k c → on_time k c.
Proof.
  intros [Hw _ Hst [_ Hkn] _ _] Hc Hl Hk Hmon (sg & t & Hin & Hsg & Hage).
  pose proof (Hkn sg t i c Hin Hc Hl Hsg) as Hle. destruct (Hst i c Hc Hl) as (m & Hm & He).
  destruct (Hmon m k ltac:(lia)) as (H1 & H2 & H3). apply elapsed_on_time; rewrite ?He in *; [|done|done|lia].
  exact (wf_timeout c (wf_table_lookup _ _ _ Hw Hc) Hl).
Qed.

(** The check finds nothing when everybody is attended. *)
Lemma check_attended L s n :
  attentive L s → monotonic n → (now_ix (check_clients s).2 < n)%nat →
  (∀ j c, live_clients (clients s) !! j = Some c → attended L (now_ix s + j) c) →
  check_clients s = (Ret tt, set_now_ix (now_ix s + length (live_clients (clients s))) s).
Proof.
  intros Hat Hmon. unfold check_clients. mrun.
  destruct (check_from_spec (clients s) s) as [[_ ->]|(j & c & Hj & Hlate & _ & ->)]; [done|].
  cbn [snd now_ix set_all_ok add_event set_now_ix]. intros Hn Hp. exfalso. apply Hlate.
  pose proof (list_elem_of_lookup_2 _ _ _ Hj) as Hin. apply filter_lookup_live in Hin as (i & Hi & Hl).
  apply (attended_on_time L s i c n); auto. lia.
Qed.

(** The feed of a round in which everybody was on time. *)
Lemma feed_in_order timer s :
  all_ok s = true → match timer with None => True | Some (size, _) => size = EXPIRATIONS_LEN end →
  feed timer None s =
  (Ret tt, with_events (match timer with Some _ => if watchdog_fd s then [EvFeed] else [] | None => [] end) s).
Proof.
  intros Ha Ht. unfold feed. destruct timer as [[size t]|]; [subst size|by rewrite with_events_nil].
  rewrite Z.eqb_refl. cbn [negb]. mrun. rewrite Ha. cbn [andb].
  destruct (watchdog_fd s); [by rewrite <-add_event_with|by rewrite with_events_nil].
Qed.

Lemma attentive_idle L s s' :
  clients s' = clients s → (now_ix s ≤ now_ix s')%nat → id_ix s' = id_ix s → running s' = running s →
  all_ok s' = all_ok s → attentive L s → attentive L s'.
Proof.
  intros H1 H2 H3 H4 H5 [Hw Hd Hst Hi Hr Ha]. constructor; try congruence.
  - apply (drawn_kept s); [|done]. apply ids_kept_same; [done|lia].
  - by apply (stamped_idle s).
  - by apply (informed_idle L s).
Qed.

Lemma serve_harmless server s : harmless s server → ∃ s1, serve server s = (Ret tt, s1).
Proof.
  destruct server as [[sock|errno text]|]; unfold serve; [|cbn; intros ->; eauto|eauto].
  intros Hh. destruct (handle_command_goes_on sock (add_event EvAccept s) Hh) as ([] & s2 & He & _).
  unfold emit. mrun. rewrite He. eauto.
Qed.

(** The parts of a round only make the counters grow. *)
Lemma harmless_counters server timer err s :
  harmless s server →
  let s1 := (serve server s).2 in let s' := (iteration (Wake (SelOk server timer) err) s).2 in
  (id_ix s1 ≤ id_ix s' ∧ now_ix s1 ≤ now_ix (check_clients s1).2 ≤ now_ix s')%nat.
Proof.
  intros Hh. destruct (serve_harmless server s Hh) as [s1 Hs]. unfold iteration. cbn [wk_select wk_feed].
  rewrite bind_eq, Hs. cbn [snd].
  destruct (check_clients_spec s1) as (s2 & es & Hc & _ & _ & _ & _ & _ & _ & _ & Hid & Hn & _).
  rewrite bind_eq, Hc. destruct (feed timer err s2) as [o s'] eqn:Hf. cbn [snd].
  pose proof (st_id_ix _ _ (feed_table _ _ _ _ _ Hf)).
  pose proof (advances_eq _ _ _ _ (advances_feed timer err) Hf). lia.
Qed.

(** A round in which the clients are punctual feeds the watchdog if the timer fired, and
    does nothing else to it. *)
Lemma punctual_round L server timer s N n :
  let w := Wake (SelOk server timer) None in
  let s1 := (serve server s).2 in
  attentive L s → undisturbed w s → draws_distinct N → (id_ix (iteration w s).2 ≤ N)%nat →
  monotonic n → (now_ix (iteration w s).2 < n)%nat →
  (∀ j c, live_clients (clients s1) !! j = Some c →
     attended (new_signs server s s1 ++ L) (now_ix s1 + j) c) →
  ∃ s2 es, iteration w s = (Ret tt, s2) ∧ attentive (new_signs server s s1 ++ L) s2 ∧
    watchdog_fd s2 = watchdog_fd s ∧ trace s2 = trace s ++ es ∧
    watchdog_calls es = if fired w && watchdog_fd s then [EvFeed] else [].
Proof.
  intros w s1 Hat (Hh & _ & Htm) HN Hix Hmon Hn Hp.
  assert (iteration w s = (serve server ;; check_clients ;; feed timer None) s) as Hit by done.
  assert (id_ix (serve server s).2 ≤ id_ix (iteration w s).2 ∧
    now_ix (serve server s).2 ≤ now_ix (check_clients s1).2 ≤ now_ix (iteration w s).2)%nat
    as (L1 & L2 & L3) by by apply harmless_counters.
  destruct (serve_attentive L server s N n Hat Hh HN ltac:(lia) Hmon ltac:(lia)) as (s1' & Hs & Hat1).
  assert (s1' = s1) as -> by (unfold s1; by rewrite Hs).
  pose proof (check_attended _ s1 n Hat1 Hmon ltac:(lia) Hp) as Hc.
  rewrite Hit, bind_eq, Hs, bind_eq, Hc.
  set (s2 := set_now_ix _ s1). rewrite feed_in_order; [|apply Hat1|done].
  destruct (serve_spec server s (at_table _ _ Hat)) as [(? & Hx & _)|(s1' & es & Hx & Hrel & Hq)];
    rewrite Hs in Hx; [done|]. injection Hx as <-.
  eexists _, (es ++ _). split; [reflexivity|]. split.
  { apply (attentive_idle _ s1); try done. cbn. lia. }
  split; [exact (lr_watchdog _ _ _ Hrel)|]. split.
  { cbn [trace with_events s2 set_now_ix]. by rewrite (lr_trace _ _ _ Hrel), <-app_assoc. }
  rewrite watchdog_calls_app, watchdog_calls_quiet by done. cbn [s2 set_now_ix watchdog_fd app].
  rewrite (lr_watchdog _ _ _ Hrel). destruct timer as [[? ?]|]; cbn; [|done]. by destruct (watchdog_fd s).
Qed.

(** ** Any number of rounds *)

Lemma iteration_counters w s :
  wf_table (clients s) →
  let s' := (iteration w s).2 in
  wf_table (clients s') ∧ (id_ix s ≤ id_ix s')%nat ∧ (now_ix s ≤ now_ix s')%nat.
Proof.
  intros Hw. destruct (iteration w s) as [o s'] eqn:Hi. cbn [snd].
  pose proof (advances_eq _ _ _ _ (advances_iteration w) Hi).
  by destruct (table_step_keeps s s' Hw (iteration_table w s o s' Hw Hi)).
Qed.

Lemma rounds_counters ws s :
  wf_table (clients s) →
  (id_ix s ≤ id_ix (rounds ws s).2)%nat ∧ (now_ix s ≤ now_ix (rounds ws s).2)%nat.
Proof.
  revert s. induction ws as [|w r IH]; intros s Hw; cbn [rounds]; [done|].
  destruct (iteration_counters w s Hw) as (Hw' & H1 & H2). rewrite bind_eq.
  destruct (iteration w s) as [[[]|x|] s1]; cbn [snd] in *; [|lia|lia].
  destruct (IH s1 Hw'). lia.
Qed.

Lemma rounds_cons w r s s1 : iteration w s = (Ret tt, s1) → rounds (w :: r) s = rounds r s1.
Proof. intros H. cbn [rounds]. by rewrite bind_eq, H. Qed.

(** The connections of some rounds. *)
Definition conns_of (ws : list wake) : list conn := ws ≫= wake_conns.

(** The loop keeps going round: punctual clients keep the watchdog fed. *)
Lemma punctual_rounds ws L s N n :
  attentive L s → along undisturbed ws s → punctual L ws s →
  draws_distinct N → (id_ix (rounds ws s).2 ≤ N)%nat → monotonic n → (now_ix (rounds ws s).2 < n)%nat →
  ∃ s' es, rounds ws s = (Ret tt, s') ∧ lruns (conns_of ws) (Looping, s) (Looping, s') ∧
    attentive (log_after L ws s) s' ∧ trace s' = trace s ++ es ∧
    watchdog_calls es = if watchdog_fd s then replicate (ticks ws) EvFeed else [].
Proof.
  intros Hat Hal Hp HN Hix Hmon Hn. revert L s Hat Hal Hp Hix Hn.
  induction ws as [|w r IH]; intros L s Hat Hal Hp Hix Hn.
  { exists s, []. rewrite app_nil_r. split; [done|]. split; [constructor|].
    split; [done|]. split; [done|]. by destruct (watchdog_fd s). }
  destruct Hal as [Hu Hal]. cbn [log_after].
  set (L2 := match wk_select w with SelErr _ _ => L | _ => _ end).
  assert (∃ s2 es, iteration w s = (Ret tt, s2) ∧ attentive L2 s2 ∧ punctual L2 r s2 ∧
    watchdog_fd s2 = watchdog_fd s ∧ trace s2 = trace s ++ es ∧
    watchdog_calls es = if fired w && watchdog_fd s then [EvFeed] else [])
    as (s2 & es & Hi & Hat2 & Hp2 & Hwd & Ht & Hcalls).
  { destruct (iteration_counters w s (at_table _ _ Hat)) as (Hw' & _ & _).
    destruct w as [[errno text|server timer] err]; cbn [wk_select] in L2; subst L2.
    - cbn in Hu. subst errno. exists s, []. rewrite app_nil_r. by split_and!.
    - pose proof Hu as (_ & Herr & _). cbn in Herr. subst err. destruct Hp as [Hp Hp'].
      destruct (harmless_counters server timer None s) as (B1 & B2); [apply Hu|].
      pose proof (rounds_counters r _ Hw') as [B3 B4].
      assert (id_ix (iteration (Wake (SelOk server timer) None) s).2 ≤ N ∧
        now_ix (iteration (Wake (SelOk server timer) None) s).2 < n)%nat as [C1 C2].
      { cbn [rounds] in Hix, Hn. rewrite bind_eq in Hix, Hn.
        destruct (iteration _ s) as [[[]|x|] s2]; cbn [snd] in *; lia. }
      destruct (punctual_round L server timer s N n Hat Hu HN C1 Hmon C2 Hp)
        as (s2 & es & Hi & Hat2 & Hwd & Ht & Hc).
      rewrite Hi in Hp'. exists s2, es. by split_and!. }
  rewrite (rounds_cons w r s s2 Hi) in *. rewrite Hi in Hal |- *. cbn [snd] in Hal |- *.
  destruct (IH L2 s2 Hat2 Hal Hp2 Hix Hn) as (s' & es' & Hr & Hd & Hat' & Ht' & Hcalls').
  exists s', (es ++ es'). split; [done|]. split.
  { eapply lruns_cons; [|exact Hd]. apply (lstep_iteration w s (Ret tt) s2); [apply Hat|apply Hat|done]. }
  split; [done|]. rewrite Ht', Ht, app_assoc. split; [done|].
  rewrite watchdog_calls_app, Hcalls, Hcalls', Hwd. unfold ticks. cbn [List.filter].
  by destruct (fired w), (watchdog_fd s).
Qed.

(** *** From the start of the program *)

(** The clients of the configuration file are the first signs of life. *)
Definition announcements (s : broker) : signs :=
  (λ c, (Announced (cl_clientID c), cl_last_ping c)) <$> live_clients (clients s).

Lemma announcements_informed s :
  ids_unique (clients s) → stamped s → informed (announcements s) s.
Proof.
  intros Hu Hst. constructor; unfold announcements.
  - intros sg t (c & [= -> ->] & Hin)%list_elem_of_fmap.
    apply list_elem_of_lookup_1 in Hin as [j Hj].
    pose proof (list_elem_of_lookup_2 _ _ _ Hj) as Hin. apply filter_lookup_live in Hin as (i & Hi & Hl).
    destruct (Hst i c Hi Hl) as (m & Hm & ->). exists m. split; [lia|done].
  - intros sg t i c (d & [= -> ->] & Hin)%list_elem_of_fmap Hi Hl Hsg. cbn in Hsg.
    apply bytes_eqb_eq in Hsg. apply filter_lookup_live in Hin as (j & Hj & Hld).
    assert (j = i) as -> by by apply (Hu j i d c). assert (d = c) as -> by congruence. done.
Qed.
End Punctual.

