(* ===== verification/ClientLib.v ===== *)
(** * The client library

    src/src/wd-client.c over an abstract connection: the [wd_client_t] object
    the caller passes by pointer, the three steps of every request (connect,
    write, read with a timeout), and the four functions of the interface. *)

From S2P Require Import Prelude CString Common.

(** ** The client object *)

Record wd_client_t : Type := WdClient {
  wc_socket_path : bytes;
  wc_name : bytes;
  wc_clientID : bytes;
  wc_status : bytes;
}.

(** [WD_CLIENT_INIT] with another path and name, as callers set them. *)
Definition wd_client_init (path name : bytes) : wd_client_t :=
  WdClient (strncpy WD_CLIENT_SOCKPATH_LEN path) (strncpy WD_CLIENT_NAME_LEN name)
           (replicate WD_CLIENTID_LEN NUL) (replicate WD_CLIENT_STATUS_LEN NUL).

(** ** Connections *)

Inductive connect_result : Type :=
  | Connected
  | NoSocket (err : bytes)
  | NotConnected (err : bytes).

(** What the library needs from the system, over the state [S] of the other side:
    [tr_connect] is [socket] and [connect] to a path; [tr_write] the error text if
    writing fails; [tr_read] the results of [select] and [read], and the error
    text. *)
Class Transport (S : Type) : Type := {
  tr_connect : bytes → S → connect_result * S;
  tr_write : bytes → S → option bytes * S;
  tr_read : S → (Z * option bytes * bytes) * S;
  tr_close : S → S;
}.

(** The caller's object, [None] for a NULL pointer, and the other side. *)
Record cstate (S : Type) : Type := CState { cs_client : option wd_client_t; cs_net : S }.
Arguments CState {S} cs_client cs_net.
Arguments cs_client {S} _.
Arguments cs_net {S} _.

(** [snprintf(dst, sizeof(dst), ...)] with [text] the formatted output. *)
Definition snprintf_array (dst text : bytes) : bytes :=
  let data := take (length dst - 1) text ++ [NUL] in data ++ drop (length data) dst.

Section Client.
Context {S : Type} {T : Transport S}.

(** The contents of an array without initialiser. *)
Context (uninit : nat → bytes).

Local Abbreviation C := (M (cstate S)).

(** Access through the pointer: undefined for NULL. *)
Definition deref : C wd_client_t :=
  c ← gets cs_client; match c with Some c => mret c | None => undef end.

Definition set_client (f : wd_client_t → wd_client_t) : C unit :=
  c ← deref; modify (λ s, CState (Some (f c)) (cs_net s)).

Definition net {A} (f : S → A * S) : C A :=
  λ s, let '(a, n) := f (cs_net s) in (Ret a, CState (cs_client s) n).

(** [WD_SET_STATUS] *)
Definition WD_SET_STATUS (text : bytes) : C unit :=
  set_client (λ c, WdClient (wc_socket_path c) (wc_name c) (wc_clientID c)
                            (snprintf_array (wc_status c) text)).

(** [!client || !client->field[0]] *)
Definition missing (field : wd_client_t → bytes) : C bool :=
  c ← gets cs_client;
  mret (match c with None => true | Some c => Ascii.eqb (hd NUL (field c)) NUL end).

Definition close_fd : C unit := net (λ n, (tt, tr_close n)).

(** The result is 0 for a connection ([socket_fd] is not negative), or the error. *)
Definition wd_client_connect : C Z :=
  bad ← missing wc_socket_path;
  if bad : bool then WD_SET_STATUS (lit "Invalid parameters") ;; mret WD_CLIENT_EPARAM
  else
    c ← deref;
    (* addr.sun_path has the size of socket_path *)
    r ← net (tr_connect (take (WD_CLIENT_SOCKPATH_LEN - 1) (cstr (wc_socket_path c))));
    match r with
    | NoSocket err =>
        WD_SET_STATUS (printf "Failed to create socket: %s" [PS err]) ;; mret WD_CLIENT_ERR
    | NotConnected err =>
        WD_SET_STATUS (printf "Failed to connect to socket %s: %s" [PS (wc_socket_path c); PS err]) ;;
        mret WD_CLIENT_ERR
    | Connected =>
        WD_SET_STATUS (printf "Successfully connected via %s" [PS (wc_socket_path c)]) ;; mret 0
    end.

(** [read_with_timeout] on the connection: the length, the buffer, the error text. *)
Definition read_response (buffer : bytes) : C (Z * bytes * bytes) :=
  r ← net tr_read;
  let '(sel, rd, err) := r in
  let '(len, b) := read_with_timeout sel rd buffer (length buffer) in
  mret (len, b, err).

Definition finish (text : bytes) (ret : Z) : C Z :=
  close_fd ;; WD_SET_STATUS text ;; mret ret.

Definition wd_client_check_prot_version : C Z :=
  fd ← wd_client_connect;
  if fd <? 0 then mret fd
  else
    w ← net (tr_write (lit "VERSION\n"));
    match w with
    | Some err => finish (printf "Failed to send VERSION command: %s" [PS err]) WD_CLIENT_ERR
    | None =>
        r ← read_response (replicate 128 NUL);
        let '(len, buffer, _) := r in
        if len <=? 0 then finish (lit "Failed to read VERSION response") WD_CLIENT_ERR
        else
          match strstr (cstr buffer) (lit "protocol_version=") with
          | None => finish (printf "VERSION response malformed: %s" [PS buffer]) WD_CLIENT_ERR
          | Some found =>
              let ver := drop (strlen (lit "protocol_version=")) found in
              if negb (strncmp_eq (strlen SOCKET_PROT_VERSION) ver SOCKET_PROT_VERSION)
              then finish (printf "Incompatible protocol version %s, expect %s"
                             [PS ver; PS SOCKET_PROT_VERSION]) WD_CLIENT_EVERSION
              else close_fd ;; mret WD_CLIENT_OK
          end
    end.

Definition set_clientID (id : bytes) (c : wd_client_t) : wd_client_t :=
  WdClient (wc_socket_path c) (wc_name c) id (wc_status c).

(** What each command does with its response. *)
Definition transact (size : nat) (cmd_size : nat) (what : bytes) (cmd : wd_client_t → bytes)
    (use : bytes → C Z) : C Z :=
  fd ← wd_client_connect;
  if fd <? 0 then mret fd
  else
    c ← deref;
    w ← net (tr_write (cstr (snprintf_array (uninit cmd_size) (cmd c))));
    match w with
    | Some err => finish (printf "Failed to send %s command: %s" [PS what; PS err]) WD_CLIENT_ERR
    | None =>
        r ← read_response (uninit size);
        let '(len, response, err) := r in
        if len <? 0 then
          finish (printf "Failed to read %s response: %s" [PS what; PS err]) WD_CLIENT_ERR
        else if len =? 0 then
          finish (printf "Timeout while waiting for %s response" [PS what]) WD_CLIENT_ETIMEOUT
        else use response
    end.

Definition register_cmd (timeout_ms : Z) (ignore_pid : bool) (c : wd_client_t) : bytes :=
  printf "REGISTER %s %u%s\n"
    [PS (wc_name c); PI timeout_ms; PS (if ignore_pid then lit " ignorepid" else [])].

(** The answer to a REGISTER. *)
Definition register_response (response : bytes) : C Z :=
  if strncmp_eq 3 response (lit "OK ") then
    set_client (set_clientID (strncpy (WD_CLIENTID_LEN - 1) (drop 3 response) ++ [NUL])) ;;
    c ← deref;
    finish (printf "Client registered successfully with ID: %s" [PS (wc_clientID c)]) WD_CLIENT_OK
  else finish (printf "REGISTER failed at wd-broker: %s" [PS response]) WD_CLIENT_ERR.

Definition wd_client_register (timeout_ms : Z) (ignore_pid : bool) : C Z :=
  bad ← missing wc_name;
  if bad : bool then WD_SET_STATUS (lit "Invalid parameters") ;; mret WD_CLIENT_EPARAM
  else if (timeout_ms <? WD_CLIENT_TIMEOUT_MIN_MS) || (timeout_ms >? WD_CLIENT_TIMEOUT_MAX_MS)
  then WD_SET_STATUS (lit "Invalid timeout value") ;; mret WD_CLIENT_EPARAM
  else
    ret ← wd_client_check_prot_version;
    if negb (ret =? WD_CLIENT_OK) then mret ret
    else
      transact 128 128 (lit "REGISTER") (register_cmd timeout_ms ignore_pid) register_response.

(** The answer to a PING or UNREGISTER. *)
Definition check_ok (what : bytes) (response : bytes) : C Z :=
  if strncmp_eq 2 response (lit "OK") then
    c ← deref;
    finish (printf "%s successful for client %s (%s) " [PS what; PS (wc_name c); PS (wc_clientID c)])
      WD_CLIENT_OK
  else finish (printf "%s failed at wd-broker: %s" [PS what; PS response]) WD_CLIENT_ERR.

Definition wd_client_ping : C Z :=
  bad ← missing wc_clientID;
  if bad : bool then WD_SET_STATUS (lit "Invalid parameters") ;; mret WD_CLIENT_EPARAM
  else transact 64 64 (lit "PING") (λ c, printf "PING %s\n" [PS (wc_clientID c)])
         (check_ok (lit "PING")).

Definition wd_client_unregister : C Z :=
  bad ← missing wc_clientID;
  if bad : bool then WD_SET_STATUS (lit "Invalid parameters") ;; mret WD_CLIENT_EPARAM
  else transact 64 64 (lit "UNREGISTER") (λ c, printf "UNREGISTER %s\n" [PS (wc_clientID c)])
         (check_ok (lit "UNREGISTER")).
End Client.
