(* ===== verification/Service.v ===== *)
(** * What the client library relies on

    The interface between src/src/wd-client.c and a broker: a class that says
    which requests a service answers and how, and the behaviour of the client
    functions over any such service. *)

From S2P Require Import Prelude CString Scanf Common ClientId Requests ClientLib.

(** One connection: the request is written, the reply read, the connection closed. *)
Definition session {S} `{Transport S} (path cmd : bytes) (st : S) (reply : bytes) (st' : S) : Prop :=
  ∃ s1 s2 s3 sel err, tr_connect path st = (Connected, s1) ∧ tr_write cmd s1 = (None, s2) ∧
    tr_read s2 = ((sel, Some reply, err), s3) ∧ 0 < sel ∧ tr_close s3 = st'.

Lemma session_det {S} `{Transport S} path cmd (st : S) r1 st1 r2 st2 :
  session path cmd st r1 st1 → session path cmd st r2 st2 → r1 = r2 ∧ st1 = st2.
Proof.
  intros (a1 & b1 & c1 & n1 & e1 & A1 & A2 & A3 & _ & A4) (a2 & b2 & c2 & n2 & e2 & B1 & B2 & B3 & _ & B4).
  assert (a1 = a2) as -> by congruence. assert (b1 = b2) as -> by congruence.
  split; congruence.
Qed.

(** The reply to VERSION announces the protocol the library speaks. *)
Definition version_reply (reply : bytes) : Prop :=
  no_nul reply ∧ reply ≠ [] ∧ (length reply < 128)%nat ∧
  ∃ rest, strstr reply (lit "protocol_version=") = Some (lit "protocol_version=1.0" ++ rest).

Definition register_text (name : bytes) (timeout : Z) (ignorepid : bool) : bytes :=
  lit "REGISTER " ++ register_arg name timeout ignorepid.

Definition id_text (cmd id : bytes) : bytes := cmd ++ id ++ lit "\n".

(** The digits of an identifier. *)
Definition id_digits (id : bytes) : Prop :=
  length id = WD_CLIENTID_FMT_LEN ∧ Forall (λ c, is_lower_hex c = true) id.

Class WatchdogService (S : Type) {T : Transport S} : Type := {
  ws_path : S → bytes;
  ws_inv : S → Prop;
  (* a client of that name may register, with ignorepid or not, and leave again *)
  ws_open : S → bytes → bool → Prop;
  (* the identifier is registered for the caller *)
  ws_member : S → bytes → Prop;
  (* the client of the identifier has left *)
  ws_left : S → bytes → Prop;
  ws_path_ok st : ws_inv st → no_nul (ws_path st) ∧ ws_path st ≠ [] ∧
    (length (ws_path st) < WD_CLIENT_SOCKPATH_LEN)%nat;
  ws_version st : ws_inv st → ∃ reply st', session (ws_path st) (lit "VERSION\n") st reply st' ∧
    version_reply reply ∧ ws_inv st' ∧ ws_path st' = ws_path st ∧
    ∀ name ignorepid, ws_open st name ignorepid → ws_open st' name ignorepid;
  ws_register st name timeout ignorepid : ws_inv st → ws_open st name ignorepid → good_name name →
    WD_CLIENT_TIMEOUT_MIN_MS ≤ timeout ≤ WD_CLIENT_TIMEOUT_MAX_MS →
    ∃ id st', session (ws_path st) (register_text name timeout ignorepid) st
                (lit "OK " ++ id ++ lit "\n") st' ∧
      id_digits id ∧ ws_inv st' ∧ ws_path st' = ws_path st ∧ ws_member st' id;
  ws_ping st id : ws_inv st → ws_member st id → id_digits id →
    ∃ st', session (ws_path st) (id_text (lit "PING ") id) st (lit "OK\n") st' ∧
      ws_inv st' ∧ ws_path st' = ws_path st ∧ ws_member st' id;
  ws_unregister st id : ws_inv st → ws_member st id → id_digits id →
    ∃ st', session (ws_path st) (id_text (lit "UNREGISTER ") id) st (lit "OK\n") st' ∧
      ws_inv st' ∧ ws_path st' = ws_path st ∧ ws_left st' id;
}.

(** ** The client over a service *)

Section Client.
Context {S : Type} {T : Transport S} {W : WatchdogService S}.
Context (uninit : nat → bytes) (Huninit : ∀ n, length (uninit n) = n).

(** The caller's object: the path of the service, a name, and an identifier. *)
Record client_for (st : S) (name : bytes) (c : wd_client_t) : Prop := {
  cf_path : wc_socket_path c = strncpy WD_CLIENT_SOCKPATH_LEN (ws_path st);
  cf_name : cstr (wc_name c) = name;
  cf_status : length (wc_status c) = WD_CLIENT_STATUS_LEN;
}.

Lemma deref_eq c (st : S) : deref (CState (Some c) st) = (Ret c, CState (Some c) st).
Proof. done. Qed.

Lemma missing_eq field c (st : S) :
  missing field (CState (Some c) st) = (Ret (Ascii.eqb (hd NUL (field c)) NUL), CState (Some c) st).
Proof. done. Qed.

Definition with_status (text : bytes) (c : wd_client_t) : wd_client_t :=
  WdClient (wc_socket_path c) (wc_name c) (wc_clientID c) (snprintf_array (wc_status c) text).

Lemma set_status_eq text c (st : S) :
  WD_SET_STATUS text (CState (Some c) st) = (Ret tt, CState (Some (with_status text c)) st).
Proof. done. Qed.

Lemma snprintf_array_length dst text : (0 < length dst)%nat → length (snprintf_array dst text) = length dst.
Proof.
  intros H. unfold snprintf_array. cbv zeta. repeat (rewrite length_app || rewrite length_drop || rewrite length_take).
  cbn [length]. lia.
Qed.

Lemma cstr_snprintf_array dst text :
  no_nul text → (length text < length dst)%nat → cstr (snprintf_array dst text) = text.
Proof.
  intros Hn Hl. unfold snprintf_array. cbv zeta. rewrite take_ge by lia. rewrite <-app_assoc.
  by apply cstr_term.
Qed.

(** A fresh object for a name the broker would store. *)
Lemma client_for_init st name : good_name name → client_for st name (wd_client_init (ws_path st) name).
Proof.
  intros Hn. constructor; [done| |done]. cbn. pose proof (good_name_no_nul name Hn) as Hnn.
  destruct Hn as (_ & Hl & _). rewrite cstr_strncpy; [by apply cstr_no_nul|].
  unfold strlen. by rewrite cstr_no_nul.
Qed.

Lemma client_for_status st name text c :
  client_for st name c → client_for st name (with_status text c).
Proof.
  intros [H1 H2 H3]. constructor; try done. cbn. rewrite snprintf_array_length; [done|].
  rewrite H3. unfold WD_CLIENT_STATUS_LEN. lia.
Qed.

Lemma client_for_id st name id c : client_for st name c → client_for st name (set_clientID id c).
Proof. intros []. by constructor. Qed.

Lemma client_for_path st st' name c :
  client_for st name c → ws_path st' = ws_path st → client_for st' name c.
Proof. intros [] He. constructor; rewrite ?He; done. Qed.

(** Connecting to the service works. *)
Lemma connect_ok st name c s1 :
  ws_inv st → client_for st name c → tr_connect (ws_path st) st = (Connected, s1) →
  ∃ text, wd_client_connect (CState (Some c) st) = (Ret 0, CState (Some (with_status text c)) s1).
Proof.
  intros Hi Hc Hs. destruct (ws_path_ok st Hi) as (Hn & Hne & Hl).
  pose proof (cf_path _ _ _ Hc) as Hp.
  assert (cstr (wc_socket_path c) = ws_path st) as Hcp.
  { rewrite Hp, cstr_strncpy; [by apply cstr_no_nul|]. unfold strlen. by rewrite cstr_no_nul. }
  assert (Ascii.eqb (hd NUL (wc_socket_path c)) NUL = false) as Hhd.
  { destruct (wc_socket_path c) as [|x l]; [by rewrite <-Hcp in Hne|]. cbn in *.
    destruct (Ascii.eqb x NUL); [by rewrite <-Hcp in Hne|done]. }
  eexists. unfold wd_client_connect, missing. mrun. cbn [cs_client]. rewrite Hhd.
  unfold deref. mrun. cbn [cs_client]. rewrite Hcp, take_ge by (unfold WD_CLIENT_SOCKPATH_LEN in *; lia).
  unfold net. cbn [cs_net cs_client]. rewrite Hs. done.
Qed.

(** One transaction: the request text is sent, and the reply handed on. *)
Lemma transact_ok st name c text size csize what cmd use reply st' :
  ws_inv st → client_for st name c → session (ws_path st) text st reply st' →
  (∀ t, cmd (with_status t c) = text) → no_nul text → (length text < csize)%nat →
  no_nul reply → reply ≠ [] → (length reply < size)%nat →
  ∃ t s3 b, tr_close s3 = st' ∧
    transact uninit size csize what cmd use (CState (Some c) st)
    = use (reply ++ NUL :: b) (CState (Some (with_status t c)) s3).
Proof.
  intros Hi Hc (s1 & s2 & s3 & sel & err & H1 & H2 & H3 & Hsel & H4) Hcmd Hnt Hlt Hnr Hne Hlr.
  destruct (connect_ok st name c s1 Hi Hc H1) as [t Ht].
  exists t, s3, (drop (Init.Nat.succ (length reply)) (uninit size)). split; [done|].
  unfold transact. rewrite bind_eq, Ht. cbv beta iota. change (0 <? 0) with false. cbv iota.
  rewrite bind_eq, deref_eq, Hcmd.
  rewrite cstr_snprintf_array by (rewrite ?Huninit; done).
  unfold net, read_response. mrun. cbn [cs_net cs_client]. rewrite H2. cbn [cs_net cs_client].
  unfold net. cbn [cs_net cs_client]. rewrite H3, Huninit.
  rewrite read_with_timeout_msg by done.
  destruct (Z.ltb_spec (Z.of_nat (length reply)) 0); [lia|].
  destruct (Z.eqb_spec (Z.of_nat (length reply)) 0); [|done].
  destruct reply; [done|]. cbn [length] in *. lia.
Qed.

Lemma finish_eq text ret c (st : S) :
  finish text ret (CState (Some c) st) = (Ret ret, CState (Some (with_status text c)) (tr_close st)).
Proof. done. Qed.

Lemma check_ok_eq what rest c (st : S) :
  ∃ text, check_ok what (lit "OK\n" ++ rest) (CState (Some c) st)
  = (Ret WD_CLIENT_OK, CState (Some (with_status text c)) (tr_close st)).
Proof. eexists. done. Qed.

(** The protocol check succeeds on a session with the right answer. *)
Lemma check_prot_version_session st name c reply st' :
  ws_inv st → client_for st name c → session (ws_path st) (lit "VERSION\n") st reply st' →
  version_reply reply → ws_path st' = ws_path st →
  ∃ c', wd_client_check_prot_version (CState (Some c) st) = (Ret WD_CLIENT_OK, CState (Some c') st') ∧
    client_for st' name c'.
Proof.
  intros Hi Hc Hses Hv Hp.
  destruct Hses as (s1 & s2 & s3 & sel & err & H1 & H2 & H3 & Hsel & H4).
  destruct Hv as (Hnr & Hne & Hlr & rest & Hstr).
  destruct (connect_ok st name c s1 Hi Hc H1) as [t Ht].
  exists (with_status t c). split; [|by eapply client_for_path; [apply client_for_status|]].
  unfold wd_client_check_prot_version. rewrite bind_eq, Ht. cbv beta iota. change (0 <? 0) with false. cbv iota.
  unfold net, read_response. mrun. cbn [cs_net cs_client]. rewrite H2. cbn [cs_net cs_client].
  unfold net. cbn [cs_net cs_client]. rewrite H3, length_replicate.
  rewrite read_with_timeout_msg by done.
  destruct (Z.leb_spec (Z.of_nat (length reply)) 0).
  { destruct reply; [done|]. cbn [length] in *. lia. }
  rewrite cstr_term by done. rewrite Hstr.
  change (strncmp_eq (strlen SOCKET_PROT_VERSION)
    (drop (strlen (lit "protocol_version=")) (lit "protocol_version=1.0" ++ rest)) SOCKET_PROT_VERSION)
    with true.
  cbn [negb]. unfold close_fd, net. mrun. cbn [cs_net cs_client]. by rewrite H4.
Qed.

(** ** Texts *)

Lemma id_digits_no_nul id : id_digits id → no_nul id.
Proof. intros [_ H]. by apply lower_hex_digits_no_nul. Qed.

Lemma register_cmd_eq name timeout ignorepid c :
  cstr (wc_name c) = name → 0 ≤ timeout < 2 ^ 32 →
  register_cmd timeout ignorepid c = register_text name timeout ignorepid.
Proof.
  intros Hn Ht. unfold register_text, register_arg.
  transitivity (lit "REGISTER " ++ cstr (wc_name c) ++ SP :: udec (u32 timeout)
    ++ cstr (if ignorepid then lit " ignorepid" else []) ++ lit "\n"); [by destruct ignorepid|].
  rewrite Hn, u32_small by done. by destruct ignorepid.
Qed.

Lemma register_text_ok name timeout ignorepid :
  good_name name → 0 ≤ timeout < 2 ^ 32 →
  no_nul (register_text name timeout ignorepid) ∧
  (length (register_text name timeout ignorepid) < 128)%nat.
Proof.
  intros Hn Ht. pose proof (good_name_no_nul name Hn). destruct Hn as (_ & Hl & _).
  unfold WD_CLIENT_NAME_LEN in Hl. unfold register_text, register_arg. split.
  - apply no_nul_app; [repeat constructor; discriminate|]. apply no_nul_app; [done|].
    constructor; [done|]. apply no_nul_app; [apply udec_no_nul; lia|].
    destruct ignorepid; repeat constructor; discriminate.
  - assert (length (udec timeout) ≤ 10)%nat by (apply udec_length; lia).
    rewrite !length_app. cbn [length]. rewrite length_app.
    change (length (lit "REGISTER ")) with 9%nat.
    assert (length (if ignorepid then lit " ignorepid\n" else lit "\n") ≤ 11)%nat
      by (destruct ignorepid; vm_compute; lia). lia.
Qed.

(** The array a client holds after registration. *)
Definition id_array (id : bytes) : bytes := id ++ [NUL].

Lemma id_array_hd id : id_digits id → Ascii.eqb (hd NUL (id_array id)) NUL = false.
Proof.
  intros [Hl Hx]. destruct id as [|x id]; [done|]. cbn. apply ascii_eqb_false.
  apply Forall_cons in Hx as [Hx _]. by apply xdigit_not_nul, lower_hex_xdigit.
Qed.

Lemma cmd_text_eq (cmd : string) id c :
  id_digits id → wc_clientID c = id_array id →
  lit cmd ++ cstr (wc_clientID c) ++ lit "\n" = id_text (lit cmd) id.
Proof.
  intros Hid ->. unfold id_array, id_text. by rewrite cstr_term by by apply id_digits_no_nul.
Qed.

(** ** The three calls *)

(** An object that holds the identifier of a registered client. *)
Definition registered_as (st : S) (name id : bytes) (c : wd_client_t) : Prop :=
  client_for st name c ∧ id_digits id ∧ wc_clientID c = id_array id.

(** A registration is two sessions: the protocol check and the request. *)
Lemma register_session_ok st name c timeout ignorepid reply st1 id st2 :
  ws_inv st → client_for st name c → good_name name →
  WD_CLIENT_TIMEOUT_MIN_MS ≤ timeout ≤ WD_CLIENT_TIMEOUT_MAX_MS →
  session (ws_path st) (lit "VERSION\n") st reply st1 → version_reply reply →
  ws_inv st1 → ws_path st1 = ws_path st →
  session (ws_path st1) (register_text name timeout ignorepid) st1 (lit "OK " ++ id ++ lit "\n") st2 →
  id_digits id → ws_path st2 = ws_path st1 →
  ∃ c', wd_client_register uninit timeout ignorepid (CState (Some c) st)
        = (Ret WD_CLIENT_OK, CState (Some c') st2) ∧ registered_as st2 name id c'.
Proof.
  intros Hi Hc Hn Ht Hses1 Hvr Hi1 Hp1 Hses Hid Hp2. pose proof Ht as Ht'.
  unfold WD_CLIENT_TIMEOUT_MIN_MS, WD_CLIENT_TIMEOUT_MAX_MS in Ht'.
  destruct (check_prot_version_session st name c reply st1 Hi Hc Hses1 Hvr Hp1) as (c1 & Hv & Hc1).
  destruct (register_text_ok name timeout ignorepid Hn ltac:(lia)) as [Hnt Hlt].
  assert (no_nul (lit "OK " ++ id ++ lit "\n")) as Hnr.
  { apply no_nul_app; [repeat constructor; discriminate|].
    apply no_nul_app; [by apply id_digits_no_nul|repeat constructor; discriminate]. }
  destruct (transact_ok st1 name c1 (register_text name timeout ignorepid) 128 128 (lit "REGISTER")
    (register_cmd timeout ignorepid) register_response
    (lit "OK " ++ id ++ lit "\n") st2 Hi1 Hc1 Hses) as (t & s3 & b & Hcl & Htr); try done.
  { intros t. apply register_cmd_eq; [apply (cf_name _ _ _ Hc1)|lia]. }
  { rewrite !length_app. rewrite (proj1 Hid). vm_compute. lia. }
  assert (strncpy (WD_CLIENTID_LEN - 1) (id ++ lit "\n" ++ NUL :: b) ++ [NUL] = id_array id) as Hcopy.
  { unfold id_array. f_equal. unfold strncpy. rewrite cstr_app by by apply id_digits_no_nul.
    rewrite <-app_assoc. rewrite take_app_le by (rewrite (proj1 Hid); done).
    apply take_ge. rewrite (proj1 Hid). done. }
  eexists _. split.
  - unfold wd_client_register. rewrite bind_eq, missing_eq.
    assert (Ascii.eqb (hd NUL (wc_name c)) NUL = false) as ->.
    { pose proof (cf_name _ _ _ Hc) as Hnm. destruct Hn as [Hne _]. destruct (wc_name c) as [|x l].
      - by rewrite <-Hnm in Hne.
      - cbn in *. destruct (Ascii.eqb x NUL); [by rewrite <-Hnm in Hne|done]. }
    assert ((timeout <? WD_CLIENT_TIMEOUT_MIN_MS) || (timeout >? WD_CLIENT_TIMEOUT_MAX_MS) = false)
      as -> by (unfold WD_CLIENT_TIMEOUT_MIN_MS, WD_CLIENT_TIMEOUT_MAX_MS; lia).
    cbv beta iota. rewrite bind_eq, Hv. cbv beta iota.
    change (negb (WD_CLIENT_OK =? WD_CLIENT_OK)) with false. cbv iota.
    rewrite Htr. rewrite <-!app_assoc. unfold register_response.
    change (strncmp_eq 3 (lit "OK " ++ id ++ lit "\n" ++ NUL :: b) (lit "OK ")) with true. cbv iota.
    change (drop 3 (lit "OK " ++ id ++ lit "\n" ++ NUL :: b)) with (id ++ lit "\n" ++ NUL :: b).
    rewrite Hcopy. unfold set_client, deref. mrun. cbn [cs_client cs_net].
    rewrite finish_eq, Hcl. reflexivity.
  - split; [|by split]. apply client_for_status, client_for_id, client_for_status.
    by eapply client_for_path.
Qed.

Lemma register_ok st name c timeout ignorepid :
  ws_inv st → client_for st name c → ws_open st name ignorepid → good_name name →
  WD_CLIENT_TIMEOUT_MIN_MS ≤ timeout ≤ WD_CLIENT_TIMEOUT_MAX_MS →
  ∃ id c' st', wd_client_register uninit timeout ignorepid (CState (Some c) st)
               = (Ret WD_CLIENT_OK, CState (Some c') st') ∧
    ws_inv st' ∧ ws_member st' id ∧ registered_as st' name id c'.
Proof.
  intros Hi Hc Ho Hn Ht. destruct (ws_version st Hi) as (reply & st1 & Hses & Hv & Hi1 & Hp1 & Ho1).
  destruct (ws_register st1 name timeout ignorepid Hi1 (Ho1 _ _ Ho) Hn Ht)
    as (id & st2 & Hses2 & Hid & Hi2 & Hp2 & Hm).
  destruct (register_session_ok st name c timeout ignorepid reply st1 id st2) as (c' & He & Hr); try done.
  by exists id, c', st2.
Qed.

(** A PING or UNREGISTER of a registered object. *)
Lemma simple_command_ok st name id c st' (cmd : string) what :
  ws_inv st → registered_as st name id c →
  session (ws_path st) (id_text (lit cmd) id) st (lit "OK\n") st' →
  no_nul (lit cmd) → (length (lit cmd) < 40)%nat → ws_path st' = ws_path st →
  ∃ c', transact uninit 64 64 what (λ c, lit cmd ++ cstr (wc_clientID c) ++ lit "\n") (check_ok what)
          (CState (Some c) st) = (Ret WD_CLIENT_OK, CState (Some c') st') ∧
    registered_as st' name id c'.
Proof.
  intros Hi (Hc & Hid & Hcid) Hses Hnc Hlc Hp.
  destruct (transact_ok st name c (id_text (lit cmd) id) 64 64 what
    (λ c, lit cmd ++ cstr (wc_clientID c) ++ lit "\n") (check_ok what) (lit "OK\n") st' Hi Hc Hses)
    as (t & s3 & b & Hcl & Htr); try done.
  { intros t. by apply cmd_text_eq. }
  { unfold id_text. apply no_nul_app; [done|].
    apply no_nul_app; [by apply id_digits_no_nul|repeat constructor; discriminate]. }
  { unfold id_text. rewrite !length_app, (proj1 Hid). change (length (lit "\n")) with 1%nat.
    unfold WD_CLIENTID_FMT_LEN. lia. }
  { repeat constructor; discriminate. }
  { vm_compute. lia. }
  destruct (check_ok_eq what (NUL :: b) (with_status t c) s3) as [t2 Hck].
  exists (with_status t2 (with_status t c)). rewrite Htr, Hck, Hcl. split; [done|].
  split; [|done]. apply client_for_status, client_for_status. by eapply client_for_path.
Qed.

Lemma ping_session_ok st name id c st' :
  ws_inv st → registered_as st name id c →
  session (ws_path st) (id_text (lit "PING ") id) st (lit "OK\n") st' → ws_path st' = ws_path st →
  ∃ c', wd_client_ping uninit (CState (Some c) st) = (Ret WD_CLIENT_OK, CState (Some c') st') ∧
    registered_as st' name id c'.
Proof.
  intros Hi Hr Hses Hp. pose proof Hr as (_ & Hid & Hcid).
  destruct (simple_command_ok st name id c st' "PING " (lit "PING") Hi Hr Hses) as (c' & Htr & Hr');
    [repeat constructor; discriminate|vm_compute; lia|done|].
  exists c'. split; [|done]. unfold wd_client_ping.
  rewrite bind_eq, missing_eq, Hcid, id_array_hd by done. exact Htr.
Qed.

Lemma ping_ok st name id c :
  ws_inv st → ws_member st id → registered_as st name id c →
  ∃ c' st', wd_client_ping uninit (CState (Some c) st) = (Ret WD_CLIENT_OK, CState (Some c') st') ∧
    ws_inv st' ∧ ws_member st' id ∧ registered_as st' name id c'.
Proof.
  intros Hi Hm Hr. destruct (ws_ping st id Hi Hm (proj1 (proj2 Hr))) as (st' & Hses & Hi' & Hp & Hm').
  destruct (ping_session_ok st name id c st' Hi Hr Hses Hp) as (c' & He & Hr'). by exists c', st'.
Qed.

Lemma unregister_ok st name id c :
  ws_inv st → ws_member st id → registered_as st name id c →
  ∃ c' st', wd_client_unregister uninit (CState (Some c) st)
            = (Ret WD_CLIENT_OK, CState (Some c') st') ∧
    ws_inv st' ∧ ws_left st' id ∧ registered_as st' name id c'.
Proof.
  intros Hi Hm Hr. pose proof Hr as (_ & Hid & Hcid).
  destruct (ws_unregister st id Hi Hm Hid) as (st' & Hses & Hi' & Hp & Hl').
  destruct (simple_command_ok st name id c st' "UNREGISTER " (lit "UNREGISTER") Hi Hr Hses)
    as (c' & Htr & Hr'); [repeat constructor; discriminate|vm_compute; lia|done|].
  exists c', st'. split; [|done]. unfold wd_client_unregister.
  rewrite bind_eq, missing_eq, Hcid, id_array_hd by done. exact Htr.
Qed.

(** ** A whole client *)

(** What an application does: register, [n] heartbeats, unregister; the results. *)
Fixpoint ping_times (n : nat) : M (cstate S) (list Z) :=
  match n with
  | O => mret []
  | Datatypes.S n => r ← wd_client_ping uninit; rs ← ping_times n; mret (r :: rs)
  end.

Definition client_lifecycle (timeout : Z) (ignorepid : bool) (n : nat) : M (cstate S) (list Z) :=
  r ← wd_client_register uninit timeout ignorepid;
  rs ← ping_times n;
  u ← wd_client_unregister uninit;
  mret (r :: rs ++ [u]).

Lemma ping_times_ok n st name id c :
  ws_inv st → ws_member st id → registered_as st name id c →
  ∃ c' st', ping_times n (CState (Some c) st)
            = (Ret (replicate n WD_CLIENT_OK), CState (Some c') st') ∧
    ws_inv st' ∧ ws_member st' id ∧ registered_as st' name id c'.
Proof.
  revert st c. induction n as [|n IH]; intros st c Hi Hm Hr; cbn [ping_times]; [eauto 10|].
  destruct (ping_ok st name id c Hi Hm Hr) as (c1 & st1 & H1 & Hi1 & Hm1 & Hr1).
  destruct (IH st1 c1 Hi1 Hm1 Hr1) as (c2 & st2 & H2 & H3).
  exists c2, st2. split; [|done]. by rewrite bind_eq, H1, bind_eq, H2.
Qed.

Lemma client_lifecycle_ok timeout ignorepid n st name c :
  ws_inv st → client_for st name c → ws_open st name ignorepid → good_name name →
  WD_CLIENT_TIMEOUT_MIN_MS ≤ timeout ≤ WD_CLIENT_TIMEOUT_MAX_MS →
  ∃ id c' st', client_lifecycle timeout ignorepid n (CState (Some c) st)
    = (Ret (replicate (n + 2) WD_CLIENT_OK), CState (Some c') st') ∧
    ws_inv st' ∧ ws_left st' id ∧ id_digits id ∧ wc_clientID c' = id_array id.
Proof.
  intros Hi Hc Ho Hn Ht.
  destruct (register_ok st name c timeout ignorepid Hi Hc Ho Hn Ht)
    as (id & c1 & st1 & H1 & Hi1 & Hm1 & Hr1).
  destruct (ping_times_ok n st1 name id c1 Hi1 Hm1 Hr1) as (c2 & st2 & H2 & Hi2 & Hm2 & Hr2).
  destruct (unregister_ok st2 name id c2 Hi2 Hm2 Hr2) as (c3 & st3 & H3 & Hi3 & Hl3 & (_ & Hid & Hcid)).
  exists id, c3, st3. split; [|done]. unfold client_lifecycle.
  rewrite bind_eq, H1, bind_eq, H2, bind_eq, H3. mrun. rewrite Nat.add_comm. cbn.
  do 2 f_equal. change [WD_CLIENT_OK] with (replicate 1 WD_CLIENT_OK).
  rewrite <-replicate_add. by rewrite Nat.add_comm.
Qed.
End Client.

(** ** Bad parameters *)

(** Nothing is sent when a parameter is missing or out of range. *)
Lemma client_refuses {S} `{Transport S} uninit c (st : S) timeout ignorepid :
  (hd NUL (wc_name c) = NUL ∨
   ¬ WD_CLIENT_TIMEOUT_MIN_MS ≤ timeout ≤ WD_CLIENT_TIMEOUT_MAX_MS →
   ∃ text, wd_client_register uninit timeout ignorepid (CState (Some c) st)
           = (Ret WD_CLIENT_EPARAM, CState (Some (with_status text c)) st)) ∧
  (hd NUL (wc_clientID c) = NUL →
   (∃ text, wd_client_ping uninit (CState (Some c) st)
            = (Ret WD_CLIENT_EPARAM, CState (Some (with_status text c)) st)) ∧
   (∃ text, wd_client_unregister uninit (CState (Some c) st)
            = (Ret WD_CLIENT_EPARAM, CState (Some (with_status text c)) st))).
Proof.
  split.
  - intros Hb. unfold wd_client_register. rewrite bind_eq, missing_eq.
    destruct (Ascii.eqb_spec (hd NUL (wc_name c)) NUL) as [|Hne]; [by eexists|].
    destruct Hb as [|Hb]; [done|].
    assert ((timeout <? WD_CLIENT_TIMEOUT_MIN_MS) || (timeout >? WD_CLIENT_TIMEOUT_MAX_MS) = true)
      as -> by lia. by eexists.
  - intros Hb. unfold wd_client_ping, wd_client_unregister.
    rewrite !bind_eq, missing_eq, Hb. split; by eexists.
Qed.

(** The library refuses bad parameters before it talks to anybody: without a
    name or with a timeout out of range a registration, and without an identifier
    a PING or an UNREGISTER, return [WD_CLIENT_EPARAM] and leave the other side
    and everything but the status text of the object alone. *)
Theorem client_rejects_bad_parameters {S} `{Transport S} uninit c (st : S) timeout ignorepid :
  (hd NUL (wc_name c) = NUL ∨
   ¬ WD_CLIENT_TIMEOUT_MIN_MS ≤ timeout ≤ WD_CLIENT_TIMEOUT_MAX_MS →
   ∃ text, wd_client_register uninit timeout ignorepid (CState (Some c) st)
           = (Ret WD_CLIENT_EPARAM, CState (Some (with_status text c)) st)) ∧
  (hd NUL (wc_clientID c) = NUL →
   (∃ text, wd_client_ping uninit (CState (Some c) st)
            = (Ret WD_CLIENT_EPARAM, CState (Some (with_status text c)) st)) ∧
   (∃ text, wd_client_unregister uninit (CState (Some c) st)
            = (Ret WD_CLIENT_EPARAM, CState (Some (with_status text c)) st))).
Proof. apply client_refuses. Qed.

(** A NULL client object, which every function of the library tests for, is
    dereferenced by the status macro of the error path itself. *)
Theorem null_client_undefined {S} `{Transport S} uninit (st : S) timeout ignorepid :
  wd_client_register uninit timeout ignorepid (CState None st) = (Undef, CState None st) ∧
  wd_client_ping uninit (CState None st) = (Undef, CState None st) ∧
  wd_client_unregister uninit (CState None st) = (Undef, CState None st).
Proof. done. Qed.
