(* ===== verification/EndToEnd.v ===== *)
(** * The client library against the broker

    The broker of Daemon.v as the other side of the client library's connections:
    an instance of the interface of Service.v, and the end-to-end behaviour of
    the two programs together. *)

From S2P Require Import Prelude CString Scanf Common World ClientId Registry Identifiers Status.
From S2P Require Import Handlers Requests Daemon Timing Life Spec ClientLib Service.

Section Net.
Context {E : Env}.

(** A broker, the credentials of the process that uses the library, and the reply
    waiting on its connection. *)
Record bnet : Type := BNet {
  bn_broker : broker;
  bn_creds : ucred;
  bn_pending : option bytes;
}.

Definition bn_path (st : bnet) : bytes := cstr (cfg_socket_path (config (bn_broker st))).

(** The connection the broker accepts for a request of this process. *)
Definition request_conn (creds : ucred) (cmd : bytes) : conn := Conn (inl creds) 1 (Some cmd) None.

(** The broker serves a request as soon as it is written. *)
Definition bn_write (cmd : bytes) (st : bnet) : option bytes * bnet :=
  match serve (Some (Accepted (request_conn (bn_creds st) cmd))) (bn_broker st) with
  | (Ret _, b) => (None, BNet b (bn_creds st)
      (head (replies (drop (length (trace (bn_broker st))) (trace b)))))
  | (_, b) => (None, BNet b (bn_creds st) None)
  end.

Definition bn_read (st : bnet) : (Z * option bytes * bytes) * bnet :=
  match bn_pending st with
  | Some r => ((1, Some r, []), BNet (bn_broker st) (bn_creds st) None)
  | None => ((0, None, []), st)
  end.

#[export] Instance broker_transport : Transport bnet := {
  tr_connect path st :=
    if bytes_eqb path (bn_path st) then (Connected, st)
    else (NotConnected (lit "No such file or directory"), st);
  tr_write := bn_write;
  tr_read := bn_read;
  tr_close st := st;
}.

(** A request that is served and answered is a session. *)
Lemma served_session st cmd reply s2 es :
  handle_command (request_conn (bn_creds st) cmd) (add_event EvAccept (bn_broker st)) = (Ret tt, s2) →
  trace s2 = trace (add_event EvAccept (bn_broker st)) ++ es → replies es = [reply] →
  session (bn_path st) cmd st reply (BNet (add_event EvCloseConn s2) (bn_creds st) None).
Proof.
  intros Hh Ht Hr.
  exists st, (BNet (add_event EvCloseConn s2) (bn_creds st) (Some reply)),
    (BNet (add_event EvCloseConn s2) (bn_creds st) None), 1, [].
  split; [cbn; by rewrite bytes_eqb_refl|]. split; [|done].
  cbn [tr_write broker_transport]. unfold bn_write, serve, emit. mrun. rewrite Hh.
  cbn [trace add_event]. rewrite Ht. cbn [trace add_event].
  rewrite <-!app_assoc, drop_app_length. rewrite !replies_app, Hr. done.
Qed.

(** What the dispatcher sees of a request that fits its buffer. *)
Lemma handle_command_request creds cmd s :
  cmd ≠ [] → (length cmd < CMD_BUF_LEN)%nat →
  ∃ rest, handle_command (request_conn creds cmd) s
          = dispatch (request_conn creds cmd) creds (cmd ++ NUL :: rest) s.
Proof.
  intros Hn Hl. unfold handle_command. cbn [conn_peer conn_select conn_read request_conn].
  rewrite read_with_timeout_msg by done.
  destruct (Z.leb_spec (Z.of_nat (length cmd)) 0); [destruct cmd; [done|cbn [length] in *; lia]|].
  eauto.
Qed.

Lemma parse_register_cstr a b : cstr a = cstr b → parse_register a = parse_register b.
Proof. intros H. unfold parse_register, sscanf. by rewrite H. Qed.

(** The parts of the state requests other than REBOOT leave alone, on the network. *)
Definition bn_inv (st : bnet) : Prop :=
  wf_table (clients (bn_broker st)) ∧ ids_unique (clients (bn_broker st)) ∧
  bn_path st ≠ [] ∧ (length (bn_path st) < WD_CLIENT_SOCKPATH_LEN)%nat.

(** A client of that name gets a slot, its identifier is new, and it may leave. *)
Definition bn_open (st : bnet) (name : bytes) : Prop :=
  is_Some (slot_spec (config (bn_broker st)) (clients (bn_broker st)) name) ∧
  abs (clients (bn_broker st)) !! next_id (bn_broker st) = None ∧
  (cr_uid (bn_creds st) = 0 ∨ cfg_strict_clients (config (bn_broker st)) = false).

Definition bn_member (st : bnet) (id : bytes) : Prop :=
  (∃ ss, abs (clients (bn_broker st)) !! id_array id = Some ss ∧
         session_pid_ok ss (cr_pid (bn_creds st))) ∧
  (cr_uid (bn_creds st) = 0 ∨ cfg_strict_clients (config (bn_broker st)) = false).

Definition bn_left (st : bnet) (id : bytes) : Prop :=
  abs (clients (bn_broker st)) !! id_array id = None.

(** The state after a served request. *)
Definition after (st : bnet) (s2 : broker) : bnet :=
  BNet (add_event EvCloseConn s2) (bn_creds st) None.

Lemma after_inv st s2 :
  bn_inv st → wf_table (clients s2) → ids_unique (clients s2) → config s2 = config (bn_broker st) →
  bn_inv (after st s2) ∧ bn_path (after st s2) = bn_path st.
Proof.
  intros (_ & _ & H3 & H4) Hw Hu Hc.
  assert (bn_path (after st s2) = bn_path st) as Hp by (unfold bn_path; cbn; by rewrite Hc).
  split; [|done]. unfold bn_inv. rewrite Hp. done.
Qed.

(** The broker's state when it serves the next request. *)
Definition accepting (st : bnet) : broker := add_event EvAccept (bn_broker st).

(** Serving a request keeps the invariant while there are identifiers. *)
Lemma served_keeps st cmd s2 :
  bn_inv st → drawn (bn_broker st) →
  handle_command (request_conn (bn_creds st) cmd) (accepting st) = (Ret tt, s2) →
  draws_distinct (id_ix s2) →
  bn_inv (after st s2) ∧ bn_path (after st s2) = bn_path st ∧ config s2 = config (bn_broker st) ∧
  drawn (bn_broker (after st s2)).
Proof.
  intros Hi Hd Hh Hdd. pose proof Hi as (Hw & _).
  destruct (handle_command_outcome (request_conn (bn_creds st) cmd) (bn_creds st) (accepting st) Hw eq_refl)
    as [Hu|(s' & es & He & Ho)]; [congruence|]. assert (s' = s2) as -> by congruence.
  pose proof (request_effect_wf (bn_creds st) (accepting st) _ Hw (ro_effect _ _ _ _ _ Ho)) as Hw2.
  pose proof (ro_drawn _ _ _ _ _ Ho Hd) as Hd2. pose proof (ro_config _ _ _ _ _ Ho) as Hc2.
  assert (ids_unique (clients s2)) as Hu2 by (intros i j c d ???? ?; by eapply drawn_unique).
  destruct (after_inv st s2 Hi Hw2 Hu2 Hc2) as [Hi' Hpath]. split_and!; [done..|].
  eapply drawn_kept; [|exact Hd2]. by apply ids_kept_same.
Qed.

(** *** VERSION *)

Lemma version_reply_ok : version_reply (lit "wd-broker_version=2.1.0\nprotocol_version=1.0\n").
Proof.
  split; [by apply no_nul_check|]. split; [discriminate|]. split; [vm_compute; lia|].
  exists (lit "\n"). vm_compute. reflexivity.
Qed.

Definition version_text : bytes := lit "wd-broker_version=2.1.0\nprotocol_version=1.0\n".

Lemma version_run st :
  handle_command (request_conn (bn_creds st) (lit "VERSION\n")) (accepting st)
  = (Ret tt, add_event (EvReply version_text) (accepting st)).
Proof.
  destruct (handle_command_request (bn_creds st) (lit "VERSION\n") (accepting st)) as [rest Hh];
    [done|vm_compute; lia|].
  rewrite Hh. transitivity (handle_version (request_conn (bn_creds st) (lit "VERSION\n"))
                    (lit "VERSION\n" ++ NUL :: rest) (accepting st)); [reflexivity|].
  rewrite handle_version_eq.
  assert (fst (sscanf (drop (strlen CMD_VERSION) (lit "VERSION\n" ++ NUL :: rest)) (lit " %31s")) =? 1
          = false) as -> by reflexivity. done.
Qed.

Lemma bn_version st :
  bn_inv st → ∃ reply st', session (bn_path st) (lit "VERSION\n") st reply st' ∧
    version_reply reply ∧ bn_inv st' ∧ bn_path st' = bn_path st ∧
    ∀ name (ignorepid : bool), bn_open st name → bn_open st' name.
Proof.
  intros Hi. pose proof Hi as (Hw & Hu & _ & _).
  pose proof (served_session st _ version_text _ [EvReply version_text] (version_run st)
    eq_refl eq_refl) as Hs.
  destruct (after_inv st (add_event (EvReply version_text) (accepting st)) Hi Hw Hu eq_refl) as [Hi' Hp].
  exists version_text, (after st (add_event (EvReply version_text) (accepting st))).
  split; [exact Hs|]. split; [exact version_reply_ok|]. by split_and!.
Qed.

(** *** REGISTER *)

(** The run of the handler: the slot is filled in. *)
Lemma register_run st name timeout ignorepid i c :
  good_name name → WD_CLIENT_TIMEOUT_MIN_MS ≤ timeout ≤ WD_CLIENT_TIMEOUT_MAX_MS →
  slot_spec (config (bn_broker st)) (clients (bn_broker st)) name = Some i →
  clients (bn_broker st) !! i = Some c →
  let sock := request_conn (bn_creds st) (register_text name timeout ignorepid) in
  let id := registration_clientID (accepting st) c in
  ∃ s2 l buf, handle_command sock (accepting st) = (Ret tt, s2) ∧
    parse_register (drop (strlen CMD_REGISTER) buf) = inr (name, timeout, negb ignorepid) ∧
    handle_register sock (bn_creds st) buf (accepting st) = (Ret tt, s2) ∧
    same_daemon (accepting st) s2 [EvLog LOG_INFO l; reply_event sock (printf "OK %s\n" [PS id])] ∧
    clients s2 = <[i := registered name (cr_pid (bn_creds st)) (negb ignorepid) timeout
                          (env_now (now_ix (accepting st))) id]> (clients (bn_broker st)) ∧
    id_ix s2 = (if cl_anounced c then id_ix (bn_broker st) else Datatypes.S (id_ix (bn_broker st))).
Proof.
  intros Hn Ht Hslot Hc sock id. pose proof Ht as Ht'.
  unfold WD_CLIENT_TIMEOUT_MIN_MS, WD_CLIENT_TIMEOUT_MAX_MS in Ht'.
  set (cmd := register_text name timeout ignorepid) in *.
  destruct (register_text_ok name timeout ignorepid Hn ltac:(lia)) as [Hnt Hlt].
  destruct (handle_command_request (bn_creds st) cmd (accepting st)) as [rest Hh]; [done|done|].
  set (buf := cmd ++ NUL :: rest) in *.
  assert (drop (strlen CMD_REGISTER) buf = register_arg name timeout ignorepid ++ NUL :: rest) as Hdrop
    by reflexivity.
  assert (parse_register (drop (strlen CMD_REGISTER) buf) = inr (name, timeout, negb ignorepid)) as Hp.
  { rewrite Hdrop, <-(parse_register_print name timeout ignorepid) by done.
    apply parse_register_cstr. apply Forall_app in Hnt as [_ Hnt].
    by rewrite cstr_term, cstr_no_nul. }
  destruct (handle_register_ok sock (bn_creds st) buf (accepting st) name timeout
    (negb ignorepid) i c Hp Hslot Hc) as (s2 & l & He & Hsd & Hcl & _ & Hix).
  exists s2, l, buf. split; [|done]. rewrite <-He. exact Hh.
Qed.

Lemma bn_register st name timeout ignorepid :
  bn_inv st → bn_open st name → good_name name →
  WD_CLIENT_TIMEOUT_MIN_MS ≤ timeout ≤ WD_CLIENT_TIMEOUT_MAX_MS →
  ∃ id st', session (bn_path st) (register_text name timeout ignorepid) st
              (lit "OK " ++ id ++ lit "\n") st' ∧
    id_digits id ∧ bn_inv st' ∧ bn_path st' = bn_path st ∧ bn_member st' id.
Proof.
  intros Hi ([i Hslot] & Hfresh & Hleave) Hn Ht. pose proof Hi as (Hw & Hu & _ & _).
  destruct (slot_spec_cases _ _ _ _ Hslot) as (c & Hc & _).
  destruct (register_run st name timeout ignorepid i c Hn Ht Hslot Hc)
    as (s2 & l & buf & Hh & Hp & He & Hsd & Hcl & _).
  pose proof (registration_clientID_ok (accepting st) i c name Hw Hslot Hc) as Hid.
  set (idarr := registration_clientID (accepting st) c) in *.
  destruct (is_clientID_cstr idarr Hid) as (Hidl & Hida & Hidx).
  set (sock := request_conn (bn_creds st) (register_text name timeout ignorepid)) in *.
  destruct (register_implements sock (bn_creds st) buf (accepting st) s2 name timeout (negb ignorepid)
    Hw Hu Hfresh Hp He) as (r & es & _ & _ & _ & Hu2).
  assert (wf_table (clients s2)) as Hw2.
  { rewrite Hcl. apply wf_table_insert; [done|]. by apply wf_registered. }
  destruct (after_inv st s2 Hi Hw2 Hu2 (sd_config _ _ _ Hsd)) as [Hi' Hpath].
  exists (cstr idarr), (after st s2). split; [|split; [done|split; [done|split; [done|split]]]].
  - apply (served_session st _ _ s2 _ Hh (sd_trace _ _ _ Hsd)). reflexivity.
  - exists (session_of (registered name (cr_pid (bn_creds st)) (negb ignorepid) timeout
      (env_now (now_ix (accepting st))) idarr)). split; [|by right].
    apply abs_lookup; [done|]. exists i, (registered name (cr_pid (bn_creds st)) (negb ignorepid) timeout
      (env_now (now_ix (accepting st))) idarr). split_and!; [|done| |reflexivity].
    + cbn [after bn_broker add_event clients]. rewrite Hcl.
      apply list_lookup_insert_eq. by eapply lookup_lt_Some.
    + unfold id_array. by rewrite <-Hida.
  - cbn [after bn_broker bn_creds add_event config]. by rewrite (sd_config _ _ _ Hsd).
Qed.

(** *** PING and UNREGISTER *)

Lemma scan_clientID_text id rest :
  id_digits id → scan_clientID (id ++ lit "\n" ++ NUL :: rest) = inr (id_array id).
Proof.
  intros [Hl Hx]. apply scan_clientID_iff. exists [], id, (lit "\n"). split_and!; try done.
  - rewrite app_assoc, cstr_term; [done|]. apply no_nul_app; [by apply lower_hex_digits_no_nul|].
    by apply no_nul_check.
  - constructor.
  - by repeat constructor.
  - eapply Forall_impl; [exact Hx|]. apply lower_hex_xdigit.
  - by rewrite tolower_lower_hex_id.
Qed.

Lemma id_array_shape id : id_digits id → is_clientID (id_array id).
Proof. intros [Hl Hx]. by exists id. Qed.

Lemma member_found st id :
  bn_inv st → bn_member st id → id_digits id →
  ∃ i c, find_clientID (clients (bn_broker st)) (id_array id) (cr_pid (bn_creds st)) 0
         = WD_CLIENT_IDENTIFIED i ∧ clients (bn_broker st) !! i = Some c ∧ live c = true ∧
    cl_clientID c = id_array id ∧ session_pid_ok (session_of c) (cr_pid (bn_creds st)).
Proof.
  intros (Hw & Hu & _) ((ss & Hss & Hp) & _) Hid.
  pose proof (find_clientID_abs _ (id_array id) (cr_pid (bn_creds st)) Hw Hu (id_array_shape id Hid)) as Hf.
  destruct (find_clientID _ _ _ _) as [i|i|]; [|exfalso|congruence].
  - destruct Hf as (c & Hc & Hl & Hcid & _ & Hpc). by exists i, c.
  - destruct Hf as (c & _ & _ & _ & Hlk & Hpc). apply Hpc. by replace (session_of c) with ss by congruence.
Qed.

(** A request with an identifier is dispatched to its handler with that identifier. *)
Lemma id_request_run st id (cmd : string) (h : conn → ucred → bytes → B unit) :
  id_digits id → (length (lit cmd) ≤ 11)%nat →
  (∀ sock creds arg s, dispatch sock creds (lit cmd ++ arg) s = h sock creds (lit cmd ++ arg) s) →
  let sock := request_conn (bn_creds st) (id_text (lit cmd) id) in
  ∃ rest, handle_command sock (accepting st)
          = h sock (bn_creds st) (id_text (lit cmd) id ++ NUL :: rest) (accepting st) ∧
    scan_clientID (drop (length (lit cmd)) (id_text (lit cmd) id ++ NUL :: rest)) = inr (id_array id).
Proof.
  intros Hid Hlen Hd sock.
  destruct (handle_command_request (bn_creds st) (id_text (lit cmd) id) (accepting st)) as [rest Hh].
  { intros H. apply (f_equal length) in H. unfold id_text in H. rewrite !length_app, (proj1 Hid) in H.
    cbn in H. lia. }
  { unfold id_text, CMD_BUF_LEN. rewrite !length_app, (proj1 Hid). unfold WD_CLIENTID_FMT_LEN.
    change (length (lit "\n")) with 1%nat. lia. }
  exists rest. fold sock in Hh. rewrite Hh. unfold id_text. rewrite <-!app_assoc. split; [apply Hd|].
  rewrite drop_app_length. by apply scan_clientID_text.
Qed.

Lemma ping_run st id i c :
  id_digits id → clients (bn_broker st) !! i = Some c →
  find_clientID (clients (bn_broker st)) (id_array id) (cr_pid (bn_creds st)) 0 = WD_CLIENT_IDENTIFIED i →
  let sock := request_conn (bn_creds st) (id_text (lit "PING ") id) in
  let now := env_now (now_ix (accepting st)) in
  ∃ s2 buf, handle_command sock (accepting st) = (Ret tt, s2) ∧
    scan_clientID (drop (strlen CMD_PING) buf) = inr (id_array id) ∧
    handle_ping sock (bn_creds st) buf (accepting st) = (Ret tt, s2) ∧
    same_daemon (accepting st) s2 [reply_event sock (lit "OK\n")] ∧
    clients s2 = <[i := set_last_ping now c]> (clients (bn_broker st)) ∧
    id_ix s2 = id_ix (bn_broker st).
Proof.
  intros Hid Hc Hf sock now.
  destruct (id_request_run st id "PING " handle_ping Hid) as (rest & Hh & Hsc); [vm_compute; lia|done|].
  pose proof (handle_ping_eq sock (bn_creds st) _ (accepting st) (id_array id) Hsc) as He.
  cbn [accepting add_event clients] in He. rewrite Hf in He.
  fold sock in Hh. eexists _, _. rewrite Hh. split; [exact He|]. split; [exact Hsc|]. split; [exact He|].
  split; [same_daemon|]. split; [|done]. cbn. by rewrite (list_alter_known _ _ _ _ Hc).
Qed.

Lemma bn_ping st id :
  bn_inv st → bn_member st id → id_digits id →
  ∃ st', session (bn_path st) (id_text (lit "PING ") id) st (lit "OK\n") st' ∧
    bn_inv st' ∧ bn_path st' = bn_path st ∧ bn_member st' id.
Proof.
  intros Hi Hm Hid. pose proof Hi as (Hw & Hu & _ & _).
  destruct (member_found st id Hi Hm Hid) as (i & c & Hf & Hc & Hl & Hcid & Hp).
  destruct (ping_run st id i c Hid Hc Hf) as (s2 & buf & Hh & Hsc & He & Hsd & Hcl & _).
  destruct (ping_implements _ (bn_creds st) _ (accepting st) s2 (id_array id) Hw Hu Hsc He)
    as (r & es & _ & _ & _ & Hu2).
  assert (wf_table (clients s2)) as Hw2.
  { rewrite Hcl. apply wf_table_insert; [done|]. apply wf_set_last_ping. by eapply wf_table_lookup. }
  destruct (after_inv st s2 Hi Hw2 Hu2 (sd_config _ _ _ Hsd)) as [Hi' Hpath].
  exists (after st s2). split; [|split; [done|split; [done|split]]].
  - apply (served_session st _ _ s2 _ Hh (sd_trace _ _ _ Hsd)). reflexivity.
  - exists (session_of (set_last_ping (env_now (now_ix (accepting st))) c)). split; [|done].
    apply abs_lookup; [done|]. exists i, (set_last_ping (env_now (now_ix (accepting st))) c).
    split_and!; try done. cbn [after bn_broker add_event clients]. rewrite Hcl.
    apply list_lookup_insert_eq. by eapply lookup_lt_Some.
  - cbn [after bn_broker bn_creds add_event config]. rewrite (sd_config _ _ _ Hsd). apply Hm.
Qed.

Lemma unregister_run st id i c :
  id_digits id → clients (bn_broker st) !! i = Some c →
  find_clientID (clients (bn_broker st)) (id_array id) (cr_pid (bn_creds st)) 0 = WD_CLIENT_IDENTIFIED i →
  cr_uid (bn_creds st) = 0 ∨ cfg_strict_clients (config (bn_broker st)) = false →
  let sock := request_conn (bn_creds st) (id_text (lit "UNREGISTER ") id) in
  ∃ s2 buf es, handle_command sock (accepting st) = (Ret tt, s2) ∧
    scan_clientID (drop (strlen CMD_UNREGISTER) buf) = inr (id_array id) ∧
    handle_unregister sock (bn_creds st) buf (accepting st) = (Ret tt, s2) ∧
    same_daemon (accepting st) s2 es ∧ replies es = [lit "OK\n"] ∧
    clients s2 = <[i := deactivate c]> (clients (bn_broker st)) ∧
    id_ix s2 = id_ix (bn_broker st).
Proof.
  intros Hid Hc Hf Hal sock.
  destruct (id_request_run st id "UNREGISTER " handle_unregister Hid) as (rest & Hh & Hsc);
    [vm_compute; lia|done|].
  destruct (handle_unregister_eq sock (bn_creds st) _ (accepting st) (id_array id) Hsc)
    as (es1 & es2 & Hl1 & Hl2 & He).
  cbn [accepting add_event clients config] in He. rewrite Hf in He.
  assert (unregister_allowed (config (bn_broker st)) (bn_creds st) (WD_CLIENT_IDENTIFIED i) = Some i) as Ha.
  { destruct Hal as [Hz|Hst]; cbn [unregister_allowed].
    - rewrite Hz. cbn [Z.eqb negb]. by rewrite andb_false_r.
    - by rewrite Hst. }
  rewrite Ha in He. fold sock in Hh. eexists _, _, _. rewrite Hh.
  split; [exact He|]. split; [exact Hsc|]. split; [exact He|].
  split; [constructor; reflexivity|]. split; [by apply (replies_one sock)|]. split; [|done].
  cbn. by rewrite (list_alter_known _ _ _ _ Hc).
Qed.

Lemma bn_unregister st id :
  bn_inv st → bn_member st id → id_digits id →
  ∃ st', session (bn_path st) (id_text (lit "UNREGISTER ") id) st (lit "OK\n") st' ∧
    bn_inv st' ∧ bn_path st' = bn_path st ∧ bn_left st' id.
Proof.
  intros Hi Hm Hid. pose proof Hi as (Hw & Hu & _ & _).
  destruct (member_found st id Hi Hm Hid) as (i & c & Hf & Hc & Hl & Hcid & Hp).
  destruct (unregister_run st id i c Hid Hc Hf (proj2 Hm))
    as (s2 & buf & es & Hh & Hsc & He & Hsd & Hr & Hcl & _).
  destruct (unregister_implements _ (bn_creds st) _ (accepting st) s2 (id_array id) Hw Hu Hsc He)
    as (r & es' & _ & _ & _ & Hu2).
  assert (wf_table (clients s2)) as Hw2.
  { rewrite Hcl. apply wf_table_insert; [done|]. apply wf_deactivate. by eapply wf_table_lookup. }
  destruct (after_inv st s2 Hi Hw2 Hu2 (sd_config _ _ _ Hsd)) as [Hi' Hpath].
  exists (after st s2). split; [exact (served_session st _ _ s2 _ Hh (sd_trace _ _ _ Hsd) Hr)|].
  split; [done|]. split; [done|]. unfold bn_left. cbn [after bn_broker add_event clients].
  rewrite Hcl, (abs_clear _ _ _ _ Hu Hc Hl) by done. rewrite Hcid. apply lookup_delete_eq.
Qed.

Lemma bn_path_facts st :
  bn_inv st → no_nul (bn_path st) ∧ bn_path st ≠ [] ∧
    (length (bn_path st) < WD_CLIENT_SOCKPATH_LEN)%nat.
Proof. intros (_ & _ & H1 & H2). split; [apply no_nul_cstr|done]. Qed.

#[export] Instance broker_service : WatchdogService bnet := {
  ws_path := bn_path;
  ws_inv := bn_inv;
  ws_open st name _ := bn_open st name;
  ws_member := bn_member;
  ws_left := bn_left;
  ws_path_ok := bn_path_facts;
  ws_version := bn_version;
  ws_register := bn_register;
  ws_ping := bn_ping;
  ws_unregister := bn_unregister;
}.
End Net.

