(* ===== verification/ClientTest.v ===== *)
(** * The test program of the client library

    src/src/wd-client-test.c: every test, the assertion macro and [main], run
    through the client library against a service, and the proof that all of them
    pass against the broker. *)

From S2P Require Import Prelude CString Scanf Common World ClientId Registry Identifiers Status.
From S2P Require Import Handlers Requests Daemon Timing Life Spec ClientLib Service EndToEnd.

Definition WD_HEARTBEAT_TIMEOUT_MS : Z := 5000.

Definition test_socket : bytes := lit "/tmp/wd-broker-test.sock".
Definition test_name : bytes := lit "test-client".

Definition WD_TEST_CLIENT_INIT : wd_client_t := wd_client_init test_socket test_name.

(** ** The program *)

(** The output of the program and the other side of its connections. *)
Record tstate (S : Type) : Type := TState { ts_out : list (stream * bytes); ts_net : S }.
Arguments TState {S} ts_out ts_net.
Arguments ts_out {S} _.
Arguments ts_net {S} _.

(** What a shell reports for a process that called [abort]. *)
Definition ABORTED : Z := 128 + 6.

Section Tests.
Context {S : Type} {T : Transport S} (uninit : nat → bytes).

(** The diagnostic of the C library's [assert] for an expression. *)
Context (assert_message : bytes → bytes).

Local Abbreviation P := (M (tstate S)).

Definition print_to (f : stream) (text : bytes) : P unit :=
  modify (λ s, TState (ts_out s ++ [(f, text)]) (ts_net s)).

(** A call of the library with a pointer to the test's own object. *)
Definition call (f : M (cstate S) Z) (client : wd_client_t) : P (Z * wd_client_t) := λ s,
  match f (CState (Some client) (ts_net s)) with
  | (Ret r, s') => (Ret (r, default client (cs_client s')), TState (ts_out s) (cs_net s'))
  | (Exit c, s') => (Exit c, TState (ts_out s) (cs_net s'))
  | (Undef, s') => (Undef, TState (ts_out s) (cs_net s'))
  end.

Definition ASSERT_WITH_STATUS (b : bool) (expr : bytes) (client : wd_client_t) : P unit :=
  if negb b then
    print_to Stderr (printf "Assertion failed: %s\nwd-client lib Status: %s\n"
                       [PS expr; PS (wc_status client)]) ;;
    print_to Stderr (assert_message expr) ;;
    exit_with ABORTED
  else mret tt.

Definition assert_ok (result : Z) (client : wd_client_t) : P unit :=
  ASSERT_WITH_STATUS (result =? WD_CLIENT_OK) (lit "result == WD_CLIENT_OK") client.
Definition assert_eparam (result : Z) (client : wd_client_t) : P unit :=
  ASSERT_WITH_STATUS (result =? WD_CLIENT_EPARAM) (lit "result == WD_CLIENT_EPARAM") client.
Definition assert_registered (client : wd_client_t) : P unit :=
  ASSERT_WITH_STATUS (0 <? strlen (wc_clientID client))%nat (lit "strlen(client.clientID) > 0") client.

Definition test_wd_client_register : P unit :=
  '(result, client) ← call (wd_client_register uninit WD_HEARTBEAT_TIMEOUT_MS false) WD_TEST_CLIENT_INIT;
  assert_ok result client ;;
  assert_registered client ;;
  '(result, client) ← call (wd_client_unregister uninit) client;
  assert_ok result client ;;
  print_to Stdout (lit "test_wd_client_register passed\n").

Definition test_wd_client_ping : P unit :=
  '(result, client) ← call (wd_client_register uninit WD_HEARTBEAT_TIMEOUT_MS false) WD_TEST_CLIENT_INIT;
  assert_ok result client ;;
  assert_registered client ;;
  '(result, client) ← call (wd_client_ping uninit) client;
  assert_ok result client ;;
  '(result, client) ← call (wd_client_unregister uninit) client;
  assert_ok result client ;;
  print_to Stdout (lit "test_wd_client_ping passed\n").

(** [strncpy(client.name, name, sizeof(client.name))] *)
Definition set_name (name : bytes) (c : wd_client_t) : wd_client_t :=
  WdClient (wc_socket_path c) (strncpy WD_CLIENT_NAME_LEN name) (wc_clientID c) (wc_status c).

Definition test_register_with_invalid_name : P unit :=
  '(result, client) ← call (wd_client_register uninit WD_HEARTBEAT_TIMEOUT_MS false)
                           (set_name [] WD_TEST_CLIENT_INIT);
  assert_eparam result client ;;
  print_to Stdout (lit "test_register_with_invalid_name passed\n").

Definition test_register_with_invalid_timeout : P unit :=
  '(result, client) ← call (wd_client_register uninit (WD_CLIENT_TIMEOUT_MIN_MS - 1) false)
                           (set_name (lit "test-client") WD_TEST_CLIENT_INIT);
  assert_eparam result client ;;
  '(result, client) ← call (wd_client_register uninit (WD_CLIENT_TIMEOUT_MAX_MS + 1) false) client;
  assert_eparam result client ;;
  print_to Stdout (lit "test_register_with_invalid_timeout passed\n").

Definition test_unregister_without_registering : P unit :=
  '(result, client) ← call (wd_client_unregister uninit) WD_TEST_CLIENT_INIT;
  assert_eparam result client ;;
  print_to Stdout (lit "test_unregister_without_registering passed\n").

Definition test_ping_without_registering : P unit :=
  '(result, client) ← call (wd_client_ping uninit) WD_TEST_CLIENT_INIT;
  assert_eparam result client ;;
  print_to Stdout (lit "test_ping_without_registering passed\n").

(** [strncpy(client.socket_path, path, sizeof(client.socket_path) - 1)] *)
Definition set_path (path : bytes) (c : wd_client_t) : wd_client_t :=
  WdClient (strncpy (WD_CLIENT_SOCKPATH_LEN - 1) path ++ drop (WD_CLIENT_SOCKPATH_LEN - 1) (wc_socket_path c))
           (wc_name c) (wc_clientID c) (wc_status c).

Definition test_timeout_on_register : P unit :=
  '(result, client) ← call (wd_client_register uninit WD_HEARTBEAT_TIMEOUT_MS false)
                           (set_path (lit "/tmp/nonexistent.sock") WD_TEST_CLIENT_INIT);
  ASSERT_WITH_STATUS (result =? WD_CLIENT_ERR) (lit "result == WD_CLIENT_ERR") client ;;
  print_to Stdout (lit "test_timeout_on_register passed\n").

Definition test_main : P Z :=
  print_to Stdout (lit "Running wd-client tests...\n") ;;
  test_wd_client_register ;;
  test_wd_client_ping ;;
  test_register_with_invalid_name ;;
  test_register_with_invalid_timeout ;;
  test_unregister_without_registering ;;
  test_ping_without_registering ;;
  test_timeout_on_register ;;
  print_to Stdout (lit "All tests passed!\n") ;;
  mret 0.
End Tests.

(** ** What the tests need of a service *)

(** A service at a path that a client of one name may visit several times:
    [ts_visit k] are its promises to a client that comes for the [k]-th time from
    the end.  Nobody listens on other paths. *)
Class TestService (S : Type) {T : Transport S} (path name : bytes) : Type := {
  ts_visit : nat → WatchdogService S;
  ts_path k st : ws_inv (WatchdogService := ts_visit k) st →
    ws_path (WatchdogService := ts_visit k) st = path;
  ts_again k st id : ws_inv (WatchdogService := ts_visit (1 + k)) st →
    ws_left (WatchdogService := ts_visit (1 + k)) st id →
    ws_inv (WatchdogService := ts_visit k) st ∧ (∀ ip, ws_open (WatchdogService := ts_visit k) st name ip);
  ts_elsewhere k st p : ws_inv (WatchdogService := ts_visit k) st → p ≠ path →
    ∃ err, tr_connect p st = (NotConnected err, st);
}.

Section Passing.
Context {S : Type} {T : Transport S} {V : TestService S test_socket test_name}.
Context (uninit : nat → bytes) (Huninit : ∀ n, length (uninit n) = n).
Context (assert_message : bytes → bytes).

Lemma call_eq (f : M (cstate S) Z) c out (st : S) r c' st' :
  f (CState (Some c) st) = (Ret r, CState (Some c') st') →
  call f c (TState out st) = (Ret (r, c'), TState out st').
Proof. intros H. unfold call. cbn [ts_net ts_out]. by rewrite H. Qed.

Lemma print_eq f text out (st : S) :
  print_to f text (TState out st) = (Ret tt, TState (out ++ [(f, text)]) st).
Proof. done. Qed.

Lemma assert_eparam_pass c (s : tstate S) : assert_eparam assert_message WD_CLIENT_EPARAM c s = (Ret tt, s).
Proof. done. Qed.

Lemma test_name_good : good_name test_name.
Proof. split; [discriminate|]. split; [apply Nat.ltb_lt; vm_compute; reflexivity|]. repeat constructor. Qed.

Lemma test_client_for k (st : S) :
  ws_inv (WatchdogService := ts_visit k) st →
  client_for (W := ts_visit k) st test_name WD_TEST_CLIENT_INIT.
Proof.
  intros Hi. constructor; [by rewrite ts_path| |done].
  cbn. rewrite cstr_strncpy; [reflexivity|]. apply Nat.ltb_lt. vm_compute. reflexivity.
Qed.

Lemma registered_nonempty k (st : S) name id c :
  registered_as (W := ts_visit k) st name id c → (0 <? strlen (wc_clientID c))%nat = true.
Proof.
  intros (_ & Hid & ->). unfold strlen, id_array. rewrite cstr_term by by apply id_digits_no_nul.
  by rewrite (proj1 Hid).
Qed.

(** Registration with the fixed object, during the [k]-th visit from the end. *)
Lemma visit_register k out (st : S) :
  ws_inv (WatchdogService := ts_visit k) st → (∀ ip, ws_open (WatchdogService := ts_visit k) st test_name ip) →
  ∃ id c st', call (wd_client_register uninit WD_HEARTBEAT_TIMEOUT_MS false) WD_TEST_CLIENT_INIT
                (TState out st) = (Ret (WD_CLIENT_OK, c), TState out st') ∧
    ws_inv (WatchdogService := ts_visit k) st' ∧ ws_member (WatchdogService := ts_visit k) st' id ∧
    registered_as (W := ts_visit k) st' test_name id c.
Proof.
  intros Hi Ho.
  destruct (register_ok (W := ts_visit k) uninit Huninit st test_name WD_TEST_CLIENT_INIT
    WD_HEARTBEAT_TIMEOUT_MS false Hi (test_client_for k st Hi) (Ho _) test_name_good)
    as (id & c & st' & He & H); [vm_compute; split; discriminate|].
  exists id, c, st'. split; [by apply call_eq|done].
Qed.

Lemma test_register_passes k out (st : S) :
  ws_inv (WatchdogService := ts_visit (1 + k)) st →
  (∀ ip, ws_open (WatchdogService := ts_visit (1 + k)) st test_name ip) →
  ∃ st', test_wd_client_register uninit assert_message (TState out st)
         = (Ret tt, TState (out ++ [(Stdout, lit "test_wd_client_register passed\n")]) st') ∧
    ws_inv (WatchdogService := ts_visit k) st' ∧ (∀ ip, ws_open (WatchdogService := ts_visit k) st' test_name ip).
Proof.
  intros Hi Ho. destruct (visit_register (1 + k) out st Hi Ho) as (id & c & st1 & H1 & Hi1 & Hm1 & Hr1).
  destruct (unregister_ok (W := ts_visit (1 + k)) uninit Huninit st1 test_name id c Hi1 Hm1 Hr1)
    as (c2 & st2 & H2 & Hi2 & Hl2 & Hr2).
  exists st2. split; [|by eapply ts_again]. unfold test_wd_client_register.
  rewrite bind_eq, H1. unfold assert_registered. rewrite (registered_nonempty _ _ _ _ _ Hr1).
  unfold assert_ok, ASSERT_WITH_STATUS, print_to. change (WD_CLIENT_OK =? WD_CLIENT_OK) with true.
  cbn [negb]. mrun. by rewrite (call_eq _ _ _ _ _ _ _ H2).
Qed.

Lemma test_ping_passes k out (st : S) :
  ws_inv (WatchdogService := ts_visit k) st → (∀ ip, ws_open (WatchdogService := ts_visit k) st test_name ip) →
  ∃ st', test_wd_client_ping uninit assert_message (TState out st)
         = (Ret tt, TState (out ++ [(Stdout, lit "test_wd_client_ping passed\n")]) st') ∧
    ws_inv (WatchdogService := ts_visit k) st'.
Proof.
  intros Hi Ho. destruct (visit_register k out st Hi Ho) as (id & c & st1 & H1 & Hi1 & Hm1 & Hr1).
  destruct (ping_ok (W := ts_visit k) uninit Huninit st1 test_name id c Hi1 Hm1 Hr1)
    as (c2 & st2 & H2 & Hi2 & Hm2 & Hr2).
  destruct (unregister_ok (W := ts_visit k) uninit Huninit st2 test_name id c2 Hi2 Hm2 Hr2)
    as (c3 & st3 & H3 & Hi3 & _ & _).
  exists st3. split; [|done]. unfold test_wd_client_ping.
  rewrite bind_eq, H1. unfold assert_registered. rewrite (registered_nonempty _ _ _ _ _ Hr1).
  unfold assert_ok, ASSERT_WITH_STATUS, print_to. change (WD_CLIENT_OK =? WD_CLIENT_OK) with true.
  cbn [negb]. mrun. rewrite (call_eq _ _ _ _ _ _ _ H2). cbv beta iota.
  change (WD_CLIENT_OK =? WD_CLIENT_OK) with true. cbn [negb].
  by rewrite (call_eq _ _ _ _ _ _ _ H3).
Qed.

(** The tests that never reach the service. *)
Lemma test_invalid_name_passes out (st : S) :
  test_register_with_invalid_name uninit assert_message (TState out st)
  = (Ret tt, TState (out ++ [(Stdout, lit "test_register_with_invalid_name passed\n")]) st).
Proof.
  destruct (client_refuses uninit (set_name [] WD_TEST_CLIENT_INIT) st WD_HEARTBEAT_TIMEOUT_MS false)
    as [[t H] _]; [by left|].
  unfold test_register_with_invalid_name. by rewrite bind_eq, (call_eq _ _ _ _ _ _ _ H).
Qed.

Lemma test_invalid_timeout_passes out (st : S) :
  test_register_with_invalid_timeout uninit assert_message (TState out st)
  = (Ret tt, TState (out ++ [(Stdout, lit "test_register_with_invalid_timeout passed\n")]) st).
Proof.
  set (c := set_name (lit "test-client") WD_TEST_CLIENT_INIT).
  destruct (client_refuses uninit c st (WD_CLIENT_TIMEOUT_MIN_MS - 1) false) as [[t H] _];
    [right; vm_compute; by intros [H _]|].
  destruct (client_refuses uninit (with_status t c) st (WD_CLIENT_TIMEOUT_MAX_MS + 1) false) as [[t2 H2] _];
    [right; vm_compute; by intros [_ H2]|].
  unfold test_register_with_invalid_timeout. fold c.
  rewrite bind_eq, (call_eq _ _ _ _ _ _ _ H). cbv beta iota. rewrite bind_eq, assert_eparam_pass.
  by rewrite bind_eq, (call_eq _ _ _ _ _ _ _ H2).
Qed.

Lemma test_unregistered_passes out (st : S) :
  test_unregister_without_registering uninit assert_message (TState out st)
  = (Ret tt, TState (out ++ [(Stdout, lit "test_unregister_without_registering passed\n")]) st) ∧
  test_ping_without_registering uninit assert_message (TState out st)
  = (Ret tt, TState (out ++ [(Stdout, lit "test_ping_without_registering passed\n")]) st).
Proof.
  destruct (client_refuses uninit WD_TEST_CLIENT_INIT st WD_HEARTBEAT_TIMEOUT_MS false)
    as [_ [[t H] [t2 H2]]]; [done|].
  split.
  - unfold test_unregister_without_registering. by rewrite bind_eq, (call_eq _ _ _ _ _ _ _ H2).
  - unfold test_ping_without_registering. by rewrite bind_eq, (call_eq _ _ _ _ _ _ _ H).
Qed.

Lemma test_nonexistent_passes out (st : S) err :
  tr_connect (lit "/tmp/nonexistent.sock") st = (NotConnected err, st) →
  test_timeout_on_register uninit assert_message (TState out st)
  = (Ret tt, TState (out ++ [(Stdout, lit "test_timeout_on_register passed\n")]) st).
Proof.
  intros Hc. set (c := set_path (lit "/tmp/nonexistent.sock") WD_TEST_CLIENT_INIT).
  assert (take (WD_CLIENT_SOCKPATH_LEN - 1) (cstr (wc_socket_path c)) = lit "/tmp/nonexistent.sock") as Hp
    by (vm_compute; reflexivity).
  assert (∃ t, wd_client_connect (CState (Some c) st)
               = (Ret WD_CLIENT_ERR, CState (Some (with_status t c)) st)) as [t Ht].
  { eexists. unfold wd_client_connect, missing, deref, net. mrun. cbn [cs_client cs_net].
    change (Ascii.eqb (hd NUL (wc_socket_path c)) NUL) with false. cbn [cs_client cs_net]. rewrite Hp, Hc.
    reflexivity. }
  assert (wd_client_register uninit WD_HEARTBEAT_TIMEOUT_MS false (CState (Some c) st)
          = (Ret WD_CLIENT_ERR, CState (Some (with_status t c)) st)) as H.
  { unfold wd_client_register. rewrite bind_eq, missing_eq.
    change (Ascii.eqb (hd NUL (wc_name c)) NUL) with false. cbv beta iota.
    change ((WD_HEARTBEAT_TIMEOUT_MS <? WD_CLIENT_TIMEOUT_MIN_MS) ||
            (WD_HEARTBEAT_TIMEOUT_MS >? WD_CLIENT_TIMEOUT_MAX_MS)) with false. cbv iota.
    unfold wd_client_check_prot_version. by rewrite !bind_eq, Ht. }
  unfold test_timeout_on_register. by rewrite bind_eq, (call_eq _ _ _ _ _ _ _ H).
Qed.

Definition test_output : list bytes :=
  [lit "Running wd-client tests...\n"; lit "test_wd_client_register passed\n";
   lit "test_wd_client_ping passed\n"; lit "test_register_with_invalid_name passed\n";
   lit "test_register_with_invalid_timeout passed\n";
   lit "test_unregister_without_registering passed\n";
   lit "test_ping_without_registering passed\n"; lit "test_timeout_on_register passed\n";
   lit "All tests passed!\n"].

Lemma tests_pass (st : S) :
  ws_inv (WatchdogService := ts_visit 1) st → (∀ ip, ws_open (WatchdogService := ts_visit 1) st test_name ip) →
  ∃ st', test_main uninit assert_message (TState [] st)
         = (Ret 0, TState (pair Stdout <$> test_output) st') ∧
    ws_inv (WatchdogService := ts_visit 0) st'.
Proof.
  intros Hi Ho. unfold test_main. rewrite bind_eq, print_eq. cbn [app].
  destruct (test_register_passes 0 [(Stdout, lit "Running wd-client tests...\n")] st Hi Ho)
    as (st1 & H1 & Hi1 & Ho1). rewrite bind_eq, H1.
  match goal with |- context [TState ?o st1] =>
    destruct (test_ping_passes 0 o st1 Hi1 Ho1) as (st2 & H2 & Hi2) end. rewrite bind_eq, H2.
  exists st2. split; [|done].
  rewrite bind_eq, test_invalid_name_passes, bind_eq, test_invalid_timeout_passes.
  rewrite bind_eq, (proj1 (test_unregistered_passes _ _)), bind_eq, (proj2 (test_unregistered_passes _ _)).
  destruct (ts_elsewhere 0 st2 (lit "/tmp/nonexistent.sock") Hi2) as [err He]; [by vm_compute|].
  rewrite bind_eq, (test_nonexistent_passes _ _ err He).
  rewrite bind_eq, print_eq, <-!app_assoc. reflexivity.
Qed.
End Passing.

(** ** The broker as such a service *)

(** A table with a free slot and no registered client of the name admits it, unless
    clients are strict. *)
Lemma slot_spec_free cfg cs name i c :
  cfg_strict_clients cfg = false → cs !! i = Some c → live c = false →
  (cfg_unique_clients cfg = true → ∀ j d, cs !! j = Some d → active_named name d = false) →
  is_Some (slot_spec cfg cs name).
Proof.
  intros Hs Hc Hl Hu. unfold slot_spec. rewrite Hs.
  destruct (cfg_unique_clients cfg && existsb (active_named name) cs) eqn:Eu.
  - exfalso. apply andb_true_iff in Eu as [Eu Ex]. apply existsb_exists in Ex as (d & Hd & Ha).
    apply list_elem_of_In, list_elem_of_lookup in Hd as [j Hj]. specialize (Hu Eu j d Hj). congruence.
  - destruct (find_index (announced_for name) cs); [eauto|]. apply not_eq_None_Some.
    rewrite find_index_None, Forall_lookup. intros Hf. specialize (Hf i c Hc). cbn in Hf.
    rewrite is_free_live, Hl in Hf. done.
Qed.

Section Visits.
Context {E : Env} (path name : bytes) (N : nat) (Hdraws : draws_distinct N).

(** A broker at [path] that is not strict and has not drawn [N] identifiers yet. *)
Record visit_inv (st : bnet) : Prop := {
  vi_inv : bn_inv st;
  vi_path : bn_path st = path;
  vi_strict : cfg_strict_clients (config (bn_broker st)) = false;
  vi_drawn : drawn (bn_broker st);
  vi_draws : (id_ix (bn_broker st) ≤ N)%nat;
}.

Definition has_room (st : bnet) : Prop :=
  is_Some (slot_spec (config (bn_broker st)) (clients (bn_broker st)) name).

Definition visit_open (k : nat) (st : bnet) (nm : bytes) : Prop :=
  nm = name ∧ has_room st ∧ (id_ix (bn_broker st) + k < N)%nat.

(** The slot of the visitor is the only one that keeps others of its name out. *)
Definition visit_member (k : nat) (st : bnet) (id : bytes) : Prop :=
  bn_member st id ∧ (id_ix (bn_broker st) + k ≤ N)%nat ∧
  (cfg_unique_clients (config (bn_broker st)) = true →
   ∀ j d, clients (bn_broker st) !! j = Some d → cl_clientID d ≠ id_array id →
     active_named name d = false).

Definition visit_left (k : nat) (st : bnet) (id : bytes) : Prop :=
  bn_left st id ∧ has_room st ∧ (id_ix (bn_broker st) + k ≤ N)%nat.

(** Serving a request keeps the invariant while there are identifiers. *)
Lemma visit_after st cmd s2 :
  visit_inv st → handle_command (request_conn (bn_creds st) cmd) (accepting st) = (Ret tt, s2) →
  (id_ix s2 ≤ N)%nat →
  visit_inv (after st s2) ∧ bn_path (after st s2) = bn_path st ∧ config s2 = config (bn_broker st).
Proof.
  intros [Hi Hp Hs Hd Hn] Hh Hix.
  destruct (served_keeps st cmd s2 Hi Hd Hh) as (Hi' & Hpath & Hc2 & Hd2);
    [by eapply draws_distinct_mono|].
  split; [|done]. constructor; [done|congruence| |done|done].
  cbn [after bn_broker add_event config]. by rewrite Hc2.
Qed.

Lemma visit_version k st :
  visit_inv st → ∃ reply st', session (bn_path st) (lit "VERSION\n") st reply st' ∧
    version_reply reply ∧ visit_inv st' ∧ bn_path st' = bn_path st ∧
    ∀ nm (ignorepid : bool), visit_open k st nm → visit_open k st' nm.
Proof.
  intros Hi. pose proof (version_run st) as Hh.
  destruct (visit_after st _ _ Hi Hh (vi_draws st Hi)) as (Hi' & Hp & _).
  exists version_text, (after st (add_event (EvReply version_text) (accepting st))).
  split; [|by split_and!; try apply version_reply_ok].
  by apply (served_session st _ version_text _ [EvReply version_text] Hh).
Qed.

Lemma visit_fresh st :
  visit_inv st → abs (clients (bn_broker st)) !! next_id (bn_broker st) = None.
Proof.
  intros [(Hw & Hu & _) _ _ Hd Hn]. apply abs_lookup_None; [done|]. intros i c Hi Hl.
  eapply drawn_fresh; eauto. by eapply draws_distinct_mono.
Qed.

Lemma visit_registers k st nm timeout ignorepid :
  visit_inv st → visit_open k st nm → good_name nm →
  WD_CLIENT_TIMEOUT_MIN_MS ≤ timeout ≤ WD_CLIENT_TIMEOUT_MAX_MS →
  ∃ id st', session (bn_path st) (register_text nm timeout ignorepid) st
              (lit "OK " ++ id ++ lit "\n") st' ∧
    id_digits id ∧ visit_inv st' ∧ bn_path st' = bn_path st ∧ visit_member k st' id.
Proof.
  intros Hi (-> & [i Hslot] & Hk) Hn Ht. pose proof (vi_inv st Hi) as (Hw & Hu & _).
  destruct (bn_register st name timeout ignorepid (vi_inv st Hi)) as (id & st' & Hses & Hid & _ & _ & Hm);
    [|done|done|].
  { split; [by eexists|]. split; [by apply visit_fresh|right; by apply Hi]. }
  destruct (slot_spec_cases _ _ _ _ Hslot) as (c & Hc & _).
  destruct (register_run st name timeout ignorepid i c Hn Ht Hslot Hc)
    as (s2 & l & buf & Hh & _ & _ & Hsd & Hcl & Hix).
  assert (id_ix s2 + k ≤ N)%nat as Hk2 by (rewrite Hix; destruct (cl_anounced c); lia).
  destruct (visit_after st _ s2 Hi Hh ltac:(lia)) as (Hi' & Hp' & Hc').
  set (idarr := registration_clientID (accepting st) c) in *.
  assert (session (bn_path st) (register_text name timeout ignorepid) st
            (lit "OK " ++ cstr idarr ++ lit "\n") (after st s2)) as Hses'
    by (apply (served_session st _ _ s2 _ Hh (sd_trace _ _ _ Hsd)); reflexivity).
  destruct (session_det _ _ _ _ _ _ _ Hses Hses') as [Heq ->].
  apply app_inv_head, app_inv_tail in Heq. subst id.
  pose proof (registration_clientID_ok (accepting st) i c name Hw Hslot Hc) as Hida.
  destruct (is_clientID_cstr _ Hida) as (_ & Harr & _). fold idarr in Harr.
  exists (cstr idarr), (after st s2). split; [done|]. split; [done|]. split; [done|]. split; [done|].
  split; [done|]. split; [done|]. cbn [after bn_broker add_event config clients]. rewrite Hc', Hcl.
  intros Hun j d Hj Hne. apply list_lookup_insert_Some in Hj as [(<- & <- & _)|[Hij Hj]].
  - exfalso. apply Hne. exact Harr.
  - unfold slot_spec in Hslot. rewrite Hun in Hslot. cbn [andb] in Hslot.
    destruct (existsb (active_named name) (clients (bn_broker st))) eqn:Ex; [done|].
    apply not_true_iff_false. intros Ha. apply not_true_iff_false in Ex. apply Ex, existsb_exists.
    exists d. split; [by apply list_elem_of_In, list_elem_of_lookup_2 with j|done].
Qed.

Lemma visit_pings k st id :
  visit_inv st → visit_member k st id → id_digits id →
  ∃ st', session (bn_path st) (id_text (lit "PING ") id) st (lit "OK\n") st' ∧
    visit_inv st' ∧ bn_path st' = bn_path st ∧ visit_member k st' id.
Proof.
  intros Hi (Hm & Hk & Hun) Hid.
  destruct (bn_ping st id (vi_inv st Hi) Hm Hid) as (st' & Hses & _ & _ & Hm').
  destruct (member_found st id (vi_inv st Hi) Hm Hid) as (i & c & Hf & Hc & Hl & Hcid & Hp).
  destruct (ping_run st id i c Hid Hc Hf) as (s2 & buf & Hh & _ & _ & Hsd & Hcl & Hix).
  destruct (visit_after st _ s2 Hi Hh ltac:(lia)) as (Hi' & Hp' & Hc').
  pose proof (served_session st _ (lit "OK\n") s2 _ Hh (sd_trace _ _ _ Hsd) eq_refl) as Hses'.
  destruct (session_det _ _ _ _ _ _ _ Hses Hses') as [_ ->].
  exists (after st s2). split; [done|]. split; [done|]. split; [done|]. split; [done|].
  cbn [after bn_broker add_event config clients id_ix]. split; [lia|]. rewrite Hc', Hcl.
  intros Hu j d Hj Hne. apply list_lookup_insert_Some in Hj as [(<- & <- & _)|[_ Hj]]; [|by eapply Hun].
  by destruct Hne.
Qed.

Lemma visit_unregisters k st id :
  visit_inv st → visit_member k st id → id_digits id →
  ∃ st', session (bn_path st) (id_text (lit "UNREGISTER ") id) st (lit "OK\n") st' ∧
    visit_inv st' ∧ bn_path st' = bn_path st ∧ visit_left k st' id.
Proof.
  intros Hi (Hm & Hk & Hun) Hid. pose proof (vi_inv st Hi) as (_ & Hu & _).
  destruct (bn_unregister st id (vi_inv st Hi) Hm Hid) as (st' & Hses & _ & _ & Hleft).
  destruct (member_found st id (vi_inv st Hi) Hm Hid) as (i & c & Hf & Hc & Hl & Hcid & Hp).
  destruct (unregister_run st id i c Hid Hc Hf (proj2 Hm))
    as (s2 & buf & es & Hh & _ & _ & Hsd & Hr & Hcl & Hix).
  destruct (visit_after st _ s2 Hi Hh ltac:(lia)) as (Hi' & Hp' & Hc').
  pose proof (served_session st _ _ s2 _ Hh (sd_trace _ _ _ Hsd) Hr) as Hses'.
  destruct (session_det _ _ _ _ _ _ _ Hses Hses') as [_ ->].
  exists (after st s2). split; [done|]. split; [done|]. split; [done|]. split; [done|].
  split; [|cbn; lia]. unfold has_room. cbn [after bn_broker add_event config clients]. rewrite Hc', Hcl.
  apply (slot_spec_free _ _ _ i (deactivate c)); [by apply Hi| |done|].
  - apply list_lookup_insert_eq. by eapply lookup_lt_Some.
  - intros Hq j d Hj. apply list_lookup_insert_Some in Hj as [(<- & <- & _)|[Hij Hj]]; [done|].
    destruct (decide (cl_clientID d = id_array id)) as [He|He]; [|by eapply Hun].
    apply not_true_iff_false. intros Ha. apply Hij. eapply (Hu i j c d); try done; [|congruence].
    unfold active_named in Ha. apply andb_true_iff in Ha as [Ha _]. unfold live. by rewrite Ha.
Qed.

Lemma visit_path_facts st :
  visit_inv st → no_nul (bn_path st) ∧ bn_path st ≠ [] ∧
    (length (bn_path st) < WD_CLIENT_SOCKPATH_LEN)%nat.
Proof. intros Hi. by apply bn_path_facts, Hi. Qed.

(** The promises of the broker to a visitor with [k] more visits to come. *)
Definition visit_service (k : nat) : WatchdogService bnet := {|
  ws_path := bn_path;
  ws_inv := visit_inv;
  ws_open st nm _ := visit_open k st nm;
  ws_member := visit_member k;
  ws_left := visit_left k;
  ws_path_ok := visit_path_facts;
  ws_version := visit_version k;
  ws_register := visit_registers k;
  ws_ping := visit_pings k;
  ws_unregister := visit_unregisters k;
|}.

Lemma visit_again k st id :
  visit_inv st → visit_left (1 + k) st id → visit_inv st ∧ ∀ ip : bool, visit_open k st name.
Proof. intros Hi (_ & Hr & Hk). split; [done|]. split; [done|]. split; [done|lia]. Qed.

Lemma visit_elsewhere st p :
  visit_inv st → p ≠ path → ∃ err, tr_connect p st = (NotConnected err, st).
Proof.
  intros Hi Hp. eexists. cbn [tr_connect broker_transport]. rewrite (vi_path st Hi).
  apply bytes_eqb_neq in Hp. by rewrite Hp.
Qed.

Definition broker_test_service : TestService bnet path name := {|
  ts_visit := visit_service;
  ts_path _ := vi_path;
  ts_again := visit_again;
  ts_elsewhere _ := visit_elsewhere;
|}.
End Visits.

