(* ===== verification/Sharing.v ===== *)
(** * A client among other clients

    The client library against a broker that also serves others: between any two
    calls of the library the daemon finishes its round and goes on for any number
    of rounds, with requests of any other unprivileged processes.  A client that
    registered with PID check does not notice: all its calls succeed. *)

From S2P Require Import Prelude CString Scanf Common World ClientId Registry Identifiers Status.
From S2P Require Import Handlers Requests ConfigFile Daemon Timing Life Spec Getopt Startup StartupFacts Main.
From S2P Require Import Runs Silence.
From S2P Require Import ClientLib Service EndToEnd.

Section Sharing.
Context {E : Env} (me : ucred).

(** ** What the others may do *)

Definition not_mine (sock : conn) : Prop :=
  ∀ creds, conn_peer sock = inl creds → cr_pid creds ≠ cr_pid me ∧ cr_uid creds ≠ 0.

(** From the end of a request of [me], in state [b], to the state [b'] in which the
    daemon waits again: the rest of that round, and a run that serves others. *)
Definition others (b b' : broker) : Prop :=
  ∃ timer err b1 cs, (check_clients ;; feed timer err) b = (Ret tt, b1) ∧
    lruns cs (Looping, b1) (Looping, b') ∧ Forall not_mine cs ∧
    running b' = true ∧ all_ok b' = true.

(** The two together are a run of the daemon. *)
Lemma own_request_run sock b b1 b2 :
  running b = true → all_ok b = true → serve (Some (Accepted sock)) b = (Ret tt, b1) →
  others b1 b2 → dsteps (Looping, b) (Looping, b2).
Proof.
  intros Hr Ha Hs (timer & err & b3 & cs & H1 & H2 & _).
  eapply rtc_l; [|apply lruns_dsteps; by exists cs].
  apply (step_iteration (Wake (SelOk (Some (Accepted sock)) timer) err) b (Ret tt) b3); [done|done|].
  unfold iteration. cbn [wk_select wk_feed]. by rewrite bind_eq, Hs.
Qed.

Lemma rest_of_round timer err b b1 :
  (check_clients ;; feed timer err) b = (Ret tt, b1) → same_table b b1 ∧ reboot b1 = reboot b.
Proof.
  rewrite bind_eq. destruct (check_clients_spec b)
    as (b2 & es & Hc & Hl & H1 & H2 & _ & H4 & _ & _ & H7 & _ & H8 & _).
  rewrite Hc. intros Hf. split.
  - transitivity b2; [|by eapply feed_table].
    apply (same_table_events b b2 es); try done. by apply replies_log_only.
  - destruct (feed_untouched 0 client_zero timer err b2 (Ret tt) b1 Hf) as ([_ Hr _] & _). congruence.
Qed.

Lemma not_mine_unspoken c cs :
  cl_active c = true → cl_checkPID c = true → cl_pid c = cr_pid me →
  Forall not_mine cs → Forall (unspoken c) cs.
Proof.
  intros Ha Hk Hp Hf. eapply Forall_impl; [exact Hf|]. intros sock Hs.
  apply foreign_unspoken; [done|done|]. intros creds Hc. destruct (Hs creds Hc) as [H1 H2].
  split; congruence.
Qed.

(** ** The broker as a shared service *)

Context (N : nat) (Hdraws : draws_distinct N).

Record shared_inv (st : bnet) : Prop := {
  si_inv : bn_inv st;
  si_creds : bn_creds st = me;
  si_drawn : drawn (bn_broker st);
  si_draws : (id_ix (bn_broker st) ≤ N)%nat;
  si_reboot : reboot (bn_broker st) = false;
}.

(** [me] may unregister its clients. *)
Definition may_leave (st : bnet) : Prop :=
  cr_uid me = 0 ∨ cfg_strict_clients (config (bn_broker st)) = false.

Definition shared_open (st : bnet) (name : bytes) (ignorepid : bool) : Prop :=
  ignorepid = false ∧
  is_Some (slot_spec (config (bn_broker st)) (clients (bn_broker st)) name) ∧
  (id_ix (bn_broker st) < N)%nat ∧ may_leave st.

(** A slot is registered for [me], with PID check. *)
Definition shared_member (st : bnet) (id : bytes) : Prop :=
  (∃ i c, clients (bn_broker st) !! i = Some c ∧ cl_active c = true ∧ cl_checkPID c = true ∧
    cl_pid c = cr_pid me ∧ cl_clientID c = id_array id) ∧ may_leave st.

Lemma shared_member_bn st id : shared_inv st → shared_member st id → bn_member st id.
Proof.
  intros Hi [(i & c & Hc & Ha & Hk & Hp & Hid) Hl]. split; [|by rewrite (si_creds st Hi)].
  exists (session_of c). split; [|right; by rewrite (si_creds st Hi)].
  apply abs_lookup; [apply Hi|]. exists i, c. split_and!; try done. unfold live. by rewrite Ha.
Qed.

(** After a served request. *)
Lemma shared_after st cmd s2 :
  shared_inv st → handle_command (request_conn (bn_creds st) cmd) (accepting st) = (Ret tt, s2) →
  (id_ix s2 ≤ N)%nat → reboot s2 = false →
  shared_inv (after st s2) ∧ bn_path (after st s2) = bn_path st ∧ config s2 = config (bn_broker st).
Proof.
  intros [Hi Hm Hd Hn Hr] Hh Hix Hr2.
  destruct (served_keeps st cmd s2 Hi Hd Hh) as (Hi' & Hp & Hc & Hd2);
    [by eapply draws_distinct_mono|]. by split_and!.
Qed.

Lemma shared_version st :
  shared_inv st → ∃ reply st', session (bn_path st) (lit "VERSION\n") st reply st' ∧
    version_reply reply ∧ shared_inv st' ∧ bn_path st' = bn_path st ∧
    ∀ name ip, shared_open st name ip → shared_open st' name ip.
Proof.
  intros Hi. pose proof (version_run st) as Hh.
  destruct (shared_after st _ _ Hi Hh (si_draws st Hi) (si_reboot st Hi)) as (Hi' & Hp & _).
  exists version_text, (after st (add_event (EvReply version_text) (accepting st))).
  split; [|by split_and!; try apply version_reply_ok].
  by apply (served_session st _ version_text _ [EvReply version_text] Hh).
Qed.

Lemma shared_fresh st :
  shared_inv st → abs (clients (bn_broker st)) !! next_id (bn_broker st) = None.
Proof.
  intros [(Hw & Hu & _) _ Hd Hn _]. apply abs_lookup_None; [done|]. intros i c Hi Hl.
  eapply drawn_fresh; eauto. by eapply draws_distinct_mono.
Qed.

Lemma shared_registers st name timeout ignorepid :
  shared_inv st → shared_open st name ignorepid → good_name name →
  WD_CLIENT_TIMEOUT_MIN_MS ≤ timeout ≤ WD_CLIENT_TIMEOUT_MAX_MS →
  ∃ id st', session (bn_path st) (register_text name timeout ignorepid) st
              (lit "OK " ++ id ++ lit "\n") st' ∧
    id_digits id ∧ shared_inv st' ∧ bn_path st' = bn_path st ∧ shared_member st' id.
Proof.
  intros Hi (-> & [i Hslot] & Hn & Hl) Hg Ht. pose proof (si_inv st Hi) as (Hw & Hu & _).
  destruct (slot_spec_cases _ _ _ _ Hslot) as (c & Hc & _).
  destruct (register_run st name timeout false i c Hg Ht Hslot Hc)
    as (s2 & l & buf & Hh & _ & _ & Hsd & Hcl & Hix).
  destruct (shared_after st _ s2 Hi Hh) as (Hi' & Hp' & Hc').
  { rewrite Hix. destruct (cl_anounced c); lia. }
  { rewrite (sd_reboot _ _ _ Hsd). apply Hi. }
  set (idarr := registration_clientID (accepting st) c) in *.
  pose proof (registration_clientID_ok (accepting st) i c name Hw Hslot Hc) as Hida.
  destruct (is_clientID_cstr _ Hida) as (Hidl & Harr & Hidx). fold idarr in Hidl, Harr, Hidx.
  exists (cstr idarr), (after st s2).
  split; [apply (served_session st _ _ s2 _ Hh (sd_trace _ _ _ Hsd)); reflexivity|].
  split; [done|]. split; [done|]. split; [done|]. split.
  - exists i, (registered name (cr_pid (bn_creds st)) true timeout (env_now (now_ix (accepting st))) idarr).
    split; [|by rewrite (si_creds st Hi)]. cbn [after bn_broker add_event clients]. rewrite Hcl.
    apply list_lookup_insert_eq. by eapply lookup_lt_Some.
  - unfold may_leave. cbn [after bn_broker add_event config]. by rewrite Hc'.
Qed.

(** PING changes the time of the last heartbeat of the member's slot. *)
Lemma shared_pings st id :
  shared_inv st → shared_member st id → id_digits id →
  ∃ st', session (bn_path st) (id_text (lit "PING ") id) st (lit "OK\n") st' ∧
    shared_inv st' ∧ bn_path st' = bn_path st ∧ shared_member st' id.
Proof.
  intros Hi Hm Hid. pose proof (si_inv st Hi) as (Hw & Hu & _).
  destruct (member_found st id (si_inv st Hi) (shared_member_bn st id Hi Hm) Hid)
    as (j & d & Hf & Hd & Hdl & Hcid & _).
  destruct (ping_run st id j d Hid Hd Hf) as (s2 & buf & Hh & _ & _ & Hsd & Hcl & Hix).
  destruct (shared_after st _ s2 Hi Hh) as (Hi' & Hp' & Hc').
  { rewrite Hix. apply Hi. }
  { rewrite (sd_reboot _ _ _ Hsd). apply Hi. }
  exists (after st s2). split; [by apply (served_session st _ _ s2 _ Hh (sd_trace _ _ _ Hsd))|].
  split; [done|]. split; [done|]. destruct Hm as [(i & c & Hc & Ha & Hk & Hp & Hci) Hl]. split.
  - assert (i = j) as <-.
    { eapply (Hu i j c d); try done; [unfold live; by rewrite Ha|congruence]. }
    assert (d = c) as -> by congruence.
    exists i, (set_last_ping (env_now (now_ix (accepting st))) c). split; [|done].
    cbn [after bn_broker add_event clients]. rewrite Hcl.
    apply list_lookup_insert_eq. by eapply lookup_lt_Some.
  - unfold may_leave. cbn [after bn_broker add_event config]. by rewrite Hc'.
Qed.

Lemma shared_unregisters st id :
  shared_inv st → shared_member st id → id_digits id →
  ∃ st', session (bn_path st) (id_text (lit "UNREGISTER ") id) st (lit "OK\n") st' ∧
    shared_inv st' ∧ bn_path st' = bn_path st ∧ bn_left st' id.
Proof.
  intros Hi Hm Hid. pose proof (shared_member_bn st id Hi Hm) as Hb.
  destruct (bn_unregister st id (si_inv st Hi) Hb Hid) as (st' & Hses & _ & _ & Hleft).
  destruct (member_found st id (si_inv st Hi) Hb Hid) as (i & c & Hf & Hc & Hl & Hcid & Hp).
  destruct (unregister_run st id i c Hid Hc Hf (proj2 Hb))
    as (s2 & buf & es & Hh & _ & _ & Hsd & Hr & Hcl & Hix).
  destruct (shared_after st _ s2 Hi Hh) as (Hi' & Hp' & Hc').
  { rewrite Hix. apply Hi. }
  { rewrite (sd_reboot _ _ _ Hsd). apply Hi. }
  pose proof (served_session st _ _ s2 _ Hh (sd_trace _ _ _ Hsd) Hr) as Hses'.
  destruct (session_det _ _ _ _ _ _ _ Hses Hses') as [_ ->]. by exists (after st s2).
Qed.

Lemma shared_path_facts st :
  shared_inv st → no_nul (bn_path st) ∧ bn_path st ≠ [] ∧
    (length (bn_path st) < WD_CLIENT_SOCKPATH_LEN)%nat.
Proof. intros Hi. by apply bn_path_facts, Hi. Qed.

Definition shared_service : WatchdogService bnet := {|
  ws_path := bn_path;
  ws_inv := shared_inv;
  ws_open := shared_open;
  ws_member := shared_member;
  ws_left := bn_left;
  ws_path_ok := shared_path_facts;
  ws_version := shared_version;
  ws_register := shared_registers;
  ws_ping := shared_pings;
  ws_unregister := shared_unregisters;
|}.

(** ** What the others leave alone *)

Definition with_broker (b : broker) (st : bnet) : bnet := BNet b (bn_creds st) (bn_pending st).

(** A run that serves others. *)
Lemma foreign_run_keeps st b id cs :
  shared_inv st → shared_member st id → lruns cs (Looping, bn_broker st) (Looping, b) →
  Forall not_mine cs → (id_ix b ≤ N)%nat →
  shared_inv (with_broker b st) ∧ shared_member (with_broker b st) id ∧
  bn_path (with_broker b st) = bn_path st.
Proof.
  intros [Hi Hme Hd Hn Hr] [(i & c & Hc & Ha & Hk & Hp & Hid) Hl] H2 Hf Hix.
  pose proof Hi as (Hw & _ & Hp1 & Hp2).
  destruct (run_invariant (λ _, True) (bn_broker st) Looping (bn_broker st) Looping b)
    as [(Hw2 & Hcfg & Hd2) _]; [done..| |].
  { apply lruns_dsteps. by exists cs. }
  assert (live c = true) as Hlc by (unfold live; by rewrite Ha).
  destruct (lruns_unspoken i c Hlc cs (Looping, bn_broker st) (Looping, b) H2) as ([Hs Hrb _] & _);
    [done|done|done|by apply not_mine_unspoken|]. cbn [snd] in *.
  assert (bn_path (with_broker b st) = bn_path st) as Hpath by (unfold bn_path; cbn; by rewrite Hcfg).
  split; [|split; [|done]].
  - constructor; try done; [|cbn; congruence]. unfold bn_inv. rewrite Hpath. split; [done|]. split; [|done].
    intros j k d e ???? ?. eapply drawn_unique; eauto. by eapply draws_distinct_mono.
  - split; [|unfold may_leave; cbn; by rewrite Hcfg]. by exists i, c; auto.
Qed.

(** The rest of the round that served a request of [me], without a change of the table. *)
Lemma same_table_keeps st b id :
  shared_inv st → shared_member st id → same_table (bn_broker st) b → reboot b = false →
  shared_inv (with_broker b st) ∧ shared_member (with_broker b st) id ∧
  bn_path (with_broker b st) = bn_path st.
Proof.
  intros [Hi Hme Hd Hn Hr] [(i & c & Hc & Hm) Hl] Hst Hr1. pose proof Hst as [H1 H2 H3 _].
  assert (bn_path (with_broker b st) = bn_path st) as Hpath by (unfold bn_path; cbn; by rewrite H3).
  split; [|split; [|done]].
  - constructor; try done; [|by apply (drawn_same_table (bn_broker st))|cbn; lia].
    unfold bn_inv. rewrite Hpath. cbn. by rewrite H1.
  - split; [|unfold may_leave; cbn; by rewrite H3]. exists i, c. cbn. by rewrite H1.
Qed.

Lemma others_keep st b id :
  shared_inv st → shared_member st id → others (bn_broker st) b → (id_ix b ≤ N)%nat →
  shared_inv (with_broker b st) ∧ shared_member (with_broker b st) id ∧
  bn_path (with_broker b st) = bn_path st.
Proof.
  intros Hi Hm (timer & err & b1 & cs & H1 & H2 & Hf & _) Hix.
  destruct (rest_of_round _ _ _ _ H1) as [Hst Hr1].
  destruct (same_table_keeps st b1 id Hi Hm Hst) as (Hi1 & Hm1 & Hp1).
  { rewrite Hr1. apply Hi. }
  destruct (foreign_run_keeps (with_broker b1 st) b id cs Hi1 Hm1 H2 Hf Hix) as (Hi2 & Hm2 & Hp2).
  split; [exact Hi2|]. split; [exact Hm2|]. by rewrite <-Hp1.
Qed.

(** ** The client *)

Context (uninit : nat → bytes) (Huninit : ∀ k, length (uninit k) = k).

Local Abbreviation object c st := (CState (Some c) st).

(** Through [n] heartbeats and the final UNREGISTER every call succeeds, whatever the
    others do after each of them while there are identifiers; in the end the
    client is not known any more. *)
Fixpoint steady (n : nat) (c : wd_client_t) (st : bnet) : Prop :=
  match n with
  | O => ∃ c' st', wd_client_unregister uninit (object c st) = (Ret WD_CLIENT_OK, object c' st') ∧
           abs (clients (bn_broker st')) !! wc_clientID c' = None
  | S n => ∃ c' st', wd_client_ping uninit (object c st) = (Ret WD_CLIENT_OK, object c' st') ∧
             ∀ b, others (bn_broker st') b → (id_ix b ≤ N)%nat → steady n c' (with_broker b st')
  end.

Lemma registered_elsewhere st b name id c :
  bn_path (with_broker b st) = bn_path st → registered_as (W := shared_service) st name id c →
  registered_as (W := shared_service) (with_broker b st) name id c.
Proof. intros Hp [Hc Hr]. split; [by eapply client_for_path|done]. Qed.

Lemma steady_ok n st name id c :
  shared_inv st → shared_member st id → registered_as (W := shared_service) st name id c → steady n c st.
Proof.
  revert c st. induction n as [|n IH]; intros c st Hi Hm Hr; cbn [steady].
  - destruct (unregister_ok (W := shared_service) uninit Huninit st name id c Hi Hm Hr)
      as (c' & st' & He & _ & Hl & (_ & _ & Hid)).
    exists c', st'. by rewrite Hid.
  - destruct (ping_ok (W := shared_service) uninit Huninit st name id c Hi Hm Hr)
      as (c' & st' & He & Hi' & Hm' & Hr').
    exists c', st'. split; [done|]. intros b Ho Hix.
    destruct (others_keep st' b id Hi' Hm' Ho Hix) as (Hi2 & Hm2 & Hp2).
    apply IH; [done|done|by apply registered_elsewhere].
Qed.
End Sharing.

