(* ===== verification/Together.v ===== *)
(** * The whole system together

    A process that uses the client library, the broker, other processes and the
    watchdog: the heartbeats the library sends are signs of life, and as long as it
    sends them in time, and everybody else is punctual too, all its calls succeed and
    the watchdog is fed whenever the timer fires. *)

From S2P Require Import Prelude CString Scanf Common World ClientId Registry Identifiers Status.
From S2P Require Import Handlers Requests ConfigFile Daemon Timing Life Spec Getopt Startup StartupFacts Main.
From S2P Require Import Runs Silence Alarms Punctual ClientLib Service EndToEnd Sharing.

(** ** What the broker hears of the library's requests *)

Lemma heard_request_conn creds cmd :
  cmd ≠ [] → (length cmd < CMD_BUF_LEN)%nat →
  ∃ rest, heard_request (request_conn creds cmd) = Some (creds, decode (cmd ++ NUL :: rest)).
Proof.
  intros Hn Hl. unfold heard_request, received. cbn [conn_peer conn_select conn_read request_conn].
  rewrite read_with_timeout_msg by done.
  destruct (Z.leb_spec (Z.of_nat (length cmd)) 0); [destruct cmd; [done|cbn [length] in *; lia]|].
  eauto.
Qed.

(** VERSION is no sign of life, and harmless. *)
Lemma version_heard creds :
  ∃ r, heard_request (request_conn creds (lit "VERSION\n")) = Some (creds, r) ∧
    match r with ReqVersion | ReqBad _ => True | _ => False end.
Proof.
  destruct (heard_request_conn creds (lit "VERSION\n")) as [rest ->]; [done|vm_compute; lia|].
  eexists. split; [reflexivity|].
  assert (decode (lit "VERSION\n" ++ NUL :: rest)
    = no_arg " %31s" (drop (strlen CMD_VERSION) (lit "VERSION\n" ++ NUL :: rest)) ReqVersion) as -> by reflexivity.
  unfold no_arg. by destruct (_ =? 1).
Qed.

Lemma register_heard creds name timeout ignorepid :
  good_name name → WD_CLIENT_TIMEOUT_MIN_MS ≤ timeout ≤ WD_CLIENT_TIMEOUT_MAX_MS →
  heard_request (request_conn creds (register_text name timeout ignorepid))
  = Some (creds, ReqRegister name timeout (negb ignorepid)).
Proof.
  intros Hn Ht. pose proof Ht as Ht'. unfold WD_CLIENT_TIMEOUT_MIN_MS, WD_CLIENT_TIMEOUT_MAX_MS in Ht'.
  destruct (register_text_ok name timeout ignorepid Hn ltac:(lia)) as [Hnt Hlt].
  set (cmd := register_text name timeout ignorepid) in *.
  destruct (heard_request_conn creds cmd) as [rest ->]; [done|done|].
  assert (decode (cmd ++ NUL :: rest) =
    match parse_register (register_arg name timeout ignorepid ++ NUL :: rest) with
    | inl err => ReqBad err | inr (n, t, k) => ReqRegister n t k end) as -> by reflexivity.
  rewrite (parse_register_cstr _ (register_arg name timeout ignorepid)).
  - by rewrite parse_register_print.
  - apply Forall_app in Hnt as [_ Hnt]. by rewrite cstr_term, cstr_no_nul.
Qed.

Lemma ping_heard creds id :
  id_digits id →
  heard_request (request_conn creds (id_text (lit "PING ") id)) = Some (creds, ReqPing (id_array id)).
Proof.
  intros Hid. destruct (heard_request_conn creds (id_text (lit "PING ") id)) as [rest ->].
  { unfold id_text. by destruct id. }
  { unfold id_text, CMD_BUF_LEN. rewrite !length_app, (proj1 Hid). vm_compute. lia. }
  assert (decode (id_text (lit "PING ") id ++ NUL :: rest) =
    with_id ReqPing (scan_clientID ((id ++ lit "\n") ++ NUL :: rest))) as -> by reflexivity.
  by rewrite <-app_assoc, scan_clientID_text.
Qed.

Section Together.
Context {E : Env} (me : ucred) (N : nat) (Hdraws : draws_distinct N).
Context (uninit : nat → bytes) (Huninit : ∀ k, length (uninit k) = k).
Context (Hclock : ∀ n, monotonic n).

Local Abbreviation object c st := (CState (Some c) st).

(** ** The library's requests keep the table attentive *)

Lemma own_served st cmd s2 :
  handle_command (request_conn (bn_creds st) cmd) (accepting st) = (Ret tt, s2) →
  serve (Some (Accepted (request_conn (bn_creds st) cmd))) (bn_broker st)
  = (Ret tt, bn_broker (after st s2)).
Proof. intros Hh. unfold serve, emit. mrun. fold (accepting st). by rewrite Hh. Qed.

Lemma own_attentive st cmd creds r s2 L :
  attentive L (bn_broker st) →
  handle_command (request_conn (bn_creds st) cmd) (accepting st) = (Ret tt, s2) →
  heard_request (request_conn (bn_creds st) cmd) = Some (creds, r) →
  harmless_request (bn_broker st) creds r → (id_ix s2 ≤ N)%nat →
  attentive (((λ sg, (sg, env_now (now_ix (bn_broker st)))) <$>
    request_signs (request_conn (bn_creds st) cmd) (bn_broker st) (bn_broker (after st s2))) ++ L)
    (bn_broker (after st s2)).
Proof.
  intros Hat Hh Hr Hq Hix. pose proof (own_served st cmd s2 Hh) as Hs.
  destruct (serve_attentive L (Some (Accepted (request_conn (bn_creds st) cmd))) (bn_broker st) N
    (S (now_ix (bn_broker (after st s2))))) as (s1 & Hs1 & Hat1); try done.
  - intros creds' r' Hr'. congruence.
  - by rewrite Hs.
  - rewrite Hs. cbn. lia.
  - rewrite Hs in Hs1. injection Hs1 as <-. exact Hat1.
Qed.

(** The last sign the library has shown for its object. *)
Definition own_sign (sg : sign) (st : bnet) : sign * timespec := (sg, env_now (now_ix (bn_broker st))).

Local Abbreviation registered st := (registered_as (W := shared_service me N Hdraws) st).

Lemma ping_together st id L name c :
  shared_inv me N st → shared_member me st id → registered st name id c → attentive L (bn_broker st) →
  ∃ c' st', wd_client_ping uninit (object c st) = (Ret WD_CLIENT_OK, object c' st') ∧
    shared_inv me N st' ∧ shared_member me st' id ∧ registered st' name id c' ∧
    attentive (own_sign (Heard me (wc_clientID c)) st :: L) (bn_broker st').
Proof.
  intros Hi Hm Hr Hat. pose proof Hr as (_ & Hid & Hcid).
  destruct (shared_pings me N Hdraws st id Hi Hm Hid) as (st' & Hses & Hi' & Hp' & Hm').
  destruct (ping_session_ok (W := shared_service me N Hdraws) uninit Huninit st name id c st' Hi Hr Hses Hp')
    as (c' & He & Hr').
  exists c', st'. split; [done|]. split; [done|]. split; [done|]. split; [done|].
  destruct (member_found st id (si_inv _ _ _ Hi) (shared_member_bn _ _ _ _ Hi Hm) Hid)
    as (j & d & Hf & Hd & _).
  destruct (ping_run st id j d Hid Hd Hf) as (s2 & buf & Hh & _ & _ & Hsd & _ & Hix).
  assert (st' = after st s2) as ->.
  { eapply session_det; [exact Hses|]. by apply (served_session st _ _ s2 _ Hh (sd_trace _ _ _ Hsd)). }
  pose proof (ping_heard (bn_creds st) id Hid) as Hheard.
  pose proof (own_attentive st _ _ _ s2 L Hat Hh Hheard I) as Hat'.
  unfold request_signs in Hat'. rewrite Hheard, (si_creds _ _ _ Hi) in Hat'.
  rewrite Hcid. apply Hat'. rewrite Hix. apply Hi.
Qed.

Lemma register_together st L name c timeout :
  shared_inv me N st → shared_open me N st name false → attentive L (bn_broker st) →
  client_for (W := shared_service me N Hdraws) st name c → good_name name →
  WD_CLIENT_TIMEOUT_MIN_MS ≤ timeout ≤ WD_CLIENT_TIMEOUT_MAX_MS →
  ∃ id c' st', wd_client_register uninit timeout false (object c st) = (Ret WD_CLIENT_OK, object c' st') ∧
    shared_inv me N st' ∧ shared_member me st' id ∧ registered st' name id c' ∧
    attentive (own_sign (Welcomed (ok_reply (wc_clientID c'))) st :: L) (bn_broker st').
Proof.
  intros Hi Ho Hat Hc Hn Ht.
  (* VERSION *)
  set (s1 := add_event (EvReply version_text) (accepting st)).
  pose proof (version_run st) as Hh1. fold s1 in Hh1.
  assert (session (bn_path st) (lit "VERSION\n") st version_text (after st s1)) as Hses1
    by by apply (served_session st _ version_text _ [EvReply version_text] Hh1).
  destruct (shared_after me N Hdraws st _ s1 Hi Hh1 (si_draws _ _ _ Hi) (si_reboot _ _ _ Hi)) as (Hi1 & Hp1 & _).
  destruct (version_heard (bn_creds st)) as (r & Hv & Hvr).
  assert (attentive L (bn_broker (after st s1))) as Hat1.
  { pose proof (own_attentive st _ _ r s1 L Hat Hh1 Hv) as H. unfold request_signs in H. rewrite Hv in H.
    destruct r; try done; apply H; try done; apply Hi. }
  (* REGISTER *)
  assert (shared_open me N (after st s1) name false) as Ho1 by done.
  destruct (shared_registers me N Hdraws (after st s1) name timeout false Hi1 Ho1 Hn Ht)
    as (id & st2 & Hses2 & Hid & Hi2 & Hp2 & Hm2).
  destruct (register_session_ok (W := shared_service me N Hdraws) uninit Huninit st name c timeout false
    version_text (after st s1) id st2) as (c' & He & Hr'); try done; [apply version_reply_ok|].
  exists id, c', st2. split; [done|]. split; [done|]. split; [done|]. split; [done|].
  destruct Ho1 as (_ & [i Hslot] & Hlt & _). destruct (slot_spec_cases _ _ _ _ Hslot) as (d & Hd & _).
  destruct (register_run (after st s1) name timeout false i d Hn Ht Hslot Hd)
    as (s2 & l & buf & Hh & _ & _ & Hsd & _ & Hix).
  set (idarr := registration_clientID (accepting (after st s1)) d) in *.
  assert (lit "OK " ++ id ++ lit "\n" = ok_reply idarr ∧ st2 = after (after st s1) s2) as [Hw ->].
  { eapply session_det; [exact Hses2|].
    by apply (served_session (after st s1) _ _ s2 _ Hh (sd_trace _ _ _ Hsd)). }
  pose proof (register_heard (bn_creds (after st s1)) name timeout false Hn Ht) as Hheard.
  pose proof (own_attentive (after st s1) _ _ _ s2 L Hat1 Hh Hheard I) as Hat2.
  unfold request_signs in Hat2. rewrite Hheard in Hat2.
  rewrite (answers_app (bn_broker (after st s1)) (bn_broker (after (after st s1) s2))
    ([EvAccept] ++ [EvLog LOG_INFO l; EvReply (ok_reply idarr)] ++ [EvCloseConn])) in Hat2.
  2: { cbn [after bn_broker trace add_event]. rewrite (sd_trace _ _ _ Hsd).
       cbn [accepting trace add_event after bn_broker]. by rewrite <-!app_assoc. }
  assert (ok_reply (wc_clientID c') = ok_reply idarr) as ->.
  { destruct Hr' as (_ & _ & ->). rewrite <-Hw. unfold ok_reply, id_array.
    by rewrite cstr_term by by apply id_digits_no_nul. }
  apply Hat2. rewrite Hix. cbn in Hlt |- *. destruct (cl_anounced d); lia.
Qed.

(** ** Between the calls *)

(** From the end of a call of the library the daemon completes the round it is in and
    makes any number of further rounds, in which it serves others.  As long as all
    clients are punctual there, [me] included, they go well, feed the watchdog in
    each round in which the timer fired, and [next] holds of what they lead to. *)
Definition goes_round (next : wd_client_t → bnet → signs → Prop) (c : wd_client_t) (st : bnet)
    (L : signs) : Prop :=
  ∀ timer further, let ws := Wake (SelOk None timer) None :: further in
    let b := bn_broker st in
    along undisturbed ws b → Forall (not_mine me) (conns_of ws) → punctual L ws b →
    (id_ix (rounds ws b).2 ≤ N)%nat →
    ∃ b' es, rounds ws b = (Ret tt, b') ∧ trace b' = trace b ++ es ∧
      watchdog_calls es = (if watchdog_fd b then replicate (ticks ws) EvFeed else []) ∧
      next c (with_broker b' st) (log_after L ws b).

(** Through [n] heartbeats and the final UNREGISTER. *)
Fixpoint kept_alive (n : nat) (c : wd_client_t) (st : bnet) (L : signs) : Prop :=
  match n with
  | O => ∃ c' st', wd_client_unregister uninit (object c st) = (Ret WD_CLIENT_OK, object c' st') ∧
           abs (clients (bn_broker st')) !! wc_clientID c' = None
  | S n => ∃ c' st', wd_client_ping uninit (object c st) = (Ret WD_CLIENT_OK, object c' st') ∧
             goes_round (kept_alive n) c' st' (own_sign (Heard me (wc_clientID c)) st :: L)
  end.

Lemma goes_round_ok (next : wd_client_t → bnet → signs → Prop) c st L name id :
  shared_inv me N st → shared_member me st id → registered st name id c → attentive L (bn_broker st) →
  (∀ st' L', shared_inv me N st' → shared_member me st' id → registered st' name id c →
    attentive L' (bn_broker st') → next c st' L') →
  goes_round next c st L.
Proof.
  intros Hi Hm Hr Hat Hnext timer further ws b Hal Hf Hp Hix.
  destruct (punctual_rounds ws L b N (S (now_ix (rounds ws b).2)) Hat Hal Hp Hdraws Hix (Hclock _)
    (Nat.lt_succ_diag_r _)) as (b' & es & He & Hl & Hat' & Ht & Hc).
  exists b', es. split; [done|]. split; [done|]. split; [done|]. rewrite He in Hix.
  destruct (foreign_run_keeps me N Hdraws st b' id (conns_of ws) Hi Hm Hl Hf Hix) as (Hi' & Hm' & Hp').
  apply Hnext; [done|done| |done]. by apply (registered_elsewhere me N Hdraws).
Qed.

Lemma kept_alive_ok n st L name id c :
  shared_inv me N st → shared_member me st id → registered st name id c → attentive L (bn_broker st) →
  kept_alive n c st L.
Proof.
  revert c st L. induction n as [|n IH]; intros c st L Hi Hm Hr Hat; cbn [kept_alive].
  - destruct (unregister_ok (W := shared_service me N Hdraws) uninit Huninit st name id c Hi Hm Hr)
      as (c' & st' & He & _ & Hl & (_ & _ & Hid)). exists c', st'. by rewrite Hid.
  - destruct (ping_together st id L name c Hi Hm Hr Hat) as (c' & st' & He & Hi' & Hm' & Hr' & Hat').
    exists c', st'. split; [done|]. by eapply goes_round_ok; eauto.
Qed.
End Together.

