(* ===== verification/Ctrl.v ===== *)
(** * The control program

    src/src/wd-ctrl.c over an abstract connection: what the program prints, the
    requests it sends, and how it reads the rows of the STATUS reply. *)

From S2P Require Import Prelude CString Scanf Common World Getopt ClientLib.

(** [sizeof(buf)], and the size of the array [lines]. *)
Definition BUF_SIZE : nat := 4096.
Definition MAX_LINES : nat := WD_MAX_CLIENTS + 10.

(** What has been printed, and the other side of the connections. *)
Record ctrl (S : Type) : Type := Ctrl { ct_out : list (stream * bytes); ct_net : S }.
Arguments Ctrl {S} ct_out ct_net.
Arguments ct_out {S} _.
Arguments ct_net {S} _.

(** ** Lines *)

Definition is_NL (c : ascii) : bool := Ascii.eqb c NL.

(** The loop over [strtok_r(..., "\n", ...)] on the string [l], with at most
    [calls] calls: the tokens, and the buffer with the ends of the tokens
    overwritten. *)
Fixpoint strtok_lines (calls : nat) (l : bytes) : list bytes * bytes :=
  match calls with
  | O => ([], l)
  | S k =>
      let '(skipped, r) := span is_NL (length l) l in
      let '(t, r') := span (negb ∘ is_NL) (length r) r in
      match t, r' with
      | [], _ => ([], l)
      | _, [] => ([t], l)
      | _, _ :: r'' => let '(ts, b) := strtok_lines k r'' in (t :: ts, skipped ++ t ++ NUL :: b)
      end
  end.

(** [lines], and [buf] after the loop; the last call's token is not stored. *)
Definition split_reply (buf : bytes) : list bytes * bytes :=
  let '(ts, b) := strtok_lines MAX_LINES (cstr buf) in
  (take (MAX_LINES - 1) ts, b ++ drop (strlen buf) buf).

(** ** Rows of the STATUS reply *)

Definition CTRL_ROW_FORMAT : bytes := lit "%16s %d %63s %u".
Definition CTRL_LINE_FORMAT : bytes := lit "%16s %d %63s %u %d".
Definition CTRL_KEY_FORMAT : bytes := lit "%63[^=]=%63s".

(** The loop over [lines]: [id_candidate], [found] and [match_count]. *)
Fixpoint find_candidate (client : bytes) (lines : list bytes) (id_candidate : bytes) (found : bool)
    (match_count : Z) : bytes * bool * Z :=
  match lines with
  | [] => (id_candidate, found, match_count)
  | l :: r =>
      let '(n, vs) := sscanf l CTRL_ROW_FORMAT in
      let id := arg_str vs 0 in
      let name := arg_str vs 2 in
      if n =? 4 then
        if strcmp_eq client id then (strncpy WD_CLIENTID_LEN id, true, match_count)
        else if strcmp_eq client name
             then find_candidate client r (strncpy WD_CLIENTID_LEN id) true (match_count + 1)
             else find_candidate client r id_candidate found match_count
      else find_candidate client r id_candidate found match_count
  end.

(** The options of [main]. *)
Definition ctrl_long_options : list (bytes * bool * ascii) :=
  [(lit "help", false, "h"%char); (lit "version", false, "v"%char);
   (lit "socket-path", true, "s"%char)].

Definition ctrl_short_options : list (ascii * bool) :=
  [("h"%char, false); ("v"%char, false); ("s"%char, true)].

Section Ctrl.
Context {S : Type} {T : Transport S}.

Local Abbreviation C := (M (ctrl S)).

(** ** Output *)

Definition fprintf (to : stream) (text : bytes) : C unit :=
  modify (λ c, Ctrl (ct_out c ++ [(to, text)]) (ct_net c)).

Definition fatal {A} (text : bytes) : C A :=
  fprintf Stderr (fatal_error_text text) ;; exit_with EXIT_FAILURE.

Definition network {A} (f : S → A * S) : C A :=
  λ c, let '(a, n) := f (ct_net c) in (Ret a, Ctrl (ct_out c) n).

Definition print_help : C unit :=
  fprintf Stdout (concat
    [lit "Usage: wd-ctrl [OPTIONS] <command>\n"; lit "\nOptions:\n";
     lit "  --help                      Show this help message and exit\n";
     lit "  --version                   Show version information and exit\n";
     printf "  --socket-path <path>        Use custom socket path (default: %s)\n"
       [PS SOCKET_PATH_DEFAULT];
     lit "\nCommands:\n"; lit "  reboot                      Trigger the reboot failsafe\n";
     lit "  status                      Show the current wd-broker status\n";
     lit "  unregister <clientID|name>  Unregister a client by its ID or name\n";
     lit "\nExamples:\n"; lit "  wd-ctrl status\n"; lit "  wd-ctrl unregister 4f3c0d9e8a1b4f21\n";
     lit "  wd-ctrl --socket-path /run/custom.sock status\n"; lit "\n"]).

Definition table_header : bytes :=
  printf "\n%-18s %-6s %-20s %-13s %-8s\n"
    [PS (lit "clientID"); PS (lit "PID"); PS (lit "Name"); PS (lit "Timeout (ms)"); PS (lit "pidCheck")]
  ++ printf "%s\n" [PS (take 69 (replicate 69 "-"%char))].

Definition print_table_header : C unit := fprintf Stdout table_header.

(** The text [print_line_formatted] prints for a line. *)
Definition formatted_line (line : bytes) : bytes :=
  let '(n, vs) := sscanf line CTRL_LINE_FORMAT in
  if n =? 5
  then printf "%-18s %-6d %-20s %-13u %-8s\n"
         [PS (arg_str vs 0); PI (arg_int vs 1); PS (arg_str vs 2); PI (arg_int vs 3);
          PS (if arg_int vs 4 =? 0 then lit "off" else lit "on")]
  else cstr line.

Definition print_line_formatted (line : bytes) : C unit := fprintf Stdout (formatted_line line).

(** ** One request *)

(** The returned length, and the buffer afterwards. *)
Definition send_and_receive (socket_path cmd buf : bytes) : C (Z * bytes) :=
  r ← network (tr_connect (take (WD_CLIENT_SOCKPATH_LEN - 1) (cstr socket_path)));
  match r with
  | NoSocket err =>
      fprintf Stderr (printf "Error: socket() failed: %s\n" [PS err]) ;; mret (-1, buf)
  | NotConnected err =>
      fprintf Stderr (printf "Cannot connect to server at %s: %s\n" [PS socket_path; PS err]) ;;
      mret (-1, buf)
  | Connected =>
      w ← network (tr_write (cstr cmd));
      match w with
      | Some err =>
          (if bytes_eqb err (lit "Broken pipe")
           then fprintf Stderr (lit "Error: Broken pipe (server may have closed connection)\n")
           else mret tt) ;;
          fprintf Stderr (printf "Failed to send request to server: %s\n" [PS err]) ;;
          network (λ n, (tt, tr_close n)) ;;
          mret (-1, buf)
      | None =>
          r ← network tr_read;
          let '(sel, rd, _) := r in
          let '(len, b) := read_with_timeout sel rd buf (length buf) in
          network (λ n, (tt, tr_close n)) ;;
          mret (if len >=? 0 then len else -1, b)
      end
  end.

(** ** The commands *)

Definition ctrl_reboot (socket_path buf : bytes) : C Z :=
  r ← send_and_receive socket_path CMD_REBOOT buf;
  let '(_, buf) := r in
  if strncmp_eq 2 buf (lit "OK") then
    fprintf Stdout (printf "Reboot failsafe activated, timeout: %d seconds.\n"
                      [PI (atoi (drop 3 buf))]) ;;
    mret EXIT_SUCCESS
  else fatal (lit "Unexpected server response.\n").

Fixpoint ctrl_status (lines : list bytes) (has_client_rows : bool) : C unit :=
  match lines with
  | [] => mret tt
  | l :: r =>
      match strchr "=" l with
      | Some _ =>
          let '(n, vs) := sscanf l CTRL_KEY_FORMAT in
          (if n =? 2 then fprintf Stdout (printf "%-18s: %s\n" [PS (arg_str vs 0); PS (arg_str vs 1)])
           else mret tt) ;;
          ctrl_status r has_client_rows
      | None =>
          (if negb has_client_rows then print_table_header else mret tt) ;;
          print_line_formatted l ;;
          ctrl_status r true
      end
  end.

Definition unregister_request (id_candidate : bytes) : bytes :=
  printf "%s%s\n" [PS CMD_UNREGISTER; PS id_candidate].

Definition ctrl_unregister (socket_path client : bytes) (lines : list bytes) (buf : bytes) : C Z :=
  let '(id_candidate, found, match_count) :=
    find_candidate client lines (replicate WD_CLIENTID_LEN NUL) false 0 in
  (if match_count >? 1
   then fatal (printf "Client name '%s' is not unique, use the clientID.\n" [PS client])
   else if negb found then fatal (printf "Unknown client (%s).\n" [PS client])
   else mret tt) ;;
  r ← send_and_receive socket_path
        (snprintf_array (replicate 128 NUL) (unregister_request id_candidate)) buf;
  let '(len, buf) := r in
  if len <=? 0 then mret EXIT_FAILURE
  else if strncmp_eq 2 buf (lit "OK") then
    fprintf Stdout (printf "Client '%s' unregistered successfully.\n" [PS client]) ;;
    mret EXIT_SUCCESS
  else if strncmp_eq 5 buf (lit "ERROR") then
    fprintf Stderr (printf "Server Error: %s\n" [PS (drop 6 buf)]) ;;
    mret EXIT_FAILURE
  else fatal (lit "Unexpected server response.\n").

(** ** [main] *)

Fixpoint ctrl_options (os : list opt) (socket_path : bytes) : C (bytes + Z) :=
  match os with
  | [] => mret (inl socket_path)
  | Opt c arg :: r =>
      if Ascii.eqb c "h" then print_help ;; mret (inr EXIT_SUCCESS)
      else if Ascii.eqb c "v" then
        fprintf Stdout (printf "wd-ctrl v%s\n" [PS PACKAGE_VERSION]) ;; mret (inr EXIT_SUCCESS)
      else if Ascii.eqb c "s" then ctrl_options r (default [] arg)
      else print_help ;; mret (inr EXIT_FAILURE)
  | OptError :: _ => print_help ;; mret (inr EXIT_FAILURE)
  end.

(** [main] for the effective user [euid] and the words [argv] after the name. *)
Definition ctrl_main (euid : Z) (argv : list bytes) : C Z :=
  let '(opts, operands) := getopt_long ctrl_short_options ctrl_long_options argv in
  o ← ctrl_options opts SOCKET_PATH_DEFAULT;
  match o with
  | inr status => mret status
  | inl socket_path =>
      if negb (euid =? 0) then fatal (lit "Only root is allowed to control wd-broker.\n")
      else
        match operands with
        | [] => fprintf Stderr (lit "Error: Missing command.\n\n") ;; print_help ;; mret EXIT_FAILURE
        | command :: args =>
            r ← send_and_receive socket_path CMD_STATUS (replicate BUF_SIZE NUL);
            let '(len, buf) := r in
            if len <=? 0 then mret EXIT_FAILURE
            else
              let '(lines, buf) := split_reply buf in
              if strcmp_eq command (lit "reboot") then ctrl_reboot socket_path buf
              else if strcmp_eq command (lit "status") then
                ctrl_status lines false ;; mret EXIT_SUCCESS
              else
                match args with
                | client :: _ =>
                    if strcmp_eq command (lit "unregister")
                    then ctrl_unregister socket_path client lines buf
                    else fprintf Stderr (lit "Error: Invalid arguments.\n\n") ;; print_help ;;
                         mret EXIT_FAILURE
                | [] => fprintf Stderr (lit "Error: Invalid arguments.\n\n") ;; print_help ;;
                        mret EXIT_FAILURE
                end
        end
  end.
End Ctrl.
