(* ===== verification/Robust.v ===== *)
(** * The client programs against any broker

    The library (ClientLib.v) and the control program (Ctrl.v) over an arbitrary
    other side, which may refuse connections, fail at any call and answer anything:
    they always come back with one of their documented results, they open, use and
    close their connections in the right order and leak none, and an object keeps
    its shape.  The order of the calls is checked by a transport that watches them. *)

From S2P Require Import Prelude CString Scanf Common World ClientId Getopt ClientLib Service Ctrl.

(** ** A transport that watches the descriptor *)

(** Whether a connection is open; [Misused] once a call came out of order. *)
Inductive usage : Type := Idle | Open | Misused.

Record tracked (S : Type) : Type := Tracked { tk_net : S; tk_usage : usage }.
Arguments Tracked {S} tk_net tk_usage.
Arguments tk_net {S} _.
Arguments tk_usage {S} _.

Definition used_open (u : usage) : usage := match u with Open => Open | _ => Misused end.

#[export] Instance tracked_transport {S} (T : Transport S) : Transport (tracked S) := {
  tr_connect path t :=
    let '(r, n) := tr_connect path (tk_net t) in
    (r, Tracked n match tk_usage t, r with
                  | Idle, Connected => Open
                  | Idle, _ => Idle
                  | _, _ => Misused
                  end);
  tr_write cmd t := let '(w, n) := tr_write cmd (tk_net t) in (w, Tracked n (used_open (tk_usage t)));
  tr_read t := let '(r, n) := tr_read (tk_net t) in (r, Tracked n (used_open (tk_usage t)));
  tr_close t := Tracked (tr_close (tk_net t))
                  match tk_usage t with Open => Idle | _ => Misused end;
}.

(** ** The library *)

Definition client_code (r : Z) : Prop :=
  r = WD_CLIENT_OK ∨ r = WD_CLIENT_ERR ∨ r = WD_CLIENT_EPARAM ∨ r = WD_CLIENT_ETIMEOUT ∨
  r = WD_CLIENT_EVERSION.

(** The arrays of an object have their declared lengths. *)
Definition shaped (c : wd_client_t) : Prop :=
  length (wc_socket_path c) = WD_CLIENT_SOCKPATH_LEN ∧ length (wc_name c) = WD_CLIENT_NAME_LEN ∧
  length (wc_clientID c) = WD_CLIENTID_LEN ∧ length (wc_status c) = WD_CLIENT_STATUS_LEN.

(** Only the status text, and maybe the identifier, has changed. *)
Definition same_client (c c' : wd_client_t) : Prop :=
  wc_socket_path c' = wc_socket_path c ∧ wc_name c' = wc_name c ∧ (shaped c → shaped c').

Definition same_object (c c' : wd_client_t) : Prop :=
  same_client c c' ∧ wc_clientID c' = wc_clientID c.

#[export] Instance same_client_preorder : PreOrder same_client.
Proof.
  split; [by intros c|]. intros c1 c2 c3 (? & ? & ?) (? & ? & ?). unfold same_client. split_and!; try congruence.
  auto.
Qed.
#[export] Instance same_object_preorder : PreOrder same_object.
Proof.
  split; [by intros c|]. intros c1 c2 c3 [H1 ?] [H2 ?]. split; [by transitivity c2|congruence].
Qed.

Section Library.
Context {S : Type} {T : Transport S} (uninit : nat → bytes).

Local Abbreviation C := (M (cstate (tracked S))).

(** [m], started on the object [c] with usage [u], returns with [Q]. *)
Definition comes_back {A} (c : wd_client_t) (u : usage) (m : C A)
    (Q : A → wd_client_t → usage → Prop) : Prop :=
  ∀ st, ∃ a c' st' u', m (CState (Some c) (Tracked st u)) = (Ret a, CState (Some c') (Tracked st' u')) ∧
    Q a c' u'.

Lemma cb_ret {A} c u (a : A) (Q : A → wd_client_t → usage → Prop) :
  Q a c u → comes_back c u (mret a) Q.
Proof. intros H st. by exists a, c, st, u. Qed.

Lemma cb_bind {A D} c u (m : C A) (f : A → C D) R (Q : D → wd_client_t → usage → Prop) :
  comes_back c u m R → (∀ a c' u', R a c' u' → comes_back c' u' (f a) Q) →
  comes_back c u (m ≫= f) Q.
Proof.
  intros Hm Hf st. destruct (Hm st) as (a & c1 & st1 & u1 & H1 & HR).
  destruct (Hf a c1 u1 HR st1) as (b & c2 & st2 & u2 & H2 & HQ).
  exists b, c2, st2, u2. split; [|done]. by rewrite bind_eq, H1.
Qed.

Lemma cb_conseq {A} c u (m : C A) (Q Q' : A → wd_client_t → usage → Prop) :
  comes_back c u m Q → (∀ a c' u', Q a c' u' → Q' a c' u') → comes_back c u m Q'.
Proof. intros Hm HQ st. destruct (Hm st) as (a & c' & st' & u' & H1 & H2). eauto 10. Qed.

Lemma cb_deref c u : comes_back c u deref (λ a c' u', a = c ∧ c' = c ∧ u' = u).
Proof. intros st. by exists c, c, st, u. Qed.

Lemma cb_missing field c u :
  comes_back c u (missing field) (λ a c' u',
    a = Ascii.eqb (hd NUL (field c)) NUL ∧ c' = c ∧ u' = u).
Proof. intros st. by exists (Ascii.eqb (hd NUL (field c)) NUL), c, st, u. Qed.

Lemma snprintf_array_len dst text : (0 < length dst)%nat → length (snprintf_array dst text) = length dst.
Proof.
  intros H. unfold snprintf_array. cbv zeta.
  repeat (rewrite length_app || rewrite length_drop || rewrite length_take). cbn [length]. lia.
Qed.

Lemma cb_status text c u : comes_back c u (WD_SET_STATUS text) (λ _ c' u', same_object c c' ∧ u' = u).
Proof.
  intros st. eexists tt, _, st, u. split; [reflexivity|]. split; [|done]. split; [|done].
  split_and!; [done|done|]. intros (H1 & H2 & H3 & H4). split_and!; try done. cbn.
  rewrite snprintf_array_len; [done|]. rewrite H4. unfold WD_CLIENT_STATUS_LEN. lia.
Qed.

Lemma cb_connect_net path c :
  comes_back c Idle (net (tr_connect path)) (λ r c' u', c' = c ∧
    u' = match r with Connected => Open | _ => Idle end).
Proof.
  intros st. unfold net. cbn. destruct (tr_connect path st) as [r n].
  eexists r, c, n, _. by split.
Qed.
Lemma cb_write cmd c : comes_back c Open (net (tr_write cmd)) (λ _ c' u', c' = c ∧ u' = Open).
Proof. intros st. unfold net. cbn. destruct (tr_write cmd st) as [r n]. by exists r, c, n, Open. Qed.
Lemma cb_read c : comes_back c Open (net tr_read) (λ _ c' u', c' = c ∧ u' = Open).
Proof. intros st. unfold net. cbn. destruct (tr_read st) as [r n]. by exists r, c, n, Open. Qed.
Lemma cb_close c : comes_back c Open close_fd (λ _ c' u', c' = c ∧ u' = Idle).
Proof. intros st. by exists tt, c, (tr_close st), Idle. Qed.

(** Connecting: a descriptor is open exactly if the result is not negative. *)
Lemma cb_connect c :
  comes_back c Idle wd_client_connect (λ fd c' u', same_object c c' ∧
    ((fd = 0 ∧ u' = Open) ∨ (fd < 0 ∧ client_code fd ∧ u' = Idle))).
Proof.
  unfold wd_client_connect. eapply cb_bind; [apply cb_missing|]. intros bad ? ? (-> & -> & ->).
  destruct (Ascii.eqb _ _).
  { eapply cb_bind; [apply cb_status|]. intros _ c1 ? [H ->]. apply cb_ret. split; [done|].
    right. split; [done|]. split; [unfold client_code; tauto|done]. }
  eapply cb_bind; [apply cb_deref|]. intros ? ? ? (-> & -> & ->).
  eapply cb_bind; [apply cb_connect_net|]. intros r ? ? [-> ->].
  destruct r; (eapply cb_bind; [apply cb_status|]); intros _ c1 ? [H ->]; apply cb_ret; (split; [done|]);
    [by left|right; (split; [done|]); (split; [unfold client_code; tauto|done])..].
Qed.

Lemma cb_finish text ret c :
  comes_back c Open (finish text ret) (λ r c' u', r = ret ∧ same_object c c' ∧ u' = Idle).
Proof.
  unfold finish. eapply cb_bind; [apply cb_close|]. intros _ ? ? [-> ->].
  eapply cb_bind; [apply cb_status|]. intros _ c1 ? [H ->]. by apply cb_ret.
Qed.

Lemma cb_read_response buffer c :
  comes_back c Open (read_response buffer) (λ _ c' u', c' = c ∧ u' = Open).
Proof.
  unfold read_response. eapply cb_bind; [apply cb_read|]. intros [[sel rd] err] ? ? [-> ->].
  destruct (read_with_timeout _ _ _ _). by apply cb_ret.
Qed.

(** The result of a call that leaves the identifier alone. *)
Definition done_with (c : wd_client_t) (r : Z) (c' : wd_client_t) (u : usage) : Prop :=
  client_code r ∧ same_object c c' ∧ u = Idle.

Lemma cb_finish_with c0 c text ret :
  same_object c0 c → client_code ret → comes_back c Open (finish text ret) (done_with c0).
Proof.
  intros H Hr. eapply cb_conseq; [apply cb_finish|]. intros r c' u' (-> & H' & ->).
  split; [done|]. split; [by transitivity c|done].
Qed.

Ltac code := unfold client_code; tauto.

Lemma cb_check_prot_version c : comes_back c Idle wd_client_check_prot_version (done_with c).
Proof.
  unfold wd_client_check_prot_version. eapply cb_bind; [apply cb_connect|].
  intros fd c1 u1 (H1 & [(-> & ->)|(Hneg & Hcode & ->)]).
  2: { destruct (Z.ltb_spec fd 0); [|lia]. by apply cb_ret. }
  change (0 <? 0) with false. cbv iota.
  eapply cb_bind; [apply cb_write|]. intros [err|] ? ? [-> ->]; [apply cb_finish_with; [done|code]|].
  eapply cb_bind; [apply cb_read_response|]. intros [[len buffer] err] ? ? [-> ->].
  destruct (len <=? 0); [apply cb_finish_with; [done|code]|].
  destruct (strstr _ _); [|apply cb_finish_with; [done|code]].
  destruct (negb _); [apply cb_finish_with; [done|code]|].
  eapply cb_bind; [apply cb_close|]. intros _ ? ? [-> ->]. apply cb_ret. split; [code|done].
Qed.

(** A transaction: whatever [use] guarantees of an open connection. *)
Lemma cb_transact size csize what cmd use c (Q : Z → wd_client_t → usage → Prop) :
  (∀ r c' u, done_with c r c' u → r ≠ WD_CLIENT_OK → Q r c' u) →
  (∀ response c', same_object c c' → comes_back c' Open (use response) Q) →
  comes_back c Idle (transact uninit size csize what cmd use) Q.
Proof.
  intros HQ Huse. unfold transact. eapply cb_bind; [apply cb_connect|].
  assert (∀ text ret c', same_object c c' → client_code ret → ret ≠ WD_CLIENT_OK →
    comes_back c' Open (finish text ret) Q) as Hfin.
  { intros text ret c' H Hr Hn. eapply cb_conseq; [apply cb_finish|].
    intros r c2 u2 (-> & H2 & ->). apply HQ; [|done]. split; [done|]. split; [by transitivity c'|done]. }
  intros fd c1 u1 (H1 & [(-> & ->)|(Hneg & Hcode & ->)]).
  2: { destruct (Z.ltb_spec fd 0); [|lia]. apply cb_ret, HQ; [done|unfold WD_CLIENT_OK; lia]. }
  change (0 <? 0) with false. cbv iota.
  eapply cb_bind; [apply cb_deref|]. intros ? ? ? (-> & -> & ->).
  eapply cb_bind; [apply cb_write|]. intros [err|] ? ? [-> ->]; [apply Hfin; [done|code|done]|].
  eapply cb_bind; [apply cb_read_response|]. intros [[len response] err] ? ? [-> ->].
  destruct (len <? 0); [apply Hfin; [done|code|done]|].
  destruct (len =? 0); [apply Hfin; [done|code|done]|]. by apply Huse.
Qed.

Lemma cb_check_ok what response c0 c :
  same_object c0 c → comes_back c Open (check_ok what response) (done_with c0).
Proof.
  intros H. unfold check_ok. destruct (strncmp_eq _ _ _); [|apply cb_finish_with; [done|code]].
  eapply cb_bind; [apply cb_deref|]. intros ? ? ? (-> & -> & ->). apply cb_finish_with; [done|code].
Qed.

(** A registration, which sets the identifier if and only if it succeeds. *)
Definition registration_done (c : wd_client_t) (r : Z) (c' : wd_client_t) (u : usage) : Prop :=
  client_code r ∧ same_client c c' ∧ u = Idle ∧
  (r ≠ WD_CLIENT_OK → wc_clientID c' = wc_clientID c) ∧
  (r = WD_CLIENT_OK → ∃ d, wc_clientID c' = d ++ [NUL] ∧ length d = WD_CLIENTID_FMT_LEN).

Lemma registration_failed c r c' u :
  done_with c r c' u → r ≠ WD_CLIENT_OK → registration_done c r c' u.
Proof. intros (H1 & [H2 H3] & H4) Hr. by split_and!. Qed.

Lemma cb_register_response response c0 c :
  same_object c0 c → comes_back c Open (register_response response) (registration_done c0).
Proof.
  intros H. unfold register_response. destruct (strncmp_eq _ _ _).
  2: { eapply cb_conseq; [by apply cb_finish|]. intros r c' u' (-> & H' & ->).
       apply registration_failed; [|done]. split; [code|]. split; [by transitivity c|done]. }
  set (id := strncpy (WD_CLIENTID_LEN - 1) (drop 3 response)).
  eapply (cb_bind _ _ _ _ (λ _ c' u', c' = set_clientID (id ++ [NUL]) c ∧ u' = Open)).
  { intros st. by eexists tt, _, st, Open. }
  intros _ ? ? [-> ->]. eapply cb_bind; [apply cb_deref|]. intros ? ? ? (-> & -> & ->).
  eapply cb_conseq; [apply cb_finish|]. intros r c' u' (-> & [H1 H2] & ->).
  assert (length id = WD_CLIENTID_FMT_LEN) as Hid by apply strncpy_length.
  split; [code|]. split; [|split; [done|split; [done|intros _; by exists id]]].
  transitivity c; [apply H|]. transitivity (set_clientID (id ++ [NUL]) c); [|done].
  split_and!; [done|done|]. intros (Ha & Hb & _ & Hd). split_and!; try done. cbn.
  by rewrite length_app, Hid.
Qed.

Lemma cb_register timeout ignorepid c :
  comes_back c Idle (wd_client_register uninit timeout ignorepid) (registration_done c).
Proof.
  assert (∀ text, comes_back c Idle (WD_SET_STATUS text ;; mret WD_CLIENT_EPARAM) (registration_done c)) as Hbad.
  { intros text. eapply cb_bind; [apply cb_status|]. intros _ c' ? [H ->]. apply cb_ret.
    apply registration_failed; [|done]. split; [code|done]. }
  unfold wd_client_register. eapply cb_bind; [apply cb_missing|]. intros bad ? ? (-> & -> & ->).
  destruct (Ascii.eqb _ _); [apply Hbad|]. destruct (_ || _); [apply Hbad|].
  eapply cb_bind; [apply cb_check_prot_version|]. intros ret c1 u1 Hd.
  destruct (Z.eqb_spec ret WD_CLIENT_OK) as [->|Hne]; cbn [negb].
  2: { apply cb_ret. by apply registration_failed. }
  destruct Hd as (_ & H1 & ->). apply cb_transact.
  - intros r c' u (Ha & Hb & Hc) Hr. apply registration_failed; [|done].
    split; [done|]. split; [by transitivity c1|done].
  - intros response c' H2. apply cb_register_response. by transitivity c1.
Qed.

(** A PING or UNREGISTER. *)
Lemma cb_command what (cmd : wd_client_t → bytes) c :
  comes_back c Idle
    (bad ← missing wc_clientID;
     if bad : bool then WD_SET_STATUS (lit "Invalid parameters") ;; mret WD_CLIENT_EPARAM
     else transact uninit 64 64 what cmd (check_ok what)) (done_with c).
Proof.
  eapply cb_bind; [apply cb_missing|]. intros bad ? ? (-> & -> & ->). destruct (Ascii.eqb _ _).
  - eapply cb_bind; [apply cb_status|]. intros _ c' ? [H ->]. apply cb_ret. split; [code|done].
  - apply cb_transact; [done|]. intros response c' H. by apply cb_check_ok.
Qed.
End Library.


(** ** The control program *)

Section Control.
Context {S : Type} {T : Transport S}.

Local Abbreviation C := (M (ctrl (tracked S))).

(** [m], started with usage [u], only adds to the output; it returns with [Q], or
    reports on stderr and exits with [EXIT_FAILURE] while nothing is open. *)
Definition carries_on {A} (u : usage) (m : C A) (Q : A → usage → Prop) : Prop :=
  ∀ out st, ∃ o new st' u',
    m (Ctrl out (Tracked st u)) = (o, Ctrl (out ++ new) (Tracked st' u')) ∧
    match o with
    | Ret a => Q a u'
    | Exit x => x = EXIT_FAILURE ∧ u' = Idle ∧ ∃ t, last new = Some (Stderr, t)
    | Undef => False
    end.

Lemma co_ret {A} u (a : A) (Q : A → usage → Prop) : Q a u → carries_on u (mret a) Q.
Proof. intros H out st. exists (Ret a), [], st, u. by rewrite app_nil_r. Qed.

Lemma co_bind {A D} u (m : C A) (f : A → C D) R (Q : D → usage → Prop) :
  carries_on u m R → (∀ a u', R a u' → carries_on u' (f a) Q) → carries_on u (m ≫= f) Q.
Proof.
  intros Hm Hf out st. destruct (Hm out st) as (o & new & st1 & u1 & H1 & HR).
  destruct o as [a|x|]; [|exists (Exit x), new, st1, u1; by rewrite bind_eq, H1|done].
  destruct (Hf a u1 HR (out ++ new) st1) as (o2 & new2 & st2 & u2 & H2 & HQ).
  exists o2, (new ++ new2), st2, u2. rewrite bind_eq, H1, H2, app_assoc. split; [done|].
  destruct o2 as [b|x|]; [done| |done]. destruct HQ as (-> & -> & t & Ht).
  split_and!; [done|done|]. exists t. by rewrite last_app, Ht.
Qed.

Lemma co_print f text u : carries_on u (fprintf f text) (λ _ u', u' = u).
Proof. intros out st. by exists (Ret tt), [(f, text)], st, u. Qed.

Lemma co_fatal {A} text (Q : A → usage → Prop) : carries_on Idle (fatal text) Q.
Proof. intros out st. eexists (Exit _), [_], st, Idle. split; [reflexivity|]. by split_and!; eauto. Qed.

Lemma co_connect path :
  carries_on Idle (network (tr_connect path)) (λ r u',
    u' = match r with Connected => Open | _ => Idle end).
Proof.
  intros out st. unfold network. cbn. destruct (tr_connect path st) as [r n].
  eexists (Ret r), [], n, _. rewrite app_nil_r. by split.
Qed.
Lemma co_write cmd : carries_on Open (network (tr_write cmd)) (λ _ u', u' = Open).
Proof.
  intros out st. unfold network. cbn. destruct (tr_write cmd st) as [r n].
  eexists (Ret r), [], n, _. rewrite app_nil_r. by split.
Qed.
Lemma co_read : carries_on Open (network tr_read) (λ _ u', u' = Open).
Proof.
  intros out st. unfold network. cbn. destruct (tr_read st) as [r n].
  eexists (Ret r), [], n, _. rewrite app_nil_r. by split.
Qed.
Lemma co_close : carries_on Open (network (λ n, (tt, tr_close n))) (λ _ u', u' = Idle).
Proof. intros out st. eexists (Ret tt), [], _, _. rewrite app_nil_r. by split. Qed.

Ltac print_then := eapply co_bind; [apply co_print|]; intros _ ? ->.

Lemma co_send_and_receive path cmd buf :
  carries_on Idle (send_and_receive path cmd buf) (λ _ u', u' = Idle).
Proof.
  unfold send_and_receive. eapply co_bind; [apply co_connect|]. intros r u ->.
  destruct r; [|print_then; by apply co_ret..].
  eapply co_bind; [apply co_write|]. intros [err|] ? ->.
  - eapply (co_bind _ _ _ (λ _ u', u' = Open)).
    { destruct (bytes_eqb _ _); [apply co_print|by apply co_ret]. }
    intros _ ? ->. print_then. eapply co_bind; [apply co_close|]. intros _ ? ->. by apply co_ret.
  - eapply co_bind; [apply co_read|]. intros [[sel rd] err] ? ->.
    destruct (read_with_timeout _ _ _ _). eapply co_bind; [apply co_close|]. intros _ ? ->. by apply co_ret.
Qed.

Lemma co_help : carries_on Idle print_help (λ _ u', u' = Idle).
Proof. apply co_print. Qed.

(** How [main] may end. *)
Definition ended (r : Z) (u : usage) : Prop := (r = EXIT_SUCCESS ∨ r = EXIT_FAILURE) ∧ u = Idle.

Lemma ended_success : ended EXIT_SUCCESS Idle. Proof. by split; [left|]. Qed.
Lemma ended_failure : ended EXIT_FAILURE Idle. Proof. by split; [right|]. Qed.
Hint Resolve ended_success ended_failure : ctrl.

Ltac finish_now := apply co_ret; auto with ctrl.

Lemma co_reboot path buf : carries_on Idle (ctrl_reboot path buf) ended.
Proof.
  unfold ctrl_reboot. eapply co_bind; [apply co_send_and_receive|]. intros [len buf'] ? ->.
  destruct (strncmp_eq _ _ _); [print_then; finish_now|apply co_fatal].
Qed.

Lemma co_status lines b : carries_on Idle (ctrl_status lines b) (λ _ u', u' = Idle).
Proof.
  revert b. induction lines as [|l r IH]; intros b; cbn [ctrl_status]; [by apply co_ret|].
  destruct (strchr _ _).
  - destruct (sscanf _ _) as [n vs].
    eapply (co_bind _ _ _ (λ _ u', u' = Idle)); [|intros _ ? ->; apply IH].
    destruct (n =? 2); [apply co_print|by apply co_ret].
  - eapply (co_bind _ _ _ (λ _ u', u' = Idle)).
    { destruct b; [by apply co_ret|apply co_print]. }
    intros _ ? ->. eapply co_bind; [apply co_print|]. intros _ ? ->. apply IH.
Qed.

Lemma co_unregister path client lines buf :
  carries_on Idle (ctrl_unregister path client lines buf) ended.
Proof.
  unfold ctrl_unregister. destruct (find_candidate _ _ _ _ _) as [[id found] n].
  eapply (co_bind _ _ _ (λ _ u', u' = Idle)).
  { destruct (n >? 1); [apply co_fatal|]. destruct found; [by apply co_ret|apply co_fatal]. }
  intros _ ? ->. eapply co_bind; [apply co_send_and_receive|]. intros [len buf'] ? ->.
  destruct (len <=? 0); [finish_now|]. destruct (strncmp_eq 2 _ _); [print_then; finish_now|].
  destruct (strncmp_eq 5 _ _); [print_then; finish_now|apply co_fatal].
Qed.

(** The options neither contact the broker nor fail. *)
Lemma ctrl_options_local os path out (net : tracked S) :
  ∃ r new, ctrl_options os path (Ctrl out net) = (Ret r, Ctrl (out ++ new) net) ∧
    ∀ status, r = inr status → status = EXIT_SUCCESS ∨ status = EXIT_FAILURE.
Proof.
  revert path. induction os as [|[c arg|] os IH]; intros path; cbn [ctrl_options].
  - exists (inl path), []. rewrite app_nil_r. by split.
  - destruct (Ascii.eqb c "h"); [eexists (inr _), [_]; split; [reflexivity|by intros ? [= <-]; left]|].
    destruct (Ascii.eqb c "v"); [eexists (inr _), [_]; split; [reflexivity|by intros ? [= <-]; left]|].
    destruct (Ascii.eqb c "s"); [apply IH|].
    eexists (inr _), [_]. split; [reflexivity|by intros ? [= <-]; right].
  - eexists (inr _), [_]. split; [reflexivity|by intros ? [= <-]; right].
Qed.

Lemma co_options os path :
  carries_on Idle (ctrl_options os path) (λ r u',
    u' = Idle ∧ ∀ status, r = inr status → status = EXIT_SUCCESS ∨ status = EXIT_FAILURE).
Proof.
  intros out st. destruct (ctrl_options_local os path out (Tracked st Idle)) as (r & new & He & Hr).
  by exists (Ret r), new, st, Idle.
Qed.

Lemma co_main euid argv : carries_on Idle (ctrl_main euid argv) ended.
Proof.
  unfold ctrl_main. destruct (getopt_long _ _ _) as [opts operands].
  eapply co_bind; [apply co_options|]. intros [path|status] ? [-> Hs]; [|by apply co_ret; split; auto].
  destruct (negb _); [apply co_fatal|].
  assert (carries_on Idle (fprintf Stderr (lit "Error: Invalid arguments.\n\n") ;; print_help ;;
    mret EXIT_FAILURE) ended) as Hbad.
  { print_then. eapply co_bind; [apply co_help|]. intros _ ? ->. finish_now. }
  destruct operands as [|command args].
  { print_then. eapply co_bind; [apply co_help|]. intros _ ? ->. finish_now. }
  eapply co_bind; [apply co_send_and_receive|]. intros [len buf] ? ->.
  destruct (len <=? 0); [finish_now|]. destruct (split_reply buf) as [lines buf'].
  destruct (strcmp_eq command _); [apply co_reboot|].
  destruct (strcmp_eq command _).
  { eapply co_bind; [apply co_status|]. intros _ ? ->. finish_now. }
  destruct args as [|client args]; [done|]. destruct (strcmp_eq command _); [apply co_unregister|done].
Qed.

(** Without root the broker is not even contacted. *)
Lemma ctrl_main_unprivileged euid argv out (net : tracked S) :
  euid ≠ 0 → ct_net (ctrl_main euid argv (Ctrl out net)).2 = net.
Proof.
  intros He. unfold ctrl_main. destruct (getopt_long _ _ _) as [opts operands].
  destruct (ctrl_options_local opts SOCKET_PATH_DEFAULT out net) as (r & new & Ho & _).
  rewrite bind_eq, Ho. destruct r as [path|status]; [|done].
  by rewrite (proj2 (Z.eqb_neq _ _) He).
Qed.
End Control.

(** C37: [wd-ctrl] ends properly whatever the broker does: for all arguments and an
    arbitrary other side it returns success or failure or exits with a failure
    after a message on stderr, has opened, used
    and closed its connections in order with none left open, and only added to
    its output; and unless root runs it, it never contacts the broker. *)
Theorem ctrl_survives_any_broker {S} `{T : Transport S} euid argv out (st : S) :
  ∃ o new st', ctrl_main euid argv (Ctrl out (Tracked st Idle))
               = (o, Ctrl (out ++ new) (Tracked st' Idle)) ∧
    (o = Ret EXIT_SUCCESS ∨ o = Ret EXIT_FAILURE ∨
     (o = Exit EXIT_FAILURE ∧ ∃ t, last new = Some (Stderr, t))) ∧
    (euid ≠ 0 → st' = st).
Proof.
  destruct (co_main euid argv out st) as (o & new & st' & u & He & Ho).
  assert (u = Idle ∧ (o = Ret EXIT_SUCCESS ∨ o = Ret EXIT_FAILURE ∨
     (o = Exit EXIT_FAILURE ∧ ∃ t, last new = Some (Stderr, t)))) as [-> Ho'].
  { destruct o as [r|x|]; [|naive_solver|done]. destruct Ho as [[-> | ->] ->]; auto. }
  exists o, new, st'. split_and!; [done|done|]. intros Hu.
  pose proof (ctrl_main_unprivileged euid argv out (Tracked st Idle) Hu) as Hn.
  rewrite He in Hn. by injection Hn.
Qed.
