(* ===== verification/CtrlReply.v ===== *)
(** * The STATUS reply as the control program reads it

    src/src/wd-ctrl.c splits the reply of the broker into lines, takes those with an
    equals sign for settings and scans the others as rows: what it gets back from
    the text the broker printed. *)

From S2P Require Import Prelude CString Scanf Common World ClientId Registry Status.
From S2P Require Import Handlers Requests ConfigFile ConfigPrint Daemon Timing Life Spec Getopt.
From S2P Require Import ClientLib Service EndToEnd Ctrl.

(** ** Lines *)

Definition with_NL (t : bytes) : bytes := t ++ [NL].

Definition line_text (t : bytes) : Prop := t ≠ [] ∧ no_nul t ∧ NL ∉ t.

Lemma is_NL_spec c : is_NL c = true ↔ c = NL.
Proof. apply Ascii.eqb_eq. Qed.

Lemma strtok_lines_concat ts k :
  Forall line_text ts → (length ts ≤ k)%nat → fst (strtok_lines k (concat (with_NL <$> ts))) = ts.
Proof.
  intros H. revert k. induction H as [|t ts (Hn & _ & Hnl) _ IH]; intros k Hk.
  { destruct k; reflexivity. }
  destruct k as [|k]; cbn [length] in Hk; [lia|]. cbn [fmap list_fmap concat strtok_lines].
  set (rest := concat (with_NL <$> ts)).
  assert (with_NL t ++ rest = t ++ NL :: rest) as -> by (unfold with_NL; by rewrite <-app_assoc).
  assert (Forall (λ c, (negb ∘ is_NL) c = true) t) as Ht.
  { apply Forall_forall. intros c Hc. apply negb_true_iff, Ascii.eqb_neq. by intros ->. }
  assert (span is_NL (length (t ++ NL :: rest)) (t ++ NL :: rest) = ([], t ++ NL :: rest)) as ->.
  { apply (span_app is_NL _ []); [constructor|cbn [length]; lia|].
    destruct t as [|c t]; [done|]. intros c' r [= <- <-].
    apply Forall_cons in Ht as [Hc _]. by apply negb_true_iff in Hc. }
  rewrite (span_app (negb ∘ is_NL)); [|done|rewrite length_app; lia|by intros c r [= <- <-]].
  destruct t as [|c t]; [done|]. specialize (IH k ltac:(lia)). fold rest in IH.
  destruct (strtok_lines k rest) as [ts' b]. cbn [fst] in *. by rewrite IH.
Qed.

(** A buffer that holds terminated lines is split into these lines. *)
Lemma split_reply_lines ts rest :
  Forall line_text ts → (length ts < MAX_LINES)%nat →
  fst (split_reply (concat (with_NL <$> ts) ++ NUL :: rest)) = ts.
Proof.
  intros H Hl. unfold split_reply. rewrite cstr_term.
  2: { induction H as [|t ts (_ & Hn & _) _ IH]; [constructor|]. cbn [length] in Hl.
       cbn [fmap list_fmap concat]. apply no_nul_app; [|apply IH; lia].
       unfold with_NL. apply no_nul_app; [done|by repeat constructor]. }
  pose proof (strtok_lines_concat ts MAX_LINES H ltac:(lia)) as E.
  destruct (strtok_lines MAX_LINES (concat (with_NL <$> ts))) as [ts' b]. cbn [fst] in *. subst ts'.
  apply take_ge. lia.
Qed.

(** Overwriting the ends of the tokens keeps the size of the buffer. *)
Lemma strtok_lines_length k l : length (snd (strtok_lines k l)) = length l.
Proof.
  revert l. induction k as [|k IH]; intros l; [done|]. cbn [strtok_lines].
  destruct (span is_NL (length l) l) as [sk r] eqn:E1. destruct (span_spec _ _ _ _ _ E1) as (-> & _ & _).
  destruct (span (negb ∘ is_NL) (length r) r) as [t r'] eqn:E2.
  destruct (span_spec _ _ _ _ _ E2) as (-> & _ & _).
  destruct t as [|x t], r' as [|y r']; [done|done|done|].
  specialize (IH r'). destruct (strtok_lines k r') as [ts b]. cbn [snd] in *.
  repeat (rewrite length_app || cbn [length]). by rewrite IH.
Qed.

Lemma split_reply_length buf : length (snd (split_reply buf)) = length buf.
Proof.
  unfold split_reply. pose proof (strtok_lines_length MAX_LINES (cstr buf)) as H.
  destruct (strtok_lines MAX_LINES (cstr buf)) as [ts b]. cbn [snd] in *.
  rewrite length_app, length_drop, H. unfold strlen. pose proof (cstr_length buf). lia.
Qed.

(** ** Rows *)

(** A client whose row can be read back. *)
Record displayed (c : client_t) : Prop := {
  dp_wf : wf_client c;
  dp_live : live c = true;
  dp_name : good_name (cstr (cl_name c));
  dp_pid : 0 ≤ cl_pid c < 2 ^ 31;
}.

Definition check_digit (c : client_t) : Z := if cl_checkPID c then 1 else 0.

Definition row_line (c : client_t) : bytes :=
  cstr (cl_clientID c) ++ SP :: udec (cl_pid c) ++ SP :: cstr (cl_name c) ++
    SP :: udec (cl_timeout_ms c) ++ SP :: udec (check_digit c).

Lemma displayed_timeout c : displayed c → 0 ≤ cl_timeout_ms c < 2 ^ 31.
Proof.
  intros [Hw Hl _ _]. pose proof (wf_timeout c Hw Hl).
  unfold WD_CLIENT_TIMEOUT_MIN_MS, WD_CLIENT_TIMEOUT_MAX_MS in *. lia.
Qed.

Lemma status_row_line c : displayed c → status_row c = with_NL (row_line c).
Proof.
  intros Hd. pose proof (displayed_timeout c Hd). pose proof (dp_pid c Hd).
  rewrite status_row_eq. unfold with_NL, row_line.
  rewrite s32_small, sdec_nonneg, u32_small by lia.
  assert (sdec (s32 (if cl_checkPID c then 1 else 0)) = udec (check_digit c)) as ->
    by (unfold check_digit; by destruct (cl_checkPID c)).
  repeat (rewrite <-app_assoc; cbn [app]). reflexivity.
Qed.

Lemma displayed_id_word c : displayed c →
  word (cstr (cl_clientID c)) ∧ length (cstr (cl_clientID c)) = 16%nat.
Proof.
  intros Hd. destruct (is_clientID_cstr _ (wf_id c (dp_wf c Hd) (dp_live c Hd))) as (Hl & _ & Hx).
  split; [|exact Hl]. apply xdigits_word; [|intros E; by rewrite E in Hl].
  eapply Forall_impl; [exact Hx|]. apply lower_hex_xdigit.
Qed.

Lemma udec_line n : 0 ≤ n → no_nul (udec n) ∧ NL ∉ udec n ∧ "="%char ∉ udec n.
Proof.
  intros H. pose proof (udec_digits n H) as Hd. rewrite Forall_forall in Hd.
  split; [by apply udec_no_nul|]. split; intros Hc; by apply Hd in Hc.
Qed.

Lemma word_no_NL w : word w → NL ∉ w.
Proof. intros [_ H] Hc. rewrite Forall_forall in H. by apply H in Hc. Qed.

Lemma row_line_text c : displayed c → line_text (row_line c).
Proof.
  intros Hd. destruct (displayed_id_word c Hd) as [Hw Hl]. pose proof (displayed_timeout c Hd).
  destruct (udec_line (cl_pid c)) as (? & ? & _); [apply Hd|].
  destruct (udec_line (cl_timeout_ms c)) as (? & ? & _); [lia|].
  destruct (udec_line (check_digit c)) as (? & ? & _); [unfold check_digit; by destruct (cl_checkPID c)|].
  pose proof (word_no_NL _ Hw). pose proof (word_no_NL _ (good_name_word _ (dp_name c Hd))).
  unfold row_line. split; [|split].
  - destruct (cstr (cl_clientID c)); [done|]. discriminate.
  - repeat (apply no_nul_app; [auto with wd|]; constructor; [discriminate|]). done.
  - repeat (rewrite not_elem_of_app || rewrite not_elem_of_cons). by split_and!.
Qed.

Definition row_fmt : list directive := [DStr 16; DSpace; DInt; DSpace; DStr 63; DSpace; DUInt].

Lemma row_fmt_parsed : parse_fmt CTRL_ROW_FORMAT FNone = row_fmt.
Proof. reflexivity. Qed.

Lemma line_fmt_parsed : parse_fmt CTRL_LINE_FORMAT FNone = row_fmt ++ [DSpace; DInt].
Proof. reflexivity. Qed.

Definition row_values (c : client_t) : list sval :=
  [SStr (cstr (cl_clientID c)); SInt (cl_pid c); SStr (cstr (cl_name c)); SUInt (cl_timeout_ms c)].

Lemma scan_row c r :
  displayed c →
  scan (row_fmt ++ r) (row_line c) [] = scan r (SP :: udec (check_digit c)) (row_values c).
Proof.
  intros Hd. destruct (displayed_id_word c Hd) as [Hw Hl]. pose proof (displayed_timeout c Hd).
  pose proof (dp_pid c Hd). pose proof (good_name_word _ (dp_name c Hd)) as Hnw.
  destruct (dp_name c Hd) as (_ & Hnl & _). unfold WD_CLIENT_NAME_LEN in Hnl.
  assert (∀ n, 0 ≤ n → ∀ x, skip_ws (SP :: udec n ++ x) = udec n ++ x) as Hsk.
  { intros n Hn x. cbn [skip_ws]. change (isspace SP) with true. apply word_skip. by apply udec_word. }
  unfold row_fmt, row_line. cbn [app].
  rewrite scan_str_full by done. rewrite scan_space, Hsk by lia.
  rewrite scan_int_udec by (lia || by intros c' r' [= <- <-]).
  rewrite scan_space. cbn [skip_ws]. change (isspace SP) with true. cbv iota.
  rewrite (word_skip _ _ Hnw).
  rewrite scan_str_word; [|done|lia|by intros c' r' [= <- <-]].
  rewrite scan_space, Hsk by lia.
  rewrite scan_uint_udec by (lia || by intros c' r' [= <- <-]). done.
Qed.

Lemma sscanf_row c :
  displayed c → sscanf (row_line c) CTRL_ROW_FORMAT = (4, row_values c).
Proof.
  intros Hd. destruct (row_line_text c Hd) as (_ & Hn & _). unfold sscanf.
  rewrite row_fmt_parsed, cstr_no_nul by done. rewrite <-(app_nil_r row_fmt), scan_row by done. done.
Qed.

Lemma sscanf_line c :
  displayed c →
  sscanf (row_line c) CTRL_LINE_FORMAT = (5, row_values c ++ [SInt (check_digit c)]).
Proof.
  intros Hd. destruct (row_line_text c Hd) as (_ & Hn & _). unfold sscanf.
  rewrite line_fmt_parsed, cstr_no_nul, scan_row by done. unfold check_digit.
  by destruct (cl_checkPID c).
Qed.

(** ** Settings *)

Definition setting_line (kv : bytes * bytes) : bytes := kv.1 ++ "="%char :: kv.2.

(** A setting whose line has at most 79 characters. *)
Definition setting_ok (kv : bytes * bytes) : Prop :=
  word kv.1 ∧ word kv.2 ∧ "="%char ∉ kv.1 ∧ no_nul kv.1 ∧ no_nul kv.2 ∧
  (length kv.1 ≤ 16)%nat ∧ (length kv.2 ≤ 62)%nat.

Definition settings_of (cfg : wd_config_t) (cs : list client_t) : list (bytes * bytes) :=
  [(lit "daemon_version", lit "2.1.0"); (lit "protocol_version", lit "1.0");
   (lit "wd_timeout_s", sdec (s32 (cfg_wd_timeout_s cfg)));
   (lit "reboot_timeout_s", sdec (s32 (cfg_reboot_timeout_s cfg)));
   (lit "strict_clients", bool_str (cfg_strict_clients cfg));
   (lit "unique_clients", bool_str (cfg_unique_clients cfg));
   (lit "active_clients", udec (u64 (count_active cs 0)))].

Lemma status_header_settings cfg cs :
  status_header cfg cs = with_NL ∘ setting_line <$> settings_of cfg cs.
Proof. rewrite status_header_lines. by destruct cfg as [p w r [] []]. Qed.

Lemma settings_ok cfg cs :
  wf_config cfg → length cs = WD_MAX_CLIENTS → Forall setting_ok (settings_of cfg cs).
Proof.
  intros Hc Hl. pose proof (wf_wd_timeout cfg Hc) as Hw. pose proof (wf_reboot_timeout cfg Hc) as Hr.
  unfold WD_HW_TIMEOUT_MIN_S, WD_HW_TIMEOUT_DEFAULT_S, WD_HW_TIMEOUT_MAX_S,
    WD_REBOOT_TIMEOUT_MIN_S, WD_REBOOT_TIMEOUT_MAX_S in *.
  pose proof (count_active_range cs 0) as Hn. rewrite Hl in Hn. unfold WD_MAX_CLIENTS in Hn.
  assert (∀ k n, 0 ≤ n < 10 ^ Z.of_nat 3 → setting_ok (lit k, []) ∨ setting_ok (lit k, lit "x") →
    setting_ok (lit k, udec n)) as Hnum.
  { intros k n H Hk. assert (word (lit k) ∧ "="%char ∉ lit k ∧ no_nul (lit k) ∧ (length (lit k) ≤ 16)%nat)
      as (H1 & H2 & H3 & H4) by (by destruct Hk as [(?&?&?&?&?&?&?)|(?&?&?&?&?&?&?)]).
    assert (length (udec n) ≤ 3)%nat by (apply udec_length; lia).
    split; [done|]. split; [apply udec_word; lia|]. split; [done|]. split; [done|].
    split; [apply udec_no_nul; lia|]. cbn [fst snd]. lia. }
  assert (∀ k v, forallb nonspace (lit k) && forallb nonspace v && negb (bytes_eqb (lit k) []) &&
      negb (bytes_eqb v []) && forallb (λ c, negb (Ascii.eqb c NUL)) (lit k ++ v) &&
      negb (existsb (Ascii.eqb "=") (lit k)) && (length (lit k) <=? 16)%nat && (length v <=? 62)%nat = true →
    setting_ok (lit k, v)) as Hlit.
  { intros k v H. rewrite !andb_true_iff in H. destruct H as [[[[[[[H1 H2] H3] H4] H5] H6] H7] H8].
    apply no_nul_check, Forall_app in H5 as [? ?].
    apply negb_true_iff, bytes_eqb_neq in H3. apply negb_true_iff, bytes_eqb_neq in H4.
    apply negb_true_iff in H6. apply Nat.leb_le in H7. apply Nat.leb_le in H8.
    split; [by split; [|apply List.Forall_forall, forallb_forall]|].
    split; [by split; [|apply List.Forall_forall, forallb_forall]|].
    split; [by apply not_elem_lit|done]. }
  unfold settings_of. rewrite !s32_small, !sdec_nonneg, u64_small by lia.
  assert (∀ b, bool_str b = lit "true" ∨ bool_str b = lit "false") as Hb by (intros []; auto).
  repeat (apply List.Forall_cons); try apply List.Forall_nil; try (apply Hlit; reflexivity);
    try (apply Hnum; [lia|right; apply Hlit; reflexivity]).
  - destruct (Hb (cfg_strict_clients cfg)) as [->| ->]; apply Hlit; reflexivity.
  - destruct (Hb (cfg_unique_clients cfg)) as [->| ->]; apply Hlit; reflexivity.
Qed.

Lemma setting_line_word kv : setting_ok kv → word (setting_line kv).
Proof.
  intros ([Hn Hk] & [_ Hv] & _). unfold setting_line. split; [by destruct kv.1|].
  apply Forall_app. by repeat constructor.
Qed.

Lemma setting_line_text kv : setting_ok kv → line_text (setting_line kv).
Proof.
  intros H. pose proof (setting_line_word kv H) as Hw. split; [by apply Hw|].
  split; [|by apply word_no_NL]. destruct H as (_ & _ & _ & H1 & H2 & _). unfold setting_line.
  apply no_nul_app; [done|]. by constructor.
Qed.

(** *** A setting is not a row *)

Definition dense (l : bytes) : Prop := Forall (λ c, nonspace c = true) l.

Lemma span_dense n l : dense l → span nonspace n l = (take n l, drop n l).
Proof.
  intros H. revert n. induction H as [|c l Hc _ IH]; intros [|n]; cbn [span take drop]; try done.
  by rewrite Hc, IH.
Qed.

Lemma skip_dense l : dense l → skip_ws l = l.
Proof.
  intros H. destruct l as [|c l]; [done|]. rewrite <-(app_nil_r (c :: l)). by apply word_skip.
Qed.

Lemma scan_digits_suffix inp neg d r : scan_digits inp = Some (neg, d, r) → ∃ p, inp = p ++ r.
Proof.
  unfold scan_digits. destruct (read_sign inp) as [n i] eqn:Er.
  assert (∃ p, inp = p ++ i) as [p ->].
  { unfold read_sign in Er. destruct inp as [|c inp]; [injection Er as _ <-; by exists []|].
    destruct (Ascii.eqb c "-"); [injection Er as _ <-; by exists [c]|].
    destruct (Ascii.eqb c "+"); injection Er as _ <-; [by exists [c]|by exists []]. }
  destruct (span isdigit (length i) i) as [ds rest] eqn:Es.
  destruct (span_spec _ _ _ _ _ Es) as (-> & _ & _).
  destruct ds as [|x ds]; [done|]. intros [= _ _ <-]. exists (p ++ x :: ds). by rewrite <-app_assoc.
Qed.

Lemma sscanf_not_row w :
  word w → no_nul w → (length w ≤ 79)%nat → fst (sscanf w CTRL_ROW_FORMAT) ≠ 4.
Proof.
  intros [Hn Hw] Hnn Hl. unfold sscanf. rewrite row_fmt_parsed, cstr_no_nul by done.
  unfold row_fmt. cbn [scan]. rewrite (skip_dense w Hw).
  destruct w as [|x w']; [done|]. set (w := x :: w') in *. rewrite (span_dense 16 w Hw).
  assert (dense (drop 16 w)) as H2 by (by apply Forall_drop).
  assert (length (drop 16 w) ≤ 63)%nat as H2l by (rewrite length_drop; lia).
  set (r := drop 16 w) in *. rewrite !(skip_dense r H2).
  destruct r as [|y r'] eqn:Er; [cbn [app fst length]; lia|]. rewrite <-Er in *.
  destruct (scan_digits r) as [[[neg d] r2]|] eqn:Ed; [|cbn [app fst length]; lia].
  apply scan_digits_suffix in Ed as [p Ep]. rewrite Ep in H2, H2l. apply Forall_app in H2 as [_ H3].
  rewrite length_app in H2l. rewrite !(skip_dense r2 H3).
  destruct r2 as [|z r2'] eqn:Er2; [cbn [app fst length]; lia|]. rewrite <-Er2 in *.
  rewrite (span_dense 63 r2 H3), (drop_ge r2) by lia. cbn [app fst length skip_ws]. lia.
Qed.

Lemma sscanf_setting_not_row kv :
  setting_ok kv → fst (sscanf (setting_line kv) CTRL_ROW_FORMAT) ≠ 4.
Proof.
  intros H. pose proof (setting_line_text kv H) as (_ & Hn & _). apply sscanf_not_row; [|done|].
  - by apply setting_line_word.
  - destruct H as (_ & _ & _ & _ & _ & Hk & Hv). unfold setting_line. rewrite length_app. cbn [length]. lia.
Qed.

Lemma sscanf_setting kv :
  setting_ok kv → sscanf (setting_line kv) CTRL_KEY_FORMAT = (2, [SStr kv.1; SStr kv.2]).
Proof.
  intros H. pose proof (setting_line_text kv H) as (_ & Hnn & _).
  destruct H as ([Hn _] & Hv & He & _ & _ & Hk & Hvl). unfold sscanf. rewrite cstr_no_nul by done.
  assert (parse_fmt CTRL_KEY_FORMAT FNone = [DSet 63 true (lit "="); DLit "="; DStr 63]) as ->
    by reflexivity.
  unfold setting_line. rewrite scan_set; [|done|by apply not_in_set|lia|by intros c r [= <- <-]].
  rewrite scan_lit. rewrite <-(app_nil_r kv.2), scan_str_word by (done || lia). by rewrite app_nil_r.
Qed.

(** ** The STATUS reply as lines *)

Definition status_lines (cfg : wd_config_t) (cs : list client_t) : list bytes :=
  (setting_line <$> settings_of cfg cs) ++ (row_line <$> live_clients cs).

(** The table of a broker whose STATUS reply can be read back. *)
Record readable (cfg : wd_config_t) (cs : list client_t) : Prop := {
  rd_config : wf_config cfg;
  rd_length : length cs = WD_MAX_CLIENTS;
  rd_rows : Forall displayed (live_clients cs);
  rd_fits : (length (status_text cfg cs) < STATUS_MSG_LEN)%nat;
}.

Lemma status_text_lines cfg cs :
  readable cfg cs → status_text cfg cs = concat (with_NL <$> status_lines cfg cs).
Proof.
  intros Hr. unfold status_text, status_lines, status_body. fold (live_clients cs). f_equal.
  rewrite status_header_settings, fmap_app, <-!list_fmap_compose. f_equal.
  pose proof (rd_rows _ _ Hr) as H. induction H as [|c l Hc _ IH]; [done|].
  cbn [fmap list_fmap]. by rewrite IH, (status_row_line c Hc).
Qed.

Lemma status_lines_text cfg cs : readable cfg cs → Forall line_text (status_lines cfg cs).
Proof.
  intros Hr. apply Forall_app. split; apply Forall_fmap.
  - eapply Forall_impl; [by apply settings_ok; [apply (rd_config _ _ Hr)|apply (rd_length _ _ Hr)]|].
    apply setting_line_text.
  - eapply Forall_impl; [apply (rd_rows _ _ Hr)|]. apply row_line_text.
Qed.

Lemma status_text_no_nul cfg cs : readable cfg cs → no_nul (status_text cfg cs).
Proof.
  intros Hr. rewrite status_text_lines by done. pose proof (status_lines_text cfg cs Hr) as H.
  induction H as [|t l (_ & Ht & _) _ IH]; [constructor|]. cbn [fmap list_fmap concat].
  apply no_nul_app; [|done]. unfold with_NL. apply no_nul_app; [done|by repeat constructor].
Qed.

Lemma split_status cfg cs rest :
  readable cfg cs → fst (split_reply (status_text cfg cs ++ NUL :: rest)) = status_lines cfg cs.
Proof.
  intros Hr. rewrite status_text_lines by done. apply split_reply_lines; [by apply status_lines_text|].
  unfold status_lines. rewrite length_app, !length_fmap.
  assert (length (live_clients cs) ≤ WD_MAX_CLIENTS)%nat as Hl.
  { rewrite <-(rd_length _ _ Hr). apply List.filter_length_le. }
  change (length (settings_of cfg cs)) with 7%nat. unfold MAX_LINES. lia.
Qed.
