(* ===== verification/CtrlDisplay.v ===== *)
(** * What the control program makes of the STATUS reply

    The choice of the client that a word on the command line of src/src/wd-ctrl.c
    means, and the display of settings and clients. *)

From S2P Require Import Prelude CString Scanf Common World ClientId Registry Status.
From S2P Require Import Handlers Requests ConfigFile ConfigPrint Daemon Timing Life Spec Getopt.
From S2P Require Import ClientLib Service EndToEnd Ctrl CtrlReply.

(** ** Choosing the client to unregister *)

(** The choice on the clients themselves. *)
Fixpoint choose (client : bytes) (cs : list client_t) (acc : bytes * bool * Z) : bytes * bool * Z :=
  match cs with
  | [] => acc
  | c :: r =>
      if bytes_eqb client (cstr (cl_clientID c)) then (cl_clientID c, true, acc.2)
      else choose client r (if bytes_eqb client (cstr (cl_name c))
                            then (cl_clientID c, true, acc.2 + 1) else acc)
  end.

Lemma strncpy_id c : displayed c → strncpy WD_CLIENTID_LEN (cstr (cl_clientID c)) = cl_clientID c.
Proof.
  intros Hd. destruct (is_clientID_cstr _ (wf_id c (dp_wf c Hd) (dp_live c Hd))) as (Hl & He & _).
  unfold strncpy. rewrite cstr_cstr. rewrite He at 2.
  rewrite take_app_ge by (rewrite Hl; vm_compute; lia). f_equal. rewrite Hl. reflexivity.
Qed.

Lemma find_candidate_settings client l rows id found n :
  Forall setting_ok l →
  find_candidate client ((setting_line <$> l) ++ rows) id found n = find_candidate client rows id found n.
Proof.
  induction 1 as [|kv l Hk _ IH]; [done|]. cbn [fmap list_fmap app find_candidate].
  pose proof (sscanf_setting_not_row kv Hk) as Hs.
  destruct (sscanf (setting_line kv) CTRL_ROW_FORMAT) as [m vs]. cbn [fst] in Hs.
  by rewrite (proj2 (Z.eqb_neq _ _) Hs).
Qed.

Lemma find_candidate_rows client cs id found n :
  no_nul client → Forall displayed cs →
  find_candidate client (row_line <$> cs) id found n = choose client cs (id, found, n).
Proof.
  intros Hc H. revert id found n. induction H as [|c l Hd _ IH]; intros id found n; [done|].
  cbn [fmap list_fmap find_candidate choose snd]. rewrite sscanf_row by done.
  change (4 =? 4) with true. cbv iota.
  change (arg_str (row_values c) 0) with (cstr (cl_clientID c)).
  change (arg_str (row_values c) 2) with (cstr (cl_name c)).
  unfold strcmp_eq. rewrite !cstr_cstr, (cstr_no_nul client) by done. rewrite strncpy_id by done.
  destruct (bytes_eqb client (cstr (cl_clientID c))); [done|]. rewrite !IH.
  by destruct (bytes_eqb client (cstr (cl_name c))).
Qed.

Lemma find_candidate_status client cfg cs :
  no_nul client → readable cfg cs →
  find_candidate client (status_lines cfg cs) (replicate WD_CLIENTID_LEN NUL) false 0
  = choose client (live_clients cs) (replicate WD_CLIENTID_LEN NUL, false, 0).
Proof.
  intros Hc Hr. unfold status_lines.
  rewrite find_candidate_settings by (apply settings_ok; apply Hr).
  apply find_candidate_rows; [done|apply Hr].
Qed.

Definition named_count (client : bytes) (cs : list client_t) : Z :=
  Z.of_nat (length (List.filter (λ c, bytes_eqb client (cstr (cl_name c))) cs)).

Definition no_such_id (client : bytes) (cs : list client_t) : Prop :=
  Forall (λ c, cstr (cl_clientID c) ≠ client) cs.

(** Without an identifier that matches, the names decide. *)
Lemma choose_by_name client cs id found n :
  no_such_id client cs →
  ∃ id', choose client cs (id, found, n) = (id', found || negb (named_count client cs =? 0),
                                            n + named_count client cs) ∧
    (named_count client cs = 0 → id' = id) ∧
    (∀ c, named_count client cs = 1 → c ∈ cs → cstr (cl_name c) = client → id' = cl_clientID c).
Proof.
  unfold named_count. intros H. revert id found n.
  induction H as [|c l Hc _ IH]; intros id found n; cbn [choose List.filter].
  { exists id. cbn. rewrite orb_false_r, Z.add_0_r. by split_and!. }
  assert (bytes_eqb client (cstr (cl_clientID c)) = false) as -> by (apply bytes_eqb_neq; congruence).
  cbn [snd]. destruct (bytes_eqb client (cstr (cl_name c))) eqn:En.
  - destruct (IH (cl_clientID c) true (n + 1)) as (id' & -> & H0 & H1). exists id'. cbn [length].
    set (k := length (List.filter _ l)) in *.
    split; [|split; [lia|]].
    + rewrite (proj2 (Z.eqb_neq (Z.of_nat (S k)) 0)) by lia. rewrite orb_true_r. f_equal; lia.
    + intros d Hk Hin Hd. assert (Z.of_nat k = 0) as Hk0 by lia. rewrite (H0 Hk0).
      apply elem_of_cons in Hin as [->|Hin]; [done|]. exfalso.
      assert (d ∈ List.filter (λ c, bytes_eqb client (cstr (cl_name c))) l) as Hf.
      { apply list_elem_of_In, List.filter_In. split; [by apply list_elem_of_In|]. by apply bytes_eqb_eq. }
      subst k. destruct (List.filter _ l); [by apply elem_of_nil in Hf|cbn in Hk0; lia].
  - destruct (IH id found n) as (id' & -> & H0 & H1). exists id'. split_and!; [done|done|].
    intros d Hk Hin Hd. apply H1; [done| |done].
    apply elem_of_cons in Hin as [->|Hin]; [|done]. apply bytes_eqb_neq in En. by rewrite Hd in En.
Qed.

(** An identifier wins over names. *)
Lemma choose_by_id client cs c id found n :
  c ∈ cs → cstr (cl_clientID c) = client →
  Forall (λ d, cstr (cl_clientID d) = client → cl_clientID d = cl_clientID c) cs →
  ∃ k, choose client cs (id, found, n) = (cl_clientID c, true, n + k) ∧ 0 ≤ k ≤ named_count client cs.
Proof.
  unfold named_count. intros Hin Hc H. revert id found n Hin.
  induction H as [|d l Hd _ IH]; intros id found n Hin; [by apply elem_of_nil in Hin|].
  cbn [choose List.filter snd]. destruct (bytes_eqb client (cstr (cl_clientID d))) eqn:Ed.
  { apply bytes_eqb_eq in Ed. exists 0. rewrite Hd by done. split; [by rewrite Z.add_0_r|lia]. }
  apply bytes_eqb_neq in Ed. apply elem_of_cons in Hin as [->|Hin]; [congruence|].
  destruct (bytes_eqb client (cstr (cl_name d))); cbn [length].
  - destruct (IH (cl_clientID d) true (n + 1) Hin) as (k & -> & Hk). exists (1 + k).
    split; [f_equal; lia|lia].
  - by apply IH.
Qed.

(** ** What is displayed *)

Definition setting_text (kv : bytes * bytes) : bytes := printf "%-18s: %s\n" [PS kv.1; PS kv.2].

Definition client_text (c : client_t) : bytes :=
  printf "%-18s %-6d %-20s %-13u %-8s\n"
    [PS (cstr (cl_clientID c)); PI (cl_pid c); PS (cstr (cl_name c)); PI (cl_timeout_ms c);
     PS (if cl_checkPID c then lit "on" else lit "off")].

Definition display (cfg : wd_config_t) (cs : list client_t) : list bytes :=
  (setting_text <$> settings_of cfg cs) ++
  match live_clients cs with [] => [] | l => table_header :: (client_text <$> l) end.

Lemma strchr_None c l : c ∉ l → strchr c l = None.
Proof.
  induction l as [|x l IH]; intros H; [done|]. apply not_elem_of_cons in H as [Hx H].
  cbn [strchr]. rewrite ascii_eqb_false by congruence. by apply IH.
Qed.

Lemma strchr_app c k v : strchr c (k ++ c :: v) ≠ None.
Proof.
  induction k as [|x k IH]; cbn [app strchr].
  - by rewrite Ascii.eqb_refl.
  - by destruct (Ascii.eqb x c).
Qed.

Lemma row_line_no_eq c : displayed c → "="%char ∉ cstr (cl_name c) → "="%char ∉ row_line c.
Proof.
  intros Hd Hn. pose proof (displayed_timeout c Hd).
  destruct (udec_line (cl_pid c)) as (_ & _ & ?); [apply Hd|].
  destruct (udec_line (cl_timeout_ms c)) as (_ & _ & ?); [lia|].
  destruct (udec_line (check_digit c)) as (_ & _ & ?); [unfold check_digit; by destruct (cl_checkPID c)|].
  assert ("="%char ∉ cstr (cl_clientID c)) as Hid.
  { destruct (is_clientID_cstr _ (wf_id c (dp_wf c Hd) (dp_live c Hd))) as (_ & _ & Hx).
    rewrite Forall_forall in Hx. intros Hc. by apply Hx in Hc. }
  unfold row_line. repeat (rewrite not_elem_of_app || rewrite not_elem_of_cons). by split_and!.
Qed.

Lemma formatted_row c : displayed c → formatted_line (row_line c) = client_text c.
Proof.
  intros Hd. unfold formatted_line. rewrite sscanf_line by done. change (5 =? 5) with true. cbv iota.
  unfold client_text, check_digit. by destruct (cl_checkPID c).
Qed.

Section Display.
Context {S : Type}.

Definition printed (l : list bytes) : list (stream * bytes) := pair Stdout <$> l.

Lemma ctrl_status_settings l rows b out (st : S) :
  Forall setting_ok l →
  ctrl_status ((setting_line <$> l) ++ rows) b (Ctrl out st)
  = ctrl_status rows b (Ctrl (out ++ printed (setting_text <$> l)) st).
Proof.
  intros H. revert out. induction H as [|kv l Hk _ IH]; intros out; [by rewrite app_nil_r|].
  cbn [fmap list_fmap app ctrl_status].
  destruct (strchr "=" (setting_line kv)) eqn:Es; [|by apply strchr_app in Es].
  rewrite sscanf_setting by done. change (2 =? 2) with true. unfold fprintf. mrun.
  cbn [ct_out ct_net]. rewrite IH. unfold printed. cbn [fmap list_fmap]. rewrite <-app_assoc.
  do 3 f_equal.
Qed.

Lemma ctrl_status_rows cs (b : bool) out (st : S) :
  Forall (λ c, displayed c ∧ "="%char ∉ cstr (cl_name c)) cs →
  ctrl_status (row_line <$> cs) b (Ctrl out st)
  = (Ret tt, Ctrl (out ++ printed (match cs with
                                   | [] => []
                                   | _ => (if b then [] else [table_header]) ++ (client_text <$> cs)
                                   end)) st).
Proof.
  intros H. revert b out. induction H as [|c l [Hd Hn] _ IH]; intros b out.
  { cbn. by rewrite app_nil_r. }
  cbn [fmap list_fmap ctrl_status]. rewrite (strchr_None "=") by (by apply row_line_no_eq).
  unfold print_table_header, print_line_formatted, fprintf. rewrite formatted_row by done.
  destruct b; cbn [negb]; mrun; cbn [ct_out ct_net]; rewrite IH; do 2 f_equal;
    unfold printed; cbn [fmap list_fmap app]; rewrite <-!app_assoc; cbn [app];
    repeat f_equal; by destruct l.
Qed.

Lemma ctrl_status_lines cfg cs out (st : S) :
  readable cfg cs → Forall (λ c, "="%char ∉ cstr (cl_name c)) (live_clients cs) →
  ctrl_status (status_lines cfg cs) false (Ctrl out st)
  = (Ret tt, Ctrl (out ++ printed (display cfg cs)) st).
Proof.
  intros Hr He. unfold status_lines.
  rewrite ctrl_status_settings by (apply settings_ok; apply Hr).
  rewrite ctrl_status_rows by (apply Forall_and; split; [apply Hr|done]).
  unfold display, printed. rewrite (fmap_app (pair Stdout)), app_assoc. by destruct (live_clients cs).
Qed.
End Display.
