(* ===== verification/CtrlFacts.v ===== *)
(** * The control program against the broker

    wd-ctrl over the transport that is the broker of EndToEnd.v: what [ctrl_main]
    prints, returns and does to the broker, for each of its commands. *)

From S2P Require Import Prelude CString Scanf Common World ClientId Registry Status.
From S2P Require Import Handlers Requests ConfigFile ConfigPrint Daemon Timing Life Spec Getopt.
From S2P Require Import ClientLib Service EndToEnd Ctrl CtrlReply CtrlDisplay.

(** ** The program and the broker *)

Lemma send_ok {S} `{Transport S} path cmd buf out (st st' : S) reply :
  no_nul path → (length path < WD_CLIENT_SOCKPATH_LEN)%nat → session path (cstr cmd) st reply st' →
  reply ≠ [] → (length reply < length buf)%nat →
  send_and_receive path cmd buf (Ctrl out st)
  = (Ret (Z.of_nat (length reply), reply ++ NUL :: drop (Datatypes.S (length reply)) buf), Ctrl out st').
Proof.
  intros Hn Hl (s1 & s2 & s3 & sel & err & Hc & Hw & Hr & Hs & Hcl) Hne Hb.
  unfold send_and_receive, network. mrun. cbn [ct_net ct_out].
  rewrite (cstr_no_nul path), take_ge by (done || lia). rewrite Hc. cbn [ct_net ct_out].
  rewrite Hw. cbn [ct_net ct_out]. rewrite Hr. cbn [ct_net ct_out].
  rewrite read_with_timeout_msg by done. cbn [ct_net ct_out]. rewrite Hcl.
  assert (Z.of_nat (length reply) >=? 0 = true) as -> by lia. done.
Qed.

Section Broker.
Context {E : Env}.

(** The broker answers STATUS of root. *)
Lemma bn_status st :
  bn_inv st → cr_uid (bn_creds st) = 0 →
  readable (config (bn_broker st)) (clients (bn_broker st)) →
  ∃ st', session (bn_path st) CMD_STATUS st
           (status_text (config (bn_broker st)) (clients (bn_broker st))) st' ∧
    bn_inv st' ∧ bn_path st' = bn_path st ∧ bn_creds st' = bn_creds st ∧
    clients (bn_broker st') = clients (bn_broker st) ∧ config (bn_broker st') = config (bn_broker st).
Proof.
  intros Hi Hu Hr. set (s1 := add_event EvAccept (bn_broker st)).
  destruct (handle_command_request (bn_creds st) CMD_STATUS s1) as [rest Hh]; [done|vm_compute; lia|].
  assert (dispatch (request_conn (bn_creds st) CMD_STATUS) (bn_creds st) (CMD_STATUS ++ NUL :: rest) s1
          = handle_status (request_conn (bn_creds st) CMD_STATUS) (bn_creds st)
              (CMD_STATUS ++ NUL :: rest) s1) as Hd by reflexivity.
  assert (no_argument CMD_STATUS (CMD_STATUS ++ NUL :: rest)) as Hna.
  { unfold no_argument.
    assert (fst (sscanf (drop (strlen CMD_STATUS) (CMD_STATUS ++ NUL :: rest)) (lit " %31s")) = -1)
      as -> by reflexivity. discriminate. }
  rewrite Hd, handle_status_allowed, append_write_fits in Hh by (done || apply Hr || by right).
  pose proof Hi as (Hw & Hun & _ & _).
  match type of Hh with _ = (_, ?s2) =>
    destruct (after_inv st s2 Hi Hw Hun eq_refl) as [Hi' Hp]
  end.
  eexists. split; [|split; [exact Hi'|split; [exact Hp|done]]].
  by eapply (served_session st CMD_STATUS _ _ [_] Hh).
Qed.

(** Root may unregister every client. *)
Lemma bn_root_unregister st c :
  bn_inv st → cr_uid (bn_creds st) = 0 → c ∈ live_clients (clients (bn_broker st)) →
  ∃ st', session (bn_path st) (id_text (lit "UNREGISTER ") (cstr (cl_clientID c))) st (lit "OK\n") st' ∧
    abs (clients (bn_broker st')) = delete (cl_clientID c) (abs (clients (bn_broker st))).
Proof.
  intros Hi Hz Hc. pose proof Hi as (Hw & Hu & _ & _). set (s1 := add_event EvAccept (bn_broker st)).
  apply list_elem_of_In, List.filter_In in Hc as [Hc Hl]. apply list_elem_of_In in Hc.
  apply list_elem_of_lookup in Hc as [i Hc].
  pose proof (wf_id c (wf_table_lookup _ _ _ Hw Hc) Hl) as Hid.
  destruct (is_clientID_cstr _ Hid) as (Hidl & Heq & Hidx). set (id := cstr (cl_clientID c)) in *.
  set (cmd := id_text (lit "UNREGISTER ") id). set (sock := request_conn (bn_creds st) cmd).
  destruct (handle_command_request (bn_creds st) cmd s1) as [rest Hh]; [done| |].
  { unfold cmd, id_text. rewrite !length_app, Hidl. vm_compute. lia. }
  assert (scan_clientID (drop (strlen CMD_UNREGISTER) (cmd ++ NUL :: rest)) = inr (cl_clientID c)) as Hsc.
  { transitivity (scan_clientID (id ++ lit "\n" ++ NUL :: rest)).
    - f_equal. unfold cmd, id_text. rewrite <-!app_assoc. reflexivity.
    - rewrite Heq. by apply scan_clientID_text. }
  assert (dispatch sock (bn_creds st) (cmd ++ NUL :: rest) s1
          = handle_unregister sock (bn_creds st) (cmd ++ NUL :: rest) s1) as Hd by reflexivity.
  destruct (handle_unregister_eq sock (bn_creds st) _ s1 (cl_clientID c) Hsc)
    as (es1 & es2 & _ & _ & He).
  destruct (unregister_implements sock (bn_creds st) _ s1 _ (cl_clientID c) Hw Hu Hsc He)
    as (reply & es & Hstep & Ht & Hrep & _).
  assert (abs (clients s1) !! cl_clientID c = Some (session_of c)) as Hlk by (apply abs_lookup; eauto 10).
  fold sock in Hh. rewrite <-Hd, <-Hh in He.
  match type of He with _ = (_, ?s2) => set (s3 := s2) in * end.
  assert (reply = lit "OK\n" ∧ abs (clients s3) = delete (cl_clientID c) (abs (clients s1))) as [-> Ha].
  { remember (ReqUnregister (cl_clientID c)) as req eqn:Ereq. remember (abs (clients s3)) as reg' eqn:Ereg.
    destruct Hstep; try discriminate Ereq; injection Ereq as ->; (done || congruence). }
  exists (after st s3). split; [|exact Ha].
  by apply (served_session st cmd _ s3 es He Ht), Hrep.
Qed.
End Broker.

(** *** [main] *)

(** The command line that names the socket and ends the options, so that the
    operands may be any words. *)
Definition ctrl_argv (path : bytes) (operands : list bytes) : list bytes :=
  lit "--socket-path" :: path :: lit "--" :: operands.

Section Main.
Context {E : Env}.

Lemma ctrl_options_path path c :
  ctrl_options (S := bnet) [Opt "s"%char (Some path)] SOCKET_PATH_DEFAULT c = (Ret (inl path), c).
Proof. done. Qed.

(** Up to the first request: what is left of [main] once the status is read. *)
Lemma ctrl_main_status st command args :
  bn_inv st → cr_uid (bn_creds st) = 0 →
  readable (config (bn_broker st)) (clients (bn_broker st)) →
  let lines := status_lines (config (bn_broker st)) (clients (bn_broker st)) in
  ∃ st' buf, bn_inv st' ∧ bn_path st' = bn_path st ∧ bn_creds st' = bn_creds st ∧
    clients (bn_broker st') = clients (bn_broker st) ∧ config (bn_broker st') = config (bn_broker st) ∧
    length buf = BUF_SIZE ∧
    ctrl_main 0 (ctrl_argv (bn_path st) (command :: args)) (Ctrl [] st)
    = (if strcmp_eq command (lit "reboot") then ctrl_reboot (bn_path st) buf
       else if strcmp_eq command (lit "status") then ctrl_status lines false ;; mret EXIT_SUCCESS
       else match args with
            | client :: _ =>
                if strcmp_eq command (lit "unregister")
                then ctrl_unregister (bn_path st) client lines buf
                else fprintf Stderr (lit "Error: Invalid arguments.\n\n") ;; print_help ;;
                     mret EXIT_FAILURE
            | [] => fprintf Stderr (lit "Error: Invalid arguments.\n\n") ;; print_help ;;
                    mret EXIT_FAILURE
            end) (Ctrl [] st').
Proof.
  intros Hi Hz Hr lines. destruct (bn_status st Hi Hz Hr) as (st' & Hs & Hi' & Hp & Hcr & Hcl & Hcf).
  destruct (bn_path_facts st Hi) as (Hpn & Hpe & Hpl).
  set (text := status_text (config (bn_broker st)) (clients (bn_broker st))) in *.
  assert (text ≠ []) as Hne by (unfold text; by rewrite status_text_lines).
  assert (length text < BUF_SIZE)%nat as Hlt by apply (rd_fits _ _ Hr).
  pose proof (send_ok (bn_path st) CMD_STATUS (replicate BUF_SIZE NUL) [] st st' text Hpn Hpl Hs Hne) as Hsend.
  rewrite length_replicate in Hsend. specialize (Hsend Hlt).
  set (buf := text ++ NUL :: drop (S (length text)) (replicate BUF_SIZE NUL)) in *.
  pose proof (split_status _ _ (drop (S (length text)) (replicate BUF_SIZE NUL)) Hr) as Hlines.
  fold text buf lines in Hlines.
  destruct (split_reply buf) as [lines' buf'] eqn:Esp. cbn [fst] in Hlines. subst lines'.
  exists st', buf'. split_and!; try done.
  - pose proof (split_reply_length buf) as Hbl. rewrite Esp in Hbl. cbn [snd] in Hbl. rewrite Hbl.
    unfold buf. rewrite length_app. cbn [length]. rewrite length_drop, length_replicate. lia.
  - unfold ctrl_main.
    assert (getopt_long ctrl_short_options ctrl_long_options (ctrl_argv (bn_path st) (command :: args))
            = ([Opt "s"%char (Some (bn_path st))], command :: args)) as -> by reflexivity.
    rewrite bind_eq, ctrl_options_path. change (negb (0 =? 0)) with false. cbv iota.
    rewrite bind_eq, Hsend. destruct (Z.leb_spec (Z.of_nat (length text)) 0).
    { destruct text; [done|cbn [length] in *; lia]. }
    rewrite Esp. done.
Qed.

(** The request of the chosen client. *)
Lemma unregister_request_id c :
  displayed c →
  cstr (snprintf_array (replicate 128 NUL) (unregister_request (cl_clientID c)))
  = id_text (lit "UNREGISTER ") (cstr (cl_clientID c)).
Proof.
  intros Hd. destruct (displayed_id_word c Hd) as [_ Hl].
  assert (unregister_request (cl_clientID c) = id_text (lit "UNREGISTER ") (cstr (cl_clientID c))) as ->
    by reflexivity.
  apply cstr_snprintf_array.
  - unfold id_text. apply no_nul_app; [by apply no_nul_check|]. apply no_nul_app; [auto with wd|].
    by apply no_nul_check.
  - unfold id_text. rewrite !length_app, Hl, length_replicate. vm_compute. lia.
Qed.

(** Which client a word means: its identifier, or the only one of that name. *)
Definition means (cs : list client_t) (client : bytes) (c : client_t) : Prop :=
  (cstr (cl_clientID c) = client ∧ named_count client cs ≤ 1) ∨
  (cstr (cl_name c) = client ∧ named_count client cs = 1 ∧ no_such_id client cs).

Lemma choose_means cs client c :
  Forall displayed cs → c ∈ cs → means cs client c →
  ∃ n, choose client cs (replicate WD_CLIENTID_LEN NUL, false, 0) = (cl_clientID c, true, n) ∧ n ≤ 1.
Proof.
  intros Hd Hin [[Hc Hn]|(Hc & Hn & Hno)].
  - destruct (choose_by_id client cs c (replicate WD_CLIENTID_LEN NUL) false 0 Hin Hc) as (k & -> & Hk).
    + eapply Forall_impl; [exact Hd|]. intros d Hdd He. rewrite Forall_forall in Hd.
      destruct (is_clientID_cstr _ (wf_id d (dp_wf d Hdd) (dp_live d Hdd))) as (_ & -> & _).
      destruct (is_clientID_cstr _ (wf_id c (dp_wf c (Hd c Hin)) (dp_live c (Hd c Hin)))) as (_ & -> & _).
      congruence.
    + exists (0 + k). split; [done|lia].
  - destruct (choose_by_name client cs (replicate WD_CLIENTID_LEN NUL) false 0 Hno) as (id' & -> & _ & H1).
    exists 1. rewrite (H1 c Hn Hin Hc), Hn. done.
Qed.
End Main.




(** ** REBOOT *)

Lemma atoi_cstr a b : cstr a = cstr b → atoi a = atoi b.
Proof. intros H. unfold atoi. by rewrite H. Qed.

Lemma atoi_reply n rest : 0 ≤ n < 2 ^ 31 → atoi (SP :: udec n ++ NL :: NUL :: rest) = n.
Proof.
  intros Hn. transitivity (atoi (udec n ++ [NL])).
  2: { apply atoi_udec; [done|by intros c r [= <- <-]|by repeat constructor]. }
  transitivity (atoi (udec n ++ NL :: NUL :: rest)); [reflexivity|]. apply atoi_cstr.
  assert (no_nul (udec n)) by (apply udec_no_nul; lia). rewrite !cstr_app by done. reflexivity.
Qed.

Lemma bn_reboot `{Env} st :
  bn_inv st → cr_uid (bn_creds st) = 0 → 0 ≤ cfg_reboot_timeout_s (config (bn_broker st)) < 2 ^ 31 →
  ∃ st', session (bn_path st) CMD_REBOOT st
           (lit "OK, " ++ udec (cfg_reboot_timeout_s (config (bn_broker st))) ++ [NL]) st' ∧
    reboot (bn_broker st') = true ∧ running (bn_broker st') = false ∧
    clients (bn_broker st') = clients (bn_broker st).
Proof.
  intros Hi Hz Hn. set (s1 := add_event EvAccept (bn_broker st)).
  set (sock := request_conn (bn_creds st) CMD_REBOOT).
  destruct (handle_command_request (bn_creds st) CMD_REBOOT s1) as [rest Hh]; [done|vm_compute; lia|].
  assert (dispatch sock (bn_creds st) (CMD_REBOOT ++ NUL :: rest) s1
          = handle_reboot sock (bn_creds st) (CMD_REBOOT ++ NUL :: rest) s1) as Hd by reflexivity.
  assert (fst (sscanf (drop (strlen CMD_REBOOT) (CMD_REBOOT ++ NUL :: rest)) (lit " %15s")) ≠ 1) as Hna.
  { assert (fst (sscanf (drop (strlen CMD_REBOOT) (CMD_REBOOT ++ NUL :: rest)) (lit " %15s")) = -1)
      as -> by reflexivity. discriminate. }
  fold sock in Hh. rewrite Hd, handle_reboot_eq in Hh by done.
  set (n := cfg_reboot_timeout_s (config (bn_broker st))) in *.
  change (cfg_reboot_timeout_s (config s1)) with n in Hh.
  assert (printf "OK, %d\n" [PI n] = lit "OK, " ++ udec n ++ [NL]) as Hp.
  { transitivity (lit "OK, " ++ sdec (s32 n) ++ [NL]); [reflexivity|].
    by rewrite s32_small, sdec_nonneg by lia. }
  rewrite Hp in Hh. match type of Hh with _ = (_, ?s2) => exists (after st s2) end.
  split; [|done]. by eapply (served_session st CMD_REBOOT _ _ _ Hh).
Qed.


(** The row of a client whose name holds an equals sign is displayed as a setting
    and not as a client: the part before the sign, with identifier and process
    id, as the key and the rest of the name as the value. *)
Theorem ctrl_status_misreads_equals {S} c a b out (st : S) :
  displayed c → cstr (cl_name c) = a ++ "="%char :: b → "="%char ∉ a → b ≠ [] →
  (length a ≤ 30)%nat →
  ctrl_status [row_line c] false (Ctrl out st)
  = (Ret tt, Ctrl (out ++ [(Stdout,
       setting_text (cstr (cl_clientID c) ++ SP :: udec (cl_pid c) ++ SP :: a, b))]) st).
Proof.
  intros Hd Hn Ha Hb Hl. destruct (displayed_id_word c Hd) as [Hiw Hil]. pose proof (dp_pid c Hd).
  destruct (row_line_text c Hd) as (_ & Hnn & _). pose proof (dp_name c Hd) as (_ & Hnlen & Hnw).
  rewrite Hn in Hnlen, Hnw. rewrite length_app in Hnlen. cbn [length] in Hnlen.
  unfold WD_CLIENT_NAME_LEN in Hnlen.
  set (key := cstr (cl_clientID c) ++ SP :: udec (cl_pid c) ++ SP :: a).
  assert (row_line c = key ++ "="%char :: b ++ SP :: udec (cl_timeout_ms c) ++ SP :: udec (check_digit c)) as Er.
  { unfold row_line, key. rewrite Hn. repeat (rewrite <-app_assoc; cbn [app]). reflexivity. }
  destruct (udec_line (cl_pid c)) as (_ & _ & ?); [lia|].
  assert (length (udec (cl_pid c)) ≤ 10)%nat by (apply udec_length; lia).
  assert ("="%char ∉ key ∧ key ≠ [] ∧ (length key ≤ 63)%nat) as (Hk & Hkn & Hkl).
  { split; [|split].
    - destruct (is_clientID_cstr _ (wf_id c (dp_wf c Hd) (dp_live c Hd))) as (_ & _ & Hx).
      rewrite Forall_forall in Hx. unfold key.
      repeat (rewrite not_elem_of_app || rewrite not_elem_of_cons). split_and!; try done.
      intros Hc. by apply Hx in Hc.
    - unfold key. by destruct (cstr (cl_clientID c)).
    - unfold key. repeat (rewrite length_app || cbn [length]). lia. }
  apply Forall_app in Hnw as [_ Hbw]. apply Forall_cons in Hbw as [_ Hbw].
  assert (word b) as Hw.
  { split; [done|]. eapply Forall_impl; [exact Hbw|]. intros x. unfold name_char, nonspace.
    by intros [_ ?]%andb_true_iff. }
  assert (strchr "=" (row_line c) ≠ None) as Hs by (rewrite Er; apply strchr_app).
  cbn [ctrl_status]. destruct (strchr "=" (row_line c)); [|done].
  assert (sscanf (row_line c) CTRL_KEY_FORMAT = (2, [SStr key; SStr b])) as ->; [|reflexivity].
  unfold sscanf. rewrite cstr_no_nul, Er by done.
  assert (parse_fmt CTRL_KEY_FORMAT FNone = [DSet 63 true (lit "="); DLit "="; DStr 63]) as ->
    by reflexivity.
  rewrite scan_set; [|done|by apply not_in_set|done|by intros x r [= <- <-]].
  rewrite scan_lit, scan_str_word by (done || lia || by intros x r [= <- <-]). done.
Qed.
