(* ===== verification/Examples.v ===== *)
(** * Concrete runs

    A small environment, a configured broker and a few connections on which the
    definitions are evaluated, and instances of the theorems of the other files
    at these states. *)

From S2P Require Import Prelude CString Scanf Common World ClientId Registry Status Handlers.
From S2P Require Import Requests ConfigFile ConfigPrint Daemon Timing Life Spec Getopt Startup.
From S2P Require Import StartupFacts Main ClientLib Service EndToEnd Ctrl CtrlReply CtrlDisplay CtrlFacts.

(** ** Checks by evaluation *)

Definition is_clientIDb (id : bytes) : bool :=
  let d := take WD_CLIENTID_FMT_LEN id in
  bytes_eqb id (d ++ [NUL]) && Nat.eqb (length d) WD_CLIENTID_FMT_LEN && forallb is_lower_hex d.

Lemma is_clientIDb_sound id : is_clientIDb id = true → is_clientID id.
Proof.
  unfold is_clientIDb. rewrite !andb_true_iff. intros [[H1 H2] H3].
  apply bytes_eqb_eq in H1. apply Nat.eqb_eq in H2. exists (take WD_CLIENTID_FMT_LEN id).
  split_and!; try done. apply Forall_forall. intros c Hc%list_elem_of_In.
  rewrite forallb_forall in H3. by apply H3.
Qed.

Definition wf_clientb (c : client_t) : bool :=
  Nat.eqb (length (cl_clientID c)) WD_CLIENTID_LEN && Nat.eqb (length (cl_name c)) WD_CLIENT_NAME_LEN &&
  existsb (Ascii.eqb NUL) (cl_name c) && negb (cl_active c && cl_anounced c) &&
  (negb (live c) ||
   is_clientIDb (cl_clientID c) && (WD_CLIENT_TIMEOUT_MIN_MS <=? cl_timeout_ms c) &&
   (cl_timeout_ms c <=? WD_CLIENT_TIMEOUT_MAX_MS) && negb (Nat.eqb (strlen (cl_name c)) 0)).

Lemma wf_clientb_sound c : wf_clientb c = true → wf_client c.
Proof.
  unfold wf_clientb. rewrite !andb_true_iff. intros [[[[H1 H2] H3] H4] H5].
  apply Nat.eqb_eq in H1, H2. apply negb_true_iff in H4.
  assert (live c = true → is_clientIDb (cl_clientID c) = true ∧
    WD_CLIENT_TIMEOUT_MIN_MS ≤ cl_timeout_ms c ≤ WD_CLIENT_TIMEOUT_MAX_MS ∧ strlen (cl_name c) ≠ 0%nat) as Hl.
  { intros Hl. rewrite Hl in H5. cbn in H5. rewrite !andb_true_iff in H5.
    destruct H5 as [[[Ha Hb] Hc] Hd]. apply negb_true_iff, Nat.eqb_neq in Hd. split_and!; [done|lia|lia|done]. }
  constructor; auto.
  - apply existsb_exists in H3 as (x & Hx & Heq). apply Ascii.eqb_eq in Heq as <-. by apply list_elem_of_In.
  - intros H. by apply is_clientIDb_sound, Hl.
  - intros H. by apply Hl.
  - intros H E. destruct (Hl H) as (_ & _ & Hd). apply Hd. unfold strlen. by rewrite E.
Qed.

Definition wf_tableb (cs : list client_t) : bool :=
  Nat.eqb (length cs) WD_MAX_CLIENTS && forallb wf_clientb cs.

Lemma wf_tableb_sound cs : wf_tableb cs = true → wf_table cs.
Proof.
  unfold wf_tableb. rewrite andb_true_iff. intros [H1 H2]. split; [by apply Nat.eqb_eq|].
  apply Forall_forall. intros c Hc%list_elem_of_In. rewrite forallb_forall in H2.
  by apply wf_clientb_sound, H2.
Qed.

Fixpoint ids_uniqueb (cs : list client_t) : bool :=
  match cs with
  | [] => true
  | c :: r => (negb (live c) ||
               forallb (λ d, negb (live d && bytes_eqb (cl_clientID c) (cl_clientID d))) r) && ids_uniqueb r
  end.

Lemma ids_uniqueb_sound cs : ids_uniqueb cs = true → ids_unique cs.
Proof.
  induction cs as [|c r IH]; cbn [ids_uniqueb]; [by intros _ i j c d ?|].
  rewrite andb_true_iff. intros [Hc Hr]. specialize (IH Hr).
  assert (∀ k d, r !! k = Some d → live c = true → live d = true → cl_clientID c ≠ cl_clientID d) as Hno.
  { intros k d Hk Hl Hd Heq. rewrite Hl in Hc. cbn in Hc. rewrite forallb_forall in Hc.
    specialize (Hc d (proj1 (list_elem_of_In _ _) (list_elem_of_lookup_2 _ _ _ Hk))).
    apply bytes_eqb_eq in Heq. by rewrite Hd, Heq in Hc. }
  intros i j x y Hi Hj Hx Hy Heq. destruct i as [|i], j as [|j]; [done| | |f_equal; by eapply IH].
  - injection Hi as <-. exfalso. by eapply Hno.
  - injection Hj as <-. exfalso. by eapply Hno.
Qed.

(** ** The environment *)

(** A clock that stands at 100 s until the 4000th reading and then at 200 s, entropy
    that counts, and a C library whose [random] counts too. *)
Definition demo_env : Env := {|
  env_now := λ n, Timespec (if (n <? 4000)%nat then 100 else 200) 0;
  env_entropy := λ n, Entropy (Some [0; 0; 0; 0; 0; 0; Z.of_nat n / 256; Z.of_nat n mod 256]) 0 0 1 1;
  libc_random := λ seed n, seed + Z.of_nat n;
|}.

#[local] Existing Instance demo_env.

Definition demo_user : ucred := Ucred 1234 1000 1000.
Definition demo_other : ucred := Ucred 99 1001 1001.
Definition demo_root : ucred := Ucred 1 0 0.

Definition demo_conn (creds : ucred) (text : bytes) : conn := Conn (inl creds) 1 (Some text) None.

(** The broker with the default configuration and an open watchdog. *)
Definition demo_broker : broker :=
  set_watchdog_fd true (set_config config_defaults broker_init).

Definition demo_request (creds : ucred) (text : bytes) (s : broker) : broker :=
  snd (handle_command (demo_conn creds text) s).

Definition demo_registered : broker :=
  demo_request demo_user (lit "REGISTER sensorA 15000\n") demo_broker.

Definition demo_client : client_t := client_at 0 demo_registered.

Lemma demo_registered_wf : wf_table (clients demo_registered).
Proof. apply wf_tableb_sound. vm_compute. reflexivity. Qed.

(** ** Requests *)

Example demo_register_reply :
  replies (trace demo_registered) = [lit "OK 0000000000000000\n"].
Proof. vm_compute. reflexivity. Qed.

Lemma handle_command_preserves_table_witness :
  wf_table (clients (demo_request demo_user (lit "PING 0000000000000000\n") demo_registered)) ∧
  config (demo_request demo_user (lit "PING 0000000000000000\n") demo_registered)
  = config demo_registered.
Proof.
  destruct (handle_command_preserves_table (demo_conn demo_user (lit "PING 0000000000000000\n"))
    demo_registered (Ret tt) (demo_request demo_user (lit "PING 0000000000000000\n") demo_registered))
    as (H1 & H2 & _).
  - exact demo_registered_wf.
  - vm_compute. reflexivity.
  - split; [exact H1|exact H2].
Defined.

Lemma every_request_answered_once_witness :
  ∃ es t, trace (demo_request demo_user (lit "PING 0000000000000000\n") demo_registered)
          = trace demo_registered ++ es ∧ replies es = [t].
Proof.
  apply (every_request_answered_once (demo_conn demo_user (lit "PING 0000000000000000\n"))).
  - exact demo_registered_wf.
  - reflexivity.
  - vm_compute. reflexivity.
Defined.

Lemma foreign_request_leaves_client_witness :
  clients (demo_request demo_other (lit "UNREGISTER 0000000000000000\n") demo_registered) !! 0%nat
  = Some demo_client.
Proof.
  apply (foreign_request_leaves_client (demo_conn demo_other (lit "UNREGISTER 0000000000000000\n"))
    demo_other demo_registered (Ret tt)).
  - exact demo_registered_wf.
  - reflexivity.
  - vm_compute. reflexivity.
  - vm_compute. reflexivity.
  - vm_compute. reflexivity.
  - vm_compute. discriminate.
  - vm_compute. discriminate.
  - vm_compute. reflexivity.
Defined.

Lemma broker_refines_registry_witness :
  ∃ reply es,
    spec_step (config demo_broker) demo_user (env_now (now_ix demo_broker)) (next_id demo_broker)
      (abs (clients demo_broker))
      (decode (received (demo_conn demo_user (lit "REGISTER sensorA 15000\n"))).2) reply
      (abs (clients demo_registered)) ∧
    trace demo_registered = trace demo_broker ++ es ∧
    (conn_wfail (demo_conn demo_user (lit "REGISTER sensorA 15000\n")) = None → replies es = [reply]) ∧
    ids_unique (clients demo_registered).
Proof.
  apply (broker_refines_registry (demo_conn demo_user (lit "REGISTER sensorA 15000\n")) demo_user 23
    (received (demo_conn demo_user (lit "REGISTER sensorA 15000\n"))).2 demo_broker demo_registered).
  - apply wf_table_zero.
  - apply ids_uniqueb_sound. vm_compute. reflexivity.
  - vm_compute. reflexivity.
  - reflexivity.
  - vm_compute. reflexivity.
  - reflexivity.
  - vm_compute. reflexivity.
Defined.

(** ** The supervision loop *)

(** A round in which the timer fires and nobody connects. *)
Definition timer_only : wake := Wake (SelOk None (Some (EXPIRATIONS_LEN, []))) None.

(** A round in which a client is served and the timer fires. *)
Definition ping_and_timer : option accept_result :=
  Some (Accepted (demo_conn demo_user (lit "PING 0000000000000000\n"))).

Lemma round_feeds_iff_all_on_time_witness :
  ∃ s' es, iteration (Wake (SelOk ping_and_timer (Some (EXPIRATIONS_LEN, []))) None) demo_registered
           = (Ret tt, s') ∧
    trace s' = trace demo_registered ++ es ∧
    clients s' = clients (snd (serve ping_and_timer demo_registered)) ∧
    (EvFeed ∈ es ↔ all_ok (snd (serve ping_and_timer demo_registered)) = true ∧
       all_on_time (clients (snd (serve ping_and_timer demo_registered)))
         (now_ix (snd (serve ping_and_timer demo_registered)))) ∧
    (all_ok s' = true ↔ all_ok (snd (serve ping_and_timer demo_registered)) = true ∧
       all_on_time (clients (snd (serve ping_and_timer demo_registered)))
         (now_ix (snd (serve ping_and_timer demo_registered)))).
Proof.
  apply (round_feeds_iff_all_on_time ping_and_timer [] demo_registered
           (snd (serve ping_and_timer demo_registered))).
  - exact demo_registered_wf.
  - reflexivity.
  - vm_compute. reflexivity.
Defined.

(** The same broker 100 s later. *)
Definition demo_late : broker := set_now_ix 4000 demo_registered.

Lemma demo_late_check : ¬ all_on_time (clients demo_late) (now_ix demo_late).
Proof.
  intros H. specialize (H 0%nat demo_client eq_refl). vm_compute in H. by apply H.
Qed.

Lemma late_client_starves_watchdog_witness :
  all_ok (snd (iteration timer_only demo_late)) = false ∧
  ∃ es, trace (snd (enter_pending (snd (iteration timer_only demo_late)))) = trace demo_late ++ es ∧
        EvFeed ∉ es.
Proof.
  apply (late_client_starves_watchdog None (Some (EXPIRATIONS_LEN, [])) None demo_late demo_late (Ret tt)
    (snd (iteration timer_only demo_late)) Pending
    (snd (enter_pending (snd (iteration timer_only demo_late))))).
  - exact demo_registered_wf.
  - reflexivity.
  - reflexivity.
  - exact demo_late_check.
  - vm_compute. reflexivity.
  - apply rtc_once. apply (step_fail (snd (iteration timer_only demo_late)) (Ret tt)
      (snd (enter_pending (snd (iteration timer_only demo_late))))); vm_compute; reflexivity.
Defined.

Definition demo_failed : broker := snd (iteration timer_only demo_late).

Lemma no_feed_after_failure_witness :
  ∃ es, trace (add_event EvSync demo_failed) = trace demo_failed ++ es ∧ EvFeed ∉ es.
Proof.
  apply (no_feed_after_failure Pending demo_failed Pending (add_event EvSync demo_failed)).
  - vm_compute. reflexivity.
  - vm_compute. reflexivity.
  - apply rtc_once, step_wait. vm_compute. reflexivity.
Defined.

(** A broker that is told to stop. *)
Definition demo_stopped : broker := snd (signal_handler 15 demo_broker).

Definition io_fine : shutdown_io := ShutdownIo None None None None.

Lemma demo_stop_steps :
  dsteps (Looping, demo_broker) (Ended EXIT_SUCCESS, snd (shutdown io_fine demo_stopped)).
Proof.
  eapply rtc_l.
  - apply (step_signal 15 Looping demo_broker (Ret tt) demo_stopped); [by left|vm_compute; reflexivity].
  - apply rtc_once. apply (step_end_loop io_fine demo_stopped (Ret tt)
      (snd (shutdown io_fine demo_stopped))); vm_compute; reflexivity.
Qed.

Lemma reset_pending_disarmed_by_signal_witness :
  ∃ s' es, dsteps (Pending, demo_failed) (Ended EXIT_SUCCESS, s') ∧
    trace s' = trace demo_failed ++ es ∧
    watchdog_calls es = [EvMagicClose; EvDisableCard; EvCloseWatchdog] ∧ all_ok s' = all_ok demo_failed.
Proof.
  apply (reset_pending_disarmed_by_signal 15 demo_failed); vm_compute; reflexivity.
Defined.

Lemma deadline_exact_to_one_ms_witness :
  ms_between (Timespec 114 999999999) (cl_last_ping demo_client) ≤ 15000 ∧
  15000 < ms_between (Timespec 115 1000000) (cl_last_ping demo_client).
Proof.
  split.
  - apply (deadline_exact_to_one_ms demo_client (Timespec 114 999999999)); vm_compute; intuition discriminate.
  - apply (deadline_exact_to_one_ms demo_client (Timespec 115 1000000)); vm_compute; intuition discriminate.
Defined.

(** ** Whole runs *)

(** The rounds [ws] one after the other, as long as the daemon keeps looping. *)
Fixpoint run_rounds (ws : list wake) (d : phase * broker) : phase * broker :=
  match ws with
  | [] => d
  | w :: r =>
      match d with
      | (Looping, s) => if running s && all_ok s
                        then let '(o, s') := iteration w s in run_rounds r (continue_in Looping o, s')
                        else d
      | _ => d
      end
  end.

Lemma run_rounds_steps ws d : dsteps d (run_rounds ws d).
Proof.
  revert d. induction ws as [|w r IH]; intros [[] s]; cbn [run_rounds]; try apply rtc_refl.
  destruct (running s && all_ok s) eqn:E; [|apply rtc_refl].
  apply andb_true_iff in E as [Hr Ha]. destruct (iteration w s) as [o s'] eqn:Ei.
  eapply rtc_l; [by apply (step_iteration w s o s')|apply IH].
Qed.

Definition client_round (creds : ucred) (text : bytes) : wake :=
  Wake (SelOk (Some (Accepted (demo_conn creds text))) None) None.

(** 64 registrations with the longest name by one user, then STATUS by root. *)
Definition overflow_rounds : list wake :=
  replicate WD_MAX_CLIENTS
    (client_round demo_user (lit "REGISTER " ++ replicate 63 "a"%char ++ lit " 60000\n"))
  ++ [client_round demo_root (lit "STATUS\n")].

Definition phase_crashed (ph : phase) : bool := match ph with Crashed => true | _ => false end.

(** C31: the overflow of the STATUS reply is reachable: from the freshly configured
    broker, 64 registrations with the longest admissible name by one unprivileged
    user followed by one STATUS request of root lead to undefined behaviour. *)
Theorem status_overflow_reachable :
  ∃ s, dsteps (Looping, demo_broker) (Crashed, s) ∧ EvReply (lit "OK 000000000000003f\n") ∈ trace s.
Proof.
  pose proof (run_rounds_steps overflow_rounds (Looping, demo_broker)) as H.
  assert (phase_crashed (run_rounds overflow_rounds (Looping, demo_broker)).1 = true ∧
    existsb (λ e, match e with EvReply t => bytes_eqb t (lit "OK 000000000000003f\n") | _ => false end)
      (trace (run_rounds overflow_rounds (Looping, demo_broker)).2) = true) as [Hp Ht]
    by (vm_compute; done).
  destruct (run_rounds overflow_rounds (Looping, demo_broker)) as [ph s]. cbn [fst snd] in *.
  exists s. split; [by destruct ph|].
  apply existsb_exists in Ht as (e & He & Heq). apply list_elem_of_In in He.
  destruct e; try done. apply bytes_eqb_eq in Heq as ->. done.
Qed.

(** ** STATUS *)

Definition status_buf : bytes := (received (demo_conn demo_root (lit "STATUS\n"))).2.

Lemma handle_status_reply_witness :
  handle_status (demo_conn demo_root (lit "STATUS\n")) demo_root status_buf demo_registered =
  (Ret tt, with_events [send_event (demo_conn demo_root (lit "STATUS\n"))
     (status_text (config demo_registered) (clients demo_registered))] demo_registered).
Proof.
  apply (handle_status_reply (demo_conn demo_root (lit "STATUS\n")) demo_root status_buf demo_registered).
  - by right.
  - vm_compute. discriminate.
  - apply Nat.ltb_lt. vm_compute. reflexivity.
Defined.

Example demo_status_text :
  status_text (config demo_registered) (clients demo_registered) =
  lit "daemon_version=2.1.0\nprotocol_version=1.0\nwd_timeout_s=10\nreboot_timeout_s=60\nstrict_clients=false\nunique_clients=false\nactive_clients=1\n0000000000000000 1234 sensorA 15000 1\n".
Proof. vm_compute. reflexivity. Qed.

(** The broker after the 64 registrations. *)
Definition demo_full : broker :=
  (run_rounds (List.firstn WD_MAX_CLIENTS overflow_rounds) (Looping, demo_broker)).2.

Lemma handle_status_overflow_witness :
  handle_status (demo_conn demo_root (lit "STATUS\n")) demo_root status_buf demo_full
  = (Undef, demo_full).
Proof.
  apply (handle_status_overflow (demo_conn demo_root (lit "STATUS\n")) demo_root status_buf demo_full).
  - by right.
  - vm_compute. discriminate.
  - apply Nat.ltb_lt. vm_compute. reflexivity.
Defined.

Lemma demo_full_pids : Forall (λ c, 0 ≤ cl_pid c < 2 ^ 31) (clients demo_full).
Proof.
  apply Forall_forall. intros c Hc%list_elem_of_In.
  assert (forallb (λ c, (0 <=? cl_pid c) && (cl_pid c <? 2 ^ 31)) (clients demo_full) = true) as H
    by (vm_compute; reflexivity).
  rewrite forallb_forall in H. specialize (H c Hc). lia.
Qed.

Lemma demo_full_config : config demo_full = config_defaults.
Proof. vm_compute. reflexivity. Qed.

Lemma demo_full_crash :
  dstep (Looping, demo_full) (Crashed, snd (iteration (client_round demo_root (lit "STATUS\n")) demo_full)).
Proof.
  apply (step_iteration (client_round demo_root (lit "STATUS\n")) demo_full Undef
    (snd (iteration (client_round demo_root (lit "STATUS\n")) demo_full))); vm_compute; reflexivity.
Qed.


(** ** The configuration file *)

Definition demo_path : bytes := lit "/run/wd-broker/wd-broker.sock".

Definition demo_config : wd_config_t :=
  set_unique_clients true (set_socket_path (strncpy WD_CLIENT_SOCKPATH_LEN demo_path) config_defaults).

Definition demo_decls : list (bytes * Z) := [(lit "display", 5000); (lit "net work", 60000)].

Lemma parse_config_roundtrip_witness :
  parse_config (lit "f") (Some (print_config demo_path demo_config demo_decls)) WD_MAX_CLIENTS broker_init =
  (Ret tt, set_config demo_config (advance 2
     (announced_slots demo_decls 0 0 ++ replicate (WD_MAX_CLIENTS - 2) client_zero) broker_init)).
Proof.
  apply (parse_config_roundtrip (lit "f") demo_path demo_config demo_decls broker_init).
  - apply tightb_tight. vm_compute. reflexivity.
  - apply Nat.ltb_lt. vm_compute. reflexivity.
  - constructor; vm_compute; (reflexivity || (split; discriminate)).
  - reflexivity.
  - repeat constructor; try (apply tightb_tight; vm_compute; reflexivity);
      try (apply Nat.leb_le; vm_compute; reflexivity); try (apply not_elem_lit; reflexivity);
      vm_compute; discriminate.
  - apply Nat.leb_le. vm_compute. reflexivity.
  - done.
  - intros _. apply NoDup_ListNoDup. repeat constructor; vm_compute; intuition discriminate.
Defined.

(** ** From the first instruction on *)

Definition demo_passwd : passwd := Passwd 998 997.

(** A system on which every call succeeds, started by root, with a configuration
    file that belongs to the service user (mode 0100644) and a stale socket. *)
Definition demo_os : os := {|
  os_geteuid := 0;
  os_getpwnam := λ u, if bytes_eqb u SERVICE_USER_DEFAULT then Some demo_passwd else None;
  os_lstat_config := inl (Stat 33188 998);
  os_config_file := Some (print_config demo_path demo_config demo_decls);
  os_settime := None;
  os_lstat_socket := Some (Stat 49584 998);
  os_probe_socket := None;
  os_probe_connect := Some (ECONNREFUSED, lit "Connection refused");
  os_unlink := None; os_bind := None; os_listen := None; os_chmod := None; os_chown := None;
  os_open_watchdog := None; os_settimeout := None;
  os_setgroups := None; os_setgid := None; os_setuid := None;
  os_fork := ForkChild; os_setsid := None; os_chdir := None;
  os_bootstatus := inl 32;
|}.

Definition demo_argv : list bytes := [lit "--daemonize"; lit "--syslog-facility=LOG_LOCAL3"].

Definition demo_startup (o : os) : outcome unit * broker :=
  startup 1 2 4 8 16 32 64 (lit "/etc") o demo_argv broker_init.

Definition demo_started : broker := snd (demo_startup demo_os).

Example demo_startup_calls :
  system_calls (trace demo_started) =
  [EvTimerSet 5; EvUnlink demo_path; EvBind demo_path; EvListen; EvChmod demo_path SOCKET_MODE;
   EvChown demo_path 998 997; EvOpenWatchdog; EvSetTimeout 10; EvSetgroups; EvSetgid 997; EvSetuid 998;
   EvFork; EvSetsid; EvChdir; EvUmask 0; EvCloseStdio;
   EvOpenlog (LOG_LOCAL 3)].
Proof. vm_compute. reflexivity. Qed.

Lemma startup_call_sequence_witness :
  ∃ st pw s1 s2 cst,
    parse_options (lit "/etc") demo_argv broker_init = (Ret st, s1) ∧
    parse_config (config_file st) (os_config_file demo_os) WD_MAX_CLIENTS s1 = (Ret tt, s2) ∧
    os_getpwnam demo_os (service_user st) = Some pw ∧ pw_uid pw ≠ 0 ∧
    os_lstat_config demo_os = inl cst ∧ safe_config_file cst pw ∧
    (∀ sst, os_lstat_socket demo_os = Some sst → S_ISSOCK (st_mode sst) = true ∧
       ∃ err, os_probe_connect demo_os = Some (ECONNREFUSED, err)) ∧
    system_calls (trace demo_started) = system_calls (trace broker_init) ++ startup_calls demo_os st pw s2 ∧
    (watchdog_enabled st = true → os_geteuid demo_os = 0).
Proof.
  apply (startup_call_sequence 1 2 4 8 16 32 64 (lit "/etc") demo_os demo_argv broker_init demo_started).
  vm_compute. reflexivity.
Defined.

Lemma demo_os_cooperative : cooperative demo_os.
Proof.
  constructor; try (repeat split; reflexivity).
  intros sst [= <-]. split; [reflexivity|]. split; [reflexivity|]. split; [by eexists|reflexivity].
Qed.

Definition demo_settings : settings :=
  Settings true (LOG_LOCAL 3) SERVICE_USER_DEFAULT (DEFAULT_CONFIG_PATH (lit "/etc")).

Definition demo_parsed : broker := snd (parse_options (lit "/etc") demo_argv broker_init).

Lemma startup_reaches_loop_witness :
  ∃ s, startup 1 2 4 8 16 32 64 (lit "/etc") demo_os demo_argv broker_init = (Ret tt, s) ∧ loop_start s.
Proof.
  apply (startup_reaches_loop 1 2 4 8 16 32 64 (lit "/etc") demo_os demo_argv demo_settings demo_passwd
    (Stat 33188 998) demo_parsed
    (snd (parse_config (config_file demo_settings) (os_config_file demo_os) WD_MAX_CLIENTS demo_parsed))).
  - exact demo_os_cooperative.
  - vm_compute. reflexivity.
  - split; apply Nat.leb_le; vm_compute; reflexivity.
  - vm_compute. reflexivity.
  - vm_compute. discriminate.
  - reflexivity.
  - split; [reflexivity|]. split; reflexivity.
  - vm_compute. reflexivity.
  - intros _. reflexivity.
Defined.

Lemma timer_fires_twice_per_timeout_witness :
  5 ≤ timer_interval config_defaults ∧
  2 * timer_interval config_defaults ≤ cfg_wd_timeout_s config_defaults < 2 * timer_interval config_defaults + 2.
Proof. apply timer_fires_twice_per_timeout, wf_config_defaults. Defined.

Definition demo_started_stopped : broker := snd (signal_handler 15 demo_started).

Lemma demo_main_run :
  main_reaches 1 2 4 8 16 32 64 (lit "/etc") demo_os demo_argv
    (Ended EXIT_SUCCESS, snd (shutdown io_fine demo_started_stopped)).
Proof.
  exists demo_started. split; [vm_compute; reflexivity|].
  eapply rtc_l.
  - apply (step_signal 15 Looping demo_started (Ret tt) demo_started_stopped);
      [by left|vm_compute; reflexivity].
  - apply rtc_once. apply (step_end_loop io_fine demo_started_stopped (Ret tt)
      (snd (shutdown io_fine demo_started_stopped))); vm_compute; reflexivity.
Qed.

Lemma main_safety_witness :
  EvDisableCard ∈ trace (snd (shutdown io_fine demo_started_stopped)) ∧
  wf_table (clients (snd (shutdown io_fine demo_started_stopped))) ∧
  wf_config (config (snd (shutdown io_fine demo_started_stopped))) ∧
  (EvMagicClose ∈ trace (snd (shutdown io_fine demo_started_stopped)) ∨
   EvDisableCard ∈ trace (snd (shutdown io_fine demo_started_stopped)) →
   (∃ st, Ended EXIT_SUCCESS = Ended st) ∧
   reboot (snd (shutdown io_fine demo_started_stopped)) = false ∧
   ∃ sig, signal_event sig ∈ trace (snd (shutdown io_fine demo_started_stopped))).
Proof.
  split; [apply list_elem_of_In; vm_compute; tauto|].
  apply (main_safety 1 2 4 8 16 32 64 (lit "/etc") demo_os demo_argv).
  exact demo_main_run.
Defined.

(** ** The client library *)

(** Uninitialised arrays that hold the letter a. *)
Definition demo_uninit (n : nat) : bytes := replicate n "a"%char.

Definition demo_net : bnet := BNet demo_broker demo_user None.


Lemma client_rejects_bad_parameters_witness :
  ∃ text, wd_client_register demo_uninit 4999 false
            (CState (Some (wd_client_init demo_path (lit "sensorA"))) demo_net)
          = (Ret WD_CLIENT_EPARAM,
             CState (Some (with_status text (wd_client_init demo_path (lit "sensorA")))) demo_net).
Proof.
  destruct (client_rejects_bad_parameters demo_uninit (wd_client_init demo_path (lit "sensorA")) demo_net
    4999 false) as [H _].
  apply H. right. vm_compute. intros [Hl _]. by apply Hl.
Defined.

(** ** The control program *)

Definition displayedb (c : client_t) : bool :=
  wf_clientb c && live c && negb (Nat.eqb (length (cstr (cl_name c))) 0) &&
  (length (cstr (cl_name c)) <? WD_CLIENT_NAME_LEN)%nat && forallb name_char (cstr (cl_name c)) &&
  (0 <=? cl_pid c) && (cl_pid c <? 2 ^ 31).

Lemma displayedb_sound c : displayedb c = true → displayed c.
Proof.
  unfold displayedb. rewrite !andb_true_iff. intros [[[[[[H1 H2] H3] H4] H5] H6] H7].
  constructor; [by apply wf_clientb_sound|done| |lia].
  apply negb_true_iff, Nat.eqb_neq in H3. apply Nat.ltb_lt in H4. split; [by intros E; rewrite E in H3|].
  split; [done|]. apply Forall_forall. intros c' Hc%list_elem_of_In. rewrite forallb_forall in H5. by apply H5.
Qed.

Lemma no_such_id_check client cs :
  forallb (λ c, negb (bytes_eqb (cstr (cl_clientID c)) client)) cs = true → no_such_id client cs.
Proof.
  intros H. apply Forall_forall. intros c Hc%list_elem_of_In. rewrite forallb_forall in H.
  by apply bytes_eqb_neq, negb_true_iff, H.
Qed.

Lemma no_equals_check cs :
  forallb (λ c, negb (existsb (Ascii.eqb "=") (cstr (cl_name c)))) cs = true →
  Forall (λ c, "="%char ∉ cstr (cl_name c)) cs.
Proof.
  intros H. apply Forall_forall. intros c Hc%list_elem_of_In. rewrite forallb_forall in H.
  by apply not_elem_lit, negb_true_iff, H.
Qed.

(** The broker with a second client, seen by root. *)
Definition demo_two : broker :=
  demo_request demo_other (lit "REGISTER sensorB 5000 ignorepid\n") demo_registered.

Definition demo_root_net : bnet := BNet demo_two demo_root None.

Lemma demo_root_net_inv : bn_inv demo_root_net.
Proof.
  split; [apply wf_tableb_sound; vm_compute; reflexivity|].
  split; [apply ids_uniqueb_sound; vm_compute; reflexivity|].
  split; [vm_compute; discriminate|]. apply Nat.ltb_lt. vm_compute. reflexivity.
Qed.

Lemma demo_root_net_readable : readable (config demo_two) (clients demo_two).
Proof.
  constructor.
  - change (config demo_two) with (config demo_broker). apply wf_config_defaults.
  - vm_compute. reflexivity.
  - apply Forall_forall. intros c Hc%list_elem_of_In.
    assert (forallb displayedb (live_clients (clients demo_two)) = true) as H by (vm_compute; reflexivity).
    rewrite forallb_forall in H. by apply displayedb_sound, H.
  - apply Nat.ltb_lt. vm_compute. reflexivity.
Qed.




Example demo_display :
  drop 8 (display (config demo_two) (clients demo_two)) =
  [lit "0000000000000000   1234   sensorA              15000         on      \n";
   lit "0000000000000001   99     sensorB              5000          off     \n"].
Proof. vm_compute. reflexivity. Qed.


Definition demo_equals : client_t :=
  client_at 0 (demo_request demo_user (lit "REGISTER mode=fast 15000\n") demo_broker).

Lemma ctrl_status_misreads_equals_witness :
  ctrl_status [row_line demo_equals] false (Ctrl [] demo_root_net)
  = (Ret tt, Ctrl ([] ++ [(Stdout,
       setting_text (cstr (cl_clientID demo_equals) ++ SP :: udec (cl_pid demo_equals) ++ SP :: lit "mode",
                     lit "fast"))]) demo_root_net).
Proof.
  apply (ctrl_status_misreads_equals demo_equals (lit "mode") (lit "fast") [] demo_root_net).
  - apply displayedb_sound. vm_compute. reflexivity.
  - vm_compute. reflexivity.
  - apply not_elem_lit. reflexivity.
  - discriminate.
  - vm_compute. lia.
Defined.
