(* ===== verification/RunExamples.v ===== *)
(** * Concrete runs, continued

    Instances of the theorems of Runs.v, ConfigErrors.v, Logging.v and
    ClientTest.v at the systems of Examples.v. *)

From S2P Require Import Prelude CString Scanf Common World Logging ClientId Registry Identifiers Status.
From S2P Require Import Handlers Requests ConfigFile ConfigPrint ConfigErrors Daemon Timing Life Spec Getopt.
From S2P Require Import Startup StartupFacts Main Runs ClientLib Service EndToEnd ClientTest Examples.

#[local] Existing Instance demo_env.

(** ** A run with a registration *)

(** Rounds in which display, which is announced, registers, sends a heartbeat, and
    another process tries to register under its name. *)
Definition display_rounds : list wake :=
  [client_round demo_user (lit "REGISTER display 5000\n");
   client_round demo_user (lit "PING 0000000000000000\n");
   client_round demo_other (lit "REGISTER display 5000\n");
   client_round demo_other (lit "REGISTER other 5000\n")].

Definition display_run : phase * broker := run_rounds display_rounds (Looping, demo_started).

Definition display_state : broker := snd display_run.

Example display_replies :
  replies (trace display_state) =
  [lit "OK 0000000000000000\n"; lit "OK\n"; lit "ERROR rejected\n"; lit "OK 0000000000000002\n"].
Proof. vm_compute. reflexivity. Qed.

Definition still_looping (ph : phase) : bool := match ph with Looping => true | _ => false end.

Lemma looping_steps ws s :
  still_looping (fst (run_rounds ws (Looping, s))) = true →
  dsteps (Looping, s) (Looping, snd (run_rounds ws (Looping, s))).
Proof.
  intros H. pose proof (run_rounds_steps ws (Looping, s)) as Hr.
  destruct (run_rounds ws (Looping, s)) as [ph s']. cbn [fst snd] in *. by destruct ph.
Qed.

Lemma display_steps : dsteps (Looping, demo_started) (Looping, display_state).
Proof. apply looping_steps. vm_compute. reflexivity. Qed.

Lemma display_draws : draws_distinct (id_ix display_state).
Proof. apply (bool_decide_unpack _). vm_compute. reflexivity. Qed.

Lemma demo_startup_ok :
  startup 1 2 4 8 16 32 64 (lit "/etc") demo_os demo_argv broker_init = (Ret tt, demo_started).
Proof. vm_compute. reflexivity. Qed.

Lemma run_refines_registry_witness :
  ids_unique (clients display_state) ∧
  ∃ evs ans, spec_run (config demo_started) (abs (clients demo_started)) evs (abs (clients display_state)) ∧
    replies (trace display_state) = replies (trace demo_started) ++ ans ∧ ans `sublist_of` evs.*2.
Proof.
  apply (run_refines_registry 1 2 4 8 16 32 64 (lit "/etc") demo_os demo_argv demo_started Looping
    display_state).
  - exact demo_startup_ok.
  - exact display_steps.
  - exact display_draws.
Defined.

Lemma unique_names_in_every_state_witness :
  live (client_at 0 display_state) = true ∧ live (client_at 2 display_state) = true ∧
  (cstr (cl_name (client_at 0 display_state)) = cstr (cl_name (client_at 2 display_state)) →
   0%nat = 2%nat).
Proof.
  split; [vm_compute; reflexivity|]. split; [vm_compute; reflexivity|].
  apply (unique_names_in_every_state 1 2 4 8 16 32 64 (lit "/etc") demo_os demo_argv Looping display_state).
  - exists demo_started. split; [exact demo_startup_ok|exact display_steps].
  - vm_compute. reflexivity.
  - vm_compute. reflexivity.
  - vm_compute. reflexivity.
  - vm_compute. reflexivity.
  - vm_compute. reflexivity.
Defined.

(** ** A strict broker *)

Definition strict_os : os := {|
  os_geteuid := 0;
  os_getpwnam := os_getpwnam demo_os;
  os_lstat_config := inl (Stat 33188 998);
  os_config_file := Some (print_config demo_path (set_strict_clients true demo_config) demo_decls);
  os_settime := None;
  os_lstat_socket := None;
  os_probe_socket := None; os_probe_connect := None;
  os_unlink := None; os_bind := None; os_listen := None; os_chmod := None; os_chown := None;
  os_open_watchdog := None; os_settimeout := None;
  os_setgroups := None; os_setgid := None; os_setuid := None;
  os_fork := ForkChild; os_setsid := None; os_chdir := None;
  os_bootstatus := inl 0;
|}.

Definition strict_started : broker := snd (demo_startup strict_os).

Definition strict_state : broker := snd (run_rounds display_rounds (Looping, strict_started)).

Example strict_replies :
  replies (trace strict_state) =
  [lit "OK 0000000000000000\n"; lit "OK\n"; lit "ERROR rejected\n"; lit "ERROR rejected\n"].
Proof. vm_compute. reflexivity. Qed.

Lemma strict_clients_only_announced_witness :
  live (client_at 0 strict_state) = true ∧
  ∃ c0, clients strict_started !! 0%nat = Some c0 ∧ cl_anounced c0 = true ∧
    cl_clientID (client_at 0 strict_state) = cl_clientID c0 ∧
    cstr (cl_name (client_at 0 strict_state)) = cstr (cl_name c0).
Proof.
  split; [vm_compute; reflexivity|].
  apply (strict_clients_only_announced 1 2 4 8 16 32 64 (lit "/etc") strict_os demo_argv strict_started
    Looping strict_state).
  - vm_compute. reflexivity.
  - apply looping_steps. vm_compute. reflexivity.
  - vm_compute. reflexivity.
  - vm_compute. reflexivity.
  - vm_compute. reflexivity.
Defined.

(** ** A healthy run *)

(** [heartbeat_fresh] of all clients, by evaluation. *)
Fixpoint freshb (n : nat) (cs : list client_t) : bool :=
  match cs with
  | [] => true
  | c :: r =>
      let now := env_now n in
      (0 <=? tv_nsec now) && (tv_nsec now <? 10 ^ 9) &&
      (0 <=? tv_nsec (cl_last_ping c)) && (tv_nsec (cl_last_ping c) <? 10 ^ 9) &&
      (0 <=? ns_of now - ns_of (cl_last_ping c)) &&
      (ns_of now - ns_of (cl_last_ping c) <=? cl_timeout_ms c * 10 ^ 6) && freshb (S n) r
  end.

Lemma freshb_sound n cs :
  freshb n cs = true → ∀ j c, cs !! j = Some c → heartbeat_fresh (n + j) c.
Proof.
  revert n. induction cs as [|c r IH]; intros n H [|j] d Hj; try done; cbn [freshb] in H;
    rewrite !andb_true_iff in H; destruct H as [[[[[[H1 H2] H3] H4] H5] H6] H7].
  - injection Hj as <-. rewrite Nat.add_0_r. unfold heartbeat_fresh, wf_timespec. lia.
  - rewrite Nat.add_succ_r. exact (IH (S n) H7 j d Hj).
Qed.

Definition healthyb_round (server : option accept_result) (s : broker) : bool :=
  match serve server s with
  | (Ret _, s1) => running s1 && all_ok s1 && freshb (now_ix s1) (live_clients (clients s1))
  | _ => false
  end.

Lemma healthyb_round_sound server s :
  healthyb_round server s = true →
  ∃ s1, serve server s = (Ret tt, s1) ∧ running s1 = true ∧ all_ok s1 = true ∧
    ∀ j c, live_clients (clients s1) !! j = Some c → heartbeat_fresh (now_ix s1 + j) c.
Proof.
  unfold healthyb_round. destruct (serve server s) as [[[]| |] s1]; [|done|done].
  rewrite !andb_true_iff. intros [[H1 H2] H3]. exists s1. split_and!; try done. by apply freshb_sound.
Qed.

Definition demo_served (text : bytes) : option accept_result := Some (Accepted (demo_conn demo_user text)).

Definition healthy_demo : list (option accept_result * bytes) :=
  [(demo_served (lit "REGISTER sensorA 15000\n"), []); (None, []);
   (demo_served (lit "PING 0000000000000000\n"), [])].

Lemma healthy_rounds_feed_every_tick_witness :
  ∃ s' es, dsteps (Looping, demo_broker) (Looping, s') ∧ trace s' = trace demo_broker ++ es ∧
    watchdog_calls es = replicate 3 EvFeed ∧ running s' = true ∧ all_ok s' = true.
Proof.
  apply (healthy_rounds_feed_every_tick healthy_demo demo_broker).
  - apply wf_table_zero.
  - reflexivity.
  - reflexivity.
  - reflexivity.
  - split; [apply healthyb_round_sound; vm_compute; reflexivity|].
    split; [apply healthyb_round_sound; vm_compute; reflexivity|].
    split; [apply healthyb_round_sound; vm_compute; reflexivity|exact I].
Defined.

(** ** A reboot *)

(** After root has requested one. *)
Definition demo_rebooting : broker :=
  snd (iteration (client_round demo_root (lit "REBOOT\n")) demo_broker).

Lemma stopped_daemon_shuts_down_witness :
  (∀ ph s, dsteps (Looping, demo_rebooting) (ph, s) →
     stopping demo_rebooting ph s ∨ stopped demo_rebooting ph s) ∧
  (∀ io, ∃ s, dsteps (Looping, demo_rebooting)
     (continue_in (Ended EXIT_SUCCESS) (shutdown_outcome io demo_rebooting), s)).
Proof.
  apply (stopped_daemon_shuts_down Looping demo_rebooting).
  - left. reflexivity.
  - vm_compute. reflexivity.
Defined.

Example demo_reboot_calls :
  shutdown_calls io_fine demo_rebooting = [EvSetTimeout 60; EvFeed; EvCloseWatchdog].
Proof. vm_compute. reflexivity. Qed.

(** ** A configuration with an error *)

Definition bad_timeout_message (ln : Z) : bytes :=
  printf "Invalid watchdog timeout set in line %d. Must be between %d and %d seconds."
    [PI ln; PI WD_HW_TIMEOUT_MIN_S; PI WD_HW_TIMEOUT_MAX_S].


(** ** A line of the log *)

Definition demo_tm : tm := Tm 7 5 13 24 1 126.

Example demo_log_line :
  log_written false 42 demo_tm [] LOG_WARNING (lit "careful") =
  Console Stdout (lit "2026-02-24 13:05:07.000042 [WARN  ] careful\n").
Proof. vm_compute. reflexivity. Qed.

Lemma log_line_roundtrip_witness :
  ∃ f line, log_written false 42 demo_tm [] LOG_WARNING (lit "careful") = Console f line ∧
    read_line line = Some (demo_tm, 42, LOG_WARNING, lit "careful").
Proof.
  apply (log_line_roundtrip 42 demo_tm [] LOG_WARNING (lit "careful")).
  - constructor; vm_compute; split; discriminate || reflexivity.
  - vm_compute. split; [discriminate|reflexivity].
Defined.

(** ** The test program *)

Definition test_net : bnet :=
  BNet (set_config (set_socket_path (strncpy WD_CLIENT_SOCKPATH_LEN test_socket) config_defaults) demo_broker)
       demo_user None.

