(* ===== verification/Scenarios.v ===== *)
(** * Scenarios of the composed system

    Concrete instances of the theorems of Silence.v, Robust.v and Sharing.v: a
    client that stops sending heartbeats while another one is served, a library
    and a control program that face a strange server, and a client between whose
    heartbeats another process tries to get rid of it. *)

From S2P Require Import Prelude CString Scanf Common World ClientId Registry Identifiers Status.
From S2P Require Import Handlers Requests ConfigFile Daemon Timing Life Spec Getopt Startup StartupFacts Main.
From S2P Require Import Runs Silence Connections Secrecy Alarms Punctual ClientLib Service EndToEnd ClientTest.
From S2P Require Import Sharing Together Ctrl CtrlReply CtrlDisplay CtrlFacts Robust.
From S2P Require Import Examples RunExamples.

(** ** A client that falls silent *)

Section Silent.

(** Six seconds between any two readings of the clock. *)
Definition slow_env : Env := {|
  env_now := λ n, Timespec (100 + 6 * Z.of_nat n) 0;
  env_entropy := @env_entropy demo_env;
  libc_random := @libc_random demo_env;
|}.
#[local] Existing Instance slow_env.

Definition round_and_timer (creds : ucred) (text : bytes) : wake :=
  Wake (SelOk (Some (Accepted (demo_conn creds text))) (Some (EXPIRATIONS_LEN, []))) None.

Definition run_round (w : wake) (s : broker) : broker := snd (iteration w s).

(** sensorA registers with a timeout of 15 s; another process sends two requests, and
    the timer fires each time; between them the timeout passes. *)
Definition slow_registered : broker :=
  run_round (client_round demo_user (lit "REGISTER sensorA 15000\n")) demo_broker.
Definition other_ping : wake := round_and_timer demo_other (lit "PING 0000000000000000\n").
Definition slow_once : broker := run_round other_ping slow_registered.
Definition slow_late : broker := run_round other_ping slow_once.
Definition slow_pending : broker := snd (enter_pending slow_late).

Example slow_feeds :
  watchdog_calls (trace slow_once) = [EvFeed] ∧ watchdog_calls (trace slow_pending) = [EvFeed] ∧
  all_ok slow_late = false.
Proof. vm_compute. split_and!; reflexivity. Qed.

Definition slow_client : client_t := client_at 0 slow_registered.

Lemma slow_step1 : lruns (wake_conns other_ping) (Looping, slow_registered) (Looping, slow_once).
Proof.
  rewrite <-(app_nil_r (wake_conns other_ping)). eapply lruns_cons; [|apply lruns_nil].
  apply (lstep_iteration other_ping slow_registered (Ret tt) slow_once); vm_compute; reflexivity.
Qed.

Lemma slow_step2 :
  lruns (wake_conns other_ping ++ [] ++ []) (Looping, slow_once) (Pending, slow_pending).
Proof.
  eapply lruns_cons; [|eapply lruns_cons; [|apply lruns_nil]].
  - apply (lstep_iteration other_ping slow_once (Ret tt) slow_late); vm_compute; reflexivity.
  - apply (lstep_fail slow_late (Ret tt) slow_pending); vm_compute; reflexivity.
Qed.

Definition overdueb (now : timespec) (c : client_t) : bool :=
  let d := ns_of now - ns_of (cl_last_ping c) in
  (0 <=? tv_nsec now) && (tv_nsec now <? 10 ^ 9) && (0 <=? tv_nsec (cl_last_ping c)) &&
  (tv_nsec (cl_last_ping c) <? 10 ^ 9) && ((cl_timeout_ms c + 1) * 10 ^ 6 <=? d) &&
  (d <=? (2 ^ 32 - 2) * 10 ^ 6).

Lemma overdueb_sound now c : overdueb now c = true → overdue now c.
Proof.
  unfold overdueb, overdue, wf_timespec. rewrite !andb_true_iff, !Z.leb_le, !Z.ltb_lt.
  intros [[[[[? ?] ?] ?] ?] ?]. by split_and!.
Qed.

Lemma slow_overdue n :
  (now_ix slow_once ≤ n < now_ix slow_late)%nat → overdue (env_now n) slow_client.
Proof.
  intros Hn. assert (n = now_ix slow_once) as ->.
  { assert (now_ix slow_late = S (now_ix slow_once)) by (vm_compute; reflexivity). lia. }
  apply overdueb_sound. vm_compute. reflexivity.
Qed.

Lemma slow_pending_clock : now_ix slow_pending = now_ix slow_late.
Proof. vm_compute. reflexivity. Qed.


(** The connections of the two rounds of the other process. *)
Lemma connections_served_in_order_witness :
  ∃ es bs, trace slow_pending = trace slow_registered ++ es ∧
    Forall2 served (wake_conns other_ping ++ wake_conns other_ping ++ [] ++ []) bs ∧
    conversation es = concat bs.
Proof.
  apply (connections_served_in_order _ slow_registered Pending slow_pending).
  - apply wf_tableb_sound. vm_compute. reflexivity.
  - exact (lruns_app _ _ _ _ _ slow_step1 slow_step2).
  - discriminate.
Defined.

Lemma silent_client_forces_reset_witness :
  ∃ s2 es, dsteps (Looping, slow_once) (Pending, s2) ∧ trace s2 = trace slow_once ++ es ∧ EvFeed ∉ es ∧
    EvLog LOG_EMERG (lit "SYSTEM RESET PENDING!") ∈ es ∧ running s2 = true ∧ all_ok s2 = false.
Proof.
  apply (silent_client_forces_reset 0 slow_client slow_once
    (Some (Accepted (demo_conn demo_other (lit "PING 0000000000000000\n")))) (Some (EXPIRATIONS_LEN, []))
    None slow_late).
  - apply wf_tableb_sound. vm_compute. reflexivity.
  - vm_compute. reflexivity.
  - vm_compute. reflexivity.
  - vm_compute. reflexivity.
  - vm_compute. reflexivity.
  - apply Forall_cons. split; [apply unspokenb_sound; vm_compute; reflexivity|apply Forall_nil; exact I].
  - vm_compute. reflexivity.
  - exact slow_overdue.
Defined.

(** Announced clients that do not register: the first round after the start. *)
Definition slow_started : broker :=
  snd (startup 1 2 4 8 16 32 64 (lit "/etc") demo_os demo_argv broker_init).
Definition slow_alarm : broker := snd (iteration timer_only slow_started).

Lemma slow_clock : clock_ok (now_ix slow_alarm).
Proof.
  assert (now_ix slow_alarm ≤ 100)%nat as Hn by (apply Nat.leb_le; vm_compute; reflexivity).
  intros k m Hkm. unfold wf_timespec, ns_of. cbn [env_now slow_env tv_sec tv_nsec].
  change (2 ^ 32 - 2) with 4294967294. change (10 ^ 9) with 1000000000. change (10 ^ 6) with 1000000. lia.
Qed.

End Silent.

(** ** What a registration is told *)

Section Told.
#[local] Existing Instance demo_env.

Definition told_conn : conn := demo_conn demo_other (lit "REGISTER sensorB 15000\n").
Definition told_state : broker := (handle_command told_conn demo_registered).2.


Example told_own : replies (trace told_state) = replies (trace demo_registered) ++ [lit "OK 0000000000000001\n"].
Proof. vm_compute. reflexivity. Qed.
End Told.

(** ** Clients that keep their promise *)

Section Kept.

(** Half a second between any two readings of the clock. *)
Definition steady_env : Env := {|
  env_now := λ n, Timespec (100 + Z.of_nat n / 2) (Z.of_nat n mod 2 * 500000000);
  env_entropy := @env_entropy demo_env;
  libc_random := @libc_random demo_env;
|}.
#[local] Existing Instance steady_env.

Definition kept_started : broker :=
  snd (startup 1 2 4 8 16 32 64 (lit "/etc") demo_os demo_argv broker_init).

(** display registers and sends heartbeats; root asks for the STATUS, another client
    comes and goes, a signal interrupts a select. *)
Definition kept_rounds : list wake :=
  [round_and_timer demo_user (lit "REGISTER display 5000\n"); timer_only;
   round_and_timer demo_user (lit "PING 0000000000000000\n");
   client_round demo_root (lit "STATUS\n"); timer_only;
   Wake (SelErr EINTR (lit "Interrupted system call")) None;
   round_and_timer demo_user (lit "PING 0000000000000000\n");
   client_round demo_other (lit "REGISTER other 5000\n");
   round_and_timer demo_other (lit "UNREGISTER 0000000000000002\n");
   round_and_timer demo_user (lit "PING 0000000000000000\n"); timer_only].

Definition attendedb (L : signs) (n : nat) (c : client_t) : bool :=
  existsb (λ '(sg, t), sign_of c sg && (ns_of (env_now n) - ns_of t <=? cl_timeout_ms c * 10 ^ 6)) L.

Lemma attendedb_sound L n c : attendedb L n c = true → attended L n c.
Proof.
  intros ([sg t] & Hin & H)%existsb_exists. apply list_elem_of_In in Hin.
  apply andb_true_iff in H as [Hs Ht%Z.leb_le]. by exists sg, t.
Qed.

Fixpoint all_attendedb (L : signs) (n : nat) (cs : list client_t) : bool :=
  match cs with [] => true | c :: r => attendedb L n c && all_attendedb L (S n) r end.

Lemma all_attendedb_sound L cs n :
  all_attendedb L n cs = true → ∀ j c, cs !! j = Some c → attended L (n + j) c.
Proof.
  revert n. induction cs as [|d r IH]; intros n H [|j] c Hj; try done; cbn [all_attendedb] in H;
    apply andb_true_iff in H as [H1 H2].
  - injection Hj as <-. rewrite Nat.add_0_r. by apply attendedb_sound.
  - rewrite Nat.add_succ_r. by apply (IH (S n)).
Qed.

Fixpoint punctualb (L : signs) (ws : list wake) (s : broker) : bool :=
  match ws with
  | [] => true
  | w :: r =>
      match wk_select w with
      | SelErr _ _ => punctualb L r (iteration w s).2
      | SelOk server _ =>
          let s1 := (serve server s).2 in
          let L1 := new_signs server s s1 ++ L in
          all_attendedb L1 (now_ix s1) (live_clients (clients s1)) && punctualb L1 r (iteration w s).2
      end
  end.

Lemma punctualb_sound ws L s : punctualb L ws s = true → punctual L ws s.
Proof.
  revert L s. induction ws as [|w r IH]; intros L s; cbn [punctualb punctual]; [done|].
  destruct (wk_select w); [apply IH|]. intros [H1 H2]%andb_true_iff.
  split; [by apply all_attendedb_sound|by apply IH].
Qed.

Definition harmlessb (s : broker) (server : option accept_result) : bool :=
  match server with
  | None => true
  | Some (AcceptErr errno _) => accept_transient errno
  | Some (Accepted sock) =>
      match heard_request sock with
      | Some (creds, ReqReboot) => negb (cr_uid creds =? 0)
      | Some (_, ReqStatus) => (length (status_text (config s) (clients s)) <? STATUS_MSG_LEN)%nat
      | _ => true
      end
  end.

Lemma harmlessb_sound s server : harmlessb s server = true → harmless s server.
Proof.
  destruct server as [[sock|errno text]|]; cbn [harmlessb harmless]; [|done|done].
  intros H creds r Hr. rewrite Hr in H. unfold harmless_request.
  destruct r; try done; [by apply negb_true_iff, Z.eqb_neq in H|by apply Nat.ltb_lt].
Qed.

Definition undisturbedb (w : wake) (s : broker) : bool :=
  match wk_select w with
  | SelErr errno _ => errno =? EINTR
  | SelOk server timer =>
      harmlessb s server && match wk_feed w with None => true | Some _ => false end &&
      match timer with None => true | Some (size, _) => size =? EXPIRATIONS_LEN end
  end.

Lemma undisturbedb_sound w s : undisturbedb w s = true → undisturbed w s.
Proof.
  unfold undisturbedb, undisturbed. destruct (wk_select w) as [errno text|server timer]; [by intros ?%Z.eqb_eq|].
  rewrite !andb_true_iff. intros [[H1 H2] H3]. split; [by apply harmlessb_sound|].
  split; [by destruct (wk_feed w)|]. destruct timer as [[size t]|]; [by apply Z.eqb_eq|done].
Qed.

Fixpoint alongb (ws : list wake) (s : broker) : bool :=
  match ws with [] => true | w :: r => undisturbedb w s && alongb r (iteration w s).2 end.

Lemma alongb_sound ws s : alongb ws s = true → along undisturbed ws s.
Proof.
  revert s. induction ws as [|w r IH]; intros s; cbn [alongb along]; [done|].
  intros [H1 H2]%andb_true_iff. split; [by apply undisturbedb_sound|by apply IH].
Qed.

Lemma steady_clock n : monotonic n.
Proof. intros k m Hkm. unfold wf_timespec, ns_of. cbn [env_now steady_env tv_sec tv_nsec].
  change (10 ^ 9) with 1000000000.
  pose proof (Z.div_mod (Z.of_nat k) 2). pose proof (Z.div_mod (Z.of_nat m) 2).
  pose proof (Z.mod_pos_bound (Z.of_nat k) 2). pose proof (Z.mod_pos_bound (Z.of_nat m) 2). lia.
Qed.

(** Thirteen seconds pass; the timeout of display is five. *)
Example kept_time :
  tv_sec (env_now (now_ix kept_started)) = 101 ∧
  tv_sec (env_now (now_ix (rounds kept_rounds kept_started).2)) = 114.
Proof. vm_compute. split; reflexivity. Qed.

End Kept.

(** ** Programs that face a strange server *)

(** A server that takes every connection and answers "OK " and 200 letters. *)
Definition strange : Transport nat := {|
  tr_connect path n := (Connected, n);
  tr_write cmd n := (None, S n);
  tr_read n := ((1, Some (lit "OK protocol_version=1.0" ++ replicate 200 "z"%char), []), n);
  tr_close n := n;
|}.


Lemma ctrl_survives_any_broker_witness :
  ∃ o new, ctrl_main (T := tracked_transport strange) 1000 [lit "reboot"] (Ctrl [] (Tracked 0%nat Idle))
           = (o, Ctrl new (Tracked 0%nat Idle)).
Proof.
  destruct (ctrl_survives_any_broker (T := strange) 1000 [lit "reboot"] [] 0%nat)
    as (o & new & st' & He & _ & Hu).
  exists o, new. assert (1000 ≠ 0) as Hne by discriminate. rewrite (Hu Hne) in He. exact He.
Defined.

(** ** A client among others *)

Section Shared.
#[local] Existing Instance demo_env.

Definition shared_net : bnet := BNet demo_broker demo_user None.

(** Another process tries to end the session of sensorA, and registers its own. *)
Definition rival_rounds : list wake :=
  [client_round demo_other (lit "UNREGISTER 0000000000000000\n");
   client_round demo_other (lit "REGISTER sensorB 15000\n")].

(** The broker after the registration of sensorA, the rest of that round, and the
    rounds of the other process. *)
Definition shared_registered : broker :=
  snd (serve (Some (Accepted (request_conn demo_user (lit "REGISTER sensorA 5000\n")))) demo_broker).
Definition shared_checked : broker := snd ((check_clients ;; feed None None) shared_registered).
Definition shared_first : broker := snd (iteration (nth 0 rival_rounds timer_only) shared_checked).
Definition shared_second : broker := snd (iteration (nth 1 rival_rounds timer_only) shared_first).

Lemma rivals_are_others : others demo_user shared_registered shared_second.
Proof.
  exists None, None, shared_checked,
    (wake_conns (nth 0 rival_rounds timer_only) ++ wake_conns (nth 1 rival_rounds timer_only) ++ []).
  split; [vm_compute; reflexivity|]. split; [|split; [|split; vm_compute; reflexivity]].
  - eapply lruns_cons; [|eapply lruns_cons; [|apply lruns_nil]].
    + apply (lstep_iteration _ shared_checked (Ret tt) shared_first); vm_compute; reflexivity.
    + apply (lstep_iteration _ shared_first (Ret tt) shared_second); vm_compute; reflexivity.
  - apply Forall_cons. split; [intros creds [= <-]; split; vm_compute; discriminate|].
    apply Forall_cons. split; [intros creds [= <-]; split; vm_compute; discriminate|apply Forall_nil; exact I].
Qed.

Example rivals_replies :
  replies (trace shared_second) =
  [lit "OK 0000000000000000\n"; lit "ERROR no permission\n"; lit "OK 0000000000000001\n"].
Proof. vm_compute. reflexivity. Qed.

Lemma shared_net_inv (E0 : Env) : shared_inv (E := E0) demo_user 3 shared_net.
Proof.
  constructor; [|reflexivity|by eapply drawn_empty|apply Nat.leb_le; vm_compute; reflexivity|reflexivity].
  split; [apply wf_table_zero|]. split; [apply ids_uniqueb_sound; vm_compute; reflexivity|].
  split; [vm_compute; discriminate|]. apply Nat.ltb_lt. vm_compute. reflexivity.
Qed.

End Shared.

(** ** The whole system *)

Section Whole.
#[local] Existing Instance steady_env.

(** sensorA after its registration through the library. *)
Definition whole_state : cstate bnet :=
  (wd_client_register demo_uninit 5000 false
     (CState (Some (wd_client_init (bn_path shared_net) (lit "sensorA"))) shared_net)).2.
Definition whole_net : bnet := cs_net whole_state.
Definition whole_client : wd_client_t := default WD_TEST_CLIENT_INIT (cs_client whole_state).

(** The timer fires three times while another process registers. *)
Definition whole_rounds : list wake :=
  [timer_only; round_and_timer demo_other (lit "REGISTER sensorB 15000\n"); timer_only].

Definition not_mineb (sock : conn) : bool :=
  match conn_peer sock with
  | inl creds => negb (cr_pid creds =? cr_pid demo_user) && negb (cr_uid creds =? 0)
  | inr _ => true
  end.

Lemma not_mineb_sound socks : forallb not_mineb socks = true → Forall (not_mine demo_user) socks.
Proof.
  intros H. apply Forall_forall. intros sock Hin creds Hp. rewrite forallb_forall in H.
  apply list_elem_of_In in Hin. specialize (H sock Hin). unfold not_mineb in H. rewrite Hp in H.
  by rewrite andb_true_iff, !negb_true_iff, !Z.eqb_neq in H.
Qed.

End Whole.
